(** * AutoFit Tabs: a shallow embedding of the tab-width plugin

    The development follows the TypeScript sources of the plugin:
    - [types.ts]       the settings record and its defaults,
    - [main.ts]        the plugin object ([updateCSSVariables], [saveSettings]),
    - [settings.ts]    the numeric text fields of the settings tab,
    - [tabManager.ts]  the width calculator, the width cache, the frame
                       coalescing and the animated close sequence.

    The sources hold two revisions of the tab manager.  The model follows the
    current one, which goes with [types.ts]: it has the animated close, the
    pinned-tab and web-viewer exemptions, and a pass that reads in one
    animation frame and writes in the next.  The width calculator of the
    earlier revision is kept in [Legacy].

    The plugin is single threaded: every callback runs to completion.  What is
    asynchronous in the source (animation frames, timers, the continuation of
    an [await]) is kept in explicit queues of the state and is run by the
    events of a small event loop. *)

From Stdlib Require Import QArith Qround Lqa ZArith Ascii String List Bool Lia.
From stdpp Require Import gmap strings list fin_maps.
Import ListNotations.

Open Scope string_scope.

(** ** JavaScript numbers

    Finite numbers are exact rationals (the rounding of doubles is not
    modelled); [NaN] and the two infinities are kept because [Number(text)]
    can produce them and the comparisons of the source treat them specially. *)
Module JS.

Inductive number : Type :=
| NaN
| NegInf
| Fin (q : Q)
| PosInf.

Definition of_Z (z : Z) : number := Fin (inject_Z z).

Definition zero : number := Fin 0.

Definition isNaN (a : number) : bool :=
  match a with NaN => true | _ => false end.

(** [a + b] *)
Definition add (a b : number) : number :=
  match a, b with
  | NaN, _ | _, NaN => NaN
  | PosInf, NegInf | NegInf, PosInf => NaN
  | PosInf, _ | _, PosInf => PosInf
  | NegInf, _ | _, NegInf => NegInf
  | Fin x, Fin y => Fin (x + y)
  end.

(** [a <= b]; every comparison with [NaN] is false. *)
Definition le (a b : number) : bool :=
  match a, b with
  | NaN, _ | _, NaN => false
  | NegInf, _ => true
  | _, PosInf => true
  | PosInf, _ => false
  | _, NegInf => false
  | Fin x, Fin y => Qle_bool x y
  end.

(** [a < b] *)
Definition lt (a b : number) : bool :=
  match a, b with
  | NaN, _ | _, NaN => false
  | PosInf, _ => false
  | _, NegInf => false
  | NegInf, _ => true
  | _, PosInf => true
  | Fin x, Fin y => negb (Qle_bool y x)
  end.

(** [a >= b] and [a > b] *)
Definition ge (a b : number) : bool := le b a.
Definition gt (a b : number) : bool := lt b a.

(** [a === b] on numbers *)
Definition strict_eq (a b : number) : bool :=
  match a, b with
  | NegInf, NegInf | PosInf, PosInf => true
  | Fin x, Fin y => Qeq_bool x y
  | _, _ => false
  end.

(** [Math.max(a, b)] and [Math.min(a, b)]: [NaN] is contagious. *)
Definition max (a b : number) : number :=
  match a, b with
  | NaN, _ | _, NaN => NaN
  | _, _ => if le a b then b else a
  end.

Definition min (a b : number) : number :=
  match a, b with
  | NaN, _ | _, NaN => NaN
  | _, _ => if le a b then a else b
  end.

(** [Math.ceil(a)] *)
Definition ceil (a : number) : number :=
  match a with
  | Fin q => Fin (inject_Z (Qceiling q))
  | _ => a
  end.

(** The numbers the settings tab lets through: [!isNaN(n) && n >= 0]. *)
Definition valid (a : number) : bool := negb (isNaN a) && ge a zero.

End JS.

Abbreviation number := JS.number.

(** ** types.ts *)

Record PluginSettings : Type := mkSettings {
  minWidth : number;
  leftPadding : number;
  closeButtonLeftPadding : number;
  closeButtonRightPadding : number;
  transitionDuration : number;
  iconWidth : number;
  maxWidth : number;               (* 0 means disabled *)
  ignorePinnedTabs : bool;
  hideTabIcons : bool;
  ignoreWebLinks : bool            (* read through the index signature *)
}.

Definition DEFAULT_SETTINGS : PluginSettings := {|
  minWidth := JS.of_Z 40;
  leftPadding := JS.of_Z 12;
  closeButtonLeftPadding := JS.of_Z 30;
  closeButtonRightPadding := JS.of_Z 8;
  transitionDuration := JS.of_Z 375;
  iconWidth := JS.of_Z 20;
  maxWidth := JS.of_Z 0;
  ignorePinnedTabs := false;
  hideTabIcons := false;
  ignoreWebLinks := false
|}.

(** The numeric keys of the settings record ([keyof PluginSettings] as the
    settings tab uses it). *)
Inductive NumericProp : Type :=
| PMinWidth
| PLeftPadding
| PCloseButtonLeftPadding
| PCloseButtonRightPadding
| PTransitionDuration
| PIconWidth
| PMaxWidth.

(** [settings[prop]] *)
Definition get_prop (p : NumericProp) (s : PluginSettings) : number :=
  match p with
  | PMinWidth => minWidth s
  | PLeftPadding => leftPadding s
  | PCloseButtonLeftPadding => closeButtonLeftPadding s
  | PCloseButtonRightPadding => closeButtonRightPadding s
  | PTransitionDuration => transitionDuration s
  | PIconWidth => iconWidth s
  | PMaxWidth => maxWidth s
  end.

(** [settings[prop] = v] *)
Definition set_prop (p : NumericProp) (v : number) (s : PluginSettings)
  : PluginSettings :=
  let pick q old := match p, q with
                    | PMinWidth, PMinWidth
                    | PLeftPadding, PLeftPadding
                    | PCloseButtonLeftPadding, PCloseButtonLeftPadding
                    | PCloseButtonRightPadding, PCloseButtonRightPadding
                    | PTransitionDuration, PTransitionDuration
                    | PIconWidth, PIconWidth
                    | PMaxWidth, PMaxWidth => v
                    | _, _ => old
                    end in
  {| minWidth := pick PMinWidth (minWidth s);
     leftPadding := pick PLeftPadding (leftPadding s);
     closeButtonLeftPadding := pick PCloseButtonLeftPadding (closeButtonLeftPadding s);
     closeButtonRightPadding := pick PCloseButtonRightPadding (closeButtonRightPadding s);
     transitionDuration := pick PTransitionDuration (transitionDuration s);
     iconWidth := pick PIconWidth (iconWidth s);
     maxWidth := pick PMaxWidth (maxWidth s);
     ignorePinnedTabs := ignorePinnedTabs s;
     hideTabIcons := hideTabIcons s;
     ignoreWebLinks := ignoreWebLinks s |}.

(** Settings whose numeric fields all pass the validation of the settings
    tab.  The defaults satisfy it and the text fields preserve it. *)
Definition settings_valid (s : PluginSettings) : bool :=
  JS.valid (minWidth s) && JS.valid (leftPadding s)
  && JS.valid (closeButtonLeftPadding s) && JS.valid (closeButtonRightPadding s)
  && JS.valid (transitionDuration s) && JS.valid (iconWidth s)
  && JS.valid (maxWidth s).

(** ** The host DOM, as far as the plugin reads and writes it *)

(** A style value: the source builds it with a template literal
    ([`${width}px`]); the number is kept instead of its decimal rendering. *)
Inductive CssValue : Type :=
| Px (n : number)
| Ms (n : number)
| Keyword (s : string).

(** What [measureTextWidth] copies from [getComputedStyle(titleElement)]. *)
Record ComputedStyle : Type := mkStyle {
  font : string;
  letterSpacing : string;
  textTransform : string;
  fontWeight : string
}.

(** The [.workspace-tab-header-inner-title] child of a tab header. *)
Record TitleElement : Type := mkTitle {
  textContent : string;
  titleStyle : ComputedStyle
}.

(** A [.workspace-tab-header] element.  The host owns it; the plugin reads
    its title and markers and writes class names and [--header-width]. *)
Record Header : Type := mkHeader {
  titleElement : option TitleElement;
  classList : gset string;
  headerWidth : option CssValue;      (* style property --header-width *)
  pinnedIcon : bool;                  (* has .workspace-tab-header-status-icon.mod-pinned *)
  dataType : option string;           (* attribute data-type *)
  containerDisplayed : bool;          (* closest tab-header container exists, display is not none *)
  innerTransition : string            (* style.transition of the inner elements *)
}.

Definition HeaderId : Type := nat.

Record Document : Type := mkDocument {
  tabElements : gmap nat Header;         (* tab header elements, by identity *)
  mainHeaders : list HeaderId;        (* main-area headers in document order *)
  rootStyle : gmap string CssValue;   (* document.documentElement.style *)
  bodyClasses : gset string           (* document.body.classList *)
}.

(** The host workspace: its leaves and the tab header each one owns. *)
Record Leaf : Type := mkLeaf {
  leafId : nat;
  tabHeaderEl : HeaderId
}.

Record Workspace : Type := mkWorkspace {
  leaves : list Leaf;                 (* iterateAllLeaves order *)
  activeLeaf : option Leaf
}.

(** ** Scheduled work *)

(** One entry of [headerData] in [adjustAllHeaders]. *)
Record HeaderData : Type := mkData {
  header : HeaderId;
  headerKey : string;
  isPinned : bool;
  isWebLink : bool;
  isActive : bool;
  cachedWidth : option number;        (* [None] is [undefined] *)
  needsRecalc : bool
}.

(** Callbacks handed to [requestAnimationFrame]. *)
Inductive FrameTask : Type :=
| InitFrame                               (* initialize *)
| AdjustFrame                             (* queueHeaderAdjustment *)
| WriteFrame (data : list HeaderData).    (* the write batch of adjustAllHeaders *)

(** Callbacks handed to [setTimeout]. *)
Inductive TimerTask : Type :=
| CloseLeafTimer (tab : HeaderId)         (* initiateClose, outer timer *)
| CloseClearTimer                         (* initiateClose, inner timer *)
| DebounceTimer                           (* debounceLayoutChange *)
| FileOpenTimer (active : HeaderId)       (* handleFileOpen *)
| ResetCleanupTimer (hs : list HeaderId)  (* resetTabs, outer timer *)
| ResetApplyTimer (hs : list HeaderId)    (* resetTabs, inner timer *)
| RestoreTransitionTimer (h : HeaderId)   (* adjustAllHeaders, per header *)
| VisibilityTimer.                        (* layout-change handler *)

(** What the plugin asks of the host, and which of its own entry points ran:
    a record of the run kept beside the state. *)
Inductive Observation : Type :=
| AdjustAllHeadersCalled (skipped : bool) (* [skipped]: returned at the isResetting guard *)
| HeadersWritten                          (* the write batch ran *)
| LeafDetached (leaf : nat)               (* leaf.detach() *)
| ScrollToActiveTab (h : HeaderId)
| UpdateTabsVisibility.

(** ** The plugin and its tab manager *)

Record State : Type := mkState {
  (* main.ts *)
  settings : PluginSettings;
  savedData : option PluginSettings;      (* what saveData last wrote *)
  pendingSaves : list number;             (* saveSettings calls waiting at their await,
                                             each with its previousMaxWidth *)
  (* host *)
  document : Document;
  workspace : Workspace;
  (* tabManager.ts *)
  tabWidthCache : gmap string number;
  measureElement : bool;                  (* the probe span exists *)
  isAdjustmentQueued : bool;
  isResetting : bool;
  closeInProgress : bool;
  (* event loop *)
  frames : list FrameTask;
  timers : list (number * TimerTask);     (* delay in ms, callback *)
  log : list Observation
}.

Definition with_settings (v : PluginSettings) (st : State) : State :=
  mkState v (savedData st) (pendingSaves st) (document st) (workspace st)
    (tabWidthCache st) (measureElement st) (isAdjustmentQueued st)
    (isResetting st) (closeInProgress st) (frames st) (timers st) (log st).

Definition with_savedData (v : option PluginSettings) (st : State) : State :=
  mkState (settings st) v (pendingSaves st) (document st) (workspace st)
    (tabWidthCache st) (measureElement st) (isAdjustmentQueued st)
    (isResetting st) (closeInProgress st) (frames st) (timers st) (log st).

Definition with_pendingSaves (v : list number) (st : State) : State :=
  mkState (settings st) (savedData st) v (document st) (workspace st)
    (tabWidthCache st) (measureElement st) (isAdjustmentQueued st)
    (isResetting st) (closeInProgress st) (frames st) (timers st) (log st).

Definition with_document (v : Document) (st : State) : State :=
  mkState (settings st) (savedData st) (pendingSaves st) v (workspace st)
    (tabWidthCache st) (measureElement st) (isAdjustmentQueued st)
    (isResetting st) (closeInProgress st) (frames st) (timers st) (log st).

Definition with_workspace (v : Workspace) (st : State) : State :=
  mkState (settings st) (savedData st) (pendingSaves st) (document st) v
    (tabWidthCache st) (measureElement st) (isAdjustmentQueued st)
    (isResetting st) (closeInProgress st) (frames st) (timers st) (log st).

Definition with_tabWidthCache (v : gmap string number) (st : State) : State :=
  mkState (settings st) (savedData st) (pendingSaves st) (document st) (workspace st)
    v (measureElement st) (isAdjustmentQueued st)
    (isResetting st) (closeInProgress st) (frames st) (timers st) (log st).

Definition with_measureElement (v : bool) (st : State) : State :=
  mkState (settings st) (savedData st) (pendingSaves st) (document st) (workspace st)
    (tabWidthCache st) v (isAdjustmentQueued st)
    (isResetting st) (closeInProgress st) (frames st) (timers st) (log st).

Definition with_isAdjustmentQueued (v : bool) (st : State) : State :=
  mkState (settings st) (savedData st) (pendingSaves st) (document st) (workspace st)
    (tabWidthCache st) (measureElement st) v
    (isResetting st) (closeInProgress st) (frames st) (timers st) (log st).

Definition with_isResetting (v : bool) (st : State) : State :=
  mkState (settings st) (savedData st) (pendingSaves st) (document st) (workspace st)
    (tabWidthCache st) (measureElement st) (isAdjustmentQueued st)
    v (closeInProgress st) (frames st) (timers st) (log st).

Definition with_closeInProgress (v : bool) (st : State) : State :=
  mkState (settings st) (savedData st) (pendingSaves st) (document st) (workspace st)
    (tabWidthCache st) (measureElement st) (isAdjustmentQueued st)
    (isResetting st) v (frames st) (timers st) (log st).

Definition with_frames (v : list FrameTask) (st : State) : State :=
  mkState (settings st) (savedData st) (pendingSaves st) (document st) (workspace st)
    (tabWidthCache st) (measureElement st) (isAdjustmentQueued st)
    (isResetting st) (closeInProgress st) v (timers st) (log st).

Definition with_timers (v : list (number * TimerTask)) (st : State) : State :=
  mkState (settings st) (savedData st) (pendingSaves st) (document st) (workspace st)
    (tabWidthCache st) (measureElement st) (isAdjustmentQueued st)
    (isResetting st) (closeInProgress st) (frames st) v (log st).

Definition with_log (v : list Observation) (st : State) : State :=
  mkState (settings st) (savedData st) (pendingSaves st) (document st) (workspace st)
    (tabWidthCache st) (measureElement st) (isAdjustmentQueued st)
    (isResetting st) (closeInProgress st) (frames st) (timers st) v.

(** [requestAnimationFrame(cb)], [setTimeout(cb, delay)] and the run record. *)
Definition requestAnimationFrame (cb : FrameTask) (st : State) : State :=
  with_frames (frames st ++ [cb]) st.

Definition setTimeout (cb : TimerTask) (delay : number) (st : State) : State :=
  with_timers (timers st ++ [(delay, cb)]) st.

Definition observe (o : Observation) (st : State) : State :=
  with_log (log st ++ [o]) st.

(** Element access. *)
Definition with_tabElements (v : gmap nat Header) (d : Document) : Document :=
  mkDocument v (mainHeaders d) (rootStyle d) (bodyClasses d).

Definition get_header (h : HeaderId) (st : State) : option Header :=
  tabElements (document st) !! h.

(** [header.classList.add/remove/contains], [header.style.setProperty] and
    [removeProperty] for [--header-width]. *)
Definition classList_add (c : string) (e : Header) : Header :=
  mkHeader (titleElement e) ({[c]} ∪ classList e) (headerWidth e) (pinnedIcon e)
    (dataType e) (containerDisplayed e) (innerTransition e).

Definition classList_remove (c : string) (e : Header) : Header :=
  mkHeader (titleElement e) (classList e ∖ {[c]}) (headerWidth e) (pinnedIcon e)
    (dataType e) (containerDisplayed e) (innerTransition e).

Definition classList_contains (c : string) (e : Header) : bool :=
  bool_decide (c ∈ classList e).

Definition set_headerWidth (v : option CssValue) (e : Header) : Header :=
  mkHeader (titleElement e) (classList e) v (pinnedIcon e)
    (dataType e) (containerDisplayed e) (innerTransition e).

Definition set_innerTransition (v : string) (e : Header) : Header :=
  mkHeader (titleElement e) (classList e) (headerWidth e) (pinnedIcon e)
    (dataType e) (containerDisplayed e) v.

(** [update_header h f] applies [f] to element [h] in place; an element the
    host no longer keeps is out of sight and writing to it shows nowhere. *)
Definition update_header (h : HeaderId) (f : Header -> Header) (d : Document) : Document :=
  with_tabElements (alter f h (tabElements d)) d.

(** [headers.forEach(header => f(header))] for a [f] that only writes to its
    own header. *)
Definition forEach_header (f : Header -> Header) (hs : list HeaderId) (d : Document) : Document :=
  fold_left (fun d h => update_header h f d) hs d.

(** ** The earlier revision of the width calculator

    In the earlier revision of [tabManager.ts] the settings give the close
    button a width and a padding and the icon a right margin, and the icon
    width is always counted. *)
Module Legacy.

Record PluginSettings : Type := mkSettings {
  minWidth : number;
  closeButtonWidth : number;
  leftPadding : number;
  iconRightMargin : number;
  closeButtonPadding : number;
  transitionDuration : number;
  iconWidth : number;
  maxWidth : number                (* 0 means disabled *)
}.

Definition DEFAULT_SETTINGS : PluginSettings := {|
  minWidth := JS.of_Z 40;
  closeButtonWidth := JS.of_Z 28;
  leftPadding := JS.of_Z 12;
  iconRightMargin := JS.of_Z 0;
  closeButtonPadding := JS.of_Z 0;
  transitionDuration := JS.of_Z 275;
  iconWidth := JS.of_Z 20;
  maxWidth := JS.of_Z 0
|}.

Definition settings_valid (s : PluginSettings) : bool :=
  JS.valid (minWidth s) && JS.valid (closeButtonWidth s) && JS.valid (leftPadding s)
  && JS.valid (iconRightMargin s) && JS.valid (closeButtonPadding s)
  && JS.valid (iconWidth s) && JS.valid (maxWidth s).

Definition measureTextWidth (offsetWidth : ComputedStyle -> string -> N)
           (measureElement : bool) (text : string) (element : TitleElement) : number :=
  if negb measureElement then JS.zero
  else
    JS.add (JS.ceil (JS.of_Z (Z.of_N (offsetWidth (titleStyle element) text))))
           (JS.of_Z 5).

(** Calculate width without maxWidth constraint *)
Definition calculatedWidth (s : PluginSettings) (textWidth : number) : number :=
  JS.ceil (JS.max
             (JS.add (JS.add (JS.add (JS.add (JS.add (leftPadding s) (iconWidth s))
                                             (iconRightMargin s))
                                     textWidth)
                             (closeButtonPadding s))
                     (closeButtonWidth s))
             (minWidth s)).

Definition calculateHeaderWidth (offsetWidth : ComputedStyle -> string -> N)
           (s : PluginSettings) (measureElement : bool) (e : Header) : number :=
  match titleElement e with
  | None => minWidth s
  | Some t =>
      let textWidth := measureTextWidth offsetWidth measureElement (textContent t) t in
      (* Apply maxWidth if it's enabled (non-zero) *)
      if JS.gt (maxWidth s) JS.zero
      then JS.min (calculatedWidth s textWidth) (maxWidth s)
      else calculatedWidth s textWidth
  end.

(** The earlier [queueHeaderAdjustment] has no close guard, and its frame
    callback always enters [adjustAllHeaders].  Of the state only the flag,
    the number of queued callbacks and the number of calls matter here. *)
Record Queue : Type := mkQueue {
  isAdjustmentQueued : bool;
  queued : nat;                    (* callbacks waiting for the next frame *)
  adjustCalls : nat                (* calls of adjustAllHeaders so far *)
}.

Definition queueHeaderAdjustment (q : Queue) : Queue :=
  if negb (isAdjustmentQueued q)
  then mkQueue true (S (queued q)) (adjustCalls q)
  else q.

(** [() => { this.adjustAllHeaders(); this.isAdjustmentQueued = false; }] *)
Definition frameCallback (q : Queue) : Queue :=
  mkQueue false (queued q) (S (adjustCalls q)).

Definition runFrame (q : Queue) : Queue :=
  Nat.iter (queued q) frameCallback (mkQueue (isAdjustmentQueued q) 0 (adjustCalls q)).

End Legacy.

Section Plugin.

(** The browser side of the two measurements the plugin relies on: the
    width at which the probe span renders a text in a copied style
    ([measureElement.offsetWidth], an integer number of pixels), and
    [Number(text)]. *)
Variable offsetWidth : ComputedStyle -> string -> N.
Variable Number : string -> number.

(** *** tabManager.ts: reading headers *)

(** [getAllHeaders()]: the main-area tab headers, each with its element. *)
Definition getAllHeaders (st : State) : list (HeaderId * Header) :=
  omap (fun h => match get_header h st with
                 | Some e => Some (h, e)
                 | None => None
                 end) (mainHeaders (document st)).

(** [titleElement?.textContent || ''] *)
Definition getHeaderKey (e : Header) : string :=
  match titleElement e with
  | Some t => textContent t
  | None => ""
  end.

Definition measureTextWidth (st : State) (text : string) (element : TitleElement)
  : number :=
  if negb (measureElement st) then JS.zero
  else
    (* Add a small padding buffer to ensure text fits *)
    JS.add (JS.ceil (JS.of_Z (Z.of_N (offsetWidth (titleStyle element) text))))
           (JS.of_Z 5).

(** When hideTabIcons is true or iconWidth is 0, don't reserve space for icons *)
Definition iconSpaceNeeded (s : PluginSettings) : number :=
  if hideTabIcons s then JS.zero
  else if JS.gt (iconWidth s) JS.zero then iconWidth s else JS.zero.

(** Calculate width without maxWidth constraint *)
Definition calculatedWidth (s : PluginSettings) (textWidth : number) : number :=
  JS.ceil (JS.max
             (JS.add (JS.add (JS.add (JS.add (leftPadding s) (iconSpaceNeeded s))
                                     textWidth)
                             (closeButtonLeftPadding s))
                     (closeButtonRightPadding s))
             (minWidth s)).

Definition calculateHeaderWidth (st : State) (e : Header) : number :=
  let s := settings st in
  match titleElement e with
  | None => minWidth s
  | Some t =>
      let textWidth := measureTextWidth st (textContent t) t in
      (* Apply maxWidth if it's enabled (non-zero) *)
      if JS.gt (maxWidth s) JS.zero
      then JS.min (calculatedWidth s textWidth) (maxWidth s)
      else calculatedWidth s textWidth
  end.

(** The scroll controller and the out-of-view marking depend on the layout
    geometry of the host; only the fact that they are called is recorded. *)
Definition scrollToActiveTab (h : HeaderId) (st : State) : State :=
  observe (ScrollToActiveTab h) st.

Definition updateTabsVisibility (st : State) : State :=
  if isResetting st then st else observe UpdateTabsVisibility st.

Definition preCalculateAllTabWidths (st : State) : State :=
  fold_left (fun st he =>
               let headerKey := getHeaderKey (snd he) in
               match tabWidthCache st !! headerKey with
               | Some _ => st
               | None =>
                   let width := calculateHeaderWidth st (snd he) in
                   with_tabWidthCache (<[headerKey := width]> (tabWidthCache st)) st
               end)
            (getAllHeaders st) st.

(** *** tabManager.ts: the recalculation pass *)

(** The filter of [adjustAllHeaders]: visible container, not loading. *)
Definition adjustable (e : Header) : bool :=
  let isVisible := containerDisplayed e in
  let isNotLoading := negb (classList_contains "icon-loading" e) in
  isVisible && isNotLoading.

(** Batch all DOM reads first. *)
Definition readHeader (st : State) (he : HeaderId * Header) : HeaderData :=
  let e := snd he in
  let headerKey := getHeaderKey e in
  let isPinned := if ignorePinnedTabs (settings st) then pinnedIcon e else false in
  let isWebLink :=
    if ignoreWebLinks (settings st)
    then bool_decide (dataType e = Some "webviewer") else false in
  let isActive := classList_contains "is-active" e in
  let cachedWidth := tabWidthCache st !! headerKey in
  let needsRecalc := match cachedWidth with None => true | Some _ => isActive end in
  mkData (fst he) headerKey isPinned isWebLink isActive cachedWidth needsRecalc.

(** Calculate widths for headers that need it. *)
Definition recalcHeader (st : State) (data : HeaderData) : HeaderData :=
  if needsRecalc data && negb (isPinned data) && negb (isWebLink data) then
    match get_header (header data) st with
    | Some e =>
        mkData (header data) (headerKey data) (isPinned data) (isWebLink data)
          (isActive data) (Some (calculateHeaderWidth st e)) (needsRecalc data)
    | None => data
    end
  else data.

Definition headerDataOf (st : State) : list HeaderData :=
  map (recalcHeader st)
      (map (readHeader st)
           (List.filter (fun he => adjustable (snd he)) (getAllHeaders st))).

Definition adjustAllHeaders (st : State) : State :=
  (* Skip adjustment if currently resetting *)
  if isResetting st then observe (AdjustAllHeadersCalled true) st
  else
    let st := observe (AdjustAllHeadersCalled false) st in
    (* Now batch all DOM writes together *)
    requestAnimationFrame (WriteFrame (headerDataOf st)) st.

(** What the write batch accumulates while it walks [headerData]. *)
Record WriteAcc : Type := mkAcc {
  wDocument : Document;
  newCache : gmap string number;
  activeHeader : option HeaderId;
  wTimers : list (number * TimerTask)
}.

(** The value left in [--header-width] for a width [width]. *)
Definition appliedWidth (s : PluginSettings) (width : number) : number :=
  if JS.gt (maxWidth s) JS.zero && JS.ge width (maxWidth s)
  then JS.min width (JS.add (maxWidth s) (JS.of_Z 20))
  else width.

(** What the write batch does to a pinned or web-viewer header: remove
    autofit classes and styles if they were previously applied. *)
Definition clearAutofit (e : Header) : Header :=
  let e := classList_remove "autofit-tab" e in
  let e := classList_remove "autofit-max-width" e in
  set_headerWidth None e.

(** What the write batch does to any other header, for its width. *)
Definition applyWidth (s : PluginSettings) (width : number) (e : Header) : Header :=
  (* Lock all child elements to prevent intermediate states *)
  let e := set_innerTransition "none" e in
  (* Apply all changes at once *)
  let e := classList_add "autofit-tab" e in
  let e := set_headerWidth (Some (Px width)) e in
  (* Apply maxWidth class if the setting is enabled *)
  if JS.gt (maxWidth s) JS.zero && JS.ge width (maxWidth s) then
    let e := classList_add "autofit-max-width" e in
    let adjustedWidth := JS.min width (JS.add (maxWidth s) (JS.of_Z 20)) in
    set_headerWidth (Some (Px adjustedWidth)) e
  else classList_remove "autofit-max-width" e.

Definition writeHeader (s : PluginSettings) (acc : WriteAcc) (data : HeaderData)
  : WriteAcc :=
  if isPinned data || isWebLink data then
    mkAcc (update_header (header data) clearAutofit (wDocument acc))
          (newCache acc) (activeHeader acc) (wTimers acc)
  else
    match cachedWidth data with
    | None => acc      (* [undefined]: not the case after [recalcHeader] *)
    | Some width =>
        mkAcc (update_header (header data) (applyWidth s width) (wDocument acc))
              (<[headerKey data := width]> (newCache acc))
              (if isActive data then Some (header data) else activeHeader acc)
              (wTimers acc ++ [(JS.of_Z 10, RestoreTransitionTimer (header data))])
    end.

Definition writeAll (s : PluginSettings) (d : Document) (data : list HeaderData) : WriteAcc :=
  fold_left (writeHeader s) data (mkAcc d ∅ None []).

(** The callback of the inner [requestAnimationFrame] of [adjustAllHeaders]. *)
Definition writeHeaders (data : list HeaderData) (st : State) : State :=
  let acc := writeAll (settings st) (document st) data in
  let st := with_timers (timers st ++ wTimers acc) (with_document (wDocument acc) st) in
  let st := with_tabWidthCache (newCache acc) st in
  let st := observe HeadersWritten st in
  match activeHeader acc with
  | Some h => scrollToActiveTab h st
  | None => updateTabsVisibility st
  end.

(** Re-enable transitions after a brief delay. *)
Definition restoreTransition (h : HeaderId) (st : State) : State :=
  with_document (update_header h (set_innerTransition "") (document st)) st.

(** *** tabManager.ts: frame coalescing *)

Definition queueHeaderAdjustment (st : State) : State :=
  (* Skip during close to prevent jitter *)
  if closeInProgress st then st
  else if negb (isAdjustmentQueued st) then
    requestAnimationFrame AdjustFrame (with_isAdjustmentQueued true st)
  else st.

(** The callback [queueHeaderAdjustment] hands to [requestAnimationFrame]. *)
Definition adjustFrame (st : State) : State :=
  (* Double-check we're not closing *)
  if closeInProgress st then with_isAdjustmentQueued false st
  else with_isAdjustmentQueued false (adjustAllHeaders st).

(** *** tabManager.ts: reset after the maximum width is disabled *)

Definition resetTabs (st : State) : State :=
  (* Set resetting flag to prevent concurrent adjustments *)
  let st := with_isResetting true st in
  let headers := map fst (getAllHeaders st) in
  let st :=
    with_document (forEach_header
                (fun e => set_headerWidth None
                            (classList_add "autofit-cleanup"
                               (classList_remove "out-of-view"
                                  (classList_remove "autofit-tab"
                                     (classList_remove "autofit-max-width" e)))))
                headers (document st)) st in
  (* Clear cache and wait for cleanup *)
  let st := with_tabWidthCache ∅ st in
  setTimeout (ResetCleanupTimer headers) (JS.of_Z 100) st.

Definition resetCleanup (headers : list HeaderId) (st : State) : State :=
  let st := with_document (forEach_header (classList_remove "autofit-cleanup")
                                     headers (document st)) st in
  setTimeout (ResetApplyTimer headers) (JS.of_Z 50) st.

Definition resetApply (headers : list HeaderId) (st : State) : State :=
  let st := with_document (forEach_header (classList_add "autofit-tab")
                                     headers (document st)) st in
  let st := adjustAllHeaders st in
  let st := updateTabsVisibility st in
  with_isResetting false st.

(** *** tabManager.ts: the animated close *)

(** Starts the closing animation - shrinks the tab to 0 *)
Definition startClosingAnimation (tabHeader : HeaderId) (st : State) : State :=
  if isResetting st then st
  else
    with_document (update_header tabHeader
                (fun e => set_headerWidth (Some (Px (JS.of_Z 0)))
                            (classList_add "autofit-closing" e))
                (document st)) st.

(** Initiates the close sequence with animation *)
Definition initiateClose (tabHeader : HeaderId) (st : State) : State :=
  if closeInProgress st then st
  else
    let st := with_closeInProgress true st in
    let st := startClosingAnimation tabHeader st in
    (* After animation, close the tab *)
    let duration := transitionDuration (settings st) in
    setTimeout (CloseLeafTimer tabHeader) duration st.

(** [leaf.detach()]: the host's close-leaf operation.  What the host then
    does to its DOM arrives as a host event. *)
Definition detach (l : Leaf) (st : State) : State :=
  observe (LeafDetached (leafId l)) st.

(** Closes a leaf by matching its tab header element *)
Definition closeLeafByTabHeader (tabHeader : HeaderId) (st : State) : State :=
  match List.find (fun l => Nat.eqb (tabHeaderEl l) tabHeader)
                  (leaves (workspace st)) with
  | Some l => detach l st
  | None =>
      (* Fallback: if the tab is still marked as active, close the active leaf *)
      match get_header tabHeader st with
      | Some e =>
          if classList_contains "is-active" e then
            match activeLeaf (workspace st) with
            | Some l => detach l st
            | None => st
            end
          else st
      | None => st
      end
  end.

Definition closeLeafTimer (tabHeader : HeaderId) (st : State) : State :=
  let st := closeLeafByTabHeader tabHeader st in
  (* Keep the flag on longer to prevent any events from triggering recalc *)
  setTimeout CloseClearTimer (JS.of_Z 300) st.

Definition closeClearTimer (st : State) : State :=
  with_closeInProgress false st.

(** The three close gestures.  [tabHeader] is what [closest] finds from the
    event target: the main-area tab header above it, if any. *)
Definition handleCloseClick (onCloseButton : bool) (tabHeader : option HeaderId)
           (st : State) : State :=
  if negb onCloseButton then st
  else match tabHeader with
       | None => st
       | Some h => initiateClose h st
       end.

Definition handleMiddleClick (button : Z) (tabHeader : option HeaderId)
           (st : State) : State :=
  (* Middle click is button 1 *)
  if negb (Z.eqb button 1) then st
  else match tabHeader with
       | None => st
       | Some h => initiateClose h st
       end.

(** [document.querySelector] of the active main-area tab header. *)
Definition activeTab (st : State) : option HeaderId :=
  match List.find (fun he => classList_contains "is-active" (snd he))
                  (getAllHeaders st) with
  | Some he => Some (fst he)
  | None => None
  end.

Definition handleKeyDown (ctrlKey metaKey : bool) (key : string) (st : State)
  : State :=
  (* Check for Ctrl+W (Windows/Linux) or Cmd+W (Mac) *)
  if (ctrlKey || metaKey) && String.eqb key "w" then
    match activeTab st with
    | None => st
    | Some h => initiateClose h st
    end
  else st.

(** *** tabManager.ts: the other triggers *)

Definition handleFileOpen (st : State) : State :=
  (* Skip during close animation to prevent jitter *)
  if closeInProgress st then st
  else
    fold_left (fun st he =>
                 if classList_contains "is-active" (snd he)
                 then setTimeout (FileOpenTimer (fst he)) (JS.of_Z 50) st
                 else st)
              (getAllHeaders st) st.

Definition fileOpenTimer (h : HeaderId) (st : State) : State :=
  let key := match get_header h st with
             | Some e => getHeaderKey e
             | None => ""
             end in
  let st := match tabWidthCache st !! key with
            | None => queueHeaderAdjustment st
            | Some _ => st
            end in
  scrollToActiveTab h st.

Definition isDebounce (t : number * TimerTask) : bool :=
  match snd t with DebounceTimer => true | _ => false end.

(** [debounceTimeout] names the one pending debounce timer, if any. *)
Definition debounceLayoutChange (st : State) : State :=
  let st := with_timers (List.filter (fun t => negb (isDebounce t)) (timers st)) st in
  setTimeout DebounceTimer (JS.of_Z 100) st.

Definition debounceTimer (st : State) : State := queueHeaderAdjustment st.

(** One record handed to the mutation observer, reduced to the tests the
    callback makes on it. *)
Record Mutation : Type := mkMutation {
  removesTabHeader : bool;     (* childList, a removed node is a tab header *)
  targetIsElement : bool;
  targetInMainArea : bool;     (* target.closest('.workspace-split.mod-vertical.mod-root') *)
  targetIsTabElement : bool;
  targetIsBodyClass : bool     (* target is document.body, attribute class *)
}.

Fixpoint observerCallback (mutations : list Mutation) (tabWasRemoved : bool)
         (st : State) : State :=
  match mutations with
  | [] => st
  | m :: rest =>
      let tabWasRemoved := tabWasRemoved || removesTabHeader m in
      if targetIsElement m then
        if negb (targetInMainArea m) then observerCallback rest tabWasRemoved st
        else if targetIsTabElement m then
          (* Don't recalculate when a tab was just removed *)
          if negb tabWasRemoved then queueHeaderAdjustment st else st
        else if targetIsBodyClass m then
          queueHeaderAdjustment (with_tabWidthCache ∅ st)
        else observerCallback rest tabWasRemoved st
      else observerCallback rest tabWasRemoved st
  end.

Definition initialize (st : State) : State :=
  let st := with_measureElement true st in
  requestAnimationFrame InitFrame st.

Definition initFrame (st : State) : State :=
  (* Pre-calculate all tab widths in a single batch *)
  let st := preCalculateAllTabWidths st in
  let st := updateTabsVisibility st in
  (* Now apply the adjustments *)
  queueHeaderAdjustment st.

(** *** main.ts *)

Definition with_rootStyle (v : gmap string CssValue) (d : Document) : Document :=
  mkDocument (tabElements d) (mainHeaders d) v (bodyClasses d).

Definition with_bodyClasses (v : gset string) (d : Document) : Document :=
  mkDocument (tabElements d) (mainHeaders d) (rootStyle d) v.

Definition updateCSSVariables (st : State) : State :=
  let s := settings st in
  let effectiveLeftPadding := if hideTabIcons s then leftPadding s else leftPadding s in
  let cssVars : list (string * CssValue) :=
    [ ("--autofit-min-width", Px (minWidth s));
      ("--autofit-left-padding", Px effectiveLeftPadding);
      ("--autofit-close-button-left-padding", Px (closeButtonLeftPadding s));
      ("--autofit-close-button-right-padding", Px (closeButtonRightPadding s));
      ("--autofit-transition-duration", Ms (transitionDuration s));
      ("--autofit-icon-width",
        if hideTabIcons s then Keyword "0" else Px (iconWidth s));
      ("--autofit-icon-display",
        if hideTabIcons s then Keyword "none"
        else if JS.gt (iconWidth s) JS.zero then Keyword "flex" else Keyword "none");
      ("--autofit-max-width",
        if JS.gt (maxWidth s) JS.zero then Px (maxWidth s) else Keyword "none") ] in
  let d := document st in
  let d := with_rootStyle
             (fold_left (fun m pv => <[fst pv := snd pv]> m) cssVars (rootStyle d)) d in
  let d := if hideTabIcons s
           then with_bodyClasses ({["autofit-hide-tab-icons"]} ∪ bodyClasses d) d
           else with_bodyClasses (bodyClasses d ∖ {["autofit-hide-tab-icons"]}) d in
  with_document d st.

(** [saveSettings] up to its [await]: the data is handed to the host and the
    rest of the body waits with the [previousMaxWidth] it has read. *)
Definition saveSettings_begin (st : State) : State :=
  let previousMaxWidth := maxWidth (settings st) in
  let st := with_savedData (Some (settings st)) st in
  with_pendingSaves (pendingSaves st ++ [previousMaxWidth]) st.

(** [saveSettings] after its [await]. *)
Definition saveSettings_resume (previousMaxWidth : number) (st : State) : State :=
  let st := updateCSSVariables st in
  (* If max width was disabled, completely reset all tabs *)
  let isMaxWidthChanged :=
    JS.gt previousMaxWidth JS.zero && JS.strict_eq (maxWidth (settings st)) JS.zero in
  if isMaxWidthChanged then resetTabs st
  else
    (* Just recalculate normally for other setting changes *)
    queueHeaderAdjustment st.

(** [saveSettings] when nothing else runs while it waits. *)
Definition saveSettings (st : State) : State :=
  let previousMaxWidth := maxWidth (settings st) in
  let st := with_savedData (Some (settings st)) st in
  saveSettings_resume previousMaxWidth st.

(** *** settings.ts: the numeric text fields *)

(** The three fields at the top of the tab refresh the CSS variables before
    they save; the fields of the two sections only save. *)
Definition isGeneralField (prop : NumericProp) : bool :=
  match prop with
  | PCloseButtonLeftPadding | PCloseButtonRightPadding | PTransitionDuration => true
  | _ => false
  end.

(** [onChange(value)] of the field for [prop]; [save] is the way
    [saveSettings] is awaited. *)
Definition onChange_with (save : State -> State) (prop : NumericProp)
           (value : string) (st : State) : State :=
  let numValue := Number value in
  if negb (JS.isNaN numValue) && JS.ge numValue JS.zero then
    let st := with_settings (set_prop prop numValue (settings st)) st in
    let st := if isGeneralField prop then updateCSSVariables st else st in
    save st
  else st.

Definition onChange : NumericProp -> string -> State -> State :=
  onChange_with saveSettings.

(** *** The event loop *)

Inductive Event : Type :=
| EvFrame                                   (* the next animation frame *)
| EvTimer (i : nat)                         (* the i-th pending timer fires *)
| EvSaveDone (i : nat)                      (* the i-th awaited saveData resolves *)
| EvMutations (mutations : list Mutation)   (* mutation observer callback *)
| EvRename                                  (* vault rename *)
| EvLayoutChange                            (* workspace layout-change *)
| EvFileOpen                                (* workspace file-open *)
| EvCloseClick (onCloseButton : bool) (tabHeader : option HeaderId)
| EvMiddleClick (button : Z) (tabHeader : option HeaderId)
| EvKeyDown (ctrlKey metaKey : bool) (key : string)
| EvInput (prop : NumericProp) (value : string)   (* a settings text field changes *)
| EvHost (d : Document) (w : Workspace).         (* the host rebuilds its DOM and leaves *)

Definition runFrameTask (st : State) (t : FrameTask) : State :=
  match t with
  | InitFrame => initFrame st
  | AdjustFrame => adjustFrame st
  | WriteFrame data => writeHeaders data st
  end.

Definition runTimerTask (t : TimerTask) (st : State) : State :=
  match t with
  | CloseLeafTimer tab => closeLeafTimer tab st
  | CloseClearTimer => closeClearTimer st
  | DebounceTimer => debounceTimer st
  | FileOpenTimer h => fileOpenTimer h st
  | ResetCleanupTimer hs => resetCleanup hs st
  | ResetApplyTimer hs => resetApply hs st
  | RestoreTransitionTimer h => restoreTransition h st
  | VisibilityTimer => updateTabsVisibility st
  end.

(** One animation frame: the callbacks queued so far run in order; what
    they request runs in the next frame. *)
Definition runFrame (st : State) : State :=
  fold_left runFrameTask (frames st) (with_frames [] st).

Definition step (st : State) (ev : Event) : State :=
  match ev with
  | EvFrame => runFrame st
  | EvTimer i =>
      match timers st !! i with
      | Some (_, t) => runTimerTask t (with_timers (delete i (timers st)) st)
      | None => st
      end
  | EvSaveDone i =>
      match pendingSaves st !! i with
      | Some previousMaxWidth =>
          saveSettings_resume previousMaxWidth
            (with_pendingSaves (delete i (pendingSaves st)) st)
      | None => st
      end
  | EvMutations mutations => observerCallback mutations false st
  | EvRename => queueHeaderAdjustment st
  | EvLayoutChange =>
      setTimeout VisibilityTimer (JS.of_Z 300) (debounceLayoutChange st)
  | EvFileOpen => handleFileOpen st
  | EvCloseClick onCloseButton tabHeader => handleCloseClick onCloseButton tabHeader st
  | EvMiddleClick button tabHeader => handleMiddleClick button tabHeader st
  | EvKeyDown ctrlKey metaKey key => handleKeyDown ctrlKey metaKey key st
  | EvInput prop value => onChange_with saveSettings_begin prop value st
  | EvHost d w => with_workspace w (with_document d st)
  end.

Definition run (evs : list Event) (st : State) : State := fold_left step evs st.

(** One recalculation pass with nothing in between its two frames: the read
    batch of [adjustAllHeaders], then its write batch. *)
Definition recalculationPass (st : State) : State :=
  writeHeaders (headerDataOf st) st.

(** The entry of [headerData] for one header. *)
Definition entryOf (st : State) (he : HeaderId * Header) : HeaderData :=
  recalcHeader st (readHeader st he).

(** Pinned and web-viewer entries are left to the host. *)
Definition skipped (data : HeaderData) : bool := isPinned data || isWebLink data.

(** What the write batch does to the element of one entry. *)
Definition elemWrite (s : PluginSettings) (data : HeaderData) (e : Header) : Header :=
  if skipped data then clearAutofit e
  else match cachedWidth data with
       | None => e
       | Some width => applyWidth s width e
       end.

(** The cache the write batch builds from [headerData]. *)
Definition cacheOf (data : list HeaderData) : gmap string number :=
  fold_left (fun m d =>
               if skipped d then m
               else match cachedWidth d with
                    | None => m
                    | Some width => <[headerKey d := width]> m
                    end)
            data ∅.

(** The settings of the worked example: icons shown, no maximum width. *)
Definition exampleSettings (s : PluginSettings) : Prop :=
  minWidth s = JS.of_Z 40 /\ leftPadding s = JS.of_Z 12 /\
  closeButtonLeftPadding s = JS.of_Z 30 /\ closeButtonRightPadding s = JS.of_Z 8 /\
  iconWidth s = JS.of_Z 20 /\ hideTabIcons s = false /\
  JS.gt (maxWidth s) JS.zero = false.

(** The two toggles the pass reads, switched on their own. *)
Definition with_ignorePinnedTabs (b : bool) (st : State) : State :=
  let s := settings st in
  with_settings
    (mkSettings (minWidth s) (leftPadding s) (closeButtonLeftPadding s)
       (closeButtonRightPadding s) (transitionDuration s) (iconWidth s) (maxWidth s)
       b (hideTabIcons s) (ignoreWebLinks s)) st.

Definition with_ignoreWebLinks (b : bool) (st : State) : State :=
  let s := settings st in
  with_settings
    (mkSettings (minWidth s) (leftPadding s) (closeButtonLeftPadding s)
       (closeButtonRightPadding s) (transitionDuration s) (iconWidth s) (maxWidth s)
       (ignorePinnedTabs s) (hideTabIcons s) b) st.

(** A header the pass leaves to the host under the current settings. *)
Definition leftToHost (s : PluginSettings) (e : Header) : bool :=
  (ignorePinnedTabs s && pinnedIcon e)
  || (ignoreWebLinks s && bool_decide (dataType e = Some "webviewer")).

(** Every cached width is a number the calculator can have produced. *)
Definition cache_valid (st : State) : Prop :=
  forall k w, tabWidthCache st !! k = Some w -> JS.valid w = true.

(** The element a pass leaves behind for a main-area header. *)
Definition passElement (st : State) (he : HeaderId * Header) : Header :=
  if adjustable (snd he) then elemWrite (settings st) (entryOf st he) (snd he)
  else snd he.

(** The entries a pass writes, as opposed to those it leaves to the host. *)
Definition written (data : HeaderData) : bool := negb (skipped data).

(** Entries that agree on what the write batch reads of them. *)
Definition same_write (d1 d2 : HeaderData) : Prop :=
  header d2 = header d1 /\ headerKey d2 = headerKey d1
  /\ skipped d2 = skipped d1
  /\ (skipped d1 = false -> cachedWidth d2 = cachedWidth d1).

(** How often [adjustAllHeaders] has been entered, and how often it went
    past its guard. *)
Definition isAdjustCall (o : Observation) : bool :=
  match o with AdjustAllHeadersCalled _ => true | _ => false end.

Definition isPassStart (o : Observation) : bool :=
  match o with AdjustAllHeadersCalled false => true | _ => false end.

Definition adjustCalls (st : State) : nat :=
  length (List.filter isAdjustCall (log st)).

Definition passStarts (st : State) : nat :=
  length (List.filter isPassStart (log st)).

Definition isAdjustFrame (t : FrameTask) : bool :=
  match t with AdjustFrame => true | _ => false end.

(** The flag [isAdjustmentQueued] stands for exactly one queued callback. *)
Definition queue_consistent (st : State) : Prop :=
  length (List.filter isAdjustFrame (frames st))
  = if isAdjustmentQueued st then 1%nat else 0%nat.

(** *** Footprints of the handlers

    [undisturbed st st']: the step from [st] to [st'] neither touches the
    closing flag or the queue flag, nor enters [adjustAllHeaders], nor
    queues or drops a queued pass, nor cancels a timer other than the
    layout debounce. *)
Definition timers_kept (st st' : State) : Prop :=
  forall t, snd t <> DebounceTimer -> In t (timers st) -> In t (timers st').

Definition undisturbed (st st' : State) : Prop :=
  closeInProgress st' = closeInProgress st
  /\ passStarts st' = passStarts st
  /\ adjustCalls st' = adjustCalls st
  /\ timers_kept st st'
  /\ isAdjustmentQueued st' = isAdjustmentQueued st
  /\ List.filter isAdjustFrame (frames st') = List.filter isAdjustFrame (frames st).

(** [may_queue st st']: as [undisturbed], except that one pass may have
    been queued, which takes that no close is in progress and none was
    queued before. *)
Definition may_queue (st st' : State) : Prop :=
  closeInProgress st' = closeInProgress st
  /\ passStarts st' = passStarts st
  /\ adjustCalls st' = adjustCalls st
  /\ timers_kept st st'
  /\ ((isAdjustmentQueued st' = isAdjustmentQueued st
       /\ List.filter isAdjustFrame (frames st')
          = List.filter isAdjustFrame (frames st))
      \/ (closeInProgress st = false /\ isAdjustmentQueued st = false
          /\ isAdjustmentQueued st' = true
          /\ List.filter isAdjustFrame (frames st')
             = (List.filter isAdjustFrame (frames st) ++ [AdjustFrame])%list)).

(** [calm st st']: the closing flag stays, no pass starts, timers stay. *)
Definition calm (st st' : State) : Prop :=
  closeInProgress st' = closeInProgress st
  /\ passStarts st' = passStarts st
  /\ timers_kept st st'.

(** [queue_kept st st']: the queued pass, if any, stays queued. *)
Definition queue_kept (st st' : State) : Prop :=
  isAdjustmentQueued st' = isAdjustmentQueued st
  /\ List.filter isAdjustFrame (frames st') = List.filter isAdjustFrame (frames st).

Definition queue_ok (st st' : State) : Prop :=
  (isAdjustmentQueued st = true -> isAdjustmentQueued st' = true)
  /\ (queue_consistent st -> queue_consistent st').

(** Events other than an animation frame. *)
Definition notFrame (ev : Event) : Prop :=
  match ev with EvFrame => False | _ => True end.

(** The event fires a pending timer with this callback. *)
Definition fires (st : State) (ev : Event) (t : TimerTask) : Prop :=
  exists i delay, ev = EvTimer i /\ timers st !! i = Some (delay, t).


(** *** What holds in every state the plugin reaches *)

(** The write batches that wait for their frame. *)
Definition writesOf (tasks : list FrameTask) : list (list HeaderData) :=
  flat_map (fun t => match t with WriteFrame data => [data] | _ => [] end) tasks.

Definition data_valid (data : list HeaderData) : Prop :=
  forall d w, In d data -> cachedWidth d = Some w -> JS.valid w = true.

Definition widths_valid_with (tasks : list FrameTask) (st : State) : Prop :=
  settings_valid (settings st) = true
  /\ cache_valid st
  /\ (forall data, In data (writesOf tasks) -> data_valid data).

(** Settings, cached widths and the widths of waiting write batches are
    numbers that are not [NaN] and not negative. *)
Definition widths_valid (st : State) : Prop := widths_valid_with (frames st) st.

Definition invariant (st : State) : Prop := widths_valid st /\ queue_consistent st.

(** [widths_kept st st']: the step leaves settings, cache and the waiting
    write batches as they are. *)
Definition widths_kept (st st' : State) : Prop :=
  settings st' = settings st
  /\ tabWidthCache st' = tabWidthCache st
  /\ writesOf (frames st') = writesOf (frames st).

Definition widths_ok (st st' : State) : Prop := widths_valid st -> widths_valid st'.

(** The invariant in the middle of a frame: [tasks] are the callbacks of
    this frame that have not run yet. *)
Definition frame_invariant (tasks : list FrameTask) (st : State) : Prop :=
  widths_valid_with (tasks ++ frames st) st
  /\ length (List.filter isAdjustFrame (tasks ++ frames st))
     = if isAdjustmentQueued st then 1%nat else 0%nat.

End Plugin.

(** ** Further footprints and invariants *)

(** The two timers of a close sequence. *)
Definition isCloseTimer (t : number * TimerTask) : bool :=
  match snd t with
  | CloseLeafTimer _ | CloseClearTimer => true
  | _ => false
  end.

(** The closing flag stands for exactly one pending timer of the sequence. *)
Definition close_consistent (st : State) : Prop :=
  length (List.filter isCloseTimer (timers st))
  = if closeInProgress st then 1%nat else 0%nat.

Definition isRestoreTimer (t : number * TimerTask) : bool :=
  match snd t with RestoreTransitionTimer _ => true | _ => false end.

Definition isVisibilityTimer (t : number * TimerTask) : bool :=
  match snd t with VisibilityTimer => true | _ => false end.

(** In a document, [document.body] is no descendant of the main editor area:
    a record for a class change of the body has a target outside of it. *)
Definition bodyOutsideMainArea (m : Mutation) : bool :=
  implb (targetIsBodyClass m) (negb (targetInMainArea m)).

(** The class names the plugin puts on tab headers or takes from them. *)
Definition pluginClasses : list string :=
  ["autofit-tab"; "autofit-max-width"; "autofit-cleanup"; "autofit-closing";
   "out-of-view"; "icon-transition"].

(** [host_same e e']: what the host put on the element is as it was, and a
    closing mark is still there. *)
Definition host_same (e e' : Header) : Prop :=
  titleElement e' = titleElement e
  /\ pinnedIcon e' = pinnedIcon e
  /\ dataType e' = dataType e
  /\ containerDisplayed e' = containerDisplayed e
  /\ (forall c, ~ In c pluginClasses -> ((c ∈ classList e') <-> (c ∈ classList e)))
  /\ ("autofit-closing" ∈ classList e -> ("autofit-closing" ∈ classList e')).

Definition host_view_kept (d d' : Document) : Prop :=
  mainHeaders d' = mainHeaders d
  /\ forall h, match tabElements d !! h, tabElements d' !! h with
               | Some e, Some e' => host_same e e'
               | None, None => True
               | _, _ => False
               end.

(** Events of the plugin's own making: all but a rebuild by the host. *)
Definition notHost (ev : Event) : Prop :=
  match ev with EvHost _ _ => False | _ => True end.

(** What a reset has reached on a header when its second timer has run. *)
Definition afterReset (e : Header) : Prop :=
  headerWidth e = None
  /\ ("autofit-tab" ∈ classList e)
  /\ ("autofit-cleanup" ∉ classList e)
  /\ ("autofit-max-width" ∉ classList e)
  /\ ("out-of-view" ∉ classList e).

(** [close_kept st st']: the step neither moves the closing flag nor arms or
    drops a timer of the close sequence. *)
Definition close_kept (st st' : State) : Prop :=
  closeInProgress st' = closeInProgress st
  /\ List.filter isCloseTimer (timers st') = List.filter isCloseTimer (timers st).

(** [hosted st st']: the step leaves on every tab header what the host put
    there. *)
Definition hosted (st st' : State) : Prop :=
  host_view_kept (document st) (document st').

(** ** More arithmetic on JavaScript numbers

    Negation, subtraction, multiplication, division and the square, with
    their special cases.  A zero has no sign here, so a division by zero
    takes the zero as [+0]; the sources divide by 2 and by a duration. *)
Module JSMath.

Definition neg (a : number) : number :=
  match a with
  | JS.NaN => JS.NaN
  | JS.NegInf => JS.PosInf
  | JS.PosInf => JS.NegInf
  | JS.Fin q => JS.Fin (- q)
  end.

(** [a - b] *)
Definition sub (a b : number) : number := JS.add a (neg b).

(** [a * b]: zero times an infinity is [NaN]. *)
Definition mul (a b : number) : number :=
  match a, b with
  | JS.NaN, _ | _, JS.NaN => JS.NaN
  | JS.Fin x, JS.Fin y => JS.Fin (x * y)
  | JS.Fin x, JS.PosInf | JS.PosInf, JS.Fin x =>
      match (x ?= 0)%Q with Eq => JS.NaN | Gt => JS.PosInf | Lt => JS.NegInf end
  | JS.Fin x, JS.NegInf | JS.NegInf, JS.Fin x =>
      match (x ?= 0)%Q with Eq => JS.NaN | Gt => JS.NegInf | Lt => JS.PosInf end
  | JS.PosInf, JS.PosInf | JS.NegInf, JS.NegInf => JS.PosInf
  | JS.PosInf, JS.NegInf | JS.NegInf, JS.PosInf => JS.NegInf
  end.

(** [a / b] *)
Definition div (a b : number) : number :=
  match a, b with
  | JS.NaN, _ | _, JS.NaN => JS.NaN
  | JS.Fin x, JS.Fin y =>
      if Qeq_bool y 0
      then match (x ?= 0)%Q with Eq => JS.NaN | Gt => JS.PosInf | Lt => JS.NegInf end
      else JS.Fin (x / y)
  | JS.Fin _, JS.PosInf | JS.Fin _, JS.NegInf => JS.Fin 0
  | JS.PosInf, JS.Fin y => if Qle_bool 0 y then JS.PosInf else JS.NegInf
  | JS.NegInf, JS.Fin y => if Qle_bool 0 y then JS.NegInf else JS.PosInf
  | _, _ => JS.NaN
  end.

(** [Math.pow(a, 2)] *)
Definition pow2 (a : number) : number := mul a a.

(** [isFinite(a)] *)
Definition isFinite (a : number) : bool :=
  match a with JS.Fin _ => true | _ => false end.

End JSMath.

(** ** tabManager.ts: scrolling the active tab into view *)
Module Scroll.

(** Easing function - easeInOutQuad for smoother motion:
    [t < 0.5 ? 2 * t * t : 1 - Math.pow(-2 * t + 2, 2) / 2]. *)
Definition easeInOutQuad (t : number) : number :=
  if JS.lt t (JS.Fin (1 # 2))
  then JSMath.mul (JSMath.mul (JS.of_Z 2) t) t
  else JSMath.sub (JS.of_Z 1)
         (JSMath.div
            (JSMath.pow2 (JS.add (JSMath.mul (JS.of_Z (-2)) t) (JS.of_Z 2)))
            (JS.of_Z 2)).

(** One call of [animateScroll]: the value it assigns to [scrollLeft], and
    whether it asks for another animation frame. *)
Definition animateScroll (start end_ duration startTime currentTime : number)
  : number * bool :=
  let elapsedTime := JSMath.sub currentTime startTime in
  let progress := JS.min (JSMath.div elapsedTime duration) (JS.of_Z 1) in
  let easedProgress := easeInOutQuad progress in
  let scrollValue := JS.add start (JSMath.mul (JSMath.sub end_ start) easedProgress) in
  (scrollValue, JS.lt progress (JS.of_Z 1)).

(** [smoothScrollTo(element, start, end, duration)] begun at [startTime]:
    the values it assigns to [element.scrollLeft], one per animation frame,
    for the time stamps the host hands to the frames. *)
Fixpoint smoothScrollTo (start end_ duration startTime : number)
         (frameTimes : list number) : list number :=
  match frameTimes with
  | [] => []
  | currentTime :: later =>
      let r := animateScroll start end_ duration startTime currentTime in
      fst r :: (if snd r
                then smoothScrollTo start end_ duration startTime later
                else [])
  end.

(** [v] lies between [a] and [b], whichever of the two is the smaller. *)
Definition between (a b v : number) : bool :=
  (JS.le a v && JS.le v b) || (JS.le b v && JS.le v a).

(** What [scrollToActiveTab] reads of the page. *)
Record Container : Type := mkContainer {
  scrollLeft : number;              (* container.scrollLeft *)
  containerWidth : number           (* container.getBoundingClientRect().width *)
}.

Record ActiveTab : Type := mkActiveTab {
  inMainArea : bool;                (* closest('.workspace-split.mod-vertical.mod-root') *)
  container : option Container;     (* closest('.workspace-tab-header-container-inner') *)
  offsetLeft : number;              (* activeTab.offsetLeft *)
  tabWidth : number                 (* activeTab.getBoundingClientRect().width *)
}.

(** What it asks for: a smooth scroll from [start] to [end] over a
    duration, and a visibility check after a delay. *)
Record Plan : Type := mkPlan {
  scroll : option (number * number * number);
  visibilityCheck : option number
}.

Definition scrollToActiveTab (s : PluginSettings) (activeTab : ActiveTab) : Plan :=
  (* Only process tabs in the main editor area *)
  if negb (inMainArea activeTab) then mkPlan None None
  else
    match container activeTab with
    | None => mkPlan None None
    | Some c =>
        (* Check if the tab is already visible in the viewport *)
        let tabLeft := offsetLeft activeTab in
        let tabRight := JS.add tabLeft (tabWidth activeTab) in
        let containerLeft := scrollLeft c in
        let containerRight := JS.add containerLeft (containerWidth c) in
        mkPlan
          (* Only scroll if the tab is not fully visible *)
          (if JS.lt tabLeft containerLeft || JS.gt tabRight containerRight then
             (* Calculate smooth scroll position - centering the tab *)
             let targetScroll :=
               JSMath.sub (JS.add tabLeft (JSMath.div (tabWidth activeTab) (JS.of_Z 2)))
                          (JSMath.div (containerWidth c) (JS.of_Z 2)) in
             Some (scrollLeft c, JS.max (JS.of_Z 0) targetScroll, JS.of_Z 300)
           else None)
          (* After scrolling, update the visibility of tabs that may be out of view *)
          (Some (JS.add (transitionDuration s) (JS.of_Z 50)))
    end.

End Scroll.

(** ** tabManager.ts: marking the tabs that are out of view

    The event loop above records a call of [updateTabsVisibility] and leaves
    the marks to the layout.  Here is what the call does to the tab headers
    for a given layout: the rectangles the host reports while it runs. *)
Module Visibility.

(** [getBoundingClientRect()], its two horizontal edges. *)
Record Rect : Type := mkRect {
  rectLeft : number;
  rectRight : number
}.

(** One [.workspace-tab-header-container-inner] of the main area: its
    rectangle, and the tab headers below it with theirs. *)
Record Container : Type := mkContainer {
  containerRect : Rect;
  tabs : list (HeaderId * Rect)
}.

(** A tab is out of view if it's completely to the left of the container
    or completely to the right of the container. *)
Definition isOutOfView (tabRect containerRect : Rect) : bool :=
  JS.lt (rectRight tabRect) (rectLeft containerRect)
  || JS.gt (rectLeft tabRect) (rectRight containerRect).

(** One tab of [container.querySelectorAll('.workspace-tab-header.autofit-tab')]. *)
Definition markTab (containerRect : Rect) (d : Document) (tab : HeaderId * Rect)
  : Document :=
  match tabElements d !! fst tab with
  | Some e =>
      if classList_contains "autofit-tab" e then
        (* Apply or remove the class based on visibility *)
        if isOutOfView (snd tab) containerRect
        then update_header (fst tab) (classList_add "out-of-view") d
        else update_header (fst tab) (classList_remove "out-of-view") d
      else d
  | None => d
  end.

(** What the marking leaves of one element, for its two rectangles. *)
Definition marked (tabRect containerRect : Rect) (e : Header) : Header :=
  if classList_contains "autofit-tab" e then
    if isOutOfView tabRect containerRect
    then classList_add "out-of-view" e
    else classList_remove "out-of-view" e
  else e.

Definition updateTabsVisibility (containers : list Container) (st : State) : State :=
  if isResetting st then st
  else
    with_document
      (fold_left (fun d c => fold_left (markTab (containerRect c)) (tabs c) d)
                 containers (document st))
      st.

(** The tabs of all containers, in the order they are visited, each with
    its rectangle and the rectangle of its container. *)
Definition visited (containers : list Container) : list (HeaderId * Rect * Rect) :=
  flat_map (fun c => map (fun t => (fst t, snd t, containerRect c)) (tabs c))
           containers.

Definition visitedTabs (containers : list Container) : list HeaderId :=
  map (fun v => fst (fst v)) (visited containers).

End Visibility.

(** ** tabManager.ts: [cleanup], run when the plugin is unloaded *)
Module Unload.

(** What [cleanup] resets besides the tab headers. *)
Record ScrollContainer : Type := mkScrollContainer {
  overflowX : string;
  overflowY : string;
  scrollLeft : number
}.

Record Page : Type := mkPage {
  observer : option bool;             (* the mutation observer, if created: connected *)
  iconObserver : option bool;         (* the icon observer, if created: connected *)
  probeInDocument : bool;             (* the probe span is attached to the body *)
  scrollCheckInterval : option bool;  (* the interval, if set: running *)
  containers : list ScrollContainer   (* main-area tab-header-container-inner elements *)
}.

Definition cleanupHeader (e : Header) : Header :=
  set_headerWidth None
    (classList_remove "out-of-view"
       (classList_remove "autofit-max-width"
          (classList_remove "autofit-tab"
             (classList_add "autofit-cleanup" e)))).

(** [cleanup()]: the page and the state it leaves, and the timers it arms,
    one per header, each with its delay. *)
Definition cleanup (page : Page) (st : State)
  : Page * State * list (number * HeaderId) :=
  let st := with_tabWidthCache ∅ st in
  let page :=
    mkPage (option_map (fun _ => false) (observer page))
           (option_map (fun _ => false) (iconObserver page))
           (if measureElement st then false else probeInDocument page)
           (option_map (fun _ => false) (scrollCheckInterval page))
           (* Reset the tab containers to default style (only main editor area) *)
           (map (fun _ => mkScrollContainer "" "" (JS.of_Z 0)) (containers page)) in
  let headers := map fst (getAllHeaders st) in
  let st := with_document (forEach_header cleanupHeader headers (document st)) st in
  (page, st, map (fun h => (transitionDuration (settings st), h)) headers).

(** The callback of the timer armed for one header. *)
Definition cleanupTimer (h : HeaderId) (st : State) : State :=
  with_document (update_header h (classList_remove "autofit-cleanup") (document st)) st.

End Unload.

(** ** The first release

    The plugin as first released: one class, no coalescing of the queued
    passes, and a pass that measures every header anew.  The [mainHeaders] of
    the page are here the tab headers that the selector of this revision's
    [getAllHeaders] matches, and the probe only takes the font of the title,
    so the measurement depends on the font and the text. *)
Module FirstRelease.

Record PluginSettings : Type := mkSettings {
  minWidth : number;
  closeButtonWidth : number;
  leftPadding : number;
  iconRightMargin : number;
  closeButtonPadding : number;
  transitionDuration : number;
  iconWidth : number;
  activeIndicatorWidth : number
}.

Definition DEFAULT_SETTINGS : PluginSettings := {|
  minWidth := JS.of_Z 40;
  closeButtonWidth := JS.of_Z 28;
  leftPadding := JS.of_Z 12;
  iconRightMargin := JS.of_Z 0;
  closeButtonPadding := JS.of_Z 10;
  transitionDuration := JS.of_Z 275;
  iconWidth := JS.of_Z 20;
  activeIndicatorWidth := JS.of_Z 2
|}.

(** Every field has passed the check of the settings tab. *)
Definition settings_valid (s : PluginSettings) : bool :=
  JS.valid (minWidth s) && JS.valid (closeButtonWidth s) && JS.valid (leftPadding s)
  && JS.valid (iconRightMargin s) && JS.valid (closeButtonPadding s)
  && JS.valid (transitionDuration s) && JS.valid (iconWidth s)
  && JS.valid (activeIndicatorWidth s).

Record Plugin : Type := mkPlugin {
  settings : PluginSettings;
  tabWidthCache : gmap string number;
  measureElement : bool;             (* the probe span exists *)
  page : Document;
  queued : nat;                      (* frame callbacks waiting, one per call *)
  adjustCalls : nat                  (* calls of adjustAllHeaders so far *)
}.

(** What a pass does to one header, for its width. *)
Definition applyWidth (width : number) (e : Header) : Header :=
  let e := classList_add "autofit-tab" e in
  set_headerWidth (Some (Px width)) e.

Section Probe.
Variable offsetWidth : string -> string -> N.

Definition getAllHeaders (p : Plugin) : list (HeaderId * Header) :=
  omap (fun h => match tabElements (page p) !! h with
                 | Some e => Some (h, e)
                 | None => None
                 end) (mainHeaders (page p)).

Definition measureTextWidth (p : Plugin) (text : string) (element : TitleElement)
  : number :=
  if negb (measureElement p) then JS.of_Z 0
  else JS.of_Z (Z.of_N (offsetWidth (font (titleStyle element)) text)).

Definition calculateHeaderWidth (p : Plugin) (header : Header) : number :=
  let s := settings p in
  match titleElement header with
  | None => minWidth s
  | Some t =>
      let textWidth := measureTextWidth p (textContent t) t in
      JS.ceil (JS.max
                 (JS.add (JS.add (JS.add (JS.add (JS.add (leftPadding s) (iconWidth s))
                                                 (iconRightMargin s))
                                         textWidth)
                                 (closeButtonPadding s))
                         (closeButtonWidth s))
                 (minWidth s))
  end.

(** The body of the [forEach] of [adjustAllHeaders], on the page and on
    [newCache]. *)
Definition adjustHeader (p : Plugin) (acc : Document * gmap string number)
           (he : HeaderId * Header) : Document * gmap string number :=
  let headerKey := getHeaderKey (snd he) in
  let width := calculateHeaderWidth p (snd he) in
  (update_header (fst he) (applyWidth width) (fst acc),
   <[headerKey := width]> (snd acc)).

Definition adjustAllHeaders (p : Plugin) : Plugin :=
  let acc := fold_left (adjustHeader p) (getAllHeaders p) (page p, ∅) in
  mkPlugin (settings p) (snd acc) (measureElement p) (fst acc) (queued p)
           (S (adjustCalls p)).

(** [requestAnimationFrame(() => this.adjustAllHeaders())] *)
Definition queueHeaderAdjustment (p : Plugin) : Plugin :=
  mkPlugin (settings p) (tabWidthCache p) (measureElement p) (page p)
           (S (queued p)) (adjustCalls p).

(** One animation frame: the callbacks queued so far run, each a pass. *)
Definition runFrame (p : Plugin) : Plugin :=
  Nat.iter (queued p) adjustAllHeaders
           (mkPlugin (settings p) (tabWidthCache p) (measureElement p) (page p)
                     0 (adjustCalls p)).

Definition handleLayoutChange (p : Plugin) : Plugin :=
  let headers := getAllHeaders p in
  let hasUncachedHeaders :=
    existsb (fun he => negb (bool_decide (is_Some (tabWidthCache p !! getHeaderKey (snd he)))))
            headers in
  if hasUncachedHeaders then queueHeaderAdjustment p else p.

(** [activeHeader]: what [document.querySelector] finds for
    [.workspace-tab-header.is-active]. *)
Definition handleFileOpen (activeHeader : option Header) (p : Plugin) : Plugin :=
  match activeHeader with
  | Some e =>
      if negb (bool_decide (is_Some (tabWidthCache p !! getHeaderKey e)))
      then queueHeaderAdjustment p else p
  | None => p
  end.

End Probe.

End FirstRelease.

(** ** The prototype

    Before the first release the width was computed with a fixed icon width
    of 20 and an extra padding for short texts, and was not rounded. *)
Module Prototype.

Record PluginSettings : Type := mkSettings {
  minWidth : number;
  closeButtonWidth : number;
  leftPadding : number;
  iconRightMargin : number;
  closeButtonPadding : number;
  transitionDuration : number
}.

Definition DEFAULT_SETTINGS : PluginSettings := {|
  minWidth := JS.of_Z 40;
  closeButtonWidth := JS.of_Z 28;
  leftPadding := JS.of_Z 12;
  iconRightMargin := JS.of_Z 0;
  closeButtonPadding := JS.of_Z 10;
  transitionDuration := JS.of_Z 275
|}.

(** The first argument of [Math.max] in [calculateHeaderWidth]. *)
Definition contentWidth (s : PluginSettings) (textWidth : number) : number :=
  let extraPadding := if JS.lt textWidth (JS.of_Z 20) then JS.of_Z 10 else JS.of_Z 0 in
  JS.add (JS.add (JS.add (JS.add (JS.add (JS.add (leftPadding s) (JS.of_Z 20))
                                         (iconRightMargin s))
                                 textWidth)
                         extraPadding)
                 (closeButtonPadding s))
         (closeButtonWidth s).

(** [temp.offsetWidth] for the title of a header. *)
Definition textWidthOf (offsetWidth : string -> string -> N) (t : TitleElement) : number :=
  JS.of_Z (Z.of_N (offsetWidth (font (titleStyle t)) (textContent t))).

Definition calculateHeaderWidth (offsetWidth : string -> string -> N)
           (s : PluginSettings) (header : Header) : number :=
  match titleElement header with
  | None => minWidth s
  | Some t => JS.max (contentWidth s (textWidthOf offsetWidth t)) (minWidth s)
  end.

End Prototype.

(** ** The entry points beside the event loop

    [updateTabsVisibility] is called from the scroll and resize listeners,
    from the interval, from the visibility timers ([scrollToActiveTab] arms
    one as well) and at the end of a write batch; the icon observer marks a
    tab while its icon changes and arms a timer that takes the mark off; and
    [cleanup] runs when the plugin is unloaded.  Here each of these is an
    event of its own that may occur at any time, the call of
    [updateTabsVisibility] with the layout the host reports at that moment:
    every order in which the code can run them is among the runs below. *)

(** One record handed to the icon observer, reduced to the tests the
    callback makes on it. *)
Record IconMutation : Type := mkIconMutation {
  onIcon : bool;                    (* childList, target has workspace-tab-header-inner-icon *)
  parentTab : option HeaderId       (* target.closest('.workspace-tab-header') *)
}.

Definition iconObserverRecord (st : State) (m : IconMutation) : State :=
  if onIcon m then
    (* Prevent multiple icon changes within the transition duration *)
    match parentTab m with
    | Some h =>
        match get_header h st with
        | Some e =>
            if negb (classList_contains "is-active" e)
            then with_document
                   (update_header h (classList_add "icon-transition") (document st)) st
            else st
        | None => st
        end
    | None => st
    end
  else st.

Definition iconObserverCallback (mutations : list IconMutation) (st : State) : State :=
  fold_left iconObserverRecord mutations st.

(** The callback of the timer the icon observer arms for [parentTab]. *)
Definition iconTimer (parentTab : HeaderId) (st : State) : State :=
  with_document (update_header parentTab (classList_remove "icon-transition") (document st))
                st.

Inductive PluginEvent : Type :=
| Core (ev : Event)                                      (* an event of the loop above *)
| EvVisibility (containers : list Visibility.Container)  (* a call of updateTabsVisibility *)
| EvIconMutations (mutations : list IconMutation)        (* icon observer callback *)
| EvIconTimer (parentTab : HeaderId)                     (* its timer, for one tab *)
| EvCleanup (page : Unload.Page)                         (* cleanup() *)
| EvCleanupTimer (h : HeaderId).                         (* its timer, for one header *)

Definition stepAll (offsetWidth : ComputedStyle -> string -> N) (Number : string -> number)
           (st : State) (ev : PluginEvent) : State :=
  match ev with
  | Core ev => step offsetWidth Number st ev
  | EvVisibility containers => Visibility.updateTabsVisibility containers st
  | EvIconMutations mutations => iconObserverCallback mutations st
  | EvIconTimer parentTab => iconTimer parentTab st
  | EvCleanup page => snd (fst (Unload.cleanup page st))
  | EvCleanupTimer h => Unload.cleanupTimer h st
  end.

Definition runAll (offsetWidth : ComputedStyle -> string -> N) (Number : string -> number)
           (evs : list PluginEvent) (st : State) : State :=
  fold_left (stepAll offsetWidth Number) evs st.

(** All but a rebuild by the host. *)
Definition ownEvent (ev : PluginEvent) : Prop :=
  match ev with Core ev => notHost ev | _ => True end.

(** ** Sample data

    A probe that renders every character seven pixels wide, a reader for
    decimal integers in place of [Number], and a strip of two tabs.  The
    general statements below quantify over the probe and over [Number];
    these instances are what the concrete runs use. *)
Module Sample.

Definition offsetWidth (_ : ComputedStyle) (text : string) : N :=
  N.of_nat (7 * String.length text).

(** A second probe, five pixels per character. *)
Definition narrowProbe (_ : ComputedStyle) (text : string) : N :=
  N.of_nat (5 * String.length text).

Fixpoint digits (s : string) (acc : Z) : option Z :=
  match s with
  | EmptyString => Some acc
  | String c rest =>
      let n := Z.of_nat (Ascii.nat_of_ascii c) in
      if (48 <=? n)%Z && (n <=? 57)%Z then digits rest (10 * acc + (n - 48))%Z
      else None
  end.

(** [Number] on the empty string and on decimal integers with an optional
    minus sign; every other text is taken as not a number. *)
Definition Number (text : string) : number :=
  match text with
  | EmptyString => JS.of_Z 0
  | String "-"%char EmptyString => JS.NaN
  | String "-"%char rest =>
      match digits rest 0 with
      | Some z => JS.of_Z (- z)
      | None => JS.NaN
      end
  | _ =>
      match digits text 0 with
      | Some z => JS.of_Z z
      | None => JS.NaN
      end
  end.

Definition plain : ComputedStyle := mkStyle "13px sans-serif" "normal" "none" "400".

Definition tab (title : string) (classes : gset string) : Header :=
  mkHeader (Some (mkTitle title plain)) classes None false None true "".

Definition untitled : Header := mkHeader None ∅ None false None true "".

Definition pinned (e : Header) : Header :=
  mkHeader (titleElement e) (classList e) (headerWidth e) true
    (dataType e) (containerDisplayed e) (innerTransition e).

Definition strip (tabs : list Header) : Document :=
  mkDocument (list_to_map (zip (seq 0 (length tabs)) tabs))
             (seq 0 (length tabs)) ∅ ∅.

Definition workspaceFor (n : nat) : Workspace :=
  mkWorkspace (map (fun i => mkLeaf (100 + i) i) (seq 0 n)) None.

(** The plugin object before [onload] has run. *)
Definition fresh (s : PluginSettings) (tabs : list Header) : State :=
  mkState s None [] (strip tabs) (workspaceFor (length tabs))
          ∅ false false false false [] [] [].

(** A probe that only sees the font: six pixels per character. *)
Definition fontProbe (_ : string) (text : string) : N :=
  N.of_nat (6 * String.length text).

(** The plugin right after [onload], before its first frame. *)
Definition loaded (s : PluginSettings) (tabs : list Header) : State :=
  initialize
    (mkState s None [] (strip tabs) (workspaceFor (length tabs))
             ∅ false false false false [] [] []).

Definition twoTabs : list Header :=
  [ tab "Note1" {["is-active"]}; tab "A rather long title" ∅ ].

(** The same title twice, the inactive tab first. *)
Definition sameTitle : list Header :=
  [ tab "New tab" ∅; tab "New tab" {["is-active"]} ].

(** A pinned tab that still carries what an earlier pass wrote on it. *)
Definition pinnedTabs : list Header :=
  [ pinned (mkHeader (Some (mkTitle "Inbox" plain))
                     {["autofit-tab"; "autofit-max-width"]}
                     (Some (Px (JS.of_Z 150))) false None true "");
    tab "Note1" {["is-active"]} ].

Definition widthOf (h : HeaderId) (st : State) : option CssValue :=
  match get_header h st with
  | Some e => headerWidth e
  | None => None
  end.

Definition hasClass (c : string) (h : HeaderId) (st : State) : bool :=
  match get_header h st with
  | Some e => classList_contains c e
  | None => false
  end.

(** A pinned tab whose icon is still loading, with what an earlier pass
    wrote on it. *)
Definition loadingPinned : list Header :=
  [ pinned (mkHeader (Some (mkTitle "Inbox" plain))
                     {["autofit-tab"; "icon-loading"]}
                     (Some (Px (JS.of_Z 150))) false None true "");
    tab "Note1" {["is-active"]} ].

(** The pinned tab is the active one. *)
Definition activePinned : list Header :=
  [ pinned (tab "Inbox" {["is-active"]}); tab "Note1" ∅ ].

Definition events : list Event -> State -> State := run offsetWidth Number.

(** Start-up: the first frame pre-calculates and queues, the second reads,
    the third writes. *)
Definition started (s : PluginSettings) (tabs : list Header) : State :=
  events [EvFrame; EvFrame; EvFrame] (loaded s tabs).

Definition withMinMax (mn mx : Z) : PluginSettings :=
  set_prop PMaxWidth (JS.of_Z mx) (set_prop PMinWidth (JS.of_Z mn) DEFAULT_SETTINGS).

(** A settings field is changed and the save completes; the queued pass
    then runs in the next two frames. *)
Definition changeSetting (prop : NumericProp) (value : string) : list Event :=
  [EvInput prop value; EvSaveDone 0; EvFrame; EvFrame].

End Sample.

(** * Properties

    ** Facts about the numbers *)
Module JSFacts.
Import JS.

Lemma Qle_bool_false (x y : Q) : Qle_bool x y = false -> (y < x)%Q.
Proof.
  intros H. apply Qnot_le_lt. intros Hle.
  apply Qle_bool_iff in Hle. congruence.
Qed.

Ltac qbool :=
  repeat match goal with
    | H : Qle_bool _ _ = true |- _ => apply Qle_bool_iff in H
    | H : Qle_bool _ _ = false |- _ => apply Qle_bool_false in H
    | H : negb _ = true |- _ => apply negb_true_iff in H
    | H : negb _ = false |- _ => apply negb_false_iff in H
    | |- Qle_bool _ _ = true => apply Qle_bool_iff
    | |- negb _ = true => apply negb_true_iff
    end.

Lemma valid_inv a : valid a = true -> (exists q, a = Fin q /\ (0 <= q)%Q) \/ a = PosInf.
Proof.
  destruct a as [| |q|]; cbn; try discriminate; auto.
  intros H. left. exists q. split; [reflexivity|]. now apply Qle_bool_iff.
Qed.

Lemma valid_Fin q : (0 <= q)%Q -> valid (Fin q) = true.
Proof. intros H. cbn. now apply Qle_bool_iff. Qed.

Lemma le_refl a : isNaN a = false -> le a a = true.
Proof. destruct a; cbn; try discriminate; auto. intros _. apply Qle_bool_iff. lra. Qed.

Lemma le_not_nan a b : le a b = true -> isNaN a = false /\ isNaN b = false.
Proof. destruct a, b; cbn; try discriminate; auto. Qed.

Lemma le_trans a b c : le a b = true -> le b c = true -> le a c = true.
Proof.
  destruct a, b, c; cbn; try discriminate; auto.
  intros H1 H2. qbool. lra.
Qed.

Lemma le_total a b : isNaN a = false -> isNaN b = false -> le a b = false -> le b a = true.
Proof.
  destruct a, b; cbn; try discriminate; auto.
  intros _ _ H. qbool. lra.
Qed.

Lemma valid_not_nan a : valid a = true -> isNaN a = false.
Proof. destruct a; cbn; try discriminate; auto. Qed.

Lemma valid_add a b : valid a = true -> valid b = true -> valid (add a b) = true.
Proof.
  intros Ha Hb. destruct (valid_inv _ Ha) as [[x [-> Hx]]| ->],
    (valid_inv _ Hb) as [[y [-> Hy]]| ->]; cbn; auto.
  apply Qle_bool_iff. lra.
Qed.

Lemma add_mono_l a b c :
  valid a = true -> valid b = true -> valid c = true ->
  le a b = true -> le (add a c) (add b c) = true.
Proof.
  intros Ha Hb Hc.
  destruct (valid_inv _ Ha) as [[x [-> Hx]]| ->],
    (valid_inv _ Hb) as [[y [-> Hy]]| ->],
    (valid_inv _ Hc) as [[z [-> Hz]]| ->]; cbn; auto; try discriminate.
  intros H. qbool. lra.
Qed.

Lemma add_mono_r a b c :
  valid a = true -> valid b = true -> valid c = true ->
  le a b = true -> le (add c a) (add c b) = true.
Proof.
  intros Ha Hb Hc.
  destruct (valid_inv _ Ha) as [[x [-> Hx]]| ->],
    (valid_inv _ Hb) as [[y [-> Hy]]| ->],
    (valid_inv _ Hc) as [[z [-> Hz]]| ->]; cbn; auto; try discriminate.
  intros H. qbool. lra.
Qed.

Lemma max_cases a b :
  isNaN a = false -> isNaN b = false -> max a b = (if le a b then b else a).
Proof. destruct a, b; cbn; try discriminate; auto. Qed.

Lemma min_cases a b :
  isNaN a = false -> isNaN b = false -> min a b = (if le a b then a else b).
Proof. destruct a, b; cbn; try discriminate; auto. Qed.

Lemma valid_max a b : valid a = true -> valid b = true -> valid (max a b) = true.
Proof.
  intros Ha Hb. rewrite max_cases by now apply valid_not_nan.
  now destruct (le a b).
Qed.

Lemma max_ge_r a b : isNaN a = false -> isNaN b = false -> le b (max a b) = true.
Proof.
  intros Ha Hb. rewrite max_cases by assumption.
  destruct (le a b) eqn:E; [now apply le_refl | now apply le_total].
Qed.

Lemma max_ge_l a b : isNaN a = false -> isNaN b = false -> le a (max a b) = true.
Proof.
  intros Ha Hb. rewrite max_cases by assumption.
  destruct (le a b) eqn:E; [assumption | now apply le_refl].
Qed.

Lemma max_mono_l a b m :
  isNaN m = false -> le a b = true -> le (max a m) (max b m) = true.
Proof.
  intros Hm Hab. destruct (le_not_nan _ _ Hab) as [Ha Hb].
  rewrite (max_cases a m) by assumption.
  destruct (le a m) eqn:E.
  - now apply max_ge_r.
  - apply le_trans with b; [assumption | now apply max_ge_l].
Qed.

Lemma min_le_r a b : isNaN a = false -> isNaN b = false -> le (min a b) b = true.
Proof.
  intros Ha Hb. rewrite min_cases by assumption.
  destruct (le a b) eqn:E; [assumption | now apply le_refl].
Qed.

Lemma min_le_l a b : isNaN a = false -> isNaN b = false -> le (min a b) a = true.
Proof.
  intros Ha Hb. rewrite min_cases by assumption.
  destruct (le a b) eqn:E; [now apply le_refl | now apply le_total].
Qed.

Lemma min_glb a b c : le c a = true -> le c b = true -> le c (min a b) = true.
Proof.
  intros Ha Hb. destruct (le_not_nan _ _ Ha) as [_ Ha'], (le_not_nan _ _ Hb) as [_ Hb'].
  rewrite min_cases by assumption. now destruct (le a b).
Qed.

Lemma min_mono_l a b m :
  isNaN m = false -> le a b = true -> le (min a m) (min b m) = true.
Proof.
  intros Hm Hab. destruct (le_not_nan _ _ Hab) as [Ha Hb].
  apply min_glb.
  - apply le_trans with a; [now apply min_le_l | assumption].
  - now apply min_le_r.
Qed.

Lemma ceil_ge a : isNaN a = false -> le a (ceil a) = true.
Proof.
  destruct a; cbn; try discriminate; auto.
  intros _. apply Qle_bool_iff. apply Qle_ceiling.
Qed.

Lemma ceil_mono a b : le a b = true -> le (ceil a) (ceil b) = true.
Proof.
  destruct a, b; cbn; try discriminate; auto.
  intros H. qbool. rewrite <- Zle_Qle. now apply Qceiling_resp_le.
Qed.

Lemma valid_ceil a : valid a = true -> valid (ceil a) = true.
Proof.
  intros Ha. destruct (valid_inv _ Ha) as [[x [-> Hx]]| ->]; [|reflexivity].
  change (ceil (Fin x)) with (Fin (inject_Z (Qceiling x))).
  apply valid_Fin. eapply Qle_trans; [exact Hx | apply Qle_ceiling].
Qed.

Lemma gt_valid a : gt a zero = true -> valid a = true.
Proof.
  destruct a as [| |q|]; try discriminate; try reflexivity.
  change (gt (Fin q) zero) with (negb (Qle_bool q 0)).
  intros H. apply valid_Fin. qbool. lra.
Qed.

Lemma valid_of_N n : valid (of_Z (Z.of_N n)) = true.
Proof.
  apply valid_Fin. change 0%Q with (inject_Z 0). rewrite <- Zle_Qle. lia.
Qed.
End JSFacts.

(** ** The width calculator *)
Import JSFacts.

Section Calc.
Variable offsetWidth : ComputedStyle -> string -> N.

Lemma settings_valid_inv s :
  settings_valid s = true ->
  JS.valid (minWidth s) = true /\ JS.valid (leftPadding s) = true /\
  JS.valid (closeButtonLeftPadding s) = true /\
  JS.valid (closeButtonRightPadding s) = true /\
  JS.valid (transitionDuration s) = true /\ JS.valid (iconWidth s) = true /\
  JS.valid (maxWidth s) = true.
Proof.
  unfold settings_valid. rewrite !andb_true_iff. tauto.
Qed.

Lemma valid_iconSpaceNeeded s : JS.valid (iconSpaceNeeded s) = true.
Proof.
  unfold iconSpaceNeeded. destruct (hideTabIcons s); [reflexivity|].
  destruct (JS.gt (iconWidth s) JS.zero) eqn:E; [now apply gt_valid | reflexivity].
Qed.

Lemma valid_measureTextWidth st text t :
  JS.valid (measureTextWidth offsetWidth st text t) = true.
Proof.
  unfold measureTextWidth. destruct (measureElement st); [|reflexivity].
  cbn [negb]. apply valid_add; [|reflexivity].
  apply valid_ceil, valid_of_N.
Qed.

Lemma measureTextWidth_mono st ta tb a b :
  (offsetWidth (titleStyle a) ta <= offsetWidth (titleStyle b) tb)%N ->
  JS.le (measureTextWidth offsetWidth st ta a) (measureTextWidth offsetWidth st tb b) = true.
Proof.
  intros H. unfold measureTextWidth. destruct (measureElement st); [|reflexivity].
  cbn [negb]. apply add_mono_l; try reflexivity; try apply valid_ceil, valid_of_N.
  apply ceil_mono. unfold JS.of_Z, JS.le. apply Qle_bool_iff.
  rewrite <- Zle_Qle. lia.
Qed.

Lemma calculateHeaderWidth_eq st e t :
  titleElement e = Some t ->
  calculateHeaderWidth offsetWidth st e =
    let cw := calculatedWidth (settings st)
                (measureTextWidth offsetWidth st (textContent t) t) in
    if JS.gt (maxWidth (settings st)) JS.zero
    then JS.min cw (maxWidth (settings st)) else cw.
Proof. intros H. unfold calculateHeaderWidth. rewrite H. reflexivity. Qed.

Lemma valid_calculatedWidth s tw :
  settings_valid s = true -> JS.valid tw = true -> JS.valid (calculatedWidth s tw) = true.
Proof.
  intros Hs Htw. apply settings_valid_inv in Hs.
  destruct Hs as (Hmin & Hlp & Hcl & Hcr & _ & _ & _).
  unfold calculatedWidth. apply valid_ceil, valid_max; [|assumption].
  repeat apply valid_add; auto using valid_iconSpaceNeeded.
Qed.

Lemma calculatedWidth_ge_min s tw :
  settings_valid s = true -> JS.valid tw = true ->
  JS.le (minWidth s) (calculatedWidth s tw) = true.
Proof.
  intros Hs Htw. pose proof (settings_valid_inv _ Hs) as (Hmin & Hlp & Hcl & Hcr & _ & _ & _).
  unfold calculatedWidth.
  eapply le_trans; [|apply ceil_ge].
  - apply max_ge_r; [|now apply valid_not_nan].
    apply valid_not_nan. repeat apply valid_add; auto using valid_iconSpaceNeeded.
  - apply valid_not_nan, valid_max; [|assumption].
    repeat apply valid_add; auto using valid_iconSpaceNeeded.
Qed.

Lemma calculatedWidth_mono s a b :
  settings_valid s = true -> JS.valid a = true -> JS.valid b = true ->
  JS.le a b = true -> JS.le (calculatedWidth s a) (calculatedWidth s b) = true.
Proof.
  intros Hs Ha Hb Hab. pose proof (settings_valid_inv _ Hs) as (Hmin & Hlp & Hcl & Hcr & _ & _ & _).
  unfold calculatedWidth. apply ceil_mono, max_mono_l; [now apply valid_not_nan|].
  repeat (apply add_mono_l; repeat apply valid_add; auto using valid_iconSpaceNeeded).
  apply add_mono_r; repeat apply valid_add; auto using valid_iconSpaceNeeded.
Qed.

Lemma calculateHeaderWidth_valid st e :
  settings_valid (settings st) = true ->
  JS.valid (calculateHeaderWidth offsetWidth st e) = true.
Proof.
  intros Hs. pose proof (settings_valid_inv _ Hs) as (Hmin & _ & _ & _ & _ & _ & Hmax).
  destruct (titleElement e) as [t|] eqn:Ht.
  - rewrite (calculateHeaderWidth_eq _ _ _ Ht). cbv zeta.
    pose proof (valid_calculatedWidth _ _ Hs (valid_measureTextWidth st (textContent t) t)) as Hu.
    destruct (JS.gt _ _); [|assumption].
    rewrite min_cases by now apply valid_not_nan. now destruct (JS.le _ _).
  - unfold calculateHeaderWidth. now rewrite Ht.
Qed.

Lemma calculateHeaderWidth_le_max st e :
  settings_valid (settings st) = true ->
  JS.gt (maxWidth (settings st)) JS.zero = true ->
  titleElement e <> None ->
  JS.le (calculateHeaderWidth offsetWidth st e) (maxWidth (settings st)) = true.
Proof.
  intros Hs Hgt Ht. destruct (titleElement e) as [t|] eqn:E; [|congruence].
  rewrite (calculateHeaderWidth_eq _ _ _ E). cbv zeta. rewrite Hgt.
  apply min_le_r.
  - apply valid_not_nan, valid_calculatedWidth; auto using valid_measureTextWidth.
  - apply valid_not_nan, gt_valid, Hgt.
Qed.

Lemma calculateHeaderWidth_ge_min st e :
  settings_valid (settings st) = true ->
  JS.gt (maxWidth (settings st)) JS.zero = false
  \/ JS.le (minWidth (settings st)) (maxWidth (settings st)) = true ->
  JS.ge (calculateHeaderWidth offsetWidth st e) (minWidth (settings st)) = true.
Proof.
  intros Hs Hor. unfold JS.ge.
  pose proof (settings_valid_inv _ Hs) as (Hmin & _).
  destruct (titleElement e) as [t|] eqn:E.
  - rewrite (calculateHeaderWidth_eq _ _ _ E). cbv zeta.
    pose proof (calculatedWidth_ge_min _ _ Hs
                  (valid_measureTextWidth st (textContent t) t)) as Hge.
    destruct (JS.gt (maxWidth (settings st)) JS.zero) eqn:Hgt; [|assumption].
    destruct Hor as [Hor|Hor]; [discriminate|]. now apply min_glb.
  - unfold calculateHeaderWidth. rewrite E. now apply le_refl, valid_not_nan.
Qed.

Lemma calculateHeaderWidth_le_max_all st e :
  settings_valid (settings st) = true ->
  JS.gt (maxWidth (settings st)) JS.zero = true ->
  JS.le (minWidth (settings st)) (maxWidth (settings st)) = true ->
  JS.le (calculateHeaderWidth offsetWidth st e) (maxWidth (settings st)) = true.
Proof.
  intros Hs Hgt Hle. destruct (titleElement e) as [t|] eqn:E.
  - apply calculateHeaderWidth_le_max; auto. congruence.
  - unfold calculateHeaderWidth. now rewrite E.
Qed.

Lemma calculateHeaderWidth_mono st ea eb ta tb :
  settings_valid (settings st) = true ->
  titleElement ea = Some ta -> titleElement eb = Some tb ->
  JS.le (measureTextWidth offsetWidth st (textContent ta) ta)
        (measureTextWidth offsetWidth st (textContent tb) tb) = true ->
  JS.le (calculateHeaderWidth offsetWidth st ea)
        (calculateHeaderWidth offsetWidth st eb) = true.
Proof.
  intros Hs Ha Hb Hle.
  rewrite (calculateHeaderWidth_eq _ _ _ Ha), (calculateHeaderWidth_eq _ _ _ Hb).
  cbv zeta.
  assert (Hm : JS.le (calculatedWidth (settings st)
                        (measureTextWidth offsetWidth st (textContent ta) ta))
                     (calculatedWidth (settings st)
                        (measureTextWidth offsetWidth st (textContent tb) tb)) = true).
  { apply calculatedWidth_mono; auto using valid_measureTextWidth. }
  destruct (JS.gt (maxWidth (settings st)) JS.zero) eqn:Hgt; [|assumption].
  apply min_mono_l; [|assumption]. apply valid_not_nan, gt_valid, Hgt.
Qed.

(** The earlier revision: the same bounds, by the same argument. *)
Lemma Legacy_width_within_bounds (s : Legacy.PluginSettings) (m : bool) (e : Header) :
  Legacy.settings_valid s = true ->
  JS.gt (Legacy.maxWidth s) JS.zero = false
  \/ JS.le (Legacy.minWidth s) (Legacy.maxWidth s) = true ->
  JS.ge (Legacy.calculateHeaderWidth offsetWidth s m e) (Legacy.minWidth s) = true
  /\ (JS.gt (Legacy.maxWidth s) JS.zero = true ->
      JS.le (Legacy.calculateHeaderWidth offsetWidth s m e) (Legacy.maxWidth s) = true).
Proof.
  intros Hs Hor. unfold Legacy.settings_valid in Hs. rewrite !andb_true_iff in Hs.
  destruct Hs as ((((((Hmin & Hcw) & Hlp) & Hirm) & Hcp) & Hiw) & Hmax).
  unfold JS.ge, Legacy.calculateHeaderWidth.
  destruct (titleElement e) as [t|].
  - cbv zeta.
    set (tw := Legacy.measureTextWidth offsetWidth m (textContent t) t).
    assert (Htw : JS.valid tw = true).
    { unfold tw, Legacy.measureTextWidth. destruct m; [|reflexivity].
      cbn [negb]. apply valid_add; [|reflexivity]. apply valid_ceil, valid_of_N. }
    assert (Hsum : JS.valid
                     (JS.add (JS.add (JS.add (JS.add (JS.add (Legacy.leftPadding s)
                                                             (Legacy.iconWidth s))
                                                     (Legacy.iconRightMargin s)) tw)
                                     (Legacy.closeButtonPadding s))
                             (Legacy.closeButtonWidth s)) = true)
      by (repeat apply valid_add; assumption).
    assert (Hcw' : JS.valid (Legacy.calculatedWidth s tw) = true)
      by (apply valid_ceil, valid_max; assumption).
    assert (Hge : JS.le (Legacy.minWidth s) (Legacy.calculatedWidth s tw) = true).
    { unfold Legacy.calculatedWidth. eapply le_trans; [|apply ceil_ge].
      - apply max_ge_r; now apply valid_not_nan.
      - apply valid_not_nan, valid_max; assumption. }
    destruct (JS.gt (Legacy.maxWidth s) JS.zero) eqn:Hgt.
    + destruct Hor as [Hor|Hor]; [discriminate|]. split.
      * now apply min_glb.
      * intros _. apply min_le_r; now apply valid_not_nan.
    + split; [exact Hge | discriminate].
  - split; [now apply le_refl, valid_not_nan|].
    intros Hgt. destruct Hor as [Hor|Hor]; [congruence | exact Hor].
Qed.

(** C9.  A tab header without a title element gets exactly the configured
    minimum width, in the current revision of the calculator and in the
    earlier one; the calculator is a total function, so nothing is raised. *)
Theorem C9_missing_title_yields_minWidth (st : State) (e : Header) :
  titleElement e = None ->
  calculateHeaderWidth offsetWidth st e = minWidth (settings st)
  /\ forall (s : Legacy.PluginSettings) (measureElement : bool),
       Legacy.calculateHeaderWidth offsetWidth s measureElement e = Legacy.minWidth s.
Proof.
  intros H. split.
  - unfold calculateHeaderWidth. now rewrite H.
  - intros s m. unfold Legacy.calculateHeaderWidth. now rewrite H.
Qed.

(** C6.  For fixed (validated) settings the computed width is monotone in
    the measured width of the title text: if the title of [ea] is measured
    no wider than the title of [eb] (in the probe, or by [measureTextWidth],
    which adds the same buffer to both), then the width computed for [ea]
    is at most the width computed for [eb].  The maximum-width clamp keeps
    the order: both sides may saturate at [maxWidth]. *)
Theorem C6_width_monotone_in_text_width (st : State) (ea eb : Header)
        (ta tb : TitleElement) :
  settings_valid (settings st) = true ->
  titleElement ea = Some ta ->
  titleElement eb = Some tb ->
  (offsetWidth (titleStyle ta) (textContent ta)
   <= offsetWidth (titleStyle tb) (textContent tb))%N
  \/ JS.le (measureTextWidth offsetWidth st (textContent ta) ta)
           (measureTextWidth offsetWidth st (textContent tb) tb) = true ->
  JS.le (calculateHeaderWidth offsetWidth st ea)
        (calculateHeaderWidth offsetWidth st eb) = true.
Proof.
  intros Hs Ha Hb Hle.
  assert (Hm : JS.le (measureTextWidth offsetWidth st (textContent ta) ta)
                     (measureTextWidth offsetWidth st (textContent tb) tb) = true).
  { destruct Hle as [Hle|Hle]; [now apply measureTextWidth_mono | exact Hle]. }
  exact (calculateHeaderWidth_mono st ea eb ta tb Hs Ha Hb Hm).
Qed.

Lemma Qceiling_inject (z : Z) : Qceiling (inject_Z z) = z.
Proof. apply Qceiling_Z. Qed.

Lemma example_measure st t :
  measureElement st = true ->
  measureTextWidth offsetWidth st (textContent t) t
  = JS.of_Z (Z.of_N (offsetWidth (titleStyle t) (textContent t)) + 5).
Proof.
  intros Hm. unfold measureTextWidth. rewrite Hm. cbn [negb].
  unfold JS.of_Z, JS.ceil, JS.add. rewrite Qceiling_inject.
  f_equal. unfold inject_Z, Qplus. cbn [Qnum Qden]. f_equal. lia.
Qed.

(** C2 (amended).  With the maximum width disabled, the width of a titled
    header is [ceil (max (leftPadding + iconSpace + textWidth +
    closeButtonLeftPadding + closeButtonRightPadding) minWidth)], where
    [textWidth] is what [measureTextWidth] returns: the width [n] at which
    the text renders in the probe plus a buffer of 5.  With minWidth 40,
    leftPadding 12, closeButtonLeftPadding 30, closeButtonRightPadding 8,
    iconWidth 20 and icons shown, that is 12 + 20 + (n + 5) + 30 + 8: a
    title rendering at 35px gets 110, and the width is 105 exactly when the
    measured text width, buffer included, is 35. *)
Theorem C2_width_formula (st : State) (e : Header) (t : TitleElement) :
  measureElement st = true ->
  titleElement e = Some t ->
  JS.gt (maxWidth (settings st)) JS.zero = false ->
  let s := settings st in
  let n := Z.of_N (offsetWidth (titleStyle t) (textContent t)) in
  measureTextWidth offsetWidth st (textContent t) t = JS.of_Z (n + 5)
  /\ calculateHeaderWidth offsetWidth st e
     = JS.ceil (JS.max
                  (JS.add (JS.add (JS.add (JS.add (leftPadding s) (iconSpaceNeeded s))
                                          (JS.of_Z (n + 5)))
                                  (closeButtonLeftPadding s))
                          (closeButtonRightPadding s))
                  (minWidth s))
  /\ (exampleSettings s ->
      calculateHeaderWidth offsetWidth st e = JS.of_Z (12 + 20 + (n + 5) + 30 + 8)
      /\ (n = 35%Z -> calculateHeaderWidth offsetWidth st e = JS.of_Z 110)
      /\ (calculateHeaderWidth offsetWidth st e = JS.of_Z 105 <-> (n + 5 = 35)%Z)).
Proof.
  intros Hm Ht Hmax s n. subst s.
  pose proof (example_measure st t Hm) as Hmeasure. fold n in Hmeasure.
  assert (Hformula :
            calculateHeaderWidth offsetWidth st e
            = JS.ceil (JS.max
                         (JS.add (JS.add (JS.add (JS.add (leftPadding (settings st))
                                                         (iconSpaceNeeded (settings st)))
                                                 (JS.of_Z (n + 5)))
                                         (closeButtonLeftPadding (settings st)))
                                 (closeButtonRightPadding (settings st)))
                         (minWidth (settings st)))).
  { rewrite (calculateHeaderWidth_eq _ _ _ Ht). cbv zeta.
    rewrite Hmax, Hmeasure. reflexivity. }
  split; [exact Hmeasure|]. split; [exact Hformula|].
  intros (Hmin & Hlp & Hcl & Hcr & Hiw & Hhide & _).
  assert (Hn : (0 <= n)%Z) by (unfold n; lia).
  assert (Hcalc : calculateHeaderWidth offsetWidth st e
                  = JS.of_Z (12 + 20 + (n + 5) + 30 + 8)).
  { rewrite Hformula. unfold iconSpaceNeeded.
    rewrite Hmin, Hlp, Hcl, Hcr, Hiw, Hhide.
    change (JS.gt (JS.of_Z 20) JS.zero) with true. cbv iota.
    unfold JS.of_Z. cbn [JS.add].
    assert (Hsum : (inject_Z 12 + inject_Z 20 + inject_Z (n + 5) + inject_Z 30
                    + inject_Z 8 == inject_Z (12 + 20 + (n + 5) + 30 + 8))%Q).
    { rewrite !inject_Z_plus. reflexivity. }
    assert (Hbig : JS.le (JS.Fin (inject_Z 12 + inject_Z 20 + inject_Z (n + 5)
                                  + inject_Z 30 + inject_Z 8))
                         (JS.Fin (inject_Z 40)) = false).
    { cbn [JS.le]. apply not_true_is_false. intros H.
      apply Qle_bool_iff in H. rewrite Hsum in H.
      rewrite <- Zle_Qle in H. lia. }
    cbn [JS.max JS.isNaN]. rewrite Hbig. cbn [JS.ceil].
    rewrite (Qceiling_comp _ _ Hsum), Qceiling_inject. reflexivity. }
  split; [exact Hcalc|]. split.
  - intros Hn35. rewrite Hcalc, Hn35. reflexivity.
  - rewrite Hcalc. unfold JS.of_Z. split.
    + intros H. injection H as H. lia.
    + intros H. do 2 f_equal. lia.
Qed.

End Calc.

(** ** The recalculation pass *)

(** Setters and projections of [Header], evaluated innermost first. *)
Ltac header_eval :=
  cbv [clearAutofit applyWidth set_headerWidth classList_add classList_remove
       set_innerTransition titleElement classList headerWidth pinnedIcon dataType
       containerDisplayed innerTransition].

Section Pass.
Variable offsetWidth : ComputedStyle -> string -> N.


Lemma headerDataOf_eq st :
  headerDataOf offsetWidth st
  = map (entryOf offsetWidth st) (List.filter (fun he => adjustable (snd he)) (getAllHeaders st)).
Proof. unfold headerDataOf. now rewrite map_map. Qed.

Lemma in_getAllHeaders st h e :
  In (h, e) (getAllHeaders st)
  <-> In h (mainHeaders (document st)) /\ get_header h st = Some e.
Proof.
  unfold getAllHeaders. rewrite <- !list_elem_of_In, list_elem_of_omap. split.
  - intros (x & Hx & Heq). destruct (get_header x st) eqn:E; [|discriminate].
    injection Heq as <- <-. now split.
  - intros [Hin Hget]. exists h. split; [assumption|]. now rewrite Hget.
Qed.

Lemma recalcHeader_fields st d :
  let d' := recalcHeader offsetWidth st d in
  header d' = header d /\ headerKey d' = headerKey d /\ isPinned d' = isPinned d
  /\ isWebLink d' = isWebLink d /\ isActive d' = isActive d.
Proof.
  unfold recalcHeader. destruct (_ && _); [|tauto].
  destruct (get_header _ st); cbn; tauto.
Qed.

Lemma header_entryOf st he : header (entryOf offsetWidth st he) = fst he.
Proof. unfold entryOf. now rewrite (proj1 (recalcHeader_fields st _)). Qed.

Lemma skipped_entryOf st he :
  skipped (entryOf offsetWidth st he) = leftToHost (settings st) (snd he).
Proof.
  unfold skipped, entryOf, leftToHost.
  destruct (recalcHeader_fields st (readHeader st he)) as (_ & _ & -> & -> & _).
  cbn. now destruct (ignorePinnedTabs _), (ignoreWebLinks _).
Qed.

Lemma headerKey_entryOf st he :
  headerKey (entryOf offsetWidth st he) = getHeaderKey (snd he).
Proof.
  unfold entryOf.
  now destruct (recalcHeader_fields st (readHeader st he)) as (_ & -> & _).
Qed.

Lemma isActive_entryOf st he :
  isActive (entryOf offsetWidth st he) = classList_contains "is-active" (snd he).
Proof.
  unfold entryOf.
  now destruct (recalcHeader_fields st (readHeader st he)) as (_ & _ & _ & _ & ->).
Qed.

(** The width an entry carries into the write batch: recalculated when the
    title is not cached or the tab is active, the cached width otherwise. *)
Lemma cachedWidth_entryOf st h e :
  get_header h st = Some e ->
  skipped (entryOf offsetWidth st (h, e)) = false ->
  cachedWidth (entryOf offsetWidth st (h, e))
  = match tabWidthCache st !! getHeaderKey e with
    | Some w => if classList_contains "is-active" e
                then Some (calculateHeaderWidth offsetWidth st e) else Some w
    | None => Some (calculateHeaderWidth offsetWidth st e)
    end.
Proof.
  intros Hget Hskip. unfold skipped in Hskip. unfold entryOf in *.
  destruct (recalcHeader_fields st (readHeader st (h, e))) as (_ & _ & Hp & Hw & _).
  rewrite Hp, Hw in Hskip. apply orb_false_iff in Hskip. destruct Hskip as [Hp' Hw'].
  unfold recalcHeader. rewrite Hp', Hw'. cbn [negb]. rewrite !andb_true_r.
  unfold readHeader at 1 2 3. cbn [needsRecalc header fst snd].
  rewrite Hget.
  destruct (tabWidthCache st !! getHeaderKey e) eqn:Hc.
  - destruct (classList_contains "is-active" e); [reflexivity|].
    unfold readHeader. cbn. now rewrite Hc.
  - reflexivity.
Qed.

Lemma in_headerDataOf st d :
  In d (headerDataOf offsetWidth st)
  <-> exists h e, In h (mainHeaders (document st)) /\ get_header h st = Some e
                  /\ adjustable e = true /\ d = entryOf offsetWidth st (h, e).
Proof.
  rewrite headerDataOf_eq, in_map_iff. split.
  - intros ([h e] & <- & Hin). apply filter_In in Hin. destruct Hin as [Hin Hadj].
    apply in_getAllHeaders in Hin. exists h, e. tauto.
  - intros (h & e & Hin & Hget & Hadj & ->). exists (h, e). split; [reflexivity|].
    apply filter_In. split; [|assumption]. now apply in_getAllHeaders.
Qed.

(** After the read batch every entry that will be written has a width. *)
Lemma headerDataOf_width st d :
  In d (headerDataOf offsetWidth st) -> skipped d = false -> is_Some (cachedWidth d).
Proof.
  intros Hin Hskip. apply in_headerDataOf in Hin.
  destruct Hin as (h & e & _ & Hget & _ & ->).
  rewrite (cachedWidth_entryOf _ _ _ Hget Hskip).
  destruct (tabWidthCache st !! getHeaderKey e); [|eauto].
  destruct (classList_contains "is-active" e); eauto.
Qed.

(** *** The write batch, element by element *)

Lemma writeHeader_lookup s acc d h :
  tabElements (wDocument (writeHeader s acc d)) !! h
  = if decide (header d = h)
    then elemWrite s d <$> (tabElements (wDocument acc) !! h)
    else tabElements (wDocument acc) !! h.
Proof.
  unfold writeHeader, elemWrite, skipped.
  destruct (isPinned d || isWebLink d).
  - cbn. rewrite lookup_alter. destruct (decide (header d = h)); now subst.
  - destruct (cachedWidth d).
    + cbn. rewrite lookup_alter. destruct (decide (header d = h)); now subst.
    + destruct (decide (header d = h)); [|reflexivity].
      now destruct (tabElements (wDocument acc) !! h).
Qed.

Lemma writeAll_lookup_gen s data acc h :
  tabElements (wDocument (fold_left (writeHeader s) data acc)) !! h
  = fold_left (fun o d => if decide (header d = h) then elemWrite s d <$> o else o)
              data (tabElements (wDocument acc) !! h).
Proof.
  revert acc. induction data as [|d data IH]; intros acc; [reflexivity|].
  cbn [fold_left]. now rewrite IH, writeHeader_lookup.
Qed.

(** When every entry for [h] writes the same idempotent [f], the batch
    leaves [f] applied once, or nothing if no entry names [h]. *)
Lemma fold_same_write s data h (f : Header -> Header) (o : option Header) :
  (forall d, In d data -> header d = h -> forall e, elemWrite s d e = f e) ->
  (forall e, f (f e) = f e) ->
  fold_left (fun o d => if decide (header d = h) then elemWrite s d <$> o else o) data o
  = (if existsb (fun d => Nat.eqb (header d) h) data then f <$> o else o)
  /\ fold_left (fun o d => if decide (header d = h) then elemWrite s d <$> o else o)
               data (f <$> o) = f <$> o.
Proof.
  intros Hsame Hidem. revert o. induction data as [|d data IH]; intros o.
  - now split.
  - assert (Hd : forall d', In d' data -> header d' = h ->
                            forall e, elemWrite s d' e = f e)
      by (intros d' Hin; apply Hsame; now right).
    specialize (IH Hd). cbn [fold_left existsb].
    destruct (decide (header d = h)) as [Heq|Hne].
    + assert (Hf : forall o' : option Header, elemWrite s d <$> o' = f <$> o').
      { intros [e|]; cbn; [|reflexivity]. f_equal. apply Hsame; auto. now left. }
      rewrite !Hf. rewrite (proj2 (Nat.eqb_eq _ _) Heq). cbn [orb].
      assert (Hff : f <$> (f <$> o) = f <$> o).
      { destruct o as [e|]; cbn; [|reflexivity]. now rewrite Hidem. }
      rewrite Hff. split; apply (IH o).
    + rewrite (proj2 (Nat.eqb_neq _ _) Hne). cbn [orb]. apply IH.
Qed.

Lemma remove2_idem (X : gset string) (a b : string) :
  X ∖ {[a]} ∖ {[b]} ∖ {[a]} ∖ {[b]} = X ∖ {[a]} ∖ {[b]}.
Proof. set_solver. Qed.

Lemma add2_idem (X : gset string) (a b : string) :
  {[b]} ∪ ({[a]} ∪ ({[b]} ∪ ({[a]} ∪ X))) = {[b]} ∪ ({[a]} ∪ X).
Proof. set_solver. Qed.

Lemma add_remove_idem (X : gset string) (a b : string) :
  ({[a]} ∪ (({[a]} ∪ X) ∖ {[b]})) ∖ {[b]} = ({[a]} ∪ X) ∖ {[b]}.
Proof. set_solver. Qed.

Lemma clearAutofit_idem e : clearAutofit (clearAutofit e) = clearAutofit e.
Proof. destruct e. header_eval. f_equal. apply remove2_idem. Qed.

Lemma applyWidth_idem s w e : applyWidth s w (applyWidth s w e) = applyWidth s w e.
Proof.
  destruct e. header_eval.
  destruct (JS.gt (maxWidth s) JS.zero && JS.ge w (maxWidth s)); f_equal.
  - apply add2_idem.
  - apply add_remove_idem.
Qed.

Lemma elemWrite_idem s d e : elemWrite s d (elemWrite s d e) = elemWrite s d e.
Proof.
  unfold elemWrite. destruct (skipped d); [apply clearAutofit_idem|].
  destruct (cachedWidth d); [apply applyWidth_idem | reflexivity].
Qed.

Lemma document_writeHeaders data st :
  document (writeHeaders data st)
  = wDocument (writeAll (settings st) (document st) data).
Proof.
  unfold writeHeaders.
  destruct (activeHeader _); [reflexivity|].
  unfold updateTabsVisibility. cbn. now destruct (isResetting st).
Qed.

Lemma tabWidthCache_writeHeaders data st :
  tabWidthCache (writeHeaders data st)
  = newCache (writeAll (settings st) (document st) data).
Proof.
  unfold writeHeaders.
  destruct (activeHeader _); [reflexivity|].
  unfold updateTabsVisibility. cbn. now destruct (isResetting st).
Qed.

Lemma existsb_header_data st h e :
  get_header h st = Some e ->
  existsb (fun d => Nat.eqb (header d) h) (headerDataOf offsetWidth st)
  = bool_decide (h ∈ mainHeaders (document st)) && adjustable e.
Proof.
  intros Hget. apply eq_true_iff_eq. rewrite existsb_exists, andb_true_iff.
  rewrite bool_decide_eq_true, list_elem_of_In. split.
  - intros (d & Hin & Heq). apply Nat.eqb_eq in Heq.
    apply in_headerDataOf in Hin. destruct Hin as (h' & e' & Hin & Hget' & Hadj & ->).
    rewrite header_entryOf in Heq. cbn in Heq. subst h'.
    rewrite Hget in Hget'. injection Hget' as <-. tauto.
  - intros [Hin Hadj]. exists (entryOf offsetWidth st (h, e)). split.
    + apply in_headerDataOf. eauto 6.
    + rewrite header_entryOf. apply Nat.eqb_refl.
Qed.

(** A pass rewrites each main-area header that passes its filter with the
    write of that header's entry, and leaves every other element alone. *)
Lemma pass_lookup st h :
  get_header h (recalculationPass offsetWidth st)
  = match get_header h st with
    | Some e =>
        Some (if bool_decide (h ∈ mainHeaders (document st)) && adjustable e
              then elemWrite (settings st) (entryOf offsetWidth st (h, e)) e
              else e)
    | None => None
    end.
Proof.
  unfold recalculationPass, get_header at 1.
  rewrite document_writeHeaders. unfold writeAll. rewrite writeAll_lookup_gen.
  cbn [wDocument]. fold (get_header h st).
  destruct (get_header h st) as [e|] eqn:Hget.
  - destruct (fold_same_write (settings st) (headerDataOf offsetWidth st) h
                (elemWrite (settings st) (entryOf offsetWidth st (h, e))) (Some e)) as [-> _].
    + intros d Hin Heq e0. apply in_headerDataOf in Hin.
      destruct Hin as (h' & e' & _ & Hget' & _ & ->).
      rewrite header_entryOf in Heq. cbn in Heq. subst h'.
      rewrite Hget in Hget'. now injection Hget' as <-.
    + apply elemWrite_idem.
    + rewrite (existsb_header_data _ _ _ Hget). now destruct (_ && _).
  - generalize (headerDataOf offsetWidth st). intros l. induction l as [|d l IH]; [reflexivity|].
    cbn [fold_left]. now destruct (decide (header d = h)).
Qed.

(** *** The write batch, the cache *)

Lemma newCache_fold s data acc :
  newCache (fold_left (writeHeader s) data acc)
  = fold_left (fun m d =>
                 if skipped d then m
                 else match cachedWidth d with
                      | None => m
                      | Some width => <[headerKey d := width]> m
                      end) data (newCache acc).
Proof.
  revert acc. induction data as [|d data IH]; intros acc; [reflexivity|].
  cbn [fold_left]. rewrite IH. f_equal.
  unfold writeHeader, skipped. destruct (isPinned d || isWebLink d); [reflexivity|].
  now destruct (cachedWidth d).
Qed.

Lemma pass_cache st :
  tabWidthCache (recalculationPass offsetWidth st) = cacheOf (headerDataOf offsetWidth st).
Proof.
  unfold recalculationPass. rewrite tabWidthCache_writeHeaders.
  unfold writeAll. now rewrite newCache_fold.
Qed.

Lemma cacheOf_gen_lookup data (m : gmap string number) k w :
  fold_left (fun m d =>
               if skipped d then m
               else match cachedWidth d with
                    | None => m
                    | Some width => <[headerKey d := width]> m
                    end) data m !! k = Some w ->
  m !! k = Some w
  \/ exists d, In d data /\ skipped d = false /\ headerKey d = k
               /\ cachedWidth d = Some w.
Proof.
  revert m. induction data as [|d data IH]; intros m H; [now left|].
  cbn [fold_left] in H. apply IH in H. destruct H as [H|(d' & Hin & H)].
  - destruct (skipped d) eqn:Hs; [now left|].
    destruct (cachedWidth d) as [w'|] eqn:Hw; [|now left].
    destruct (decide (headerKey d = k)) as [Heq|Hne].
    + subst k. rewrite lookup_insert_eq in H. injection H as ->.
      right. exists d. cbn. tauto.
    + rewrite lookup_insert_ne in H by assumption. now left.
  - right. exists d'. cbn. tauto.
Qed.

(** Every entry of the rebuilt cache was written for a header that is
    neither pinned nor a web viewer. *)
Lemma cacheOf_lookup data k w :
  cacheOf data !! k = Some w ->
  exists d, In d data /\ skipped d = false /\ headerKey d = k /\ cachedWidth d = Some w.
Proof.
  intros H. apply cacheOf_gen_lookup in H. destruct H as [H|H]; [|exact H].
  rewrite lookup_empty in H. discriminate.
Qed.

End Pass.

(** ** What a pass leaves on a header *)

Section PassResults.
Variable offsetWidth : ComputedStyle -> string -> N.
Variable Number : string -> number.

Lemma headerWidth_applyWidth s w e :
  headerWidth (applyWidth s w e) = Some (Px (appliedWidth s w)).
Proof.
  destruct e. unfold appliedWidth. header_eval.
  now destruct (JS.gt (maxWidth s) JS.zero && JS.ge w (maxWidth s)).
Qed.

Lemma not_in_remove_l (X : gset string) (a b : string) : a ∉ (X ∖ {[a]} ∖ {[b]}).
Proof. set_solver. Qed.

Lemma not_in_remove_r (X : gset string) (a b : string) : b ∉ (X ∖ {[a]} ∖ {[b]}).
Proof. set_solver. Qed.

Lemma clearAutofit_spec e :
  let e' := clearAutofit e in
  ("autofit-tab" ∉ classList e') /\ ("autofit-max-width" ∉ classList e')
  /\ headerWidth e' = None /\ titleElement e' = titleElement e.
Proof.
  destruct e. header_eval. split; [apply not_in_remove_l|].
  split; [apply not_in_remove_r|]. now split.
Qed.

Lemma valid_add_20 m : JS.valid m = true -> JS.le m (JS.add m (JS.of_Z 20)) = true.
Proof.
  intros Hm. destruct (valid_inv _ Hm) as [[q [-> Hq]]| ->]; [|reflexivity].
  unfold JS.of_Z. cbn [JS.add JS.le]. apply Qle_bool_iff.
  change (inject_Z 20) with 20%Q. lra.
Qed.

(** A width within the maximum is written as it is. *)
Lemma appliedWidth_within s w :
  (JS.gt (maxWidth s) JS.zero = true -> JS.le w (maxWidth s) = true) ->
  appliedWidth s w = w.
Proof.
  intros H. unfold appliedWidth.
  destruct (JS.gt (maxWidth s) JS.zero) eqn:Hgt; [|reflexivity].
  destruct (JS.ge w (maxWidth s)); [|reflexivity]. cbn [andb].
  specialize (H eq_refl). pose proof (le_not_nan _ _ H) as [Hw Hm].
  assert (Hle : JS.le w (JS.add (maxWidth s) (JS.of_Z 20)) = true).
  { eapply le_trans; [exact H|]. apply valid_add_20, gt_valid, Hgt. }
  rewrite min_cases; [now rewrite Hle | assumption |].
  now apply le_not_nan in Hle.
Qed.


(** The header a pass writes, for a header it does not leave to the host. *)
Lemma pass_written st h e :
  get_header h st = Some e ->
  h ∈ mainHeaders (document st) ->
  adjustable e = true ->
  leftToHost (settings st) e = false ->
  exists w,
    cachedWidth (entryOf offsetWidth st (h, e)) = Some w
    /\ get_header h (recalculationPass offsetWidth st)
       = Some (applyWidth (settings st) w e).
Proof.
  intros Hget Hin Hadj Hhost.
  assert (Hskip : skipped (entryOf offsetWidth st (h, e)) = false)
    by now rewrite skipped_entryOf.
  destruct (headerDataOf_width offsetWidth st (entryOf offsetWidth st (h, e)))
    as [w Hw]; [|assumption|].
  { apply in_headerDataOf. exists h, e. rewrite <- list_elem_of_In. tauto. }
  exists w. split; [assumption|].
  rewrite pass_lookup, Hget, Hadj, bool_decide_true by assumption. cbn [andb].
  unfold elemWrite. now rewrite Hskip, Hw.
Qed.

Lemma pass_left_to_host st h e :
  get_header h st = Some e ->
  h ∈ mainHeaders (document st) ->
  adjustable e = true ->
  leftToHost (settings st) e = true ->
  get_header h (recalculationPass offsetWidth st) = Some (clearAutofit e).
Proof.
  intros Hget Hin Hadj Hhost.
  rewrite pass_lookup, Hget, Hadj, bool_decide_true by assumption. cbn [andb].
  unfold elemWrite. rewrite skipped_entryOf. cbn [snd]. now rewrite Hhost.
Qed.

(** C1 (amended).  For settings whose numeric fields are valid and whose
    maximum width is disabled or not below the minimum width, the width
    [calculateHeaderWidth] computes for any tab header is at least
    [minWidth] and, when [maxWidth > 0], at most [maxWidth]; and a
    recalculation pass writes exactly that width into [--header-width] of
    every header it recalculates (title not in the cache, or active tab). *)
Theorem C1_width_within_bounds (st : State) (e : Header) :
  settings_valid (settings st) = true ->
  JS.gt (maxWidth (settings st)) JS.zero = false
  \/ JS.le (minWidth (settings st)) (maxWidth (settings st)) = true ->
  JS.ge (calculateHeaderWidth offsetWidth st e) (minWidth (settings st)) = true
  /\ (JS.gt (maxWidth (settings st)) JS.zero = true ->
      JS.le (calculateHeaderWidth offsetWidth st e) (maxWidth (settings st)) = true)
  /\ (forall h,
         get_header h st = Some e ->
         h ∈ mainHeaders (document st) ->
         adjustable e = true ->
         leftToHost (settings st) e = false ->
         tabWidthCache st !! getHeaderKey e = None
         \/ classList_contains "is-active" e = true ->
         exists e',
           get_header h (recalculationPass offsetWidth st) = Some e'
           /\ headerWidth e' = Some (Px (calculateHeaderWidth offsetWidth st e))).
Proof.
  intros Hs Hor.
  assert (Hmax : JS.gt (maxWidth (settings st)) JS.zero = true ->
                 JS.le (calculateHeaderWidth offsetWidth st e)
                       (maxWidth (settings st)) = true).
  { intros Hgt. destruct Hor as [Hor|Hor]; [congruence|].
    now apply calculateHeaderWidth_le_max_all. }
  split; [now apply calculateHeaderWidth_ge_min|]. split; [exact Hmax|].
  intros h Hget Hin Hadj Hhost Hrecalc.
  destruct (pass_written st h e Hget Hin Hadj Hhost) as (w & Hw & Hpass).
  exists (applyWidth (settings st) w e). split; [assumption|].
  rewrite headerWidth_applyWidth.
  assert (Hskip : skipped (entryOf offsetWidth st (h, e)) = false)
    by now rewrite skipped_entryOf.
  rewrite (cachedWidth_entryOf offsetWidth st h e Hget Hskip) in Hw.
  assert (Hweq : w = calculateHeaderWidth offsetWidth st e).
  { destruct Hrecalc as [Hnone|Hact].
    - rewrite Hnone in Hw. congruence.
    - rewrite Hact in Hw. destruct (tabWidthCache st !! getHeaderKey e); congruence. }
  subst w. now rewrite appliedWidth_within.
Qed.

(** [saveSettings] reads [previousMaxWidth] after the field has been
    assigned, so it never takes the reset branch: it always queues a pass. *)
Lemma saveSettings_queues st :
  saveSettings st
  = queueHeaderAdjustment
      (updateCSSVariables (with_savedData (Some (settings st)) st)).
Proof.
  unfold saveSettings, saveSettings_resume.
  set (st' := updateCSSVariables _).
  assert (Hs : settings st' = settings st) by reflexivity.
  rewrite Hs.
  destruct (maxWidth (settings st)) as [| |q|]; try reflexivity.
  unfold JS.gt, JS.lt, JS.strict_eq, JS.zero.
  destruct (Qle_bool q 0) eqn:E; [reflexivity|]. cbn [negb andb].
  destruct (Qeq_bool q 0) eqn:E2; [|reflexivity].
  apply Qeq_bool_iff in E2. apply Qle_bool_false in E. lra.
Qed.

Lemma get_header_queue st h :
  get_header h (queueHeaderAdjustment st) = get_header h st.
Proof.
  unfold queueHeaderAdjustment. destruct (closeInProgress st); [reflexivity|].
  now destruct (isAdjustmentQueued st).
Qed.

Lemma tabElements_updateCSSVariables st :
  tabElements (document (updateCSSVariables st)) = tabElements (document st)
  /\ mainHeaders (document (updateCSSVariables st)) = mainHeaders (document st).
Proof. unfold updateCSSVariables. now destruct (hideTabIcons (settings st)). Qed.

Lemma set_prop_valid p v s :
  settings_valid s = true -> JS.valid v = true ->
  settings_valid (set_prop p v s) = true.
Proof.
  intros Hs Hv. apply settings_valid_inv in Hs.
  destruct Hs as (H1 & H2 & H3 & H4 & H5 & H6 & H7).
  unfold settings_valid. destruct p; cbn; rewrite ?H1, ?H2, ?H3, ?H4, ?H5, ?H6, ?H7, ?Hv;
    reflexivity.
Qed.



Lemma entryOf_ignorePinnedTabs st h e :
  pinnedIcon e = false ->
  entryOf offsetWidth (with_ignorePinnedTabs false st) (h, e)
  = entryOf offsetWidth st (h, e).
Proof.
  intros Hp. unfold entryOf, readHeader. cbn [snd fst].
  rewrite Hp.
  change (ignorePinnedTabs (settings (with_ignorePinnedTabs false st))) with false.
  change (ignoreWebLinks (settings (with_ignorePinnedTabs false st)))
    with (ignoreWebLinks (settings st)).
  change (tabWidthCache (with_ignorePinnedTabs false st)) with (tabWidthCache st).
  destruct (ignorePinnedTabs (settings st)); reflexivity.
Qed.

Lemma entryOf_ignoreWebLinks st h e :
  dataType e <> Some "webviewer" ->
  entryOf offsetWidth (with_ignoreWebLinks false st) (h, e)
  = entryOf offsetWidth st (h, e).
Proof.
  intros Hp. unfold entryOf, readHeader. cbn [snd fst].
  rewrite (bool_decide_eq_false_2 _ Hp).
  change (ignoreWebLinks (settings (with_ignoreWebLinks false st))) with false.
  change (ignorePinnedTabs (settings (with_ignoreWebLinks false st)))
    with (ignorePinnedTabs (settings st)).
  change (tabWidthCache (with_ignoreWebLinks false st)) with (tabWidthCache st).
  destruct (ignoreWebLinks (settings st)); reflexivity.
Qed.

(** C10 (amended).  A pass strips the classes [autofit-tab] and
    [autofit-max-width] and the property [--header-width] from every header
    it visits (main area, container displayed, icon not loading) that
    bears the pinned icon while [ignorePinnedTabs] is on (or is a web
    viewer while [ignoreWebLinks] is on), and gives it no width; a header
    it does not visit keeps its width and these classes, pinned or not;
    every entry of the rebuilt cache comes from a visited header that is
    not left to the host in this way; and each header without the pinned
    icon ends the pass with the same width, the same classes other than
    [out-of-view] and the same inline transition as it would with
    [ignorePinnedTabs] off (likewise for headers that are no web viewers
    and [ignoreWebLinks]).  The class [out-of-view] is set aside because
    the batch ends by a call of [updateTabsVisibility] when the active tab
    is left to the host, and by a call of [scrollToActiveTab] when it is
    written. *)
Theorem C10_ignored_headers_left_to_host (st : State) :
  (forall h e,
      get_header h st = Some e ->
      h ∈ mainHeaders (document st) ->
      adjustable e = true ->
      leftToHost (settings st) e = true ->
      exists e',
        get_header h (recalculationPass offsetWidth st) = Some e'
        /\ ("autofit-tab" ∉ classList e') /\ ("autofit-max-width" ∉ classList e')
        /\ headerWidth e' = None)
  /\ (forall h e,
        get_header h st = Some e ->
        h ∉ mainHeaders (document st) \/ adjustable e = false ->
        exists e',
          get_header h (recalculationPass offsetWidth st) = Some e'
          /\ headerWidth e' = headerWidth e
          /\ (("autofit-tab" ∈ classList e') <-> ("autofit-tab" ∈ classList e))
          /\ (("autofit-max-width" ∈ classList e')
              <-> ("autofit-max-width" ∈ classList e)))
  /\ (forall k w,
        tabWidthCache (recalculationPass offsetWidth st) !! k = Some w ->
        exists h e,
          h ∈ mainHeaders (document st) /\ get_header h st = Some e
          /\ adjustable e = true /\ leftToHost (settings st) e = false
          /\ getHeaderKey e = k)
  /\ (forall h e,
        get_header h st = Some e ->
        pinnedIcon e = false ->
        classList_remove "out-of-view" <$> get_header h (recalculationPass offsetWidth st)
        = classList_remove "out-of-view"
            <$> get_header h (recalculationPass offsetWidth
                                (with_ignorePinnedTabs false st)))
  /\ (forall h e,
        get_header h st = Some e ->
        dataType e <> Some "webviewer" ->
        classList_remove "out-of-view" <$> get_header h (recalculationPass offsetWidth st)
        = classList_remove "out-of-view"
            <$> get_header h (recalculationPass offsetWidth
                                (with_ignoreWebLinks false st))).
Proof.
  split; [|split; [|split; [|split]]].
  - intros h e Hget Hin Hadj Hhost.
    exists (clearAutofit e). split; [now apply pass_left_to_host|].
    pose proof (clearAutofit_spec e) as H. cbv zeta in H. tauto.
  - intros h e Hget Hout. exists e. split; [|tauto].
    rewrite pass_lookup, Hget. destruct Hout as [Hout|Hadj].
    + now rewrite bool_decide_false by assumption.
    + rewrite Hadj. now rewrite andb_false_r.
  - intros k w Hk. rewrite pass_cache in Hk. apply cacheOf_lookup in Hk.
    destruct Hk as (d & Hin & Hskip & Hkey & _).
    apply in_headerDataOf in Hin. destruct Hin as (h & e & Hin & Hget & Hadj & ->).
    rewrite skipped_entryOf in Hskip. rewrite headerKey_entryOf in Hkey.
    exists h, e. rewrite list_elem_of_In. tauto.
  - intros h e Hget Hp. f_equal. rewrite !pass_lookup.
    change (get_header h (with_ignorePinnedTabs false st)) with (get_header h st).
    rewrite Hget.
    change (mainHeaders (document (with_ignorePinnedTabs false st)))
      with (mainHeaders (document st)).
    rewrite (entryOf_ignorePinnedTabs st h e Hp). reflexivity.
  - intros h e Hget Hp. f_equal. rewrite !pass_lookup.
    change (get_header h (with_ignoreWebLinks false st)) with (get_header h st).
    rewrite Hget.
    change (mainHeaders (document (with_ignoreWebLinks false st)))
      with (mainHeaders (document st)).
    rewrite (entryOf_ignoreWebLinks st h e Hp). reflexivity.
Qed.

End PassResults.

(** ** Two passes in a row *)

Section TwoPasses.
Variable offsetWidth : ComputedStyle -> string -> N.

Lemma in_add_other (X : gset string) (a c : string) :
  c <> a -> c ∈ ({[a]} ∪ X) <-> c ∈ X.
Proof. set_solver. Qed.

Lemma in_remove_other (X : gset string) (a c : string) :
  c <> a -> c ∈ (X ∖ {[a]}) <-> c ∈ X.
Proof. set_solver. Qed.

Lemma contains_add_other c a e :
  c <> a -> classList_contains c (classList_add a e) = classList_contains c e.
Proof.
  intros Hne. destruct e. unfold classList_contains. header_eval.
  apply bool_decide_ext. now apply in_add_other.
Qed.

Lemma contains_remove_other c a e :
  c <> a -> classList_contains c (classList_remove a e) = classList_contains c e.
Proof.
  intros Hne. destruct e. unfold classList_contains. header_eval.
  apply bool_decide_ext. now apply in_remove_other.
Qed.

(** The write batch touches the two autofit classes, the width property
    and the transition lock, and nothing else. *)
Lemma elemWrite_keeps s d e :
  titleElement (elemWrite s d e) = titleElement e
  /\ pinnedIcon (elemWrite s d e) = pinnedIcon e
  /\ dataType (elemWrite s d e) = dataType e
  /\ containerDisplayed (elemWrite s d e) = containerDisplayed e
  /\ forall c, c <> "autofit-tab" -> c <> "autofit-max-width" ->
               classList_contains c (elemWrite s d e) = classList_contains c e.
Proof.
  unfold elemWrite. destruct (skipped d).
  - repeat split; try (destruct e; reflexivity).
    intros c H1 H2. unfold clearAutofit. cbv zeta.
    change (classList_contains c
              (set_headerWidth None
                 (classList_remove "autofit-max-width"
                    (classList_remove "autofit-tab" e))))
      with (classList_contains c
              (classList_remove "autofit-max-width"
                 (classList_remove "autofit-tab" e))).
    now rewrite !contains_remove_other.
  - destruct (cachedWidth d) as [w|]; [|tauto].
    unfold applyWidth. cbv zeta.
    destruct (JS.gt (maxWidth s) JS.zero && JS.ge w (maxWidth s)).
    + repeat split; try (destruct e; reflexivity).
      intros c H1 H2.
      transitivity (classList_contains c
                      (classList_add "autofit-max-width"
                         (classList_add "autofit-tab" e)));
        [destruct e; reflexivity|].
      now rewrite !contains_add_other.
    + repeat split; try (destruct e; reflexivity).
      intros c H1 H2.
      transitivity (classList_contains c
                      (classList_remove "autofit-max-width"
                         (classList_add "autofit-tab" e)));
        [destruct e; reflexivity|].
      now rewrite contains_remove_other, contains_add_other.
Qed.

Lemma passElement_keeps st he :
  let e' := passElement offsetWidth st he in
  titleElement e' = titleElement (snd he)
  /\ adjustable e' = adjustable (snd he)
  /\ getHeaderKey e' = getHeaderKey (snd he)
  /\ leftToHost (settings st) e' = leftToHost (settings st) (snd he)
  /\ classList_contains "is-active" e' = classList_contains "is-active" (snd he).
Proof.
  unfold passElement. destruct (adjustable (snd he)) eqn:Hadj; [|cbv zeta; tauto].
  cbv zeta.
  destruct (elemWrite_keeps (settings st) (entryOf offsetWidth st he) (snd he))
    as (Ht & Hp & Hd & Hc & Hcl).
  repeat split.
  - exact Ht.
  - unfold adjustable. rewrite Hc, Hcl by discriminate. exact Hadj.
  - unfold getHeaderKey. now rewrite Ht.
  - unfold leftToHost. now rewrite Hp, Hd.
  - apply Hcl; discriminate.
Qed.

Lemma pass_frame st :
  settings (recalculationPass offsetWidth st) = settings st
  /\ measureElement (recalculationPass offsetWidth st) = measureElement st
  /\ mainHeaders (document (recalculationPass offsetWidth st))
     = mainHeaders (document st).
Proof.
  unfold recalculationPass. rewrite document_writeHeaders.
  unfold writeHeaders.
  assert (Hm : forall data acc,
             mainHeaders (wDocument (fold_left (writeHeader (settings st)) data acc))
             = mainHeaders (wDocument acc)).
  { induction data as [|d data IH]; intros acc; [reflexivity|].
    cbn [fold_left]. rewrite IH. unfold writeHeader.
    destruct (isPinned d || isWebLink d); [reflexivity|].
    now destruct (cachedWidth d). }
  unfold writeAll. rewrite Hm. cbn [wDocument].
  destruct (activeHeader _); [now repeat split|].
  unfold updateTabsVisibility. cbn. now destruct (isResetting st).
Qed.

Lemma getAllHeaders_pass st :
  getAllHeaders (recalculationPass offsetWidth st)
  = map (fun he => (fst he, passElement offsetWidth st he)) (getAllHeaders st).
Proof.
  unfold getAllHeaders. destruct (pass_frame st) as (_ & _ & ->).
  assert (H : forall l,
             (forall h, In h l -> h ∈ mainHeaders (document st)) ->
             omap (fun h => match get_header h (recalculationPass offsetWidth st) with
                            | Some e => Some (h, e)
                            | None => None
                            end) l
             = map (fun he => (fst he, passElement offsetWidth st he))
                   (omap (fun h => match get_header h st with
                                   | Some e => Some (h, e)
                                   | None => None
                                   end) l)).
  { induction l as [|h l IH]; intros Hl; [reflexivity|].
    cbn [omap list_omap]. rewrite pass_lookup.
    rewrite IH by (intros h' Hh'; apply Hl; now right).
    destruct (get_header h st) as [e|]; [|reflexivity].
    rewrite bool_decide_true by (apply Hl; now left). cbn [andb map fst].
    reflexivity. }
  apply H. intros h Hh. now apply list_elem_of_In.
Qed.

Lemma calculateHeaderWidth_ext st st' e e' :
  settings st' = settings st ->
  measureElement st' = measureElement st ->
  titleElement e' = titleElement e ->
  calculateHeaderWidth offsetWidth st' e' = calculateHeaderWidth offsetWidth st e.
Proof.
  intros Hs Hm Ht. unfold calculateHeaderWidth, measureTextWidth.
  now rewrite Hs, Hm, Ht.
Qed.

(** *** The cache when no two written entries share a title *)

Lemma cache_fold_other data (m : gmap string number) k :
  ~ In k (map headerKey (List.filter written data)) ->
  fold_left (fun m d =>
               if skipped d then m
               else match cachedWidth d with
                    | None => m
                    | Some width => <[headerKey d := width]> m
                    end) data m !! k = m !! k.
Proof.
  revert m. induction data as [|d data IH]; intros m Hk; [reflexivity|].
  cbn [fold_left]. cbn [List.filter] in Hk. unfold written at 1 in Hk.
  destruct (skipped d); cbn [negb] in Hk.
  - now apply IH.
  - cbn [map] in Hk. rewrite IH by (intros H; apply Hk; now right).
    destruct (cachedWidth d); [|reflexivity].
    apply lookup_insert_ne. intros Heq. apply Hk. now left.
Qed.

Lemma cacheOf_nodup data d w :
  NoDup (map headerKey (List.filter written data)) ->
  In d data -> skipped d = false -> cachedWidth d = Some w ->
  cacheOf data !! headerKey d = Some w.
Proof.
  unfold cacheOf. generalize (∅ : gmap string number).
  induction data as [|d' data IH]; intros m Hnd Hin Hs Hw; [contradiction|].
  cbn [fold_left]. cbn [List.filter] in Hnd. unfold written at 1 in Hnd.
  destruct Hin as [->|Hin].
  - rewrite Hs in *. cbn [negb map] in Hnd. rewrite Hw.
    apply NoDup_cons_1_1 in Hnd.
    rewrite cache_fold_other; [apply lookup_insert_eq|].
    intros H. apply Hnd. now apply list_elem_of_In.
  - apply IH; auto. destruct (skipped d'); cbn [negb map] in Hnd; [assumption|].
    now apply NoDup_cons_1_2 in Hnd.
Qed.

Lemma cacheOf_same_write {A} (f1 f2 : A -> HeaderData) (l : list A) :
  (forall a, In a l -> same_write (f1 a) (f2 a)) ->
  cacheOf (map f2 l) = cacheOf (map f1 l).
Proof.
  unfold cacheOf. generalize (∅ : gmap string number).
  induction l as [|a l IH]; intros m H; [reflexivity|].
  cbn [map fold_left].
  destruct (H a (or_introl eq_refl)) as (_ & Hk & Hs & Hw).
  rewrite Hs, Hk. destruct (skipped (f1 a)) eqn:E.
  - apply IH. intros a' Ha'. apply H. now right.
  - rewrite (Hw eq_refl). apply IH. intros a' Ha'. apply H. now right.
Qed.

Lemma elemWrite_same_write s d1 d2 e :
  same_write d1 d2 -> elemWrite s d2 e = elemWrite s d1 e.
Proof.
  intros (_ & _ & Hs & Hw). unfold elemWrite. rewrite Hs.
  destruct (skipped d1); [reflexivity|]. now rewrite Hw.
Qed.

(** With distinct titles, the second pass reads for each header what the
    first pass wrote for it. *)
Lemma second_entry st h e :
  NoDup (map headerKey (List.filter written (headerDataOf offsetWidth st))) ->
  In h (mainHeaders (document st)) ->
  get_header h st = Some e ->
  adjustable e = true ->
  same_write (entryOf offsetWidth st (h, e))
             (entryOf offsetWidth (recalculationPass offsetWidth st)
                      (h, passElement offsetWidth st (h, e))).
Proof.
  intros Hnd Hin Hget Hadj.
  set (st1 := recalculationPass offsetWidth st).
  set (e1 := passElement offsetWidth st (h, e)).
  destruct (pass_frame st) as (Hset & Hme & Hmain). fold st1 in Hset, Hme, Hmain.
  destruct (passElement_keeps st (h, e)) as (Ht & _ & Hk & Hhost & Hact).
  fold e1 in Ht, Hk, Hhost, Hact. cbn [snd] in Ht, Hk, Hhost, Hact.
  assert (Hget1 : get_header h st1 = Some e1).
  { unfold st1. rewrite pass_lookup, Hget, Hadj.
    rewrite bool_decide_true by now apply list_elem_of_In.
    unfold e1, passElement. cbn [snd andb]. now rewrite Hadj. }
  assert (Hskip12 : skipped (entryOf offsetWidth st1 (h, e1))
                    = skipped (entryOf offsetWidth st (h, e))).
  { rewrite !skipped_entryOf. cbn [snd]. now rewrite Hset. }
  unfold same_write. rewrite !header_entryOf, !headerKey_entryOf. cbn [fst snd].
  split; [reflexivity|]. split; [assumption|]. split; [assumption|].
  intros Hskip.
  assert (Hin1 : In (entryOf offsetWidth st (h, e)) (headerDataOf offsetWidth st)).
  { apply in_headerDataOf. eauto 6. }
  destruct (headerDataOf_width offsetWidth st _ Hin1 Hskip) as [w Hw].
  pose proof (cacheOf_nodup _ _ _ Hnd Hin1 Hskip Hw) as Hcache.
  rewrite headerKey_entryOf in Hcache. cbn [snd] in Hcache.
  rewrite <- pass_cache in Hcache. fold st1 in Hcache.
  rewrite (cachedWidth_entryOf offsetWidth st1 h e1 Hget1)
    by (rewrite Hskip12; exact Hskip).
  rewrite Hk, Hcache, Hact.
  rewrite (calculateHeaderWidth_ext st st1 e e1 Hset Hme Ht).
  rewrite Hw.
  rewrite (cachedWidth_entryOf offsetWidth st h e Hget Hskip) in Hw.
  destruct (classList_contains "is-active" e); [|reflexivity].
  destruct (tabWidthCache st !! getHeaderKey e); congruence.
Qed.

(** C7 (amended).  When no two headers that a pass writes share a title, a
    second pass run right after it, with titles and settings unchanged,
    leaves every header exactly as the first pass left it, in particular
    with the same [--header-width], and rebuilds the same cache: the entry
    for each title is reused, or recomputed to the same value for the
    active tab. *)
Theorem C7_second_pass_is_identical (st : State) :
  NoDup (map headerKey (List.filter written (headerDataOf offsetWidth st))) ->
  let st1 := recalculationPass offsetWidth st in
  let st2 := recalculationPass offsetWidth st1 in
  (forall h, get_header h st2 = get_header h st1)
  /\ tabWidthCache st2 = tabWidthCache st1.
Proof.
  intros Hnd st1 st2.
  destruct (pass_frame st) as (Hset & Hme & Hmain). fold st1 in Hset, Hme, Hmain.
  split.
  - intros h. unfold st2. rewrite pass_lookup. fold st1.
    destruct (get_header h st1) as [e1|] eqn:Hget1; [|reflexivity].
    f_equal. rewrite Hmain.
    unfold st1 in Hget1. rewrite pass_lookup in Hget1.
    destruct (get_header h st) as [e|] eqn:Hget; [|discriminate].
    destruct (bool_decide (h ∈ mainHeaders (document st))) eqn:Hin.
    + apply bool_decide_eq_true in Hin. apply list_elem_of_In in Hin.
      cbn [andb] in *. injection Hget1 as Hget1.
      destruct (adjustable e) eqn:Hadj.
      * pose proof (second_entry st h e Hnd Hin Hget Hadj) as Hsame.
        destruct (passElement_keeps st (h, e)) as (_ & Hadj1 & _).
        unfold passElement in Hsame, Hadj1. cbn [snd] in Hsame, Hadj1.
        rewrite Hadj in Hsame, Hadj1. rewrite Hget1 in Hsame, Hadj1.
        rewrite Hadj1, Hset.
        rewrite (elemWrite_same_write _ _ _ _ Hsame). subst e1.
        apply elemWrite_idem.
      * subst e1. now rewrite Hadj.
    + reflexivity.
  - clear Hset Hme Hmain. subst st2 st1. rewrite !pass_cache.
    rewrite (headerDataOf_eq offsetWidth (recalculationPass offsetWidth st)),
      (headerDataOf_eq offsetWidth st).
    rewrite getAllHeaders_pass.
    assert (Hfilter : forall l,
               List.filter (fun he : HeaderId * Header => adjustable (snd he))
                 (map (fun he => (fst he, passElement offsetWidth st he)) l)
               = map (fun he => (fst he, passElement offsetWidth st he))
                     (List.filter (fun he => adjustable (snd he)) l)).
    { induction l as [|he l IH]; [reflexivity|]. cbn [map List.filter snd].
      destruct (passElement_keeps st he) as (_ & -> & _).
      destruct (adjustable (snd he)); [cbn [map]; now rewrite IH | exact IH]. }
    rewrite Hfilter, map_map.
    apply cacheOf_same_write. intros [h e] Hin.
    apply filter_In in Hin. destruct Hin as [Hin Hadj].
    apply in_getAllHeaders in Hin. destruct Hin as [Hin Hget].
    cbn [fst snd] in *. now apply second_entry.
Qed.

End TwoPasses.

(** ** The event loop *)

(** Projections of [State] through its setters. *)
Ltac state_eval :=
  cbn [settings savedData pendingSaves document workspace tabWidthCache measureElement
       isAdjustmentQueued isResetting closeInProgress frames timers log
       with_settings with_savedData with_pendingSaves with_document with_workspace
       with_tabWidthCache with_measureElement with_isAdjustmentQueued with_isResetting
       with_closeInProgress with_frames with_timers with_log
       requestAnimationFrame setTimeout observe].

Ltac state_eval_in H :=
  cbn [settings savedData pendingSaves document workspace tabWidthCache measureElement
       isAdjustmentQueued isResetting closeInProgress frames timers log
       with_settings with_savedData with_pendingSaves with_document with_workspace
       with_tabWidthCache with_measureElement with_isAdjustmentQueued with_isResetting
       with_closeInProgress with_frames with_timers with_log
       requestAnimationFrame setTimeout observe] in H.

Section EventLoop.
Variable offsetWidth : ComputedStyle -> string -> N.
Variable Number : string -> number.

(** *** Composing footprints *)

Lemma timers_kept_refl st : timers_kept st st.
Proof. now intros t _ H. Qed.

Lemma timers_kept_trans st1 st2 st3 :
  timers_kept st1 st2 -> timers_kept st2 st3 -> timers_kept st1 st3.
Proof. intros H1 H2 t Hne Hin. apply H2; auto. Qed.

Lemma timers_kept_app st st' l :
  timers st' = (timers st ++ l)%list -> timers_kept st st'.
Proof. intros H t _ Hin. rewrite H. apply in_or_app. now left. Qed.

Lemma undisturbed_refl st : undisturbed st st.
Proof. unfold undisturbed. auto 10 using timers_kept_refl. Qed.

Lemma undisturbed_trans st1 st2 st3 :
  undisturbed st1 st2 -> undisturbed st2 st3 -> undisturbed st1 st3.
Proof.
  intros (A1 & A3 & A4 & A5 & A6 & A7) (B1 & B3 & B4 & B5 & B6 & B7).
  unfold undisturbed. repeat split; try congruence.
  eapply timers_kept_trans; eauto.
Qed.

Lemma undisturbed_may_queue st st' : undisturbed st st' -> may_queue st st'.
Proof. intros (A1 & A3 & A4 & A5 & A6 & A7). unfold may_queue. tauto. Qed.

Lemma may_queue_refl st : may_queue st st.
Proof. apply undisturbed_may_queue, undisturbed_refl. Qed.

Lemma may_queue_trans st1 st2 st3 :
  may_queue st1 st2 -> may_queue st2 st3 -> may_queue st1 st3.
Proof.
  intros (A1 & A3 & A4 & A5 & A6) (B1 & B3 & B4 & B5 & B6).
  unfold may_queue. repeat split; try congruence.
  - eapply timers_kept_trans; eauto.
  - destruct A6 as [[A6 A7]|(A6 & A7 & A8 & A9)],
             B6 as [[B6 B7]|(B6 & B7 & B8 & B9)].
    + left. split; congruence.
    + right. rewrite <- A6, <- A7, <- A1. tauto.
    + right. rewrite B6, B7. tauto.
    + congruence.
Qed.

(** A step that only appends to the log entries that are no calls of
    [adjustAllHeaders], and only adds timers. *)
Lemma undisturbed_intro st st' lg tm :
  closeInProgress st' = closeInProgress st ->
  isAdjustmentQueued st' = isAdjustmentQueued st ->
  frames st' = frames st ->
  log st' = (log st ++ lg)%list ->
  forallb (fun o => negb (isAdjustCall o)) lg = true ->
  timers st' = (timers st ++ tm)%list ->
  undisturbed st st'.
Proof.
  intros H1 H3 H4 H5 H6 H7. unfold undisturbed, passStarts, adjustCalls.
  rewrite H5, !List.filter_app, !length_app, H4.
  assert (Hc : List.filter isAdjustCall lg = []).
  { clear H5. induction lg as [|o lg IH]; [reflexivity|].
    cbn in H6. apply andb_true_iff in H6. destruct H6 as [Ho Hl].
    cbn. apply negb_true_iff in Ho. rewrite Ho. auto. }
  assert (Hp : List.filter isPassStart lg = []).
  { clear H5 Hc. induction lg as [|o lg IH]; [reflexivity|].
    cbn in H6. apply andb_true_iff in H6. destruct H6 as [Ho Hl].
    cbn. destruct o; try discriminate; cbn; auto. }
  rewrite Hc, Hp. cbn [length]. rewrite !Nat.add_0_r.
  repeat split; auto. now apply timers_kept_app with tm.
Qed.

(** The same for a step that leaves log and timers alone. *)
Lemma undisturbed_silent st st' :
  closeInProgress st' = closeInProgress st ->
  isAdjustmentQueued st' = isAdjustmentQueued st ->
  frames st' = frames st ->
  log st' = log st ->
  timers st' = timers st ->
  undisturbed st st'.
Proof.
  intros H1 H3 H4 H5 H6.
  apply undisturbed_intro with (lg := []) (tm := []); auto;
    now rewrite ?H5, ?H6, app_nil_r.
Qed.

Lemma fold_undisturbed {A} (f : State -> A -> State) (l : list A) st :
  (forall s a, undisturbed s (f s a)) -> undisturbed st (fold_left f l st).
Proof.
  intros H. revert st. induction l as [|a l IH]; intros st; [apply undisturbed_refl|].
  cbn [fold_left]. eapply undisturbed_trans; [apply H | apply IH].
Qed.

(** *** Footprints of the handlers *)

Lemma scrollToActiveTab_undisturbed h st : undisturbed st (scrollToActiveTab h st).
Proof.
  apply undisturbed_intro with (lg := [ScrollToActiveTab h]) (tm := []);
    try reflexivity. state_eval. now rewrite app_nil_r.
Qed.

Lemma updateTabsVisibility_undisturbed st : undisturbed st (updateTabsVisibility st).
Proof.
  unfold updateTabsVisibility. destruct (isResetting st) eqn:E; [apply undisturbed_refl|].
  apply undisturbed_intro with (lg := [UpdateTabsVisibility]) (tm := []);
    try reflexivity. state_eval. now rewrite app_nil_r.
Qed.

Lemma preCalculateAllTabWidths_undisturbed st :
  undisturbed st (preCalculateAllTabWidths offsetWidth st).
Proof.
  unfold preCalculateAllTabWidths. generalize (getAllHeaders st). intros l.
  apply fold_undisturbed. intros s a.
  destruct (tabWidthCache s !! getHeaderKey (snd a)); [apply undisturbed_refl|].
  now apply undisturbed_silent.
Qed.

Lemma writeHeaders_undisturbed data st : undisturbed st (writeHeaders data st).
Proof.
  unfold writeHeaders.
  set (acc := writeAll (settings st) (document st) data).
  eapply undisturbed_trans;
    [|destruct (activeHeader acc);
      [apply scrollToActiveTab_undisturbed | apply updateTabsVisibility_undisturbed]].
  apply undisturbed_intro with (lg := [HeadersWritten]) (tm := wTimers acc);
    reflexivity.
Qed.

Lemma restoreTransition_undisturbed h st : undisturbed st (restoreTransition h st).
Proof. now apply undisturbed_silent. Qed.

Lemma queueHeaderAdjustment_closing st :
  closeInProgress st = true -> queueHeaderAdjustment st = st.
Proof. intros H. unfold queueHeaderAdjustment. now rewrite H. Qed.

Lemma queueHeaderAdjustment_queued st :
  isAdjustmentQueued st = true -> queueHeaderAdjustment st = st.
Proof.
  intros H. unfold queueHeaderAdjustment. rewrite H.
  now destruct (closeInProgress st).
Qed.

Lemma queueHeaderAdjustment_may_queue st : may_queue st (queueHeaderAdjustment st).
Proof.
  unfold queueHeaderAdjustment.
  destruct (closeInProgress st) eqn:Hc; [apply may_queue_refl|].
  destruct (isAdjustmentQueued st) eqn:Hq; [apply may_queue_refl|].
  cbn [negb]. unfold may_queue, passStarts, adjustCalls. state_eval.
  split; [reflexivity|]. split; [reflexivity|]. split; [reflexivity|].
  split; [now intros t _ Hin|].
  right. rewrite List.filter_app. cbn. auto.
Qed.

Lemma resetTabs_undisturbed st : undisturbed st (resetTabs st).
Proof.
  unfold resetTabs. cbv zeta.
  eapply undisturbed_intro with (lg := []); try reflexivity.
  state_eval. now rewrite app_nil_r.
Qed.

Lemma resetCleanup_undisturbed hs st : undisturbed st (resetCleanup hs st).
Proof.
  unfold resetCleanup. cbv zeta.
  eapply undisturbed_intro with (lg := []); try reflexivity.
  state_eval. now rewrite app_nil_r.
Qed.

Lemma detach_undisturbed l st : undisturbed st (detach l st).
Proof.
  apply undisturbed_intro with (lg := [LeafDetached (leafId l)]) (tm := []);
    try reflexivity. state_eval. now rewrite app_nil_r.
Qed.

Lemma closeLeafByTabHeader_undisturbed h st :
  undisturbed st (closeLeafByTabHeader h st).
Proof.
  unfold closeLeafByTabHeader.
  destruct (find _ _); [apply detach_undisturbed|].
  destruct (get_header h st); [|apply undisturbed_refl].
  destruct (classList_contains _ _); [|apply undisturbed_refl].
  destruct (activeLeaf _); [apply detach_undisturbed | apply undisturbed_refl].
Qed.

Lemma setTimeout_undisturbed cb d st : undisturbed st (setTimeout cb d st).
Proof.
  apply undisturbed_intro with (lg := []) (tm := [(d, cb)]); try reflexivity.
  state_eval. now rewrite app_nil_r.
Qed.

Lemma closeLeafTimer_undisturbed h st : undisturbed st (closeLeafTimer h st).
Proof.
  unfold closeLeafTimer. cbv zeta.
  eapply undisturbed_trans;
    [apply closeLeafByTabHeader_undisturbed | apply setTimeout_undisturbed].
Qed.

Lemma handleFileOpen_undisturbed st : undisturbed st (handleFileOpen st).
Proof.
  unfold handleFileOpen. destruct (closeInProgress st); [apply undisturbed_refl|].
  generalize (getAllHeaders st). intros l. apply fold_undisturbed. intros s a.
  destruct (classList_contains _ _);
    [apply setTimeout_undisturbed | apply undisturbed_refl].
Qed.

Lemma fileOpenTimer_may_queue h st : may_queue st (fileOpenTimer h st).
Proof.
  unfold fileOpenTimer. cbv zeta.
  eapply may_queue_trans;
    [|apply undisturbed_may_queue, scrollToActiveTab_undisturbed].
  destruct (tabWidthCache st !! _);
    [apply may_queue_refl | apply queueHeaderAdjustment_may_queue].
Qed.

Lemma debounceLayoutChange_undisturbed st : undisturbed st (debounceLayoutChange st).
Proof.
  unfold debounceLayoutChange. cbv zeta.
  eapply undisturbed_trans; [|apply setTimeout_undisturbed].
  unfold undisturbed, passStarts, adjustCalls. state_eval.
  repeat split; auto.
  intros t Hne Hin. state_eval. apply filter_In. split; [assumption|].
  unfold isDebounce. destruct (snd t); try reflexivity. congruence.
Qed.

Lemma observerCallback_may_queue mutations removed st :
  may_queue st (observerCallback mutations removed st).
Proof.
  revert removed. induction mutations as [|m rest IH]; intros removed;
    [apply may_queue_refl|].
  cbn [observerCallback].
  destruct (targetIsElement m); [|apply IH].
  destruct (targetInMainArea m); cbn [negb]; [|apply IH].
  destruct (targetIsTabElement m).
  - destruct (negb _); [apply queueHeaderAdjustment_may_queue | apply may_queue_refl].
  - destruct (targetIsBodyClass m); [|apply IH].
    eapply may_queue_trans; [|apply queueHeaderAdjustment_may_queue].
    apply undisturbed_may_queue. now apply undisturbed_silent.
Qed.

Lemma initFrame_may_queue st : may_queue st (initFrame offsetWidth st).
Proof.
  unfold initFrame. cbv zeta.
  eapply may_queue_trans; [|apply queueHeaderAdjustment_may_queue].
  apply undisturbed_may_queue.
  eapply undisturbed_trans;
    [apply preCalculateAllTabWidths_undisturbed | apply updateTabsVisibility_undisturbed].
Qed.

Lemma updateCSSVariables_undisturbed st : undisturbed st (updateCSSVariables st).
Proof.
  unfold updateCSSVariables. cbv zeta.
  destruct (hideTabIcons (settings st)); now apply undisturbed_silent.
Qed.

Lemma saveSettings_begin_undisturbed st : undisturbed st (saveSettings_begin st).
Proof. now apply undisturbed_silent. Qed.

Lemma saveSettings_resume_may_queue prev st :
  may_queue st (saveSettings_resume prev st).
Proof.
  unfold saveSettings_resume. cbv zeta.
  eapply may_queue_trans;
    [apply undisturbed_may_queue, updateCSSVariables_undisturbed|].
  destruct (_ && _);
    [apply undisturbed_may_queue, resetTabs_undisturbed
    | apply queueHeaderAdjustment_may_queue].
Qed.

Lemma onChange_begin_undisturbed prop value st :
  undisturbed st (onChange_with Number saveSettings_begin prop value st).
Proof.
  unfold onChange_with. cbv zeta.
  destruct (_ && _); [|apply undisturbed_refl].
  eapply undisturbed_trans; [|apply saveSettings_begin_undisturbed].
  destruct (isGeneralField prop).
  - eapply undisturbed_trans; [|apply updateCSSVariables_undisturbed].
    now apply undisturbed_silent.
  - now apply undisturbed_silent.
Qed.

(** *** The handlers that start a pass or move the closing flag *)

Lemma adjustAllHeaders_footprint st :
  let st' := adjustAllHeaders offsetWidth st in
  closeInProgress st' = closeInProgress st
  /\ timers st' = timers st
  /\ queue_kept st st'
  /\ adjustCalls st' = S (adjustCalls st)
  /\ passStarts st' = (passStarts st + if isResetting st then 0 else 1)%nat.
Proof.
  unfold adjustAllHeaders, queue_kept, adjustCalls, passStarts.
  destruct (isResetting st); cbv zeta; state_eval;
    rewrite ?List.filter_app, ?length_app; cbn [List.filter isAdjustCall isPassStart
                                                isAdjustFrame length app];
    rewrite ?app_nil_r; repeat split; try reflexivity; try lia.
Qed.

Lemma calm_refl st : calm st st.
Proof. unfold calm. auto using timers_kept_refl. Qed.

Lemma calm_trans st1 st2 st3 : calm st1 st2 -> calm st2 st3 -> calm st1 st3.
Proof.
  intros (A1 & A2 & A3) (B1 & B2 & B3). unfold calm.
  repeat split; try congruence. eapply timers_kept_trans; eauto.
Qed.

Lemma may_queue_calm st st' : may_queue st st' -> calm st st'.
Proof. intros (A1 & A2 & _ & A4 & _). now unfold calm. Qed.

Lemma undisturbed_calm st st' : undisturbed st st' -> calm st st'.
Proof. intros H. now apply may_queue_calm, undisturbed_may_queue. Qed.

Lemma queue_kept_ok st st' : queue_kept st st' -> queue_ok st st'.
Proof.
  intros [H1 H2]. unfold queue_ok, queue_consistent. rewrite H1, H2. tauto.
Qed.

Lemma may_queue_ok st st' : may_queue st st' -> queue_ok st st'.
Proof.
  intros (_ & _ & _ & _ & [[H1 H2]|(H1 & H2 & H3 & H4)]).
  - now apply queue_kept_ok.
  - unfold queue_ok, queue_consistent. rewrite H2, H3, H4, length_app.
    split; [congruence|]. intros ->. reflexivity.
Qed.

Lemma queue_ok_trans st1 st2 st3 : queue_ok st1 st2 -> queue_ok st2 st3 -> queue_ok st1 st3.
Proof. unfold queue_ok. tauto. Qed.

Lemma resetApply_footprint hs st :
  let st' := resetApply offsetWidth hs st in
  closeInProgress st' = closeInProgress st
  /\ timers_kept st st'
  /\ queue_kept st st'
  /\ (isResetting st = true -> passStarts st' = passStarts st).
Proof.
  unfold resetApply. cbv zeta.
  set (st0 := with_document _ st).
  set (st1 := adjustAllHeaders offsetWidth st0).
  set (st2 := updateTabsVisibility st1).
  destruct (adjustAllHeaders_footprint st0) as (A1 & A2 & [A3 A4] & _ & A5).
  cbv zeta in A1, A2, A3, A4, A5. fold st1 in A1, A2, A3, A4, A5.
  destruct (updateTabsVisibility_undisturbed st1) as (B1 & B2 & _ & B4 & B5 & B6).
  fold st2 in B1, B2, B4, B5, B6.
  split; [|split; [|split]].
  - change (closeInProgress st2 = closeInProgress st0). congruence.
  - intros t Hne Hin. change (In t (timers st2)). apply B4; [assumption|].
    now rewrite A2.
  - unfold queue_kept.
    change (isAdjustmentQueued st2 = isAdjustmentQueued st0
            /\ List.filter isAdjustFrame (frames st2)
               = List.filter isAdjustFrame (frames st0)).
    split; congruence.
  - intros Hr. change (passStarts st2 = passStarts st0).
    change (isResetting st0) with (isResetting st) in A5. rewrite Hr in A5.
    rewrite B2, A5. lia.
Qed.

Lemma initiateClose_closing h st : closeInProgress st = true -> initiateClose h st = st.
Proof. intros H. unfold initiateClose. now rewrite H. Qed.

Lemma startClosingAnimation_frame h st :
  let st' := startClosingAnimation h st in
  closeInProgress st' = closeInProgress st /\ timers st' = timers st
  /\ log st' = log st /\ settings st' = settings st
  /\ isAdjustmentQueued st' = isAdjustmentQueued st /\ frames st' = frames st.
Proof. unfold startClosingAnimation. now destruct (isResetting st). Qed.

Lemma initiateClose_queue_kept h st : queue_kept st (initiateClose h st).
Proof.
  unfold initiateClose. destruct (closeInProgress st); [now split|]. cbv zeta.
  set (st0 := with_closeInProgress true st).
  destruct (startClosingAnimation_frame h st0) as (_ & _ & _ & _ & H1 & H2).
  unfold queue_kept. state_eval. cbv zeta in H1, H2. now rewrite H1, H2.
Qed.

(** *** Events other than a frame keep a queued pass queued *)

Lemma runTimerTask_queue_ok t st : queue_ok st (runTimerTask offsetWidth t st).
Proof.
  destruct t; cbn [runTimerTask].
  - apply may_queue_ok, undisturbed_may_queue, closeLeafTimer_undisturbed.
  - now apply queue_kept_ok.
  - apply may_queue_ok, queueHeaderAdjustment_may_queue.
  - apply may_queue_ok, fileOpenTimer_may_queue.
  - apply may_queue_ok, undisturbed_may_queue, resetCleanup_undisturbed.
  - apply queue_kept_ok. now destruct (resetApply_footprint hs st) as (_ & _ & H & _).
  - apply may_queue_ok, undisturbed_may_queue, restoreTransition_undisturbed.
  - apply may_queue_ok, undisturbed_may_queue, updateTabsVisibility_undisturbed.
Qed.

Lemma step_queue_ok st ev : notFrame ev -> queue_ok st (step offsetWidth Number st ev).
Proof.
  intros Hev. destruct ev; cbn [step]; try contradiction.
  - destruct (timers st !! i) as [[d t]|]; [|now apply queue_kept_ok].
    eapply queue_ok_trans; [|apply runTimerTask_queue_ok]. now apply queue_kept_ok.
  - destruct (pendingSaves st !! i); [|now apply queue_kept_ok].
    eapply queue_ok_trans; [|apply may_queue_ok, saveSettings_resume_may_queue].
    now apply queue_kept_ok.
  - apply may_queue_ok, observerCallback_may_queue.
  - apply may_queue_ok, queueHeaderAdjustment_may_queue.
  - apply may_queue_ok, undisturbed_may_queue.
    eapply undisturbed_trans;
      [apply debounceLayoutChange_undisturbed | apply setTimeout_undisturbed].
  - apply may_queue_ok, undisturbed_may_queue, handleFileOpen_undisturbed.
  - unfold handleCloseClick. destruct (negb onCloseButton); [now apply queue_kept_ok|].
    destruct tabHeader; [|now apply queue_kept_ok].
    apply queue_kept_ok, initiateClose_queue_kept.
  - unfold handleMiddleClick. destruct (negb _); [now apply queue_kept_ok|].
    destruct tabHeader; [|now apply queue_kept_ok].
    apply queue_kept_ok, initiateClose_queue_kept.
  - unfold handleKeyDown. destruct (_ && _); [|now apply queue_kept_ok].
    destruct (activeTab st); [|now apply queue_kept_ok].
    apply queue_kept_ok, initiateClose_queue_kept.
  - apply may_queue_ok, undisturbed_may_queue, onChange_begin_undisturbed.
  - now apply queue_kept_ok.
Qed.

Lemma run_queue_ok evs st :
  Forall notFrame evs -> queue_ok st (run offsetWidth Number evs st).
Proof.
  intros H. revert st. induction H as [|ev evs Hev _ IH]; intros st.
  - unfold queue_ok. cbn. tauto.
  - unfold run. cbn [fold_left].
    eapply queue_ok_trans; [apply step_queue_ok; exact Hev | apply IH].
Qed.

(** *** One frame *)

Lemma runFrameTask_calls st t :
  closeInProgress (runFrameTask offsetWidth st t) = closeInProgress st
  /\ adjustCalls (runFrameTask offsetWidth st t)
     = (adjustCalls st
        + if isAdjustFrame t && negb (closeInProgress st) then 1 else 0)%nat.
Proof.
  destruct t; cbn [runFrameTask isAdjustFrame andb].
  - destruct (initFrame_may_queue st) as (H1 & _ & H3 & _). rewrite H1, H3.
    split; [reflexivity | lia].
  - unfold adjustFrame. destruct (closeInProgress st) eqn:Hc; cbn [negb].
    + unfold adjustCalls. state_eval. rewrite Hc. split; [reflexivity | lia].
    + destruct (adjustAllHeaders_footprint st) as (A1 & _ & _ & A4 & _).
      cbv zeta in A1, A4. unfold adjustCalls in *. state_eval.
      rewrite A1, A4, Hc. split; [reflexivity | lia].
  - destruct (writeHeaders_undisturbed data st) as (H1 & _ & H3 & _).
    rewrite H1, H3. split; [reflexivity | lia].
Qed.

Lemma fold_frame_calls tasks st :
  closeInProgress (fold_left (runFrameTask offsetWidth) tasks st) = closeInProgress st
  /\ adjustCalls (fold_left (runFrameTask offsetWidth) tasks st)
     = (adjustCalls st
        + if closeInProgress st then 0
          else length (List.filter isAdjustFrame tasks))%nat.
Proof.
  revert st. induction tasks as [|t tasks IH]; intros st.
  - cbn. split; [reflexivity|]. destruct (closeInProgress st); lia.
  - cbn [fold_left List.filter].
    destruct (IH (runFrameTask offsetWidth st t)) as [H1 H2].
    destruct (runFrameTask_calls st t) as [H3 H4].
    rewrite H1, H2, H3, H4. split; [reflexivity|].
    destruct (closeInProgress st), (isAdjustFrame t); cbn [andb negb length]; lia.
Qed.

Lemma runFrame_calls st :
  adjustCalls (runFrame offsetWidth st)
  = (adjustCalls st
     + if closeInProgress st then 0
       else length (List.filter isAdjustFrame (frames st)))%nat.
Proof.
  unfold runFrame.
  destruct (fold_frame_calls (frames st) (with_frames [] st)) as [_ H].
  exact H.
Qed.

(** The earlier revision has no close guard: there any number of calls
    before the frame gives exactly one call of [adjustAllHeaders] in it. *)
Lemma Legacy_calls_coalesce (q : Legacy.Queue) (n : nat) :
  Legacy.isAdjustmentQueued q = false -> Legacy.queued q = 0%nat ->
  let q' := Nat.iter (S n) Legacy.queueHeaderAdjustment q in
  Legacy.queued q' = 1%nat
  /\ Legacy.adjustCalls (Legacy.runFrame q') = S (Legacy.adjustCalls q)
  /\ Legacy.isAdjustmentQueued (Legacy.runFrame q') = false.
Proof.
  intros Hq Hf. cbv zeta.
  assert (H : Nat.iter (S n) Legacy.queueHeaderAdjustment q
              = Legacy.mkQueue true 1 (Legacy.adjustCalls q)).
  { induction n as [|n IH].
    - cbn. unfold Legacy.queueHeaderAdjustment. now rewrite Hq, Hf.
    - change (Nat.iter (S (S n)) Legacy.queueHeaderAdjustment q)
        with (Legacy.queueHeaderAdjustment
                (Nat.iter (S n) Legacy.queueHeaderAdjustment q)).
      now rewrite IH. }
  rewrite H. repeat split.
Qed.

(** C4 (amended).  Once [queueHeaderAdjustment] has queued a pass, whatever
    happens before the next animation frame (further calls included)
    leaves exactly one callback queued, and a call made while a pass is
    queued changes nothing.  In that frame [adjustAllHeaders] is entered
    exactly once if no close is in progress when the callback runs, and
    not at all if one is. *)
Theorem C4_calls_coalesce_into_one_pass (st : State) (evs : list Event) :
  queue_consistent st ->
  closeInProgress st = false ->
  Forall notFrame evs ->
  let st1 := queueHeaderAdjustment st in
  let st2 := run offsetWidth Number evs st1 in
  let st3 := step offsetWidth Number st2 EvFrame in
  isAdjustmentQueued st1 = true
  /\ (forall s, isAdjustmentQueued s = true -> queueHeaderAdjustment s = s)
  /\ isAdjustmentQueued st2 = true
  /\ length (List.filter isAdjustFrame (frames st2)) = 1%nat
  /\ adjustCalls st3
     = (adjustCalls st2 + if closeInProgress st2 then 0 else 1)%nat.
Proof.
  intros Hq Hc Hevs st1 st2 st3.
  destruct (may_queue_ok _ _ (queueHeaderAdjustment_may_queue st)) as [_ Hq1].
  specialize (Hq1 Hq). fold st1 in Hq1.
  assert (Hf1 : isAdjustmentQueued st1 = true).
  { unfold st1, queueHeaderAdjustment. rewrite Hc.
    destruct (isAdjustmentQueued st) eqn:E; [exact E | reflexivity]. }
  destruct (run_queue_ok evs st1 Hevs) as [Hf2 Hq2].
  specialize (Hf2 Hf1). specialize (Hq2 Hq1). fold st2 in Hf2, Hq2.
  assert (Hlen : length (List.filter isAdjustFrame (frames st2)) = 1%nat).
  { unfold queue_consistent in Hq2. now rewrite Hf2 in Hq2. }
  split; [exact Hf1|]. split; [exact queueHeaderAdjustment_queued|].
  split; [exact Hf2|]. split; [exact Hlen|].
  unfold st3. cbn [step]. rewrite runFrame_calls, Hlen. reflexivity.
Qed.

(** *** While a close is in progress *)

Lemma in_delete {A} (l : list A) i x y :
  In x l -> l !! i = Some y -> In x (delete i l) \/ x = y.
Proof.
  revert i. induction l as [|a l IH]; intros i Hin Hi; [contradiction|].
  destruct i as [|i]; cbn in Hi |- *.
  - injection Hi as <-. destruct Hin; auto.
  - destruct Hin as [->|Hin]; [now left; left|].
    destruct (IH i Hin Hi); auto.
Qed.

Lemma runFrameTask_closing st t :
  closeInProgress st = true -> calm st (runFrameTask offsetWidth st t).
Proof.
  intros Hc. destruct t; cbn [runFrameTask].
  - apply may_queue_calm, initFrame_may_queue.
  - unfold adjustFrame. rewrite Hc. unfold calm.
    split; [reflexivity|]. split; [reflexivity|]. now intros t _ Hin.
  - apply undisturbed_calm, writeHeaders_undisturbed.
Qed.

Lemma fold_frame_closing tasks st :
  closeInProgress st = true ->
  calm st (fold_left (runFrameTask offsetWidth) tasks st).
Proof.
  revert st. induction tasks as [|t tasks IH]; intros st Hc; [apply calm_refl|].
  cbn [fold_left]. pose proof (runFrameTask_closing st t Hc) as H.
  eapply calm_trans; [exact H|]. apply IH. destruct H as [-> _]. exact Hc.
Qed.

Lemma runTimerTask_closing t st :
  closeInProgress st = true ->
  let st' := runTimerTask offsetWidth t st in
  (closeInProgress st' = true \/ t = CloseClearTimer)
  /\ (passStarts st' = passStarts st \/ exists hs, t = ResetApplyTimer hs)
  /\ timers_kept st st'.
Proof.
  intros Hc.
  assert (Hcalm : forall st', calm st st' ->
                    (closeInProgress st' = true \/ t = CloseClearTimer)
                    /\ (passStarts st' = passStarts st
                        \/ exists hs, t = ResetApplyTimer hs)
                    /\ timers_kept st st').
  { intros st' (H1 & H2 & H3). rewrite H1. auto. }
  destruct t; cbn [runTimerTask]; cbv zeta.
  - apply Hcalm, undisturbed_calm, closeLeafTimer_undisturbed.
  - split; [now right|]. split; [now left|]. now intros t _ Hin.
  - apply Hcalm, may_queue_calm, queueHeaderAdjustment_may_queue.
  - apply Hcalm, may_queue_calm, fileOpenTimer_may_queue.
  - apply Hcalm, undisturbed_calm, resetCleanup_undisturbed.
  - destruct (resetApply_footprint hs st) as (H1 & H2 & _ & _). cbv zeta in H1.
    rewrite H1. split; [now left|]. split; [right; eauto | exact H2].
  - apply Hcalm, undisturbed_calm, restoreTransition_undisturbed.
  - apply Hcalm, undisturbed_calm, updateTabsVisibility_undisturbed.
Qed.

(** While the closing flag is set, no event starts a pass except the tail
    of [resetTabs], no event clears the flag except the grace timer, and
    no pending timer is dropped unless it fires. *)
Lemma step_closing st ev :
  closeInProgress st = true ->
  let st' := step offsetWidth Number st ev in
  (closeInProgress st' = true \/ fires st ev CloseClearTimer)
  /\ (passStarts st' = passStarts st \/ exists hs, fires st ev (ResetApplyTimer hs))
  /\ (forall t, snd t <> DebounceTimer -> In t (timers st) ->
                In t (timers st') \/ fires st ev (snd t)).
Proof.
  intros Hc.
  assert (Hcalm : forall st', calm st st' ->
                    (closeInProgress st' = true \/ fires st ev CloseClearTimer)
                    /\ (passStarts st' = passStarts st
                        \/ exists hs, fires st ev (ResetApplyTimer hs))
                    /\ (forall t, snd t <> DebounceTimer -> In t (timers st) ->
                                  In t (timers st') \/ fires st ev (snd t))).
  { intros st' (H1 & H2 & H3). rewrite H1. auto 6. }
  destruct ev; cbn [step]; cbv zeta.
  - apply Hcalm. unfold runFrame.
    eapply calm_trans; [|now apply fold_frame_closing].
    unfold calm. split; [reflexivity|]. split; [reflexivity|]. now intros t _ Hin.
  - destruct (timers st !! i) as [[d t]|] eqn:Hi; [|apply Hcalm, calm_refl].
    set (st0 := with_timers (delete i (timers st)) st).
    destruct (runTimerTask_closing t st0 Hc) as (H1 & H2 & H3). cbv zeta in H1, H2, H3.
    split; [|split].
    + destruct H1 as [H1| ->]; [now left|]. right. exists i, d. auto.
    + destruct H2 as [H2|[hs ->]]; [now left|]. right. exists hs, i, d. auto.
    + intros t0 Hne Hin. destruct (in_delete _ _ _ _ Hin Hi) as [Hin'| ->].
      * left. now apply H3.
      * right. exists i, d. auto.
  - destruct (pendingSaves st !! i); [|apply Hcalm, calm_refl].
    apply Hcalm. eapply calm_trans;
      [|apply may_queue_calm, saveSettings_resume_may_queue].
    apply undisturbed_calm. now apply undisturbed_silent.
  - apply Hcalm, may_queue_calm, observerCallback_may_queue.
  - apply Hcalm, may_queue_calm, queueHeaderAdjustment_may_queue.
  - apply Hcalm, undisturbed_calm.
    eapply undisturbed_trans;
      [apply debounceLayoutChange_undisturbed | apply setTimeout_undisturbed].
  - apply Hcalm, undisturbed_calm, handleFileOpen_undisturbed.
  - apply Hcalm. unfold handleCloseClick. destruct (negb _); [apply calm_refl|].
    destruct tabHeader; [|apply calm_refl].
    rewrite initiateClose_closing by assumption. apply calm_refl.
  - apply Hcalm. unfold handleMiddleClick. destruct (negb _); [apply calm_refl|].
    destruct tabHeader; [|apply calm_refl].
    rewrite initiateClose_closing by assumption. apply calm_refl.
  - apply Hcalm. unfold handleKeyDown. destruct (_ && _); [|apply calm_refl].
    destruct (activeTab st); [|apply calm_refl].
    rewrite initiateClose_closing by assumption. apply calm_refl.
  - apply Hcalm, undisturbed_calm, onChange_begin_undisturbed.
  - apply Hcalm, undisturbed_calm. now apply undisturbed_silent.
Qed.

Lemma closeLeafByTabHeader_frame h st :
  let st' := closeLeafByTabHeader h st in
  timers st' = timers st /\ closeInProgress st' = closeInProgress st
  /\ forall l,
       List.find (fun l => Nat.eqb (tabHeaderEl l) h) (leaves (workspace st)) = Some l ->
       log st' = (log st ++ [LeafDetached (leafId l)])%list.
Proof.
  unfold closeLeafByTabHeader.
  destruct (find _ _) as [l|].
  - cbv zeta. repeat split. now intros l' [= ->].
  - assert (H : forall st', timers st' = timers st ->
                  closeInProgress st' = closeInProgress st ->
                  timers st' = timers st /\ closeInProgress st' = closeInProgress st
                  /\ forall l : Leaf, None = Some l ->
                                      log st' = (log st ++ [LeafDetached (leafId l)])%list).
    { intros st' H1 H2. repeat split; auto. discriminate. }
    destruct (get_header h st); [|now apply H].
    destruct (classList_contains _ _); [|now apply H].
    destruct (activeLeaf _); now apply H.
Qed.

(** C5 (amended).  A close gesture on a main-area tab header (click on its
    close button, middle click, Ctrl/Cmd+W for the active tab) that
    arrives while no other close is in progress starts the close sequence:
    the closing flag is set, the tab's [--header-width] is set to 0px
    (unless a reset is in progress), and a timer for the configured
    transition duration is armed.  While the flag is set a gesture is
    swallowed, [queueHeaderAdjustment] does nothing, and no event starts a
    pass except the tail of [resetTabs]; only the grace timer clears the
    flag, and no pending timer is dropped before it fires.  When the first
    timer fires, the leaf that owns the tab header is detached and the
    grace timer of 300 ms is armed; when that fires, the flag is cleared. *)
Theorem C5_close_sequence (st : State) (tab : HeaderId) :
  closeInProgress st = false ->
  let st1 := initiateClose tab st in
  (handleCloseClick true (Some tab) st = st1
   /\ handleMiddleClick 1 (Some tab) st = st1
   /\ (activeTab st = Some tab ->
       forall ctrlKey metaKey, ctrlKey || metaKey = true ->
                               handleKeyDown ctrlKey metaKey "w" st = st1))
  /\ closeInProgress st1 = true
  /\ (isResetting st = false ->
      forall e, get_header tab st = Some e ->
                get_header tab st1
                = Some (set_headerWidth (Some (Px (JS.of_Z 0)))
                          (classList_add "autofit-closing" e)))
  /\ timers st1
     = (timers st ++ [(transitionDuration (settings st), CloseLeafTimer tab)])%list
  /\ (forall s, closeInProgress s = true ->
                (forall h, initiateClose h s = s)
                /\ queueHeaderAdjustment s = s
                /\ forall ev,
                    let s' := step offsetWidth Number s ev in
                    (closeInProgress s' = true \/ fires s ev CloseClearTimer)
                    /\ (passStarts s' = passStarts s
                        \/ exists hs, fires s ev (ResetApplyTimer hs))
                    /\ (forall t, snd t <> DebounceTimer -> In t (timers s) ->
                                  In t (timers s') \/ fires s ev (snd t)))
  /\ (forall s,
        let s' := runTimerTask offsetWidth (CloseLeafTimer tab) s in
        timers s' = (timers s ++ [(JS.of_Z 300, CloseClearTimer)])%list
        /\ closeInProgress s' = closeInProgress s
        /\ forall l,
             List.find (fun l => Nat.eqb (tabHeaderEl l) tab) (leaves (workspace s))
             = Some l ->
             log s' = (log s ++ [LeafDetached (leafId l)])%list)
  /\ (forall s, closeInProgress (runTimerTask offsetWidth CloseClearTimer s) = false).
Proof.
  intros Hc st1.
  split; [|split; [|split; [|split; [|split; [|split]]]]].
  - split; [reflexivity|]. split; [reflexivity|].
    intros Hact ctrlKey metaKey Hkey. unfold handleKeyDown.
    rewrite Hkey, Hact. reflexivity.
  - unfold st1, initiateClose. rewrite Hc. cbv zeta. state_eval.
    now destruct (startClosingAnimation_frame tab (with_closeInProgress true st))
      as (-> & _).
  - intros Hr e Hget. unfold st1, initiateClose. rewrite Hc. cbv zeta.
    unfold startClosingAnimation.
    change (isResetting (with_closeInProgress true st)) with (isResetting st).
    rewrite Hr. unfold get_header in *. state_eval.
    cbn [tabElements update_header with_tabElements].
    rewrite lookup_alter. destruct (decide (tab = tab)); [|congruence].
    now rewrite Hget.
  - unfold st1, initiateClose. rewrite Hc. cbv zeta. state_eval.
    destruct (startClosingAnimation_frame tab (with_closeInProgress true st))
      as (_ & H2 & _ & H4 & _). cbv zeta in H2, H4. now rewrite H2, H4.
  - intros s Hs. split; [intros h; now apply initiateClose_closing|].
    split; [now apply queueHeaderAdjustment_closing|].
    intros ev. now apply step_closing.
  - intros s. cbn [runTimerTask]. unfold closeLeafTimer. cbv zeta. state_eval.
    destruct (closeLeafByTabHeader_frame tab s) as (H1 & H2 & H3). cbv zeta in H1, H2, H3.
    rewrite H1, H2. auto.
  - reflexivity.
Qed.

End EventLoop.

(** ** The settings tab *)

Section SettingsTab.
Variable offsetWidth : ComputedStyle -> string -> N.
Variable Number : string -> number.

Lemma get_set_prop prop v s : get_prop prop (set_prop prop v s) = v.
Proof. now destruct prop. Qed.

Lemma saveSettings_saves st :
  settings (saveSettings st) = settings st
  /\ savedData (saveSettings st) = Some (settings st).
Proof.
  rewrite saveSettings_queues. unfold queueHeaderAdjustment.
  set (st0 := updateCSSVariables _).
  assert (H : settings st0 = settings st /\ savedData st0 = Some (settings st)).
  { unfold st0, updateCSSVariables.
    now destruct (hideTabIcons (settings (with_savedData (Some (settings st)) st))). }
  destruct (closeInProgress st0); [exact H|].
  destruct (isAdjustmentQueued st0); exact H.
Qed.

Lemma onChange_spec prop value st :
  let numValue := Number value in
  let accepted := negb (JS.isNaN numValue) && JS.ge numValue JS.zero in
  let st' := onChange Number prop value st in
  let st'' := step offsetWidth Number st (EvInput prop value) in
  (accepted = true ->
     settings st' = set_prop prop numValue (settings st)
     /\ get_prop prop (settings st') = numValue
     /\ savedData st' = Some (settings st')
     /\ settings st'' = settings st'
     /\ savedData st'' = Some (settings st''))
  /\ (accepted = false -> st' = st /\ st'' = st).
Proof.
  cbv zeta. split.
  - intros Hacc. unfold onChange, step, onChange_with. rewrite Hacc.
    set (st0 := with_settings (set_prop prop (Number value) (settings st)) st).
    set (st1 := if isGeneralField prop then updateCSSVariables st0 else st0).
    assert (Hs1 : settings st1 = set_prop prop (Number value) (settings st)).
    { unfold st1. destruct (isGeneralField prop); [|reflexivity].
      unfold updateCSSVariables. now destruct (hideTabIcons (settings st0)). }
    destruct (saveSettings_saves st1) as [H1 H2].
    rewrite H1, H2, Hs1, get_set_prop.
    change (settings (saveSettings_begin st1)) with (settings st1).
    change (savedData (saveSettings_begin st1)) with (Some (settings st1)).
    now rewrite Hs1.
  - intros Hacc. unfold onChange, step, onChange_with. now rewrite Hacc.
Qed.

(** The text fields keep the settings valid. *)
Lemma onChange_keeps_valid prop value st :
  settings_valid (settings st) = true ->
  settings_valid (settings (onChange Number prop value st)) = true.
Proof.
  intros Hs.
  destruct (onChange_spec prop value st) as [Hyes Hno]. cbv zeta in *.
  destruct (negb (JS.isNaN (Number value)) && JS.ge (Number value) JS.zero) eqn:E.
  - destruct (Hyes eq_refl) as (-> & _). now apply set_prop_valid.
  - now destruct (Hno eq_refl) as [-> _].
Qed.

(** C8.  A text entered in a numeric settings field changes the setting
    exactly when [Number(value)] is not [NaN] and is at least 0; the new
    value is then stored and handed to the host for saving.  For any other
    text nothing at all changes: the setting keeps its previous value and
    nothing is saved.  This holds for the handler run to completion and
    for the handler as the event loop runs it, up to its [await]. *)
Theorem C8_numeric_fields_validate (prop : NumericProp) (value : string)
        (st : State) :
  let numValue := Number value in
  let accepted := negb (JS.isNaN numValue) && JS.ge numValue JS.zero in
  let st' := onChange Number prop value st in
  let st'' := step offsetWidth Number st (EvInput prop value) in
  (accepted = true ->
     settings st' = set_prop prop numValue (settings st)
     /\ get_prop prop (settings st') = numValue
     /\ savedData st' = Some (settings st')
     /\ settings st'' = settings st'
     /\ savedData st'' = Some (settings st''))
  /\ (accepted = false -> st' = st /\ st'' = st).
Proof. apply onChange_spec. Qed.

End SettingsTab.

(** ** Reachable states

    The theorems above assume valid settings, a valid cache and a queue flag
    that stands for its callback.  All of this holds when the plugin is
    loaded with valid settings, and every event keeps it. *)

Section Reachable.
Variable offsetWidth : ComputedStyle -> string -> N.
Variable Number : string -> number.

Lemma writesOf_app l1 l2 : writesOf (l1 ++ l2) = (writesOf l1 ++ writesOf l2)%list.
Proof. unfold writesOf. apply flat_map_app. Qed.

Lemma widths_kept_refl st : widths_kept st st.
Proof. now unfold widths_kept. Qed.

Lemma widths_kept_trans st1 st2 st3 :
  widths_kept st1 st2 -> widths_kept st2 st3 -> widths_kept st1 st3.
Proof. intros (A1 & A2 & A3) (B1 & B2 & B3). unfold widths_kept. repeat split; congruence. Qed.

Lemma widths_kept_intro st st' :
  settings st' = settings st -> tabWidthCache st' = tabWidthCache st ->
  frames st' = frames st -> widths_kept st st'.
Proof. intros H1 H2 H3. unfold widths_kept. now rewrite H1, H2, H3. Qed.

Lemma widths_kept_ok st st' : widths_kept st st' -> widths_ok st st'.
Proof.
  intros (H1 & H2 & H3) (A1 & A2 & A3). unfold widths_valid, widths_valid_with, cache_valid.
  rewrite H1, H2, H3. auto.
Qed.

Lemma widths_ok_trans st1 st2 st3 : widths_ok st1 st2 -> widths_ok st2 st3 -> widths_ok st1 st3.
Proof. unfold widths_ok. tauto. Qed.

Lemma fold_widths_kept {A} (f : State -> A -> State) (l : list A) st :
  (forall s a, widths_kept s (f s a)) -> widths_kept st (fold_left f l st).
Proof.
  intros H. revert st. induction l as [|a l IH]; intros st; [apply widths_kept_refl|].
  cbn [fold_left]. eapply widths_kept_trans; [apply H | apply IH].
Qed.

(** *** Handlers that keep settings, cache and write batches *)

Lemma scrollToActiveTab_kept h st : widths_kept st (scrollToActiveTab h st).
Proof. now apply widths_kept_intro. Qed.

Lemma updateTabsVisibility_kept st : widths_kept st (updateTabsVisibility st).
Proof.
  unfold updateTabsVisibility. destruct (isResetting st); now apply widths_kept_intro.
Qed.

Lemma queueHeaderAdjustment_kept st : widths_kept st (queueHeaderAdjustment st).
Proof.
  unfold queueHeaderAdjustment.
  destruct (closeInProgress st); [apply widths_kept_refl|].
  destruct (isAdjustmentQueued st); [apply widths_kept_refl|].
  cbn [negb]. unfold widths_kept. state_eval.
  rewrite writesOf_app. cbn. now rewrite app_nil_r.
Qed.

Lemma setTimeout_kept cb d st : widths_kept st (setTimeout cb d st).
Proof. now apply widths_kept_intro. Qed.

Lemma closeLeafByTabHeader_kept h st : widths_kept st (closeLeafByTabHeader h st).
Proof.
  unfold closeLeafByTabHeader.
  destruct (find _ _); [now apply widths_kept_intro|].
  destruct (get_header h st); [|apply widths_kept_refl].
  destruct (classList_contains _ _); [|apply widths_kept_refl].
  destruct (activeLeaf _); now apply widths_kept_intro.
Qed.

Lemma initiateClose_kept h st : widths_kept st (initiateClose h st).
Proof.
  unfold initiateClose. destruct (closeInProgress st); [apply widths_kept_refl|].
  cbv zeta. unfold startClosingAnimation. state_eval.
  destruct (isResetting st); now apply widths_kept_intro.
Qed.

Lemma handleFileOpen_kept st : widths_kept st (handleFileOpen st).
Proof.
  unfold handleFileOpen. destruct (closeInProgress st); [apply widths_kept_refl|].
  generalize (getAllHeaders st). intros l. apply fold_widths_kept. intros s a.
  destruct (classList_contains _ _); now apply widths_kept_intro.
Qed.

Lemma fileOpenTimer_kept h st : widths_kept st (fileOpenTimer h st).
Proof.
  unfold fileOpenTimer. cbv zeta.
  eapply widths_kept_trans; [|apply scrollToActiveTab_kept].
  destruct (tabWidthCache st !! _);
    [apply widths_kept_refl | apply queueHeaderAdjustment_kept].
Qed.

Lemma updateCSSVariables_kept st : widths_kept st (updateCSSVariables st).
Proof.
  unfold updateCSSVariables. cbv zeta.
  destruct (hideTabIcons (settings st)); now apply widths_kept_intro.
Qed.

(** *** Handlers that write widths *)

Lemma cache_cleared_ok st : widths_ok st (with_tabWidthCache ∅ st).
Proof.
  intros (A1 & A2 & A3). split; [exact A1|]. split; [|exact A3].
  intros k w H. cbn in H. rewrite lookup_empty in H. discriminate.
Qed.

Lemma resetTabs_ok st : widths_ok st (resetTabs st).
Proof.
  intros (A1 & A2 & A3). split; [exact A1|]. split; [|exact A3].
  intros k w H. unfold resetTabs in H. cbn in H. rewrite lookup_empty in H. discriminate.
Qed.

Lemma observerCallback_ok mutations removed st :
  widths_ok st (observerCallback mutations removed st).
Proof.
  revert removed. induction mutations as [|m rest IH]; intros removed; [now intros H|].
  cbn [observerCallback].
  destruct (targetIsElement m); [|apply IH].
  destruct (targetInMainArea m); cbn [negb]; [|apply IH].
  destruct (targetIsTabElement m).
  - destruct (negb _); [apply widths_kept_ok, queueHeaderAdjustment_kept | now intros H].
  - destruct (targetIsBodyClass m); [|apply IH].
    eapply widths_ok_trans;
      [apply cache_cleared_ok | apply widths_kept_ok, queueHeaderAdjustment_kept].
Qed.

Lemma saveSettings_resume_ok prev st : widths_ok st (saveSettings_resume prev st).
Proof.
  unfold saveSettings_resume. cbv zeta.
  eapply widths_ok_trans; [apply widths_kept_ok, updateCSSVariables_kept|].
  destruct (_ && _);
    [apply resetTabs_ok | apply widths_kept_ok, queueHeaderAdjustment_kept].
Qed.

(** The read batch hands on cached widths and calculated widths only. *)
Lemma headerDataOf_valid st :
  settings_valid (settings st) = true -> cache_valid st ->
  data_valid (headerDataOf offsetWidth st).
Proof.
  intros Hs Hc d w Hin Hw. unfold headerDataOf in Hin.
  apply in_map_iff in Hin. destruct Hin as (d0 & <- & Hin).
  apply in_map_iff in Hin. destruct Hin as (he & <- & _).
  unfold recalcHeader in Hw. destruct (_ && _).
  - destruct (get_header _ st) as [e|].
    + cbn in Hw. injection Hw as <-. now apply calculateHeaderWidth_valid.
    + cbn in Hw. now apply Hc in Hw.
  - cbn in Hw. now apply Hc in Hw.
Qed.

Lemma adjustAllHeaders_ok st : widths_ok st (adjustAllHeaders offsetWidth st).
Proof.
  intros (A1 & A2 & A3). unfold adjustAllHeaders.
  destruct (isResetting st); [now split|]. cbv zeta.
  split; [exact A1|]. split; [exact A2|].
  intros data Hin. state_eval_in Hin. rewrite writesOf_app in Hin.
  apply in_app_or in Hin. destruct Hin as [Hin|Hin]; [now apply A3|].
  cbn in Hin. destruct Hin as [<-|[]].
  now apply headerDataOf_valid.
Qed.

Lemma resetApply_ok hs st : widths_ok st (resetApply offsetWidth hs st).
Proof.
  unfold resetApply. cbv zeta.
  set (st0 := with_document _ st).
  eapply widths_ok_trans with st0; [now apply widths_kept_ok, widths_kept_intro|].
  eapply widths_ok_trans; [apply adjustAllHeaders_ok|].
  eapply widths_ok_trans; [apply widths_kept_ok, updateTabsVisibility_kept|].
  now apply widths_kept_ok, widths_kept_intro.
Qed.

Lemma runTimerTask_ok t st : widths_ok st (runTimerTask offsetWidth t st).
Proof.
  destruct t; cbn [runTimerTask].
  - unfold closeLeafTimer. cbv zeta. apply widths_kept_ok.
    eapply widths_kept_trans; [apply closeLeafByTabHeader_kept | apply setTimeout_kept].
  - now apply widths_kept_ok, widths_kept_intro.
  - apply widths_kept_ok, queueHeaderAdjustment_kept.
  - apply widths_kept_ok, fileOpenTimer_kept.
  - now apply widths_kept_ok, widths_kept_intro.
  - apply resetApply_ok.
  - now apply widths_kept_ok, widths_kept_intro.
  - apply widths_kept_ok, updateTabsVisibility_kept.
Qed.

Lemma onChange_begin_ok prop value st :
  widths_ok st (onChange_with Number saveSettings_begin prop value st).
Proof.
  intros (A1 & A2 & A3). unfold onChange_with. cbv zeta.
  destruct (negb (JS.isNaN (Number value)) && JS.ge (Number value) JS.zero) eqn:E;
    [|now split].
  assert (Hv : settings_valid (set_prop prop (Number value) (settings st)) = true)
    by (apply set_prop_valid; [exact A1 | exact E]).
  set (st0 := with_settings _ st).
  assert (H0 : widths_valid st0) by (split; [exact Hv | now split]).
  assert (H1 : widths_valid (if isGeneralField prop then updateCSSVariables st0 else st0)).
  { destruct (isGeneralField prop); [|exact H0].
    now apply (widths_kept_ok _ _ (updateCSSVariables_kept st0)). }
  revert H1. apply widths_kept_ok. now apply widths_kept_intro.
Qed.

Lemma step_widths_ok st ev : notFrame ev -> widths_ok st (step offsetWidth Number st ev).
Proof.
  intros Hev. destruct ev; cbn [step]; try contradiction.
  - destruct (timers st !! i) as [[d t]|]; [|now intros H].
    eapply widths_ok_trans; [|apply runTimerTask_ok].
    now apply widths_kept_ok, widths_kept_intro.
  - destruct (pendingSaves st !! i); [|now intros H].
    eapply widths_ok_trans; [|apply saveSettings_resume_ok].
    now apply widths_kept_ok, widths_kept_intro.
  - apply observerCallback_ok.
  - apply widths_kept_ok, queueHeaderAdjustment_kept.
  - now apply widths_kept_ok, widths_kept_intro.
  - apply widths_kept_ok, handleFileOpen_kept.
  - unfold handleCloseClick. destruct (negb onCloseButton); [now intros H|].
    destruct tabHeader; [|now intros H]. apply widths_kept_ok, initiateClose_kept.
  - unfold handleMiddleClick. destruct (negb _); [now intros H|].
    destruct tabHeader; [|now intros H]. apply widths_kept_ok, initiateClose_kept.
  - unfold handleKeyDown. destruct (_ && _); [|now intros H].
    destruct (activeTab st); [|now intros H]. apply widths_kept_ok, initiateClose_kept.
  - apply onChange_begin_ok.
  - now apply widths_kept_ok, widths_kept_intro.
Qed.

(** *** One frame *)

Lemma preCalculateAllTabWidths_effect st :
  let st' := preCalculateAllTabWidths offsetWidth st in
  settings st' = settings st /\ frames st' = frames st
  /\ isAdjustmentQueued st' = isAdjustmentQueued st
  /\ (settings_valid (settings st) = true -> cache_valid st -> cache_valid st').
Proof.
  unfold preCalculateAllTabWidths. generalize (getAllHeaders st). intros l.
  revert st. induction l as [|he l IH]; intros st; [cbn; tauto|].
  cbn [fold_left]. cbv zeta in IH |- *.
  destruct (tabWidthCache st !! getHeaderKey (snd he)) eqn:Hc; [apply IH|].
  set (st1 := with_tabWidthCache _ st).
  destruct (IH st1) as (H1 & H2 & H3 & H4).
  rewrite H1, H2, H3. repeat split. intros Hs Hv. apply H4; [exact Hs|].
  intros k w Hk. unfold st1 in Hk. cbn in Hk.
  destruct (decide (getHeaderKey (snd he) = k)) as [Heq|Hne].
  - rewrite Heq, lookup_insert_eq in Hk. injection Hk as <-.
    now apply calculateHeaderWidth_valid.
  - rewrite lookup_insert_ne in Hk by assumption. now apply Hv in Hk.
Qed.

Lemma updateTabsVisibility_effect st :
  let st' := updateTabsVisibility st in
  settings st' = settings st /\ tabWidthCache st' = tabWidthCache st
  /\ frames st' = frames st /\ isAdjustmentQueued st' = isAdjustmentQueued st.
Proof. unfold updateTabsVisibility. now destruct (isResetting st). Qed.

Lemma queueHeaderAdjustment_effect st :
  let st' := queueHeaderAdjustment st in
  settings st' = settings st /\ tabWidthCache st' = tabWidthCache st
  /\ ((frames st' = frames st /\ isAdjustmentQueued st' = isAdjustmentQueued st)
      \/ (isAdjustmentQueued st = false /\ isAdjustmentQueued st' = true
          /\ frames st' = (frames st ++ [AdjustFrame])%list)).
Proof.
  unfold queueHeaderAdjustment.
  destruct (closeInProgress st); [cbv zeta; tauto|].
  destruct (isAdjustmentQueued st) eqn:Hq; cbn [negb]; cbv zeta; [tauto|].
  state_eval. tauto.
Qed.

Lemma writeHeaders_effect data st :
  let st' := writeHeaders data st in
  settings st' = settings st /\ frames st' = frames st
  /\ isAdjustmentQueued st' = isAdjustmentQueued st
  /\ tabWidthCache st' = cacheOf data.
Proof.
  cbv zeta. rewrite tabWidthCache_writeHeaders. unfold writeAll. rewrite newCache_fold.
  unfold writeHeaders, updateTabsVisibility.
  destruct (activeHeader _); [now repeat split|].
  cbn. destruct (isResetting st); now repeat split.
Qed.

Lemma runFrameTask_invariant t tasks st :
  frame_invariant (t :: tasks) st ->
  frame_invariant tasks (runFrameTask offsetWidth st t).
Proof.
  intros [(A1 & A2 & A3) A4]. unfold frame_invariant, widths_valid_with in *.
  destruct t; cbn [runFrameTask].
  - (* the start-up frame *)
    unfold initFrame. cbv zeta.
    change (writesOf ((InitFrame :: tasks) ++ frames st))
      with (writesOf (tasks ++ frames st)) in A3.
    cbn [app List.filter isAdjustFrame] in A4.
    destruct (preCalculateAllTabWidths_effect st) as (P1 & P2 & P3 & P4).
    cbv zeta in P1, P2, P3, P4.
    remember (preCalculateAllTabWidths offsetWidth st) as st1 eqn:E1. clear E1.
    assert (C1 : cache_valid st1) by auto.
    destruct (updateTabsVisibility_effect st1) as (V1 & V2 & V3 & V4).
    remember (updateTabsVisibility st1) as st2 eqn:E2. clear E2.
    destruct (queueHeaderAdjustment_effect st2) as (Q1 & Q2 & Q3).
    remember (queueHeaderAdjustment st2) as st3 eqn:E3. clear E3.
    assert (C3 : cache_valid st3).
    { intros k w Hk. rewrite Q2, V2 in Hk. now apply C1 in Hk. }
    destruct Q3 as [[Q3 Q4]|(Q3 & Q4 & Q5)].
    + rewrite Q1, V1, P1, Q3, V3, P2, Q4, V4, P3. repeat split; auto.
    + rewrite Q1, V1, P1, Q5, V3, P2, Q4. rewrite V4, P3 in Q3. rewrite Q3 in A4.
      split; [split; [exact A1|split; [exact C3|]]|].
      * intros data Hin. rewrite app_assoc, writesOf_app in Hin.
        change (writesOf [AdjustFrame]) with (@nil (list HeaderData)) in Hin.
        rewrite app_nil_r in Hin. now apply A3.
      * rewrite app_assoc, List.filter_app, length_app. cbn. rewrite A4. reflexivity.
  - (* the callback of a queued pass *)
    cbn [app List.filter isAdjustFrame length] in A4.
    assert (Hq : isAdjustmentQueued st = true
                 /\ length (List.filter isAdjustFrame (tasks ++ frames st)) = 0%nat)
      by (destruct (isAdjustmentQueued st); [split; [reflexivity | lia] | lia]).
    destruct Hq as [Hq H0].
    assert (A3' : forall data, In data (writesOf (tasks ++ frames st)) -> data_valid data)
      by (intros data Hin; apply A3; exact Hin).
    unfold adjustFrame, adjustAllHeaders.
    destruct (closeInProgress st); [|destruct (isResetting st)]; cbv zeta; state_eval.
    + repeat split; auto.
    + repeat split; auto.
    + split; [split; [exact A1|split; [exact A2|]]|].
      * intros data Hin. rewrite app_assoc, writesOf_app in Hin.
        apply in_app_or in Hin. destruct Hin as [Hin|Hin]; [now apply A3'|].
        cbn in Hin. destruct Hin as [<-|[]].
        now apply headerDataOf_valid.
      * rewrite app_assoc, List.filter_app, length_app. cbn. lia.
  - (* the write batch *)
    destruct (writeHeaders_effect data st) as (W1 & W2 & W3 & W4).
    cbv zeta in W1, W2, W3, W4. rewrite W1, W2, W3.
    cbn [app List.filter isAdjustFrame] in A4. split; [split; [exact A1|split]|exact A4].
    + intros k w Hk. rewrite W4 in Hk. apply cacheOf_lookup in Hk.
      destruct Hk as (d & Hin & _ & _ & Hw).
      apply (A3 data (or_introl eq_refl) d w Hin Hw).
    + intros data' Hin. apply A3. cbn. now right.
Qed.

Lemma fold_frame_invariant tasks st :
  frame_invariant tasks st ->
  invariant (fold_left (runFrameTask offsetWidth) tasks st).
Proof.
  revert st. induction tasks as [|t tasks IH]; intros st H.
  - exact H.
  - cbn [fold_left]. apply IH. now apply runFrameTask_invariant.
Qed.

Lemma runFrame_invariant st : invariant st -> invariant (runFrame offsetWidth st).
Proof.
  intros [(A1 & A2 & A3) A4]. unfold runFrame. apply fold_frame_invariant.
  unfold frame_invariant, widths_valid_with. state_eval. rewrite app_nil_r.
  repeat split; assumption.
Qed.

(** *** Every event keeps the invariant *)

Lemma classic_frame (ev : Event) : ev = EvFrame \/ notFrame ev.
Proof. destruct ev; cbn; auto. Qed.

Lemma step_invariant st ev : invariant st -> invariant (step offsetWidth Number st ev).
Proof.
  intros H. destruct (classic_frame ev) as [->|Hev].
  - now apply runFrame_invariant.
  - destruct H as [Hw Hq]. split.
    + now apply step_widths_ok.
    + now apply (step_queue_ok offsetWidth Number st ev Hev).
Qed.

Lemma run_invariant evs st : invariant st -> invariant (run offsetWidth Number evs st).
Proof.
  revert st. induction evs as [|ev evs IH]; intros st H; [exact H|].
  unfold run. cbn [fold_left]. apply IH. now apply step_invariant.
Qed.

(** The plugin starts in a state that satisfies the invariant. *)
Lemma initialize_invariant st :
  settings_valid (settings st) = true -> tabWidthCache st = ∅ ->
  frames st = [] -> isAdjustmentQueued st = false ->
  invariant (initialize st).
Proof.
  intros Hs Hc Hf Hq. unfold invariant, widths_valid, widths_valid_with,
    queue_consistent, cache_valid, initialize.
  cbv zeta. state_eval. rewrite Hc, Hf, Hq. cbn. repeat split; auto.
  - intros k w H. rewrite lookup_empty in H. discriminate.
  - intros data [].
Qed.

(** Whatever happens after start-up, the hypotheses of the theorems on
    widths and on coalescing hold. *)
Lemma reachable_invariant st evs :
  settings_valid (settings st) = true -> tabWidthCache st = ∅ ->
  frames st = [] -> isAdjustmentQueued st = false ->
  let st' := run offsetWidth Number evs (initialize st) in
  settings_valid (settings st') = true /\ cache_valid st' /\ queue_consistent st'.
Proof.
  intros Hs Hc Hf Hq. cbv zeta.
  destruct (run_invariant evs _ (initialize_invariant st Hs Hc Hf Hq))
    as [(A1 & A2 & _) A4].
  auto.
Qed.

(** *** A pass, as the event loop runs it

    When nothing comes between the two frames of a pass, the event loop
    leaves the tab strip and the cache as [recalculationPass] does. *)

Lemma headerDataOf_ext st st' :
  settings st' = settings st -> document st' = document st ->
  tabWidthCache st' = tabWidthCache st -> measureElement st' = measureElement st ->
  headerDataOf offsetWidth st' = headerDataOf offsetWidth st.
Proof.
  intros H1 H2 H3 H4.
  unfold headerDataOf, getAllHeaders, readHeader, recalcHeader, calculateHeaderWidth,
    measureTextWidth, get_header.
  now rewrite H1, H2, H3, H4.
Qed.

Lemma pass_in_two_frames st :
  frames st = [AdjustFrame] -> closeInProgress st = false -> isResetting st = false ->
  let st' := run offsetWidth Number [EvFrame; EvFrame] st in
  document st' = document (recalculationPass offsetWidth st)
  /\ tabWidthCache st' = tabWidthCache (recalculationPass offsetWidth st)
  /\ frames st' = [] /\ isAdjustmentQueued st' = false.
Proof.
  intros Hf Hc Hr. cbv zeta. unfold run. cbn [fold_left step].
  set (st1 := runFrame offsetWidth st).
  assert (E1 : settings st1 = settings st /\ document st1 = document st
               /\ tabWidthCache st1 = tabWidthCache st
               /\ isAdjustmentQueued st1 = false
               /\ frames st1 = [WriteFrame (headerDataOf offsetWidth st)]).
  { unfold st1, runFrame. rewrite Hf. cbn [fold_left runFrameTask].
    unfold adjustFrame, adjustAllHeaders. state_eval. rewrite Hc, Hr. cbv zeta.
    state_eval. cbn [app].
    rewrite (headerDataOf_ext (observe (AdjustAllHeadersCalled false) (with_frames [] st)) st)
      by reflexivity.
    auto. }
  destruct E1 as (S1 & D1 & C1 & Q1 & F1).
  unfold runFrame. rewrite F1. cbn [fold_left runFrameTask].
  destruct (writeHeaders_effect (headerDataOf offsetWidth st) (with_frames [] st1))
    as (_ & W2 & W3 & _).
  cbv zeta in W2, W3. rewrite W2, W3.
  rewrite !document_writeHeaders, !tabWidthCache_writeHeaders.
  unfold recalculationPass.
  rewrite !document_writeHeaders, !tabWidthCache_writeHeaders.
  state_eval. now rewrite S1, D1, Q1.
Qed.

End Reachable.

(** ** The maximum width, switched on again *)

Section MaximumOn.
Variable offsetWidth : ComputedStyle -> string -> N.
Variable Number : string -> number.






End MaximumOn.

(** ** Concrete runs *)

(** Split a conjunction into its parts, leaving the parts alone. *)
Ltac split_all := repeat match goal with |- _ /\ _ => split end.

Module Runs.
Import Sample.

(** *** The width calculator *)

Lemma C9_witness :
  titleElement untitled = None
  /\ calculateHeaderWidth offsetWidth (loaded DEFAULT_SETTINGS twoTabs) untitled
     = JS.of_Z 40
  /\ Legacy.calculateHeaderWidth offsetWidth Legacy.DEFAULT_SETTINGS true untitled
     = JS.of_Z 40.
Proof.
  destruct (C9_missing_title_yields_minWidth offsetWidth
              (loaded DEFAULT_SETTINGS twoTabs) untitled eq_refl) as [Hnow Hlegacy].
  split; [reflexivity|]. split; [exact Hnow|].
  exact (Hlegacy Legacy.DEFAULT_SETTINGS true).
Defined.

Lemma C6_witness :
  let st := loaded DEFAULT_SETTINGS twoTabs in
  settings_valid (settings st) = true
  /\ (offsetWidth plain "Note1" <= offsetWidth plain "A rather long title")%N
  /\ JS.le (calculateHeaderWidth offsetWidth st (tab "Note1" ∅))
           (calculateHeaderWidth offsetWidth st (tab "A rather long title" ∅)) = true.
Proof.
  cbv zeta.
  assert (Hv : settings_valid (settings (loaded DEFAULT_SETTINGS twoTabs)) = true)
    by (vm_compute; reflexivity).
  assert (Hle : (offsetWidth plain "Note1" <= offsetWidth plain "A rather long title")%N)
    by (vm_compute; discriminate).
  split; [exact Hv|]. split; [exact Hle|].
  exact (C6_width_monotone_in_text_width offsetWidth
           (loaded DEFAULT_SETTINGS twoTabs)
           (tab "Note1" ∅) (tab "A rather long title" ∅)
           (mkTitle "Note1" plain) (mkTitle "A rather long title" plain)
           Hv eq_refl eq_refl (or_introl Hle)).
Defined.

(** "Note1" renders 35 pixels wide in the sample probe and gets 110;
    "Note 1" renders 30 pixels wide in the narrow probe, is measured as 35
    and gets 105. *)
Lemma C2_witness :
  let st := loaded DEFAULT_SETTINGS twoTabs in
  measureElement st = true
  /\ JS.gt (maxWidth (settings st)) JS.zero = false
  /\ exampleSettings (settings st)
  /\ offsetWidth plain "Note1" = 35%N
  /\ calculateHeaderWidth offsetWidth st (tab "Note1" ∅) = JS.of_Z 110
  /\ narrowProbe plain "Note 1" = 30%N
  /\ measureTextWidth narrowProbe st "Note 1" (mkTitle "Note 1" plain) = JS.of_Z 35
  /\ calculateHeaderWidth narrowProbe st (tab "Note 1" ∅) = JS.of_Z 105.
Proof.
  cbv zeta.
  assert (Hs : exampleSettings (settings (loaded DEFAULT_SETTINGS twoTabs)))
    by (repeat split; reflexivity).
  destruct (C2_width_formula offsetWidth (loaded DEFAULT_SETTINGS twoTabs)
              (tab "Note1" ∅) (mkTitle "Note1" plain) eq_refl eq_refl eq_refl)
    as (_ & _ & Hex).
  destruct (C2_width_formula narrowProbe (loaded DEFAULT_SETTINGS twoTabs)
              (tab "Note 1" ∅) (mkTitle "Note 1" plain) eq_refl eq_refl eq_refl)
    as (Hmeasure & _ & Hex').
  destruct (Hex Hs) as (_ & H110 & _). destruct (Hex' Hs) as (_ & _ & H105).
  split; [reflexivity|]. split; [reflexivity|]. split; [exact Hs|].
  split; [reflexivity|]. split; [exact (H110 eq_refl)|].
  split; [reflexivity|]. split; [exact Hmeasure|].
  apply H105. reflexivity.
Defined.

(** C2, as stated: a title that renders at 35px does not get 105 but 110,
    because the measured width carries a 5px buffer; and with a left
    padding of 12.5 the width is not the maximum of the sum and the
    minimum, 110.5, but that number rounded up. *)
Lemma C2_counterexample :
  let st := loaded DEFAULT_SETTINGS twoTabs in
  let st' := loaded (set_prop PLeftPadding (JS.Fin 12.5) DEFAULT_SETTINGS) twoTabs in
  exampleSettings (settings st)
  /\ offsetWidth plain "Note1" = 35%N
  /\ measureTextWidth offsetWidth st "Note1" (mkTitle "Note1" plain) = JS.of_Z 40
  /\ calculateHeaderWidth offsetWidth st (tab "Note1" ∅) = JS.of_Z 110
  /\ calculateHeaderWidth offsetWidth st (tab "Note1" ∅) <> JS.of_Z 105
  /\ settings_valid (settings st') = true
  /\ JS.strict_eq
       (JS.max (JS.add (JS.add (JS.add (JS.add (leftPadding (settings st'))
                                               (iconSpaceNeeded (settings st')))
                                       (JS.of_Z 40))
                               (closeButtonLeftPadding (settings st')))
                       (closeButtonRightPadding (settings st')))
               (minWidth (settings st')))
       (JS.Fin 110.5) = true
  /\ calculateHeaderWidth offsetWidth st' (tab "Note1" ∅) = JS.of_Z 111.
Proof.
  cbv zeta. split; [repeat split; reflexivity|].
  split_all; try (vm_compute; reflexivity). vm_compute. discriminate.
Qed.

(** *** The bounds *)

Lemma C1_witness :
  let st := loaded DEFAULT_SETTINGS twoTabs in
  let e := tab "Note1" {["is-active"]} in
  settings_valid (settings st) = true
  /\ JS.gt (maxWidth (settings st)) JS.zero = false
  /\ JS.ge (calculateHeaderWidth offsetWidth st e) (minWidth (settings st)) = true
  /\ exists e', get_header 0 (recalculationPass offsetWidth st) = Some e'
                /\ headerWidth e' = Some (Px (calculateHeaderWidth offsetWidth st e)).
Proof.
  cbv zeta.
  assert (Hv : settings_valid (settings (loaded DEFAULT_SETTINGS twoTabs)) = true)
    by (vm_compute; reflexivity).
  destruct (C1_width_within_bounds offsetWidth (loaded DEFAULT_SETTINGS twoTabs)
              (tab "Note1" {["is-active"]}) Hv (or_introl eq_refl))
    as (Hmin & _ & Hpass).
  split; [exact Hv|]. split; [reflexivity|]. split; [exact Hmin|].
  apply (Hpass 0%nat).
  - vm_compute. reflexivity.
  - apply list_elem_of_In. vm_compute. auto.
  - vm_compute. reflexivity.
  - vm_compute. reflexivity.
  - left. vm_compute. reflexivity.
Defined.

(** C1, as stated: with a maximum below the minimum (both valid), a titled
    header gets the maximum, which is below the minimum, and a header
    without title gets the minimum, which is above the maximum; and a pass
    after the minimum was raised leaves an inactive tab at its cached
    width, below the new minimum. *)
Lemma C1_counterexample :
  let st := loaded (withMinMax 40 30) twoTabs in
  let st' := events (changeSetting PMinWidth "300") (started DEFAULT_SETTINGS twoTabs) in
  settings_valid (settings st) = true
  /\ calculateHeaderWidth offsetWidth st (tab "Note1" ∅) = JS.of_Z 30
  /\ JS.ge (JS.of_Z 30) (minWidth (settings st)) = false
  /\ calculateHeaderWidth offsetWidth st untitled = JS.of_Z 40
  /\ JS.gt (maxWidth (settings st)) JS.zero = true
  /\ JS.le (JS.of_Z 40) (maxWidth (settings st)) = false
  /\ minWidth (settings st') = JS.of_Z 300
  /\ widthOf 1 st' = Some (Px (JS.of_Z 208))
  /\ JS.ge (JS.of_Z 208) (minWidth (settings st')) = false.
Proof. cbv zeta. split_all; vm_compute; reflexivity. Qed.

(** *** The maximum width, switched on again *)




(** *** Frame coalescing *)

Lemma C4_witness :
  let st := started DEFAULT_SETTINGS twoTabs in
  let evs := [EvRename; EvLayoutChange; EvMutations []; EvRename] in
  let st2 := events evs (queueHeaderAdjustment st) in
  queue_consistent st
  /\ closeInProgress st = false
  /\ Forall notFrame evs
  /\ length (List.filter isAdjustFrame (frames st2)) = 1%nat
  /\ adjustCalls (step offsetWidth Number st2 EvFrame) = S (adjustCalls st2).
Proof.
  cbv zeta.
  assert (Hq : queue_consistent (started DEFAULT_SETTINGS twoTabs))
    by (vm_compute; reflexivity).
  assert (Hev : Forall notFrame [EvRename; EvLayoutChange; EvMutations []; EvRename])
    by (repeat constructor).
  destruct (C4_calls_coalesce_into_one_pass offsetWidth Number
              (started DEFAULT_SETTINGS twoTabs)
              [EvRename; EvLayoutChange; EvMutations []; EvRename]
              Hq eq_refl Hev)
    as (_ & _ & _ & Hone & Hcalls).
  split; [exact Hq|]. split; [reflexivity|]. split; [exact Hev|].
  split; [exact Hone|].
  unfold events. rewrite Hcalls. vm_compute. reflexivity.
Defined.

(** C4, as stated: a pass is queued, then a close gesture arrives and one
    more trigger.  One callback is queued, but in its frame
    [adjustAllHeaders] is not entered at all. *)
Lemma C4_counterexample :
  let st := started DEFAULT_SETTINGS twoTabs in
  let st2 := events [EvRename; EvCloseClick true (Some 1%nat); EvRename] st in
  let st3 := events [EvFrame] st2 in
  closeInProgress st = false
  /\ frames st2 = [AdjustFrame]
  /\ isAdjustmentQueued st2 = true
  /\ adjustCalls st3 = adjustCalls st2
  /\ isAdjustmentQueued st3 = false
  /\ frames st3 = [].
Proof. cbv zeta. split_all; vm_compute; reflexivity. Qed.

(** *** The animated close *)

Lemma C5_witness :
  let st := started DEFAULT_SETTINGS twoTabs in
  let st1 := initiateClose 1 st in
  closeInProgress st = false
  /\ handleCloseClick true (Some 1%nat) st = st1
  /\ closeInProgress st1 = true
  /\ widthOf 1 st1 = Some (Px (JS.of_Z 0))
  /\ timers st1 = (timers st ++ [(JS.of_Z 375, CloseLeafTimer 1)])%list
  /\ queueHeaderAdjustment st1 = st1
  /\ passStarts (step offsetWidth Number st1 EvFrame) = passStarts st1
  /\ log (runTimerTask offsetWidth (CloseLeafTimer 1) st1)
     = (log st1 ++ [LeafDetached 101])%list.
Proof.
  cbv zeta.
  destruct (C5_close_sequence offsetWidth Number (started DEFAULT_SETTINGS twoTabs)
              1%nat eq_refl)
    as ((Hclick & _) & Hflag & Hzero & Htimers & Hwhile & Hleaf & _).
  split; [reflexivity|]. split; [exact Hclick|]. split; [exact Hflag|].
  split.
  { unfold widthOf.
    rewrite (Hzero eq_refl
               (applyWidth DEFAULT_SETTINGS (JS.of_Z 208) (tab "A rather long title" ∅)))
      by (vm_compute; reflexivity).
    reflexivity. }
  split; [exact Htimers|].
  destruct (Hwhile _ Hflag) as (_ & Hqueue & Hstep).
  split; [exact Hqueue|]. split.
  { destruct (Hstep EvFrame) as (_ & [Hp|[hs (i & d & Hev & _)]] & _);
      [exact Hp | discriminate Hev]. }
  destruct (Hleaf (initiateClose 1 (started DEFAULT_SETTINGS twoTabs)))
    as (_ & _ & Hlog).
  apply (Hlog (mkLeaf 101 1)). vm_compute. reflexivity.
Defined.

(** C5, as stated: a second close gesture, on another tab, while the first
    close is in progress.  The second tab keeps its width, no timer is
    armed for it, and after every timer has fired only the first leaf has
    been detached. *)
Lemma C5_counterexample :
  let st := started DEFAULT_SETTINGS twoTabs in
  let st1 := events [EvCloseClick true (Some 0%nat)] st in
  let st2 := events [EvCloseClick true (Some 1%nat)] st1 in
  let st3 := events [EvTimer 0; EvTimer 0; EvTimer 0; EvTimer 0] st2 in
  closeInProgress st1 = true
  /\ st2 = st1
  /\ widthOf 1 st2 = Some (Px (JS.of_Z 208))
  /\ List.filter (fun t => match snd t with CloseLeafTimer _ => true | _ => false end)
                 (timers st2)
     = [(JS.of_Z 375, CloseLeafTimer 0)]
  /\ timers st3 = []
  /\ closeInProgress st3 = false
  /\ List.filter (fun o => match o with LeafDetached _ => true | _ => false end)
                 (log st3)
     = [LeafDetached 100].
Proof. cbv zeta. split_all; vm_compute; reflexivity. Qed.

(** *** Two passes in a row *)

Lemma nodup_decide {A} `{EqDecision A} (l : list A) :
  bool_decide (NoDup l) = true -> NoDup l.
Proof. apply bool_decide_eq_true. Qed.

Lemma C7_witness :
  let st := started DEFAULT_SETTINGS twoTabs in
  let st1 := recalculationPass offsetWidth st in
  let st2 := recalculationPass offsetWidth st1 in
  NoDup (map headerKey (List.filter written (headerDataOf offsetWidth st)))
  /\ widthOf 0 st2 = widthOf 0 st1
  /\ widthOf 1 st2 = widthOf 1 st1
  /\ tabWidthCache st2 = tabWidthCache st1.
Proof.
  cbv zeta.
  assert (Hnd : NoDup (map headerKey
                         (List.filter written
                            (headerDataOf offsetWidth
                               (started DEFAULT_SETTINGS twoTabs)))))
    by (apply nodup_decide; vm_compute; reflexivity).
  destruct (C7_second_pass_is_identical offsetWidth
              (started DEFAULT_SETTINGS twoTabs) Hnd) as [Hsame Hcache].
  split; [exact Hnd|]. unfold widthOf. rewrite !Hsame. auto.
Defined.

(** C7, as stated: two tabs share the title "New tab", the inactive one
    first.  After the left padding was raised, the first pass leaves the
    inactive tab at its cached width 124 and caches 162 for the title; the
    second pass, with nothing changed in between, gives the same tab 162. *)
Lemma C7_counterexample :
  let st := events [EvInput PLeftPadding "50"; EvSaveDone 0]
                   (started DEFAULT_SETTINGS sameTitle) in
  let st1 := recalculationPass offsetWidth st in
  let st2 := recalculationPass offsetWidth st1 in
  settings st2 = settings st1
  /\ getHeaderKey <$> get_header 0 st2 = getHeaderKey <$> get_header 0 st1
  /\ widthOf 0 st1 = Some (Px (JS.of_Z 124))
  /\ widthOf 0 st2 = Some (Px (JS.of_Z 162))
  /\ widthOf 0 st2 <> widthOf 0 st1.
Proof.
  cbv zeta. split_all; try (vm_compute; reflexivity).
  vm_compute. discriminate.
Qed.

(** *** The settings tab *)

Lemma C8_witness :
  let st := started DEFAULT_SETTINGS twoTabs in
  Number "55" = JS.of_Z 55
  /\ get_prop PMinWidth (settings (onChange Number PMinWidth "55" st)) = Number "55"
  /\ savedData (onChange Number PMinWidth "55" st)
     = Some (set_prop PMinWidth (JS.of_Z 55) DEFAULT_SETTINGS)
  /\ Number "-5" = JS.of_Z (-5)
  /\ onChange Number PMinWidth "-5" st = st
  /\ Number "wide" = JS.NaN
  /\ onChange Number PMinWidth "wide" st = st
  /\ step offsetWidth Number st (EvInput PMinWidth "wide") = st.
Proof.
  cbv zeta.
  destruct (C8_numeric_fields_validate offsetWidth Number PMinWidth "55"
              (started DEFAULT_SETTINGS twoTabs)) as [Hyes _].
  destruct (C8_numeric_fields_validate offsetWidth Number PMinWidth "-5"
              (started DEFAULT_SETTINGS twoTabs)) as [_ Hneg].
  destruct (C8_numeric_fields_validate offsetWidth Number PMinWidth "wide"
              (started DEFAULT_SETTINGS twoTabs)) as [_ Hnan].
  cbv zeta in Hyes, Hneg, Hnan.
  destruct (Hyes eq_refl) as (_ & Hget & Hsaved & _).
  destruct (Hneg eq_refl) as [Hneg' _].
  destruct (Hnan eq_refl) as [Hnan' Hnan''].
  split; [reflexivity|]. split; [exact Hget|].
  split; [rewrite Hsaved; vm_compute; reflexivity|].
  split; [reflexivity|]. split; [exact Hneg'|].
  split; [reflexivity|]. split; [exact Hnan' | exact Hnan''].
Defined.

(** *** Pinned tabs *)

Lemma C10_witness :
  let st := with_ignorePinnedTabs true (loaded DEFAULT_SETTINGS pinnedTabs) in
  let st' := recalculationPass offsetWidth st in
  (exists e, get_header 0 st = Some e /\ leftToHost (settings st) e = true
             /\ "autofit-tab" ∈ classList e
             /\ headerWidth e = Some (Px (JS.of_Z 150)))
  /\ (exists e', get_header 0 st' = Some e'
                 /\ ("autofit-tab" ∉ classList e')
                 /\ ("autofit-max-width" ∉ classList e')
                 /\ headerWidth e' = None)
  /\ tabWidthCache st' !! "Inbox" = None
  /\ classList_remove "out-of-view" <$> get_header 1 st'
     = classList_remove "out-of-view"
         <$> get_header 1 (recalculationPass offsetWidth (with_ignorePinnedTabs false st)).
Proof.
  cbv zeta.
  set (st := with_ignorePinnedTabs true (loaded DEFAULT_SETTINGS pinnedTabs)).
  destruct (C10_ignored_headers_left_to_host offsetWidth Number st)
    as (Hstrip & _ & Hcache & Hframe & _).
  set (e := pinned (mkHeader (Some (mkTitle "Inbox" plain))
                             {["autofit-tab"; "autofit-max-width"]}
                             (Some (Px (JS.of_Z 150))) false None true "")).
  assert (Hget : get_header 0 st = Some e) by (vm_compute; reflexivity).
  assert (Hhost : leftToHost (settings st) e = true) by (vm_compute; reflexivity).
  split.
  { exists e. split; [exact Hget|]. split; [exact Hhost|].
    split; [|reflexivity].
    apply (bool_decide_eq_true_1 ("autofit-tab" ∈ classList e)).
    vm_compute. reflexivity. }
  split.
  { apply (Hstrip 0%nat e Hget); [|vm_compute; reflexivity | exact Hhost].
    apply list_elem_of_In. vm_compute. auto. }
  split.
  { destruct (tabWidthCache (recalculationPass offsetWidth st) !! "Inbox")
      as [w|] eqn:Hk; [|reflexivity].
    destruct (Hcache _ _ Hk) as (h & e0 & Hin & Hget0 & _ & Hhost0 & Hkey).
    exfalso. apply list_elem_of_In in Hin.
    assert (Hcases : h = 0%nat \/ h = 1%nat).
    { vm_compute in Hin. intuition. }
    destruct Hcases as [-> | ->].
    - rewrite Hget in Hget0. injection Hget0 as <-. congruence.
    - assert (Hget1 : get_header 1 st = Some (tab "Note1" {["is-active"]}))
        by (vm_compute; reflexivity).
      rewrite Hget1 in Hget0. injection Hget0 as <-. discriminate Hkey. }
  apply (Hframe 1%nat (tab "Note1" {["is-active"]})); [|reflexivity].
  vm_compute. reflexivity.
Defined.

(** C10, as stated: a pinned header whose icon is loading is not among the
    headers the pass visits, so with [ignorePinnedTabs] on it goes through
    the pass with the class and the width an earlier pass gave it; and with
    the pinned tab active, the batch ends by a call of
    [updateTabsVisibility], where with the flag off it ends by a call of
    [scrollToActiveTab], so the other headers are not treated exactly as
    with the flag off. *)
Lemma C10_counterexample :
  let st := with_ignorePinnedTabs true (loaded DEFAULT_SETTINGS loadingPinned) in
  let st' := recalculationPass offsetWidth st in
  let sa := with_ignorePinnedTabs true (loaded DEFAULT_SETTINGS activePinned) in
  ignorePinnedTabs (settings st) = true
  /\ (exists e, get_header 0 st = Some e /\ pinnedIcon e = true)
  /\ hasClass "autofit-tab" 0 st' = true
  /\ widthOf 0 st' = Some (Px (JS.of_Z 150))
  /\ List.last (log (recalculationPass offsetWidth sa)) HeadersWritten
     = UpdateTabsVisibility
  /\ List.last (log (recalculationPass offsetWidth (with_ignorePinnedTabs false sa)))
               HeadersWritten
     = ScrollToActiveTab 0.
Proof.
  cbv zeta. split; [reflexivity|]. split; [eexists; split; vm_compute; reflexivity|].
  split_all; vm_compute; reflexivity.
Qed.

(** *** Reachable states of the sample strip *)

Lemma loaded_reachable (s : PluginSettings) (tabs : list Header) (evs : list Event) :
  settings_valid s = true ->
  let st := events evs (loaded s tabs) in
  settings_valid (settings st) = true /\ cache_valid st /\ queue_consistent st.
Proof.
  intros Hs. unfold events, loaded.
  now apply (reachable_invariant offsetWidth Number).
Qed.

End Runs.

(** ** Saving, resetting and the start-up cache *)

Section Saving.
Variable offsetWidth : ComputedStyle -> string -> N.
Variable Number : string -> number.

(** X1.  From a freshly loaded plugin with valid settings, every sequence
    of events leads to a state in which the settings are still valid, every
    cached width is a number that is not [NaN] and not negative, and
    [isAdjustmentQueued] is set exactly when one frame callback of
    [queueHeaderAdjustment] is waiting. *)
Theorem reachable_states_stay_consistent (st : State) (evs : list Event) :
  settings_valid (settings st) = true -> tabWidthCache st = ∅ ->
  frames st = [] -> isAdjustmentQueued st = false ->
  let st' := run offsetWidth Number evs (initialize st) in
  settings_valid (settings st') = true
  /\ (forall k w, tabWidthCache st' !! k = Some w -> JS.valid w = true)
  /\ length (List.filter isAdjustFrame (frames st'))
     = if isAdjustmentQueued st' then 1%nat else 0%nat.
Proof.
  intros Hs Hc Hf Hq.
  exact (reachable_invariant offsetWidth Number st evs Hs Hc Hf Hq).
Qed.

Lemma queueHeaderAdjustment_keeps st :
  let st' := queueHeaderAdjustment st in
  isResetting st' = isResetting st /\ tabWidthCache st' = tabWidthCache st
  /\ document st' = document st /\ timers st' = timers st
  /\ settings st' = settings st /\ savedData st' = savedData st.
Proof.
  unfold queueHeaderAdjustment. destruct (closeInProgress st); [cbv zeta; tauto|].
  destruct (isAdjustmentQueued st); cbv zeta; cbn [negb]; state_eval; tauto.
Qed.

Lemma updateCSSVariables_keeps st :
  let st' := updateCSSVariables st in
  isResetting st' = isResetting st /\ tabWidthCache st' = tabWidthCache st
  /\ tabElements (document st') = tabElements (document st)
  /\ mainHeaders (document st') = mainHeaders (document st)
  /\ timers st' = timers st /\ settings st' = settings st
  /\ savedData st' = savedData st /\ frames st' = frames st
  /\ closeInProgress st' = closeInProgress st
  /\ isAdjustmentQueued st' = isAdjustmentQueued st
  /\ pendingSaves st' = pendingSaves st.
Proof.
  unfold updateCSSVariables. cbv zeta.
  destruct (hideTabIcons (settings st)); state_eval; cbn [tabElements mainHeaders
    with_rootStyle with_bodyClasses]; tauto.
Qed.

Lemma saveSettings_keeps st :
  let st' := saveSettings st in
  isResetting st' = isResetting st /\ tabWidthCache st' = tabWidthCache st
  /\ tabElements (document st') = tabElements (document st)
  /\ timers st' = timers st /\ settings st' = settings st
  /\ savedData st' = Some (settings st).
Proof.
  cbv zeta. rewrite saveSettings_queues.
  set (st0 := with_savedData (Some (settings st)) st).
  destruct (queueHeaderAdjustment_keeps (updateCSSVariables st0))
    as (Q1 & Q2 & Q3 & Q4 & Q5 & Q6). cbv zeta in Q1, Q2, Q3, Q4, Q5, Q6.
  destruct (updateCSSVariables_keeps st0)
    as (U1 & U2 & U3 & _ & U5 & U6 & U7 & _). cbv zeta in U1, U2, U3, U5, U6, U7.
  rewrite Q1, Q2, Q3, Q4, Q5, Q6, U1, U2, U3, U5, U6, U7. now repeat split.
Qed.

(** X2.  [saveSettings] reads [previousMaxWidth] after the settings tab has
    assigned the new value, so when it runs without another field change in
    between it never takes the reset branch: whatever the field and the
    text, the width cache, the tab elements and the timers are as before,
    no reset is started, and the settings are handed to the host. *)
Theorem saveSettings_never_resets (st : State) (prop : NumericProp) (value : string) :
  let st1 := saveSettings st in
  let st2 := onChange Number prop value st in
  let st3 := run offsetWidth Number [EvInput prop value; EvSaveDone (length (pendingSaves st))] st in
  (isResetting st1 = isResetting st /\ tabWidthCache st1 = tabWidthCache st
   /\ tabElements (document st1) = tabElements (document st)
   /\ timers st1 = timers st /\ savedData st1 = Some (settings st))
  /\ (isResetting st2 = isResetting st /\ tabWidthCache st2 = tabWidthCache st
      /\ tabElements (document st2) = tabElements (document st)
      /\ timers st2 = timers st)
  /\ (isResetting st3 = isResetting st /\ tabWidthCache st3 = tabWidthCache st
      /\ tabElements (document st3) = tabElements (document st)
      /\ timers st3 = timers st).
Proof.
  cbv zeta. split; [|split].
  - destruct (saveSettings_keeps st) as (H1 & H2 & H3 & H4 & _ & H6). tauto.
  - unfold onChange, onChange_with. cbv zeta.
    destruct (negb (JS.isNaN (Number value)) && JS.ge (Number value) JS.zero);
      [|tauto].
    set (st0 := with_settings (set_prop prop (Number value) (settings st)) st).
    set (st1 := if isGeneralField prop then updateCSSVariables st0 else st0).
    assert (H0 : isResetting st1 = isResetting st /\ tabWidthCache st1 = tabWidthCache st
                 /\ tabElements (document st1) = tabElements (document st)
                 /\ timers st1 = timers st).
    { unfold st1. destruct (isGeneralField prop); [|now repeat split].
      destruct (updateCSSVariables_keeps st0) as (U1 & U2 & U3 & _ & U5 & _).
      cbv zeta in U1, U2, U3, U5. rewrite U1, U2, U3, U5. now repeat split. }
    destruct H0 as (A1 & A2 & A3 & A4).
    destruct (saveSettings_keeps st1) as (H1 & H2 & H3 & H4 & _).
    cbv zeta in H1, H2, H3, H4. rewrite H1, H2, H3, H4. tauto.
  - unfold run. cbn [fold_left step]. unfold onChange_with. cbv zeta.
    destruct (negb (JS.isNaN (Number value)) && JS.ge (Number value) JS.zero) eqn:Hacc.
    + set (st0 := with_settings (set_prop prop (Number value) (settings st)) st).
      set (st1 := if isGeneralField prop then updateCSSVariables st0 else st0).
      assert (H0 : isResetting st1 = isResetting st /\ tabWidthCache st1 = tabWidthCache st
                   /\ tabElements (document st1) = tabElements (document st)
                   /\ timers st1 = timers st /\ pendingSaves st1 = pendingSaves st
                   /\ settings st1 = settings st0).
      { unfold st1. destruct (isGeneralField prop); [|now repeat split].
        destruct (updateCSSVariables_keeps st0)
          as (U1 & U2 & U3 & _ & U5 & U6 & _ & _ & _ & _ & U11).
        cbv zeta in U1, U2, U3, U5, U6, U11. rewrite U1, U2, U3, U5, U6, U11.
        now repeat split. }
      destruct H0 as (A1 & A2 & A3 & A4 & A5 & A6).
      unfold saveSettings_begin. cbv zeta. state_eval. rewrite A5.
      rewrite (list_lookup_middle (pendingSaves st) [] (maxWidth (settings st1))
                 (length (pendingSaves st)) eq_refl).
      set (st2 := with_pendingSaves _ _).
      assert (B : isResetting st2 = isResetting st1 /\ tabWidthCache st2 = tabWidthCache st1
                  /\ document st2 = document st1 /\ timers st2 = timers st1
                  /\ settings st2 = settings st1) by now repeat split.
      destruct B as (B1 & B2 & B3 & B4 & B5).
      unfold saveSettings_resume. cbv zeta.
      destruct (updateCSSVariables_keeps st2)
        as (U1 & U2 & U3 & _ & U5 & U6 & _). cbv zeta in U1, U2, U3, U5, U6.
      rewrite U6, B5.
      assert (Hno : JS.gt (maxWidth (settings st1)) JS.zero
                    && JS.strict_eq (maxWidth (settings st1)) JS.zero = false).
      { destruct (maxWidth (settings st1)) as [| |q|]; try reflexivity.
        unfold JS.gt, JS.lt, JS.strict_eq, JS.zero.
        destruct (Qle_bool q 0) eqn:E; [reflexivity|]. cbn [negb andb].
        destruct (Qeq_bool q 0) eqn:E2; [|reflexivity].
        apply Qeq_bool_iff in E2. apply Qle_bool_false in E. lra. }
      rewrite Hno.
      destruct (queueHeaderAdjustment_keeps (updateCSSVariables st2))
        as (Q1 & Q2 & Q3 & Q4 & _). cbv zeta in Q1, Q2, Q3, Q4.
      rewrite Q1, Q2, Q3, Q4, U1, U2, U3, U5, B1, B2, B3, B4. tauto.
    + rewrite lookup_ge_None_2 by lia. tauto.
Qed.

(** X3.  The continuation of a [saveSettings] that waited at its [await]
    takes the reset branch exactly when the maximum it read before waiting
    was positive and the maximum is 0 when it resumes, which takes a second
    change of the field in between.  It then sets [isResetting], empties the
    cache, arms the 100 ms timer and queues no pass; otherwise it refreshes
    the CSS variables and queues an ordinary pass. *)
Theorem pending_save_resets_once_maximum_is_zero (st : State) (i : nat) (prev : number) :
  pendingSaves st !! i = Some prev ->
  let st' := step offsetWidth Number st (EvSaveDone i) in
  let reset := JS.gt prev JS.zero && JS.strict_eq (maxWidth (settings st)) JS.zero in
  (reset = true ->
     isResetting st' = true /\ tabWidthCache st' = ∅
     /\ timers st'
        = (timers st ++ [(JS.of_Z 100, ResetCleanupTimer (map fst (getAllHeaders st)))])%list
     /\ frames st' = frames st
     /\ isAdjustmentQueued st' = isAdjustmentQueued st)
  /\ (reset = false ->
        st' = queueHeaderAdjustment
                (updateCSSVariables
                   (with_pendingSaves (delete i (pendingSaves st)) st))
        /\ isResetting st' = isResetting st /\ tabWidthCache st' = tabWidthCache st).
Proof.
  intros Hi. cbv zeta. cbn [step]. rewrite Hi.
  set (st0 := with_pendingSaves (delete i (pendingSaves st)) st).
  unfold saveSettings_resume. cbv zeta.
  destruct (updateCSSVariables_keeps st0)
    as (U1 & U2 & U3 & U4 & U5 & U6 & _ & U8 & _ & U10 & _).
  cbv zeta in U1, U2, U3, U4, U5, U6, U8, U10.
  rewrite U6. change (settings st0) with (settings st).
  split; intros Hr; rewrite Hr.
  - unfold resetTabs. cbv zeta. state_eval.
    rewrite U5, U8, U10. repeat split.
    do 3 f_equal. unfold getAllHeaders, get_header. state_eval.
    now rewrite U3, U4.
  - split; [reflexivity|].
    destruct (queueHeaderAdjustment_keeps (updateCSSVariables st0)) as (Q1 & Q2 & _).
    cbv zeta in Q1, Q2. rewrite Q1, Q2, U1, U2. now split.
Qed.

End Saving.

(** ** The reset sequence and the start-up cache *)

Lemma not_in_remove_same (X : gset string) (a : string) : a ∉ X ∖ {[a]}.
Proof. set_solver. Qed.

Lemma not_in_remove_other (X : gset string) (a c : string) : c ∉ X -> c ∉ X ∖ {[a]}.
Proof. set_solver. Qed.

Lemma not_in_add_other (X : gset string) (a c : string) :
  c <> a -> c ∉ X -> c ∉ ({[a]} ∪ X : gset string).
Proof. set_solver. Qed.

Lemma in_add_same (X : gset string) (a : string) : a ∈ ({[a]} ∪ X : gset string).
Proof. set_solver. Qed.

Section Resetting.
Variable offsetWidth : ComputedStyle -> string -> N.
Variable Number : string -> number.

Lemma forEach_header_frame f hs d :
  mainHeaders (forEach_header f hs d) = mainHeaders d
  /\ rootStyle (forEach_header f hs d) = rootStyle d
  /\ bodyClasses (forEach_header f hs d) = bodyClasses d.
Proof.
  revert d. induction hs as [|a hs IH]; intros d; [now repeat split|].
  unfold forEach_header. cbn [fold_left]. fold (forEach_header f hs (update_header a f d)).
  destruct (IH (update_header a f d)) as (H1 & H2 & H3).
  rewrite H1, H2, H3. now repeat split.
Qed.

Lemma forEach_header_spec (f : Header -> Header) (P Q : Header -> Prop) hs d h e :
  (forall e, P e -> Q (f e)) -> (forall e, Q e -> Q (f e)) ->
  tabElements d !! h = Some e -> In h hs -> P e ->
  exists e', tabElements (forEach_header f hs d) !! h = Some e' /\ Q e'.
Proof.
  intros HPQ HQQ Hget Hin HP.
  assert (G : forall hs d e, tabElements d !! h = Some e ->
                (In h hs /\ P e) \/ Q e ->
                exists e', tabElements (forEach_header f hs d) !! h = Some e' /\ Q e').
  { clear Hget Hin HP. clear hs d e. intros hs.
    induction hs as [|a hs IH]; intros d e Hget Hor.
    - destruct Hor as [[[] _]|HQ]. exists e. now split.
    - unfold forEach_header. cbn [fold_left].
      fold (forEach_header f hs (update_header a f d)).
      destruct (decide (a = h)) as [->|Hne].
      + apply (IH _ (f e)).
        * unfold update_header. cbn [tabElements with_tabElements].
          rewrite lookup_alter. destruct (decide (h = h)); [|congruence].
          now rewrite Hget.
        * right. destruct Hor as [[_ HP]|HQ]; auto.
      + apply (IH _ e).
        * unfold update_header. cbn [tabElements with_tabElements].
          rewrite lookup_alter. destruct (decide (a = h)); [congruence|]. exact Hget.
        * destruct Hor as [[[Heq|Hin] HP]|HQ]; [congruence | now left | now right]. }
  apply (G hs d e Hget). now left.
Qed.

Lemma forEach_header_other f hs d h :
  ~ In h hs -> tabElements (forEach_header f hs d) !! h = tabElements d !! h.
Proof.
  revert d. induction hs as [|a hs IH]; intros d Hin; [reflexivity|].
  unfold forEach_header. cbn [fold_left].
  fold (forEach_header f hs (update_header a f d)).
  rewrite IH by (intros H; apply Hin; now right).
  unfold update_header. cbn [tabElements with_tabElements].
  rewrite lookup_alter. destruct (decide (a = h)) as [->|]; [|reflexivity].
  exfalso. apply Hin. now left.
Qed.

Lemma adjustAllHeaders_resetting st :
  isResetting st = true ->
  adjustAllHeaders offsetWidth st = observe (AdjustAllHeadersCalled true) st.
Proof. intros H. unfold adjustAllHeaders. now rewrite H. Qed.

Lemma updateTabsVisibility_resetting st :
  isResetting st = true -> updateTabsVisibility st = st.
Proof. intros H. unfold updateTabsVisibility. now rewrite H. Qed.

(** X4.  [resetTabs] and its two timers, with nothing in between: the
    call of [adjustAllHeaders] in the second timer is made while
    [isResetting] is still set and returns at its guard.  The sequence
    therefore ends with an empty cache, no pass queued, and every main-area
    header carrying the class [autofit-tab] but no [--header-width]; the
    flag is cleared only after that call. *)
Theorem reset_leaves_tabs_without_width (st : State) :
  let hs := map fst (getAllHeaders st) in
  let st1 := resetTabs st in
  let st2 := resetCleanup hs st1 in
  let st3 := resetApply offsetWidth hs st2 in
  timers st1 = (timers st ++ [(JS.of_Z 100, ResetCleanupTimer hs)])%list
  /\ timers st2 = (timers st1 ++ [(JS.of_Z 50, ResetApplyTimer hs)])%list
  /\ isResetting st1 = true /\ isResetting st3 = false
  /\ tabWidthCache st3 = ∅
  /\ frames st3 = frames st
  /\ log st3 = (log st ++ [AdjustAllHeadersCalled true])%list
  /\ passStarts st3 = passStarts st
  /\ (forall h e, In h (mainHeaders (document st)) -> get_header h st = Some e ->
                  exists e', get_header h st3 = Some e' /\ afterReset e')
  /\ (forall h, ~ In h (mainHeaders (document st)) ->
                get_header h st3 = get_header h st).
Proof.
  cbv zeta.
  set (hs := map fst (getAllHeaders st)).
  set (f1 := fun e => set_headerWidth None
                        (classList_add "autofit-cleanup"
                           (classList_remove "out-of-view"
                              (classList_remove "autofit-tab"
                                 (classList_remove "autofit-max-width" e))))).
  set (d1 := forEach_header f1 hs (document st)).
  set (d2 := forEach_header (classList_remove "autofit-cleanup") hs d1).
  set (d3 := forEach_header (classList_add "autofit-tab") hs d2).
  assert (E1 : resetTabs st
               = setTimeout (ResetCleanupTimer hs) (JS.of_Z 100)
                   (with_tabWidthCache ∅ (with_document d1 (with_isResetting true st))))
    by reflexivity.
  rewrite E1. set (st1 := setTimeout _ _ _).
  assert (E2 : resetCleanup hs st1
               = setTimeout (ResetApplyTimer hs) (JS.of_Z 50) (with_document d2 st1))
    by reflexivity.
  rewrite E2. set (st2 := setTimeout _ _ (with_document d2 st1)).
  assert (E3 : resetApply offsetWidth hs st2
               = with_isResetting false
                   (observe (AdjustAllHeadersCalled true) (with_document d3 st2))).
  { unfold resetApply. cbv zeta.
    change (forEach_header (classList_add "autofit-tab") hs (document st2)) with d3.
    rewrite adjustAllHeaders_resetting by reflexivity.
    now rewrite updateTabsVisibility_resetting by reflexivity. }
  rewrite E3. set (st3 := with_isResetting false _).
  split; [reflexivity|]. split; [reflexivity|]. split; [reflexivity|].
  split; [reflexivity|]. split; [reflexivity|]. split; [reflexivity|].
  split; [reflexivity|]. split.
  { unfold passStarts. change (log st3) with (log st ++ [AdjustAllHeadersCalled true])%list.
    rewrite List.filter_app, length_app. cbn. lia. }
  split.
  - intros h e Hin Hget.
    assert (Hhs : In h hs).
    { unfold hs. apply (in_map fst _ (h, e)). apply in_getAllHeaders.
      split; assumption. }
    change (get_header h st3) with (tabElements d3 !! h).
    unfold get_header in Hget.
    destruct (forEach_header_spec f1 (fun _ => True)
                (fun e => headerWidth e = None /\ ("autofit-max-width" ∉ classList e)
                          /\ ("out-of-view" ∉ classList e))
                hs (document st) h e) as (e1 & Hg1 & Q1); auto.
    { intros e0 _. destruct e0. unfold f1. header_eval. split; [reflexivity|]. split.
      - apply not_in_add_other; [discriminate|].
        do 2 apply not_in_remove_other. apply not_in_remove_same.
      - apply not_in_add_other; [discriminate|]. apply not_in_remove_same. }
    { intros e0 _. destruct e0. unfold f1. header_eval. split; [reflexivity|]. split.
      - apply not_in_add_other; [discriminate|].
        do 2 apply not_in_remove_other. apply not_in_remove_same.
      - apply not_in_add_other; [discriminate|]. apply not_in_remove_same. }
    fold d1 in Hg1.
    destruct (forEach_header_spec (classList_remove "autofit-cleanup")
                (fun e => headerWidth e = None /\ ("autofit-max-width" ∉ classList e)
                          /\ ("out-of-view" ∉ classList e))
                (fun e => headerWidth e = None /\ ("autofit-max-width" ∉ classList e)
                          /\ ("out-of-view" ∉ classList e)
                          /\ ("autofit-cleanup" ∉ classList e))
                hs d1 h e1) as (e2 & Hg2 & Q2); auto.
    { intros e0 (A1 & A2 & A3). destruct e0. revert A1 A2 A3. header_eval.
      intros A1 A2 A3. split; [exact A1|].
      split; [now apply not_in_remove_other|].
      split; [now apply not_in_remove_other | apply not_in_remove_same]. }
    { intros e0 (A1 & A2 & A3 & _). destruct e0. revert A1 A2 A3. header_eval.
      intros A1 A2 A3. split; [exact A1|].
      split; [now apply not_in_remove_other|].
      split; [now apply not_in_remove_other | apply not_in_remove_same]. }
    fold d2 in Hg2.
    destruct (forEach_header_spec (classList_add "autofit-tab")
                (fun e => headerWidth e = None /\ ("autofit-max-width" ∉ classList e)
                          /\ ("out-of-view" ∉ classList e)
                          /\ ("autofit-cleanup" ∉ classList e))
                afterReset hs d2 h e2) as (e3 & Hg3 & Q3); auto.
    { intros e0 (A1 & A2 & A3 & A4). destruct e0. unfold afterReset.
      revert A1 A2 A3 A4. header_eval. intros A1 A2 A3 A4.
      split; [exact A1|]. split; [apply in_add_same|].
      split; [apply not_in_add_other; [discriminate | exact A4]|].
      split; [apply not_in_add_other; [discriminate | exact A2]|].
      apply not_in_add_other; [discriminate | exact A3]. }
    { intros e0 (A1 & _ & A3 & A4 & A5). destruct e0. unfold afterReset.
      revert A1 A3 A4 A5. header_eval. intros A1 A3 A4 A5.
      split; [exact A1|]. split; [apply in_add_same|].
      split; [apply not_in_add_other; [discriminate | exact A3]|].
      split; [apply not_in_add_other; [discriminate | exact A4]|].
      apply not_in_add_other; [discriminate | exact A5]. }
    fold d3 in Hg3. eauto.
  - intros h Hnot.
    assert (Hhs : ~ In h hs).
    { unfold hs. intros Hin. apply in_map_iff in Hin.
      destruct Hin as ([h' e'] & <- & Hin). apply in_getAllHeaders in Hin.
      apply Hnot. apply list_elem_of_In. tauto. }
    change (get_header h st3) with (tabElements d3 !! h). unfold d3, d2, d1.
    now rewrite !forEach_header_other by assumption.
Qed.

(** *** [preCalculateAllTabWidths] *)

Lemma calculateHeaderWidth_cache_free st st' e :
  settings st' = settings st -> measureElement st' = measureElement st ->
  calculateHeaderWidth offsetWidth st' e = calculateHeaderWidth offsetWidth st e.
Proof.
  intros H1 H2. unfold calculateHeaderWidth, measureTextWidth. now rewrite H1, H2.
Qed.

Lemma preCalculate_fold (l : list (HeaderId * Header)) (st s : State) :
  settings s = settings st -> measureElement s = measureElement st ->
  let step := fun (st : State) (he : HeaderId * Header) =>
                let headerKey := getHeaderKey (snd he) in
                match tabWidthCache st !! headerKey with
                | Some _ => st
                | None =>
                    let width := calculateHeaderWidth offsetWidth st (snd he) in
                    with_tabWidthCache (<[headerKey := width]> (tabWidthCache st)) st
                end in
  let s' := fold_left step l s in
  (forall k w, tabWidthCache s !! k = Some w -> tabWidthCache s' !! k = Some w)
  /\ (forall he, In he l -> is_Some (tabWidthCache s' !! getHeaderKey (snd he)))
  /\ (forall k w, tabWidthCache s' !! k = Some w ->
        tabWidthCache s !! k = Some w
        \/ exists he, In he l /\ getHeaderKey (snd he) = k
                      /\ w = calculateHeaderWidth offsetWidth st (snd he))
  /\ document s' = document s /\ settings s' = settings s
  /\ measureElement s' = measureElement s.
Proof.
  intros Hs Hm. cbv zeta. revert s Hs Hm.
  induction l as [|he l IH]; intros s Hs Hm.
  - cbn. repeat split; auto. intros he [].
  - cbn [fold_left].
    destruct (tabWidthCache s !! getHeaderKey (snd he)) as [w0|] eqn:Hc.
    + destruct (IH s Hs Hm) as (I1 & I2 & I3 & I4 & I5 & I6).
      split; [exact I1|]. split.
      { intros he' [<-|Hin]; [|now apply I2]. rewrite (I1 _ _ Hc). eauto. }
      split; [|now repeat split].
      intros k w Hk. destruct (I3 k w Hk) as [H|(he' & Hin & H)]; [now left|].
      right. exists he'. split; [now right | exact H].
    + set (s1 := with_tabWidthCache _ s).
      destruct (IH s1 Hs Hm) as (I1 & I2 & I3 & I4 & I5 & I6).
      split.
      { intros k w Hk. apply I1. unfold s1. state_eval.
        rewrite lookup_insert_ne; [exact Hk|]. intros <-. congruence. }
      split.
      { intros he' [<-|Hin]; [|now apply I2].
        erewrite I1; [eauto|]. unfold s1. state_eval. apply lookup_insert_eq. }
      split; [|now repeat split].
      intros k w Hk. destruct (I3 k w Hk) as [H|(he' & Hin & H)].
      * unfold s1 in H. state_eval_in H.
        destruct (decide (getHeaderKey (snd he) = k)) as [Heq|Hne].
        -- rewrite Heq, lookup_insert_eq in H. injection H as <-.
           right. exists he. split; [now left|]. split; [exact Heq|].
           now apply calculateHeaderWidth_cache_free.
        -- rewrite lookup_insert_ne in H by assumption. now left.
      * right. exists he'. split; [now right | exact H].
Qed.

Lemma preCalculate_cached (l : list (HeaderId * Header)) (s : State) :
  (forall he, In he l -> is_Some (tabWidthCache s !! getHeaderKey (snd he))) ->
  fold_left (fun (st : State) (he : HeaderId * Header) =>
               let headerKey := getHeaderKey (snd he) in
               match tabWidthCache st !! headerKey with
               | Some _ => st
               | None =>
                   let width := calculateHeaderWidth offsetWidth st (snd he) in
                   with_tabWidthCache (<[headerKey := width]> (tabWidthCache st)) st
               end) l s = s.
Proof.
  induction l as [|he l IH]; intros H; [reflexivity|].
  cbn [fold_left]. cbv zeta.
  destruct (H he (or_introl eq_refl)) as [w ->].
  apply IH. intros he' Hin. apply H. now right.
Qed.

(** X5.  [preCalculateAllTabWidths] only adds to the cache.  It keeps every
    entry there is, gives every main-area header's title an entry, takes
    each new entry from [calculateHeaderWidth] of a header with that title,
    touches neither the document nor the settings, and a second call
    changes nothing. *)
Theorem preCalculate_fills_missing_titles (st : State) :
  let st' := preCalculateAllTabWidths offsetWidth st in
  (forall k w, tabWidthCache st !! k = Some w -> tabWidthCache st' !! k = Some w)
  /\ (forall h e, In (h, e) (getAllHeaders st) ->
                  is_Some (tabWidthCache st' !! getHeaderKey e))
  /\ (forall k w, tabWidthCache st' !! k = Some w ->
        tabWidthCache st !! k = Some w
        \/ exists h e, In (h, e) (getAllHeaders st) /\ getHeaderKey e = k
                       /\ w = calculateHeaderWidth offsetWidth st e)
  /\ document st' = document st /\ settings st' = settings st
  /\ preCalculateAllTabWidths offsetWidth st' = st'.
Proof.
  cbv zeta.
  destruct (preCalculate_fold (getAllHeaders st) st st eq_refl eq_refl)
    as (I1 & I2 & I3 & I4 & I5 & I6).
  cbv zeta in I1, I2, I3, I4, I5, I6.
  fold (preCalculateAllTabWidths offsetWidth st) in I1, I2, I3, I4, I5, I6.
  split; [exact I1|]. split; [intros h e Hin; exact (I2 (h, e) Hin)|].
  split.
  { intros k w Hk. destruct (I3 k w Hk) as [H|([h e] & Hin & H)]; [now left|].
    right. exists h, e. auto. }
  split; [exact I4|]. split; [exact I5|].
  unfold preCalculateAllTabWidths at 1.
  assert (Hall : getAllHeaders (preCalculateAllTabWidths offsetWidth st)
                 = getAllHeaders st).
  { unfold getAllHeaders, get_header. now rewrite I4. }
  rewrite Hall. apply preCalculate_cached. exact I2.
Qed.

(** *** Layout changes *)

Lemma filter_debounce_out (l : list (number * TimerTask)) :
  List.filter isDebounce (List.filter (fun t => negb (isDebounce t)) l) = [].
Proof.
  induction l as [|t l IH]; [reflexivity|]. cbn [List.filter].
  destruct (isDebounce t) eqn:E; cbn [negb List.filter]; [exact IH|].
  now rewrite E.
Qed.

Lemma filter_visibility_keep (l : list (number * TimerTask)) :
  List.filter isVisibilityTimer (List.filter (fun t => negb (isDebounce t)) l)
  = List.filter isVisibilityTimer l.
Proof.
  induction l as [|t l IH]; [reflexivity|]. cbn [List.filter].
  destruct (isDebounce t) eqn:E; cbn [negb List.filter].
  - destruct (isVisibilityTimer t) eqn:V; [|exact IH].
    unfold isDebounce, isVisibilityTimer in *. destruct (snd t); discriminate.
  - destruct (isVisibilityTimer t); [now rewrite IH | exact IH].
Qed.

Lemma layoutChange_once st :
  let st' := step offsetWidth Number st EvLayoutChange in
  timers st'
  = (List.filter (fun t => negb (isDebounce t)) (timers st)
       ++ [(JS.of_Z 100, DebounceTimer); (JS.of_Z 300, VisibilityTimer)])%list
  /\ frames st' = frames st /\ isAdjustmentQueued st' = isAdjustmentQueued st
  /\ document st' = document st /\ tabWidthCache st' = tabWidthCache st.
Proof.
  cbv zeta. cbn [step]. unfold debounceLayoutChange. cbv zeta. state_eval.
  rewrite <- app_assoc. now repeat split.
Qed.

(** X6.  However many layout changes arrive in a row, exactly one debounce
    timer is pending afterwards (each change cancels the one before), one
    visibility timer has been added per change, every other pending timer
    is still there, and nothing has been queued or written yet. *)
Theorem layout_changes_leave_one_debounce_timer (st : State) (n : nat) :
  let st' := run offsetWidth Number (repeat EvLayoutChange (S n)) st in
  length (List.filter isDebounce (timers st')) = 1%nat
  /\ length (List.filter isVisibilityTimer (timers st'))
     = (length (List.filter isVisibilityTimer (timers st)) + S n)%nat
  /\ (forall t, isDebounce t = false -> isVisibilityTimer t = false ->
                (In t (timers st') <-> In t (timers st)))
  /\ frames st' = frames st /\ isAdjustmentQueued st' = isAdjustmentQueued st
  /\ document st' = document st /\ tabWidthCache st' = tabWidthCache st.
Proof.
  cbv zeta. revert st. induction n as [|n IH]; intros st.
  - unfold run. cbn [repeat fold_left].
    destruct (layoutChange_once st) as (T & F & Q & D & C). cbv zeta in T, F, Q, D, C.
    rewrite T, F, Q, D, C, !List.filter_app, !length_app.
    rewrite filter_debounce_out, filter_visibility_keep. cbn.
    split; [reflexivity|]. split; [lia|]. split; [|now repeat split].
    intros t Hd Hv. rewrite in_app_iff, filter_In, Hd. cbn.
    split.
    + intros [[H _]|[<-|[<-|[]]]]; [exact H | discriminate | discriminate].
    + intros H. left. now split.
  - change (repeat EvLayoutChange (S (S n)))
      with (EvLayoutChange :: repeat EvLayoutChange (S n)).
    unfold run. cbn [fold_left].
    fold (run offsetWidth Number (repeat EvLayoutChange (S n))
            (step offsetWidth Number st EvLayoutChange)).
    destruct (IH (step offsetWidth Number st EvLayoutChange))
      as (I1 & I2 & I3 & I4 & I5 & I6 & I7).
    destruct (layoutChange_once st) as (T & F & Q & D & C). cbv zeta in T, F, Q, D, C.
    rewrite I1, I2, I4, I5, I6, I7, F, Q, D, C.
    split; [reflexivity|]. split.
    { rewrite T, List.filter_app, length_app, filter_visibility_keep. cbn. lia. }
    split; [|now repeat split].
    intros t Hd Hv. rewrite (I3 t Hd Hv), T, in_app_iff, filter_In, Hd. cbn.
    split.
    + intros [[H _]|[<-|[<-|[]]]]; [exact H | discriminate | discriminate].
    + intros H. left. now split.
Qed.

End Resetting.

(** ** The mutation observer and the CSS variables *)

Lemma add_class_twice (X : gset string) (c : string) :
  ({[c]} ∪ ({[c]} ∪ X) : gset string) = {[c]} ∪ X.
Proof. set_solver. Qed.

Lemma remove_class_twice (X : gset string) (c : string) : X ∖ {[c]} ∖ {[c]} = X ∖ {[c]}.
Proof. set_solver. Qed.

Lemma in_add_iff (X : gset string) (a c : string) :
  c ∈ ({[a]} ∪ X : gset string) <-> c = a \/ c ∈ X.
Proof. set_solver. Qed.

Lemma in_remove_iff (X : gset string) (a c : string) :
  c ∈ X ∖ {[a]} <-> c ∈ X /\ c <> a.
Proof. set_solver. Qed.

Section Observing.
Variable offsetWidth : ComputedStyle -> string -> N.
Variable Number : string -> number.

Lemma observerCallback_after_removal mutations st :
  forallb bodyOutsideMainArea mutations = true ->
  observerCallback mutations true st = st.
Proof.
  induction mutations as [|m rest IH]; intros H; [reflexivity|].
  cbn [forallb] in H. apply andb_true_iff in H. destruct H as [Hm Hrest].
  cbn [observerCallback orb].
  destruct (targetIsElement m); [|now apply IH].
  destruct (targetInMainArea m) eqn:Hmain; cbn [negb]; [|now apply IH].
  destruct (targetIsTabElement m); [reflexivity|].
  destruct (targetIsBodyClass m) eqn:Hbody; [|now apply IH].
  unfold bodyOutsideMainArea in Hm. rewrite Hbody, Hmain in Hm. discriminate.
Qed.

Lemma observerCallback_cases mutations removed st :
  forallb bodyOutsideMainArea mutations = true ->
  observerCallback mutations removed st = st
  \/ observerCallback mutations removed st = queueHeaderAdjustment st.
Proof.
  revert removed. induction mutations as [|m rest IH]; intros removed H; [now left|].
  cbn [forallb] in H. apply andb_true_iff in H. destruct H as [Hm Hrest].
  cbn [observerCallback].
  destruct (targetIsElement m); [|now apply IH].
  destruct (targetInMainArea m) eqn:Hmain; cbn [negb]; [|now apply IH].
  destruct (targetIsTabElement m); [destruct (negb _); auto|].
  destruct (targetIsBodyClass m) eqn:Hbody; [|now apply IH].
  unfold bodyOutsideMainArea in Hm. rewrite Hbody, Hmain in Hm. discriminate.
Qed.

(** X7.  In a document the body lies outside the main editor area, so a
    record of a class change on the body is skipped before the theme test
    is reached: the observer callback never clears the width cache.  It
    either changes nothing or makes one call of [queueHeaderAdjustment],
    and it changes nothing when the first record of the batch reports a
    removed tab header. *)
Theorem observer_never_clears_the_cache (mutations : list Mutation) (st : State) :
  forallb bodyOutsideMainArea mutations = true ->
  let st' := observerCallback mutations false st in
  tabWidthCache st' = tabWidthCache st
  /\ (st' = st \/ st' = queueHeaderAdjustment st)
  /\ (forall m rest, mutations = m :: rest -> removesTabHeader m = true -> st' = st).
Proof.
  intros H. cbv zeta.
  pose proof (observerCallback_cases mutations false st H) as Hc.
  split; [|split; [exact Hc|]].
  - destruct Hc as [-> | ->]; [reflexivity|].
    now destruct (queueHeaderAdjustment_keeps st) as (_ & -> & _).
  - intros m rest -> Hrem. cbn [forallb] in H. apply andb_true_iff in H.
    destruct H as [Hm Hrest]. cbn [observerCallback orb]. rewrite Hrem.
    destruct (targetIsElement m); [|now apply observerCallback_after_removal].
    destruct (targetInMainArea m) eqn:Hmain; cbn [negb];
      [|now apply observerCallback_after_removal].
    destruct (targetIsTabElement m); [reflexivity|].
    destruct (targetIsBodyClass m) eqn:Hbody;
      [|now apply observerCallback_after_removal].
    unfold bodyOutsideMainArea in Hm. rewrite Hbody, Hmain in Hm. discriminate.
Qed.

(** *** [updateCSSVariables] *)

Lemma fold_insert_lookup (l : list (string * CssValue)) (m : gmap string CssValue) k :
  fold_left (fun m pv => <[fst pv := snd pv]> m) l m !! k
  = fold_left (fun acc pv => if decide (fst pv = k) then Some (snd pv) else acc)
              l (m !! k).
Proof.
  revert m. induction l as [|pv l IH]; intros m; [reflexivity|].
  cbn [fold_left]. rewrite IH. f_equal.
  destruct (decide (fst pv = k)) as [->|Hne].
  - apply lookup_insert_eq.
  - now apply lookup_insert_ne.
Qed.

Lemma fold_last_twice (l : list (string * CssValue)) k (acc : option CssValue) :
  let upd := fun acc (pv : string * CssValue) =>
               if decide (fst pv = k) then Some (snd pv) else acc in
  fold_left upd l (fold_left upd l acc) = fold_left upd l acc.
Proof.
  cbv zeta. induction l as [|pv l IH] using rev_ind; [reflexivity|].
  rewrite !fold_left_app. cbn [fold_left].
  destruct (decide (fst pv = k)); [reflexivity | exact IH].
Qed.

Lemma fold_insert_twice (l : list (string * CssValue)) (m : gmap string CssValue) :
  fold_left (fun m pv => <[fst pv := snd pv]> m) l
            (fold_left (fun m pv => <[fst pv := snd pv]> m) l m)
  = fold_left (fun m pv => <[fst pv := snd pv]> m) l m.
Proof.
  apply map_eq. intros k. rewrite !fold_insert_lookup. apply fold_last_twice.
Qed.

(** X8.  [updateCSSVariables] writes the eight variables from the current
    settings (the icon is shown only if icons are not hidden and the icon
    width is positive, the maximum is [none] unless it is positive), leaves
    every other style property of the root alone, puts the class
    [autofit-hide-tab-icons] on the body exactly when icons are hidden,
    touches nothing else, and a second call changes nothing. *)
Theorem updateCSSVariables_reflects_settings (st : State) :
  let s := settings st in
  let st' := updateCSSVariables st in
  let css := rootStyle (document st') in
  css !! "--autofit-min-width" = Some (Px (minWidth s))
  /\ css !! "--autofit-left-padding" = Some (Px (leftPadding s))
  /\ css !! "--autofit-close-button-left-padding" = Some (Px (closeButtonLeftPadding s))
  /\ css !! "--autofit-close-button-right-padding" = Some (Px (closeButtonRightPadding s))
  /\ css !! "--autofit-transition-duration" = Some (Ms (transitionDuration s))
  /\ css !! "--autofit-icon-width"
     = Some (if hideTabIcons s then Keyword "0" else Px (iconWidth s))
  /\ css !! "--autofit-icon-display"
     = Some (Keyword (if negb (hideTabIcons s) && JS.gt (iconWidth s) JS.zero
                      then "flex" else "none"))
  /\ css !! "--autofit-max-width"
     = Some (if JS.gt (maxWidth s) JS.zero then Px (maxWidth s) else Keyword "none")
  /\ (forall k, ~ In k ["--autofit-min-width"; "--autofit-left-padding";
                        "--autofit-close-button-left-padding";
                        "--autofit-close-button-right-padding";
                        "--autofit-transition-duration"; "--autofit-icon-width";
                        "--autofit-icon-display"; "--autofit-max-width"] ->
                css !! k = rootStyle (document st) !! k)
  /\ (forall c, c ∈ bodyClasses (document st')
                <-> (c = "autofit-hide-tab-icons" /\ hideTabIcons s = true)
                    \/ (c ∈ bodyClasses (document st) /\ c <> "autofit-hide-tab-icons"))
  /\ tabElements (document st') = tabElements (document st)
  /\ mainHeaders (document st') = mainHeaders (document st)
  /\ settings st' = settings st /\ tabWidthCache st' = tabWidthCache st
  /\ frames st' = frames st /\ timers st' = timers st
  /\ updateCSSVariables st' = st'.
Proof.
  cbv zeta.
  destruct (updateCSSVariables_keeps st)
    as (_ & U2 & U3 & U4 & U5 & U6 & _ & U8 & _). cbv zeta in U2, U3, U4, U5, U6, U8.
  assert (Hcss : forall k,
            rootStyle (document (updateCSSVariables st)) !! k
            = fold_left (fun acc pv => if decide (fst pv = k) then Some (snd pv) else acc)
                [ ("--autofit-min-width", Px (minWidth (settings st)));
                  ("--autofit-left-padding", Px (leftPadding (settings st)));
                  ("--autofit-close-button-left-padding",
                    Px (closeButtonLeftPadding (settings st)));
                  ("--autofit-close-button-right-padding",
                    Px (closeButtonRightPadding (settings st)));
                  ("--autofit-transition-duration", Ms (transitionDuration (settings st)));
                  ("--autofit-icon-width",
                    if hideTabIcons (settings st) then Keyword "0"
                    else Px (iconWidth (settings st)));
                  ("--autofit-icon-display",
                    Keyword (if negb (hideTabIcons (settings st))
                                && JS.gt (iconWidth (settings st)) JS.zero
                             then "flex" else "none"));
                  ("--autofit-max-width",
                    if JS.gt (maxWidth (settings st)) JS.zero
                    then Px (maxWidth (settings st)) else Keyword "none") ]
                (rootStyle (document st) !! k)).
  { intros k. rewrite <- fold_insert_lookup. unfold updateCSSVariables. cbv zeta.
    destruct (hideTabIcons (settings st)); cbn [negb andb];
      state_eval; cbn [rootStyle with_rootStyle with_bodyClasses];
      [reflexivity|].
    now destruct (JS.gt (iconWidth (settings st)) JS.zero). }
  split; [rewrite Hcss; reflexivity|]. split; [rewrite Hcss; reflexivity|].
  split; [rewrite Hcss; reflexivity|]. split; [rewrite Hcss; reflexivity|].
  split; [rewrite Hcss; reflexivity|]. split; [rewrite Hcss; reflexivity|].
  split; [rewrite Hcss; reflexivity|]. split; [rewrite Hcss; reflexivity|].
  split.
  { intros k Hk. rewrite Hcss. cbn [fold_left fst snd].
    repeat match goal with
           | |- context [decide (?a = k)] =>
               destruct (decide (a = k)) as [<-|_];
               [exfalso; apply Hk; cbn; tauto|]
           end.
    reflexivity. }
  split.
  { intros c. unfold updateCSSVariables. cbv zeta.
    destruct (hideTabIcons (settings st)); state_eval;
      cbn [bodyClasses with_bodyClasses with_rootStyle].
    - rewrite in_add_iff. split.
      + intros [->|H]; [now left|].
        destruct (decide (c = "autofit-hide-tab-icons")) as [->|Hne];
          [now left | now right].
      + intros [[-> _]|[H _]]; [now left | now right].
    - rewrite in_remove_iff. split.
      + intros H. now right.
      + intros [[_ H]|H]; [discriminate | exact H]. }
  split; [exact U3|]. split; [exact U4|]. split; [exact U6|].
  split; [exact U2|]. split; [exact U8|]. split; [exact U5|].
  unfold updateCSSVariables. cbv zeta.
  destruct (hideTabIcons (settings st)) eqn:Hhide; state_eval; rewrite Hhide;
    cbn [rootStyle bodyClasses tabElements mainHeaders with_rootStyle with_bodyClasses];
    unfold with_document; state_eval; f_equal; unfold with_bodyClasses, with_rootStyle;
    cbn [rootStyle bodyClasses tabElements mainHeaders];
    f_equal; [apply fold_insert_twice | apply add_class_twice
             | apply fold_insert_twice | apply remove_class_twice].
Qed.

End Observing.

(** ** The closing flag and its timers *)

Section Closing.
Variable offsetWidth : ComputedStyle -> string -> N.
Variable Number : string -> number.

Lemma close_kept_refl st : close_kept st st.
Proof. now split. Qed.

Lemma close_kept_trans st1 st2 st3 :
  close_kept st1 st2 -> close_kept st2 st3 -> close_kept st1 st3.
Proof. intros [A1 A2] [B1 B2]. split; congruence. Qed.

Lemma close_kept_intro st st' tm :
  closeInProgress st' = closeInProgress st ->
  timers st' = (timers st ++ tm)%list ->
  List.filter isCloseTimer tm = [] ->
  close_kept st st'.
Proof.
  intros H1 H2 H3. split; [exact H1|].
  now rewrite H2, List.filter_app, H3, app_nil_r.
Qed.

Lemma close_kept_silent st st' :
  closeInProgress st' = closeInProgress st -> timers st' = timers st ->
  close_kept st st'.
Proof. intros H1 H2. split; [exact H1 | now rewrite H2]. Qed.

Lemma close_kept_consistent st st' :
  close_kept st st' -> close_consistent st -> close_consistent st'.
Proof. intros [H1 H2] H. unfold close_consistent in *. now rewrite H1, H2. Qed.

Lemma fold_close_kept {A} (f : State -> A -> State) (l : list A) st :
  (forall s a, close_kept s (f s a)) -> close_kept st (fold_left f l st).
Proof.
  intros H. revert st. induction l as [|a l IH]; intros st; [apply close_kept_refl|].
  cbn [fold_left]. eapply close_kept_trans; [apply H | apply IH].
Qed.

Lemma scrollToActiveTab_close h st : close_kept st (scrollToActiveTab h st).
Proof. now apply close_kept_silent. Qed.

Lemma updateTabsVisibility_close st : close_kept st (updateTabsVisibility st).
Proof.
  unfold updateTabsVisibility. destruct (isResetting st); now apply close_kept_silent.
Qed.

Lemma queueHeaderAdjustment_close st : close_kept st (queueHeaderAdjustment st).
Proof.
  unfold queueHeaderAdjustment. destruct (closeInProgress st) eqn:E;
    [apply close_kept_refl|].
  destruct (isAdjustmentQueued st); [apply close_kept_refl|].
  now apply close_kept_silent.
Qed.

Lemma preCalculateAllTabWidths_close st :
  close_kept st (preCalculateAllTabWidths offsetWidth st).
Proof.
  unfold preCalculateAllTabWidths. generalize (getAllHeaders st). intros l.
  apply fold_close_kept. intros s a.
  destruct (tabWidthCache s !! getHeaderKey (snd a)); [apply close_kept_refl|].
  now apply close_kept_silent.
Qed.

Lemma wTimers_fold s data acc :
  List.filter isCloseTimer (wTimers (fold_left (writeHeader s) data acc))
  = List.filter isCloseTimer (wTimers acc).
Proof.
  revert acc. induction data as [|d data IH]; intros acc; [reflexivity|].
  cbn [fold_left]. rewrite IH. unfold writeHeader.
  destruct (isPinned d || isWebLink d); [reflexivity|].
  destruct (cachedWidth d); [|reflexivity].
  cbn [wTimers]. now rewrite List.filter_app, app_nil_r.
Qed.

Lemma writeHeaders_close data st : close_kept st (writeHeaders data st).
Proof.
  unfold writeHeaders.
  set (acc := writeAll (settings st) (document st) data).
  eapply close_kept_trans;
    [|destruct (activeHeader acc);
      [apply scrollToActiveTab_close | apply updateTabsVisibility_close]].
  apply close_kept_intro with (tm := wTimers acc); try reflexivity.
  unfold acc, writeAll. now rewrite wTimers_fold.
Qed.

Lemma adjustAllHeaders_close st : close_kept st (adjustAllHeaders offsetWidth st).
Proof.
  unfold adjustAllHeaders. destruct (isResetting st); now apply close_kept_silent.
Qed.

Lemma resetTabs_close st : close_kept st (resetTabs st).
Proof.
  unfold resetTabs. cbv zeta.
  eapply close_kept_intro; [reflexivity | state_eval; reflexivity | reflexivity].
Qed.

Lemma resetCleanup_close hs st : close_kept st (resetCleanup hs st).
Proof.
  unfold resetCleanup. cbv zeta.
  eapply close_kept_intro; [reflexivity | state_eval; reflexivity | reflexivity].
Qed.

Lemma resetApply_close hs st : close_kept st (resetApply offsetWidth hs st).
Proof.
  unfold resetApply. cbv zeta.
  set (st0 := with_document _ st).
  eapply close_kept_trans with st0; [now apply close_kept_silent|].
  eapply close_kept_trans; [apply adjustAllHeaders_close|].
  eapply close_kept_trans; [apply updateTabsVisibility_close|].
  now apply close_kept_silent.
Qed.

Lemma closeLeafByTabHeader_close h st : close_kept st (closeLeafByTabHeader h st).
Proof.
  unfold closeLeafByTabHeader.
  destruct (find _ _); [now apply close_kept_silent|].
  destruct (get_header h st); [|apply close_kept_refl].
  destruct (classList_contains _ _); [|apply close_kept_refl].
  destruct (activeLeaf _); now apply close_kept_silent.
Qed.

Lemma handleFileOpen_close st : close_kept st (handleFileOpen st).
Proof.
  unfold handleFileOpen. destruct (closeInProgress st); [apply close_kept_refl|].
  generalize (getAllHeaders st). intros l. apply fold_close_kept. intros s a.
  destruct (classList_contains _ _); [|apply close_kept_refl].
  eapply close_kept_intro; [reflexivity | state_eval; reflexivity | reflexivity].
Qed.

Lemma fileOpenTimer_close h st : close_kept st (fileOpenTimer h st).
Proof.
  unfold fileOpenTimer. cbv zeta.
  eapply close_kept_trans; [|apply scrollToActiveTab_close].
  destruct (tabWidthCache st !! _);
    [apply close_kept_refl | apply queueHeaderAdjustment_close].
Qed.

Lemma filter_close_debounce (l : list (number * TimerTask)) :
  List.filter isCloseTimer (List.filter (fun t => negb (isDebounce t)) l)
  = List.filter isCloseTimer l.
Proof.
  induction l as [|t l IH]; [reflexivity|]. cbn [List.filter].
  destruct (isDebounce t) eqn:E; cbn [negb List.filter].
  - destruct (isCloseTimer t) eqn:V; [|exact IH].
    unfold isDebounce, isCloseTimer in *. destruct (snd t); discriminate.
  - destruct (isCloseTimer t); [now rewrite IH | exact IH].
Qed.

Lemma layoutChange_close st :
  close_kept st (setTimeout VisibilityTimer (JS.of_Z 300) (debounceLayoutChange st)).
Proof.
  unfold debounceLayoutChange. cbv zeta. split; [reflexivity|]. state_eval.
  rewrite !List.filter_app, filter_close_debounce. cbn. now rewrite !app_nil_r.
Qed.

Lemma observerCallback_close mutations removed st :
  close_kept st (observerCallback mutations removed st).
Proof.
  revert removed. induction mutations as [|m rest IH]; intros removed;
    [apply close_kept_refl|].
  cbn [observerCallback].
  destruct (targetIsElement m); [|apply IH].
  destruct (targetInMainArea m); cbn [negb]; [|apply IH].
  destruct (targetIsTabElement m).
  - destruct (negb _); [apply queueHeaderAdjustment_close | apply close_kept_refl].
  - destruct (targetIsBodyClass m); [|apply IH].
    eapply close_kept_trans; [|apply queueHeaderAdjustment_close].
    now apply close_kept_silent.
Qed.

Lemma updateCSSVariables_close st : close_kept st (updateCSSVariables st).
Proof.
  unfold updateCSSVariables. cbv zeta.
  destruct (hideTabIcons (settings st)); now apply close_kept_silent.
Qed.

Lemma saveSettings_resume_close prev st : close_kept st (saveSettings_resume prev st).
Proof.
  unfold saveSettings_resume. cbv zeta.
  eapply close_kept_trans; [apply updateCSSVariables_close|].
  destruct (_ && _); [apply resetTabs_close | apply queueHeaderAdjustment_close].
Qed.

Lemma onChange_begin_close prop value st :
  close_kept st (onChange_with Number saveSettings_begin prop value st).
Proof.
  unfold onChange_with. cbv zeta.
  destruct (_ && _); [|apply close_kept_refl].
  set (st0 := with_settings _ st).
  eapply close_kept_trans with (if isGeneralField prop then updateCSSVariables st0 else st0).
  - destruct (isGeneralField prop); [|now apply close_kept_silent].
    eapply close_kept_trans with st0; [now apply close_kept_silent|].
    apply updateCSSVariables_close.
  - now apply close_kept_silent.
Qed.

Lemma runFrameTask_close st t : close_kept st (runFrameTask offsetWidth st t).
Proof.
  destruct t; cbn [runFrameTask].
  - unfold initFrame. cbv zeta.
    eapply close_kept_trans; [|apply queueHeaderAdjustment_close].
    eapply close_kept_trans;
      [apply preCalculateAllTabWidths_close | apply updateTabsVisibility_close].
  - unfold adjustFrame. destruct (closeInProgress st); [now apply close_kept_silent|].
    eapply close_kept_trans; [apply adjustAllHeaders_close|].
    now apply close_kept_silent.
  - apply writeHeaders_close.
Qed.

Lemma initiateClose_consistent h st :
  close_consistent st -> close_consistent (initiateClose h st).
Proof.
  intros H. unfold initiateClose. destruct (closeInProgress st) eqn:Hc; [exact H|].
  cbv zeta. unfold close_consistent in *. rewrite Hc in H.
  unfold startClosingAnimation. state_eval.
  destruct (isResetting st); state_eval;
    rewrite List.filter_app, length_app, H; reflexivity.
Qed.

Lemma filter_delete_length {A} (p : A -> bool) (l : list A) i x :
  l !! i = Some x ->
  length (List.filter p l)
  = (length (List.filter p (delete i l)) + if p x then 1 else 0)%nat.
Proof.
  revert i. induction l as [|a l IH]; intros i Hi; [discriminate|].
  destruct i as [|i]; cbn in Hi.
  - injection Hi as ->. change (delete 0 (x :: l)) with l. cbn [List.filter].
    destruct (p x); cbn [length]; lia.
  - change (delete (S i) (a :: l)) with (a :: delete i l). cbn [List.filter].
    specialize (IH i Hi). destruct (p a); cbn [length]; lia.
Qed.

Lemma step_close_consistent st ev :
  close_consistent st -> close_consistent (step offsetWidth Number st ev).
Proof.
  intros H. destruct ev; cbn [step].
  - revert H. apply close_kept_consistent. unfold runFrame.
    eapply close_kept_trans with (with_frames [] st); [now apply close_kept_silent|].
    apply fold_close_kept. intros s a. apply runFrameTask_close.
  - destruct (timers st !! i) as [[d t]|] eqn:Hi; [|exact H].
    pose proof (filter_delete_length isCloseTimer _ _ _ Hi) as Hlen.
    set (st0 := with_timers (delete i (timers st)) st).
    unfold close_consistent in H. rewrite Hlen in H.
    assert (Hother : isCloseTimer (d, t) = false ->
                     forall st', close_kept st0 st' -> close_consistent st').
    { intros Hp st' Hk. apply (close_kept_consistent _ _ Hk).
      unfold close_consistent, st0. state_eval. rewrite Hp in H. lia. }
    destruct t; cbn [runTimerTask].
    + (* the outer timer of the close sequence *)
      change (isCloseTimer (d, CloseLeafTimer tab)) with true in H.
      unfold closeLeafTimer. cbv zeta.
      destruct (closeLeafByTabHeader_close tab st0) as [C1 C2].
      unfold close_consistent. state_eval.
      rewrite List.filter_app, length_app, C1, C2. unfold st0. state_eval.
      cbn [List.filter isCloseTimer snd length]. cbn match in H.
      destruct (closeInProgress st); lia.
    + (* the grace timer *)
      change (isCloseTimer (d, CloseClearTimer)) with true in H.
      unfold closeClearTimer, close_consistent, st0. state_eval.
      cbn match in H. destruct (closeInProgress st); lia.
    + apply Hother; [reflexivity | apply queueHeaderAdjustment_close].
    + apply Hother; [reflexivity | apply fileOpenTimer_close].
    + apply Hother; [reflexivity | apply resetCleanup_close].
    + apply Hother; [reflexivity | apply resetApply_close].
    + apply Hother; [reflexivity | now apply close_kept_silent].
    + apply Hother; [reflexivity | apply updateTabsVisibility_close].
  - destruct (pendingSaves st !! i); [|exact H].
    revert H. apply close_kept_consistent.
    eapply close_kept_trans; [|apply saveSettings_resume_close].
    now apply close_kept_silent.
  - revert H. apply close_kept_consistent, observerCallback_close.
  - revert H. apply close_kept_consistent, queueHeaderAdjustment_close.
  - revert H. apply close_kept_consistent, layoutChange_close.
  - revert H. apply close_kept_consistent, handleFileOpen_close.
  - unfold handleCloseClick. destruct (negb onCloseButton); [exact H|].
    destruct tabHeader; [|exact H]. now apply initiateClose_consistent.
  - unfold handleMiddleClick. destruct (negb _); [exact H|].
    destruct tabHeader; [|exact H]. now apply initiateClose_consistent.
  - unfold handleKeyDown. destruct (_ && _); [|exact H].
    destruct (activeTab st); [|exact H]. now apply initiateClose_consistent.
  - revert H. apply close_kept_consistent, onChange_begin_close.
  - revert H. apply close_kept_consistent. now apply close_kept_silent.
Qed.

(** X9.  The closing flag is set exactly while one timer of the close
    sequence is pending: if that holds at the start, as it does when the
    plugin is loaded, it holds after every sequence of events.  So a close
    that has begun always has the timer that carries it on, and the flag
    cannot stay set with nothing left to clear it. *)
Theorem closing_flag_always_has_its_timer (st : State) (evs : list Event) :
  close_consistent st ->
  let st' := run offsetWidth Number evs st in
  close_consistent st'
  /\ (closeInProgress st' = true ->
      exists t, In t (timers st') /\ isCloseTimer t = true)
  /\ (closeInProgress st' = false ->
      forall t, In t (timers st') -> isCloseTimer t = false).
Proof.
  intros H. cbv zeta.
  assert (Hrun : close_consistent (run offsetWidth Number evs st)).
  { revert st H. induction evs as [|ev evs IH]; intros st H; [exact H|].
    unfold run. cbn [fold_left]. apply IH. now apply step_close_consistent. }
  split; [exact Hrun|]. unfold close_consistent in Hrun.
  split; intros Hc; rewrite Hc in Hrun.
  - destruct (List.filter isCloseTimer (timers (run offsetWidth Number evs st)))
      as [|t l] eqn:E; [discriminate|].
    exists t. apply filter_In. rewrite E. now left.
  - intros t Hin. destruct (isCloseTimer t) eqn:E; [|reflexivity].
    assert (Hf : In t (List.filter isCloseTimer (timers (run offsetWidth Number evs st))))
      by (apply filter_In; now split).
    destruct (List.filter isCloseTimer (timers (run offsetWidth Number evs st)));
      [contradiction | discriminate].
Qed.

End Closing.

(** ** What the plugin leaves to the host *)

Section HostView.

Lemma host_same_refl e : host_same e e.
Proof. unfold host_same. tauto. Qed.

Lemma host_same_trans e1 e2 e3 : host_same e1 e2 -> host_same e2 e3 -> host_same e1 e3.
Proof.
  intros (A1 & A2 & A3 & A4 & A5 & A6) (B1 & B2 & B3 & B4 & B5 & B6).
  unfold host_same.
  split; [congruence|]. split; [congruence|]. split; [congruence|].
  split; [congruence|]. split.
  - intros c Hc. rewrite (B5 c Hc). now apply A5.
  - auto.
Qed.

Lemma host_same_add a e : In a pluginClasses -> host_same e (classList_add a e).
Proof.
  intros Ha. destruct e. unfold host_same. header_eval.
  split; [reflexivity|]. split; [reflexivity|]. split; [reflexivity|].
  split; [reflexivity|]. split.
  - intros c Hc. rewrite in_add_iff.
    split; [intros [->|H]; [contradiction | exact H] | now right].
  - intros H. apply in_add_iff. now right.
Qed.

Lemma host_same_remove a e :
  In a pluginClasses -> a <> "autofit-closing" -> host_same e (classList_remove a e).
Proof.
  intros Ha Hne. destruct e. unfold host_same. header_eval.
  split; [reflexivity|]. split; [reflexivity|]. split; [reflexivity|].
  split; [reflexivity|]. split.
  - intros c Hc. rewrite in_remove_iff. split; [tauto|].
    intros H. split; [exact H|]. now intros ->.
  - intros H. apply in_remove_iff. split; [exact H|]. congruence.
Qed.

Lemma host_same_width v e : host_same e (set_headerWidth v e).
Proof. destruct e. unfold host_same. header_eval. tauto. Qed.

Lemma host_same_transition v e : host_same e (set_innerTransition v e).
Proof. destruct e. unfold host_same. header_eval. tauto. Qed.

Lemma host_same_clearAutofit e : host_same e (clearAutofit e).
Proof.
  unfold clearAutofit. cbv zeta.
  eapply host_same_trans; [|apply host_same_width].
  eapply host_same_trans;
    apply host_same_remove; cbn; try tauto; discriminate.
Qed.

Lemma host_same_applyWidth s w e : host_same e (applyWidth s w e).
Proof.
  unfold applyWidth. cbv zeta.
  set (e1 := set_headerWidth _ (classList_add _ (set_innerTransition _ e))).
  assert (H1 : host_same e e1).
  { unfold e1. eapply host_same_trans; [apply host_same_transition|].
    eapply host_same_trans; [|apply host_same_width].
    apply host_same_add. cbn. tauto. }
  destruct (_ && _).
  - eapply host_same_trans; [exact H1|].
    eapply host_same_trans; [|apply host_same_width].
    apply host_same_add. cbn. tauto.
  - eapply host_same_trans; [exact H1|].
    apply host_same_remove; [cbn; tauto | discriminate].
Qed.

Lemma host_view_refl d : host_view_kept d d.
Proof.
  split; [reflexivity|]. intros h. destruct (tabElements d !! h); [|exact I].
  apply host_same_refl.
Qed.

Lemma host_view_trans d1 d2 d3 :
  host_view_kept d1 d2 -> host_view_kept d2 d3 -> host_view_kept d1 d3.
Proof.
  intros [A1 A2] [B1 B2]. split; [congruence|]. intros h.
  specialize (A2 h). specialize (B2 h).
  destruct (tabElements d1 !! h), (tabElements d2 !! h), (tabElements d3 !! h);
    try contradiction; try exact I.
  eapply host_same_trans; eassumption.
Qed.

Lemma update_header_view f h d :
  (forall e, host_same e (f e)) -> host_view_kept d (update_header h f d).
Proof.
  intros Hf. split; [reflexivity|]. intros k.
  unfold update_header. cbn [tabElements with_tabElements].
  destruct (decide (h = k)) as [->|Hne].
  - rewrite lookup_alter_eq.
    destruct (tabElements d !! k); cbn; [apply Hf | exact I].
  - rewrite lookup_alter_ne by assumption.
    destruct (tabElements d !! k); [apply host_same_refl | exact I].
Qed.

Lemma forEach_header_view f hs d :
  (forall e, host_same e (f e)) -> host_view_kept d (forEach_header f hs d).
Proof.
  intros Hf. revert d. induction hs as [|a hs IH]; intros d; [apply host_view_refl|].
  unfold forEach_header. cbn [fold_left].
  fold (forEach_header f hs (update_header a f d)).
  eapply host_view_trans; [now apply update_header_view | apply IH].
Qed.

Lemma writeAll_view s data acc :
  host_view_kept (wDocument acc) (wDocument (fold_left (writeHeader s) data acc)).
Proof.
  revert acc. induction data as [|d data IH]; intros acc; [apply host_view_refl|].
  cbn [fold_left]. eapply host_view_trans; [|apply IH].
  unfold writeHeader. destruct (isPinned d || isWebLink d).
  - cbn [wDocument]. apply update_header_view, host_same_clearAutofit.
  - destruct (cachedWidth d); [|apply host_view_refl].
    cbn [wDocument]. apply update_header_view. intros e. apply host_same_applyWidth.
Qed.

Lemma hosted_refl st : hosted st st.
Proof. apply host_view_refl. Qed.

Lemma hosted_trans st1 st2 st3 : hosted st1 st2 -> hosted st2 st3 -> hosted st1 st3.
Proof. apply host_view_trans. Qed.

Lemma hosted_same st st' : document st' = document st -> hosted st st'.
Proof. intros H. unfold hosted. rewrite H. apply host_view_refl. Qed.

Lemma fold_hosted {A} (f : State -> A -> State) (l : list A) st :
  (forall s a, hosted s (f s a)) -> hosted st (fold_left f l st).
Proof.
  intros H. revert st. induction l as [|a l IH]; intros st; [apply hosted_refl|].
  cbn [fold_left]. eapply hosted_trans; [apply H | apply IH].
Qed.

Lemma updateTabsVisibility_hosted st : hosted st (updateTabsVisibility st).
Proof. unfold updateTabsVisibility. destruct (isResetting st); now apply hosted_same. Qed.

Lemma queueHeaderAdjustment_hosted st : hosted st (queueHeaderAdjustment st).
Proof.
  apply hosted_same. now destruct (queueHeaderAdjustment_keeps st) as (_ & _ & -> & _).
Qed.

Variable offsetWidth : ComputedStyle -> string -> N.
Variable Number : string -> number.

Lemma preCalculateAllTabWidths_hosted st :
  hosted st (preCalculateAllTabWidths offsetWidth st).
Proof.
  unfold preCalculateAllTabWidths. generalize (getAllHeaders st). intros l.
  apply fold_hosted. intros s a.
  destruct (tabWidthCache s !! getHeaderKey (snd a)); now apply hosted_same.
Qed.

Lemma writeHeaders_hosted data st : hosted st (writeHeaders data st).
Proof.
  unfold hosted. rewrite document_writeHeaders. unfold writeAll.
  apply (writeAll_view (settings st) data (mkAcc (document st) ∅ None [])).
Qed.

Lemma adjustAllHeaders_hosted st : hosted st (adjustAllHeaders offsetWidth st).
Proof. unfold adjustAllHeaders. destruct (isResetting st); now apply hosted_same. Qed.

Lemma resetTabs_hosted st : hosted st (resetTabs st).
Proof.
  unfold resetTabs, hosted. cbv zeta. state_eval.
  apply forEach_header_view. intros e.
  eapply host_same_trans; [|apply host_same_width].
  eapply host_same_trans; [|apply host_same_add; cbn; tauto].
  eapply host_same_trans; [|apply host_same_remove; [cbn; tauto | discriminate]].
  eapply host_same_trans; apply host_same_remove; cbn; try tauto; discriminate.
Qed.

Lemma resetCleanup_hosted hs st : hosted st (resetCleanup hs st).
Proof.
  unfold resetCleanup, hosted. cbv zeta. state_eval.
  apply forEach_header_view. intros e.
  apply host_same_remove; [cbn; tauto | discriminate].
Qed.

Lemma resetApply_hosted hs st : hosted st (resetApply offsetWidth hs st).
Proof.
  unfold resetApply. cbv zeta.
  set (st0 := with_document _ st).
  eapply hosted_trans with st0.
  { unfold hosted, st0. state_eval. apply forEach_header_view. intros e.
    apply host_same_add. cbn. tauto. }
  eapply hosted_trans; [apply adjustAllHeaders_hosted|].
  eapply hosted_trans; [apply updateTabsVisibility_hosted|].
  now apply hosted_same.
Qed.

Lemma closeLeafByTabHeader_hosted h st : hosted st (closeLeafByTabHeader h st).
Proof.
  unfold closeLeafByTabHeader.
  destruct (find _ _); [now apply hosted_same|].
  destruct (get_header h st); [|apply hosted_refl].
  destruct (classList_contains _ _); [|apply hosted_refl].
  destruct (activeLeaf _); now apply hosted_same.
Qed.

Lemma initiateClose_hosted h st : hosted st (initiateClose h st).
Proof.
  unfold initiateClose. destruct (closeInProgress st); [apply hosted_refl|].
  cbv zeta. unfold startClosingAnimation. state_eval.
  destruct (isResetting st); [now apply hosted_same|].
  unfold hosted. state_eval. apply update_header_view. intros e.
  eapply host_same_trans; [|apply host_same_width].
  apply host_same_add. cbn. tauto.
Qed.

Lemma handleFileOpen_hosted st : hosted st (handleFileOpen st).
Proof.
  unfold handleFileOpen. destruct (closeInProgress st); [apply hosted_refl|].
  generalize (getAllHeaders st). intros l. apply fold_hosted. intros s a.
  destruct (classList_contains _ _); now apply hosted_same.
Qed.

Lemma fileOpenTimer_hosted h st : hosted st (fileOpenTimer h st).
Proof.
  unfold fileOpenTimer. cbv zeta.
  eapply hosted_trans with (match tabWidthCache st !! _ with
                            | Some _ => st | None => queueHeaderAdjustment st end);
    [|now apply hosted_same].
  destruct (tabWidthCache st !! _); [apply hosted_refl | apply queueHeaderAdjustment_hosted].
Qed.

Lemma observerCallback_hosted mutations removed st :
  hosted st (observerCallback mutations removed st).
Proof.
  revert removed. induction mutations as [|m rest IH]; intros removed;
    [apply hosted_refl|].
  cbn [observerCallback].
  destruct (targetIsElement m); [|apply IH].
  destruct (targetInMainArea m); cbn [negb]; [|apply IH].
  destruct (targetIsTabElement m).
  - destruct (negb _); [apply queueHeaderAdjustment_hosted | apply hosted_refl].
  - destruct (targetIsBodyClass m); [|apply IH].
    eapply hosted_trans; [|apply queueHeaderAdjustment_hosted].
    now apply hosted_same.
Qed.

Lemma updateCSSVariables_hosted st : hosted st (updateCSSVariables st).
Proof.
  destruct (updateCSSVariables_keeps st) as (_ & _ & U3 & U4 & _).
  cbv zeta in U3, U4. split; [exact U4|]. intros h. rewrite U3.
  destruct (tabElements (document st) !! h); [apply host_same_refl | exact I].
Qed.

Lemma saveSettings_resume_hosted prev st : hosted st (saveSettings_resume prev st).
Proof.
  unfold saveSettings_resume. cbv zeta.
  eapply hosted_trans; [apply updateCSSVariables_hosted|].
  destruct (_ && _); [apply resetTabs_hosted | apply queueHeaderAdjustment_hosted].
Qed.

Lemma onChange_begin_hosted prop value st :
  hosted st (onChange_with Number saveSettings_begin prop value st).
Proof.
  unfold onChange_with. cbv zeta.
  destruct (_ && _); [|apply hosted_refl].
  set (st0 := with_settings _ st).
  eapply hosted_trans with (if isGeneralField prop then updateCSSVariables st0 else st0).
  - destruct (isGeneralField prop); [|now apply hosted_same].
    eapply hosted_trans with st0; [now apply hosted_same|].
    apply updateCSSVariables_hosted.
  - now apply hosted_same.
Qed.

Lemma runFrameTask_hosted st t : hosted st (runFrameTask offsetWidth st t).
Proof.
  destruct t; cbn [runFrameTask].
  - unfold initFrame. cbv zeta.
    eapply hosted_trans; [|apply queueHeaderAdjustment_hosted].
    eapply hosted_trans;
      [apply preCalculateAllTabWidths_hosted | apply updateTabsVisibility_hosted].
  - unfold adjustFrame. destruct (closeInProgress st); [now apply hosted_same|].
    eapply hosted_trans; [apply adjustAllHeaders_hosted|]. now apply hosted_same.
  - apply writeHeaders_hosted.
Qed.

Lemma runTimerTask_hosted t st : hosted st (runTimerTask offsetWidth t st).
Proof.
  destruct t; cbn [runTimerTask].
  - unfold closeLeafTimer. cbv zeta.
    eapply hosted_trans; [apply closeLeafByTabHeader_hosted | now apply hosted_same].
  - now apply hosted_same.
  - apply queueHeaderAdjustment_hosted.
  - apply fileOpenTimer_hosted.
  - apply resetCleanup_hosted.
  - apply resetApply_hosted.
  - unfold restoreTransition, hosted. state_eval.
    apply update_header_view, host_same_transition.
  - apply updateTabsVisibility_hosted.
Qed.

Lemma step_hosted st ev : notHost ev -> hosted st (step offsetWidth Number st ev).
Proof.
  intros Hev. destruct ev; cbn [step]; try contradiction.
  - unfold runFrame. eapply hosted_trans with (with_frames [] st);
      [now apply hosted_same|].
    apply fold_hosted. intros s a. apply runFrameTask_hosted.
  - destruct (timers st !! i) as [[d t]|]; [|apply hosted_refl].
    eapply hosted_trans; [|apply runTimerTask_hosted]. now apply hosted_same.
  - destruct (pendingSaves st !! i); [|apply hosted_refl].
    eapply hosted_trans; [|apply saveSettings_resume_hosted]. now apply hosted_same.
  - apply observerCallback_hosted.
  - apply queueHeaderAdjustment_hosted.
  - now apply hosted_same.
  - apply handleFileOpen_hosted.
  - unfold handleCloseClick. destruct (negb onCloseButton); [apply hosted_refl|].
    destruct tabHeader; [apply initiateClose_hosted | apply hosted_refl].
  - unfold handleMiddleClick. destruct (negb _); [apply hosted_refl|].
    destruct tabHeader; [apply initiateClose_hosted | apply hosted_refl].
  - unfold handleKeyDown. destruct (_ && _); [|apply hosted_refl].
    destruct (activeTab st); [apply initiateClose_hosted | apply hosted_refl].
  - apply onChange_begin_hosted.
Qed.

End HostView.

(** ** More about a pass *)

Section PassFrame.
Variable offsetWidth : ComputedStyle -> string -> N.
Variable Number : string -> number.

Lemma cacheOf_gen_keeps data (m : gmap string number) k :
  is_Some (m !! k) ->
  is_Some (fold_left (fun m d =>
                        if skipped d then m
                        else match cachedWidth d with
                             | None => m
                             | Some width => <[headerKey d := width]> m
                             end) data m !! k).
Proof.
  revert m. induction data as [|d data IH]; intros m H; [exact H|].
  cbn [fold_left]. apply IH.
  destruct (skipped d); [exact H|]. destruct (cachedWidth d); [|exact H].
  destruct (decide (headerKey d = k)) as [->|Hne].
  - rewrite lookup_insert_eq. eauto.
  - now rewrite lookup_insert_ne.
Qed.

Lemma cacheOf_gen_has data (m : gmap string number) d w :
  In d data -> skipped d = false -> cachedWidth d = Some w ->
  is_Some (fold_left (fun m d =>
                        if skipped d then m
                        else match cachedWidth d with
                             | None => m
                             | Some width => <[headerKey d := width]> m
                             end) data m !! headerKey d).
Proof.
  revert m. induction data as [|d0 data IH]; intros m Hin Hs Hw; [contradiction|].
  cbn [fold_left]. destruct Hin as [->|Hin]; [|now apply IH].
  rewrite Hs, Hw. apply cacheOf_gen_keeps. rewrite lookup_insert_eq. eauto.
Qed.

(** X10.  A pass rebuilds the cache: afterwards a title has an entry
    exactly when some main-area header that the pass adjusts (visible
    container, not loading, not left to the host) carries that title, and
    the entry is the width the pass carried for such a header.  Entries of
    tabs that are gone, renamed, pinned or hidden are dropped. *)
Theorem pass_cache_holds_the_written_titles (st : State) (k : string) :
  let st' := recalculationPass offsetWidth st in
  (is_Some (tabWidthCache st' !! k)
   <-> exists h e, h ∈ mainHeaders (document st) /\ get_header h st = Some e
                   /\ adjustable e = true /\ leftToHost (settings st) e = false
                   /\ getHeaderKey e = k)
  /\ (forall w, tabWidthCache st' !! k = Some w ->
        exists h e, h ∈ mainHeaders (document st) /\ get_header h st = Some e
                    /\ adjustable e = true /\ leftToHost (settings st) e = false
                    /\ getHeaderKey e = k
                    /\ cachedWidth (entryOf offsetWidth st (h, e)) = Some w).
Proof.
  clear Number.
  cbv zeta. rewrite pass_cache.
  assert (Hval : forall w, cacheOf (headerDataOf offsetWidth st) !! k = Some w ->
            exists h e, h ∈ mainHeaders (document st) /\ get_header h st = Some e
                        /\ adjustable e = true /\ leftToHost (settings st) e = false
                        /\ getHeaderKey e = k
                        /\ cachedWidth (entryOf offsetWidth st (h, e)) = Some w).
  { intros w Hk. apply cacheOf_lookup in Hk.
    destruct Hk as (d & Hin & Hs & Hkey & Hw).
    apply in_headerDataOf in Hin. destruct Hin as (h & e & Hin & Hget & Hadj & ->).
    exists h, e. rewrite skipped_entryOf in Hs. rewrite headerKey_entryOf in Hkey.
    cbn [snd] in Hs, Hkey. rewrite list_elem_of_In. tauto. }
  split; [|exact Hval]. split.
  - intros [w Hk]. destruct (Hval w Hk) as (h & e & H1 & H2 & H3 & H4 & H5 & _).
    exists h, e. tauto.
  - intros (h & e & Hin & Hget & Hadj & Hhost & <-).
    set (d := entryOf offsetWidth st (h, e)).
    assert (Hd : In d (headerDataOf offsetWidth st)).
    { apply in_headerDataOf. exists h, e. rewrite <- list_elem_of_In. tauto. }
    assert (Hs : skipped d = false) by (unfold d; now rewrite skipped_entryOf).
    destruct (headerDataOf_width offsetWidth st d Hd Hs) as [w Hw].
    pose proof (cacheOf_gen_has (headerDataOf offsetWidth st) ∅ d w Hd Hs Hw) as H.
    replace (headerKey d) with (getHeaderKey e) in H
      by (unfold d; now rewrite headerKey_entryOf).
    exact H.
Qed.

Lemma writeAll_frame s data acc :
  mainHeaders (wDocument (fold_left (writeHeader s) data acc)) = mainHeaders (wDocument acc)
  /\ rootStyle (wDocument (fold_left (writeHeader s) data acc)) = rootStyle (wDocument acc)
  /\ bodyClasses (wDocument (fold_left (writeHeader s) data acc))
     = bodyClasses (wDocument acc).
Proof.
  revert acc. induction data as [|d data IH]; intros acc; [now repeat split|].
  cbn [fold_left]. destruct (IH (writeHeader s acc d)) as (H1 & H2 & H3).
  rewrite H1, H2, H3. unfold writeHeader.
  destruct (isPinned d || isWebLink d); [now repeat split|].
  destruct (cachedWidth d); now repeat split.
Qed.

Lemma writeHeaders_frame data st :
  let st' := writeHeaders data st in
  settings st' = settings st /\ workspace st' = workspace st
  /\ frames st' = frames st /\ isAdjustmentQueued st' = isAdjustmentQueued st
  /\ isResetting st' = isResetting st /\ closeInProgress st' = closeInProgress st
  /\ timers st'
     = (timers st ++ wTimers (writeAll (settings st) (document st) data))%list.
Proof.
  cbv zeta. unfold writeHeaders. cbv zeta.
  set (acc := writeAll (settings st) (document st) data).
  destruct (activeHeader acc).
  - unfold scrollToActiveTab. state_eval. split_all; reflexivity.
  - unfold updateTabsVisibility. state_eval.
    destruct (isResetting st) eqn:E; state_eval; split_all; auto.
Qed.

(** X11.  A pass writes to tab headers only.  It leaves the settings, the
    workspace, the three flags, the order of the tab strip, the root style
    and the body classes as they are, queues no further pass, creates no
    element and does not touch a header outside the main area.  A main-area
    header whose container is hidden or whose icon is loading keeps its
    width, its inline transition and its classes; only the class
    [out-of-view], which the call of [updateTabsVisibility] at the end of
    the batch maintains, is left open here. *)
Theorem pass_leaves_the_rest_alone (st : State) :
  let st' := recalculationPass offsetWidth st in
  settings st' = settings st /\ workspace st' = workspace st
  /\ isAdjustmentQueued st' = isAdjustmentQueued st
  /\ isResetting st' = isResetting st /\ closeInProgress st' = closeInProgress st
  /\ List.filter isAdjustFrame (frames st') = List.filter isAdjustFrame (frames st)
  /\ mainHeaders (document st') = mainHeaders (document st)
  /\ rootStyle (document st') = rootStyle (document st)
  /\ bodyClasses (document st') = bodyClasses (document st)
  /\ (forall h, get_header h st = None -> get_header h st' = None)
  /\ (forall h e, get_header h st = Some e -> h ∉ mainHeaders (document st) ->
        get_header h st' = Some e)
  /\ (forall h e, get_header h st = Some e -> adjustable e = false ->
        exists e', get_header h st' = Some e'
                   /\ classList_remove "out-of-view" e'
                      = classList_remove "out-of-view" e).
Proof.
  cbv zeta.
  destruct (writeHeaders_frame (headerDataOf offsetWidth st) st)
    as (F1 & F2 & F3 & F4 & F5 & F6 & _).
  cbv zeta in F1, F2, F3, F4, F5, F6.
  fold (recalculationPass offsetWidth st) in F1, F2, F3, F4, F5, F6.
  split; [exact F1|]. split; [exact F2|]. split; [exact F4|].
  split; [exact F5|]. split; [exact F6|]. split; [now rewrite F3|].
  unfold recalculationPass at 1 2 3. rewrite document_writeHeaders. unfold writeAll.
  destruct (writeAll_frame (settings st) (headerDataOf offsetWidth st)
              (mkAcc (document st) ∅ None [])) as (W1 & W2 & W3).
  split; [exact W1|]. split; [exact W2|]. split; [exact W3|].
  split; [|split].
  - intros h Hget. rewrite pass_lookup. now rewrite Hget.
  - intros h e Hget Hnot. rewrite pass_lookup, Hget. f_equal.
    now rewrite bool_decide_false.
  - intros h e Hget Hadj. exists e. split; [|reflexivity].
    rewrite pass_lookup, Hget. f_equal. rewrite Hadj. now rewrite andb_false_r.
Qed.

(** *** The transition lock *)

Lemma wTimers_writeAll s data acc :
  (forall d, In d data -> skipped d = false -> is_Some (cachedWidth d)) ->
  wTimers (fold_left (writeHeader s) data acc)
  = (wTimers acc
       ++ map (fun d => (JS.of_Z 10, RestoreTransitionTimer (header d)))
              (List.filter written data))%list.
Proof.
  revert acc. induction data as [|d data IH]; intros acc H.
  - cbn. now rewrite app_nil_r.
  - cbn [fold_left List.filter]. rewrite IH by (intros d' Hin; apply H; now right).
    unfold writeHeader, written. fold (skipped d).
    destruct (skipped d) eqn:Hs; cbn [negb]; [reflexivity|].
    destruct (H d (or_introl eq_refl) Hs) as [w ->].
    cbn [wTimers map]. now rewrite <- app_assoc.
Qed.

Lemma restore_fold (l : list HeaderData) (s : State) :
  document (fold_left (fun s d =>
                         runTimerTask offsetWidth (RestoreTransitionTimer (header d)) s)
                      l s)
  = forEach_header (set_innerTransition "") (map header l) (document s).
Proof.
  revert s. induction l as [|d l IH]; intros s; [reflexivity|].
  cbn [fold_left map]. rewrite IH. reflexivity.
Qed.

Lemma innerTransition_applyWidth s w e : innerTransition (applyWidth s w e) = "none".
Proof.
  destruct e. unfold applyWidth. cbv zeta.
  destruct (_ && _); header_eval; reflexivity.
Qed.

Lemma filter_restore_map (l : list HeaderData) :
  List.filter isRestoreTimer
    (map (fun d => (JS.of_Z 10, RestoreTransitionTimer (header d))) l)
  = map (fun d => (JS.of_Z 10, RestoreTransitionTimer (header d))) l.
Proof. induction l as [|d l IH]; [reflexivity|]. cbn. now rewrite IH. Qed.

(** X13.  The write batch switches the inline transition of every header
    it writes to [none], arms for each of them one 10 ms timer that
    restores it, one after the other in the order of the batch, and cancels
    no timer; when these timers have run, every written header has its
    inline transition back at the empty string and is otherwise as the
    batch left it.  Timers of other kinds that the batch may arm are not
    counted here. *)
Theorem transition_lock_is_released (st : State) :
  let st1 := recalculationPass offsetWidth st in
  let writes := List.filter written (headerDataOf offsetWidth st) in
  let st2 := fold_left (fun s d =>
                          runTimerTask offsetWidth (RestoreTransitionTimer (header d)) s)
                       writes st1 in
  List.filter isRestoreTimer (timers st1)
  = (List.filter isRestoreTimer (timers st)
       ++ map (fun d => (JS.of_Z 10, RestoreTransitionTimer (header d))) writes)%list
  /\ (forall t, In t (timers st) -> In t (timers st1))
  /\ forall h e,
       get_header h st = Some e -> h ∈ mainHeaders (document st) ->
       adjustable e = true -> leftToHost (settings st) e = false ->
       exists e1, get_header h st1 = Some e1 /\ innerTransition e1 = "none"
                  /\ get_header h st2 = Some (set_innerTransition "" e1).
Proof.
  cbv zeta.
  assert (Ht : timers (recalculationPass offsetWidth st)
               = (timers st
                    ++ map (fun d => (JS.of_Z 10, RestoreTransitionTimer (header d)))
                           (List.filter written (headerDataOf offsetWidth st)))%list).
  { destruct (writeHeaders_frame (headerDataOf offsetWidth st) st)
      as (_ & _ & _ & _ & _ & _ & F7). cbv zeta in F7.
    unfold recalculationPass. rewrite F7. unfold writeAll.
    rewrite wTimers_writeAll; [reflexivity|].
    intros d Hin Hs. now apply (headerDataOf_width offsetWidth st). }
  split; [|split].
  - rewrite Ht, List.filter_app. now rewrite filter_restore_map.
  - intros t Hin. rewrite Ht. apply in_or_app. now left.
  - intros h e Hget Hin Hadj Hhost.
    destruct (pass_written offsetWidth st h e Hget Hin Hadj Hhost) as (w & Hw & Hpass).
    exists (applyWidth (settings st) w e).
    split; [exact Hpass|]. split; [apply innerTransition_applyWidth|].
    unfold get_header. rewrite restore_fold.
    destruct (forEach_header_spec (set_innerTransition "")
                (fun e1 => e1 = applyWidth (settings st) w e)
                (fun e2 => e2 = set_innerTransition "" (applyWidth (settings st) w e))
                (map header (List.filter written (headerDataOf offsetWidth st)))
                (document (recalculationPass offsetWidth st)) h
                (applyWidth (settings st) w e)) as (e2 & Hg2 & ->); auto.
    + now intros e0 ->.
    + intros e0 ->. now destruct (applyWidth (settings st) w e).
    + apply in_map_iff. exists (entryOf offsetWidth st (h, e)).
      split; [apply header_entryOf|]. apply filter_In. split.
      * apply in_headerDataOf. exists h, e. rewrite <- list_elem_of_In. tauto.
      * unfold written. rewrite skipped_entryOf. cbn [snd]. now rewrite Hhost.
Qed.

(** X14.  A pass that [queueHeaderAdjustment] has queued, run by two
    animation frames with no other event between them and no close or
    reset in progress, leaves the tab strip and the cache exactly as the
    read batch followed at once by the write batch does; afterwards no
    callback of a pass, neither of its read batch nor of its write batch,
    is left in the frame queue, and the queue flag is cleared. *)
Theorem queued_pass_runs_in_two_frames (st : State) :
  frames st = [AdjustFrame] -> closeInProgress st = false -> isResetting st = false ->
  let st' := run offsetWidth Number [EvFrame; EvFrame] st in
  document st' = document (recalculationPass offsetWidth st)
  /\ tabWidthCache st' = tabWidthCache (recalculationPass offsetWidth st)
  /\ List.filter isAdjustFrame (frames st') = []
  /\ writesOf (frames st') = []
  /\ isAdjustmentQueued st' = false.
Proof.
  intros Hf Hc Hr.
  destruct (pass_in_two_frames offsetWidth Number st Hf Hc Hr) as (H1 & H2 & H3 & H4).
  cbv zeta in *. rewrite H3. now repeat split.
Qed.

End PassFrame.

(** ** More about the width calculator *)

Lemma add_mono a b c d :
  JS.valid a = true -> JS.valid b = true -> JS.valid c = true -> JS.valid d = true ->
  JS.le a b = true -> JS.le c d = true -> JS.le (JS.add a c) (JS.add b d) = true.
Proof.
  intros Ha Hb Hc Hd Hab Hcd.
  apply le_trans with (JS.add b c);
    [now apply add_mono_l | now apply add_mono_r].
Qed.

Lemma max_mono a b c d :
  JS.le a b = true -> JS.le c d = true -> JS.le (JS.max a c) (JS.max b d) = true.
Proof.
  intros Hab Hcd. destruct (le_not_nan _ _ Hab) as [Ha Hb], (le_not_nan _ _ Hcd) as [Hc Hd].
  rewrite (max_cases a c) by assumption. destruct (JS.le a c).
  - apply le_trans with d; [assumption | now apply max_ge_r].
  - apply le_trans with b; [assumption | now apply max_ge_l].
Qed.

Lemma strict_eq_refl a : JS.isNaN a = false -> JS.strict_eq a a = true.
Proof.
  destruct a as [| |q|]; cbn; try discriminate; auto.
  intros _. apply Qeq_bool_iff. reflexivity.
Qed.

Lemma le_antisym a b : JS.le a b = true -> JS.le b a = true -> JS.strict_eq a b = true.
Proof.
  destruct a as [| |x|], b as [| |y|]; cbn; try discriminate; auto.
  intros H1 H2. qbool. apply Qeq_bool_iff. lra.
Qed.

Section Calculator.
Variable offsetWidth : ComputedStyle -> string -> N.

Lemma iconSpaceNeeded_mono s s' :
  JS.valid (iconWidth s) = true -> JS.valid (iconWidth s') = true ->
  hideTabIcons s' = hideTabIcons s ->
  JS.le (iconWidth s) (iconWidth s') = true ->
  JS.le (iconSpaceNeeded s) (iconSpaceNeeded s') = true.
Proof.
  intros Hv Hv' Hh Hle. unfold iconSpaceNeeded. rewrite Hh.
  destruct (hideTabIcons s); [reflexivity|].
  destruct (valid_inv _ Hv) as [[x [Hx Hx0]]|Hx],
           (valid_inv _ Hv') as [[y [Hy Hy0]]|Hy];
    rewrite Hx, Hy in *; cbn in Hle |- *; try discriminate; try reflexivity.
  - unfold JS.gt, JS.lt, JS.zero.
    destruct (Qle_bool x 0) eqn:Ex, (Qle_bool y 0) eqn:Ey; cbn;
      qbool; lra.
  - unfold JS.gt, JS.lt, JS.zero. destruct (Qle_bool x 0); reflexivity.
Qed.

(** X15.  For a given header, raising the minimum width, the left padding,
    the icon width or either padding of the close button never makes the
    calculated width smaller, as long as the settings stay valid and the
    maximum and the icon toggle are the same. *)
Theorem width_grows_with_the_settings (st st' : State) (e : Header) :
  settings_valid (settings st) = true -> settings_valid (settings st') = true ->
  measureElement st' = measureElement st ->
  hideTabIcons (settings st') = hideTabIcons (settings st) ->
  maxWidth (settings st') = maxWidth (settings st) ->
  JS.le (minWidth (settings st)) (minWidth (settings st')) = true ->
  JS.le (leftPadding (settings st)) (leftPadding (settings st')) = true ->
  JS.le (iconWidth (settings st)) (iconWidth (settings st')) = true ->
  JS.le (closeButtonLeftPadding (settings st))
        (closeButtonLeftPadding (settings st')) = true ->
  JS.le (closeButtonRightPadding (settings st))
        (closeButtonRightPadding (settings st')) = true ->
  JS.le (calculateHeaderWidth offsetWidth st e)
        (calculateHeaderWidth offsetWidth st' e) = true.
Proof.
  intros Hs Hs' Hm Hh Hmax Hmin Hlp Hiw Hcl Hcr.
  pose proof (settings_valid_inv _ Hs) as (V1 & V2 & V3 & V4 & _ & V6 & V7).
  pose proof (settings_valid_inv _ Hs') as (W1 & W2 & W3 & W4 & _ & W6 & W7).
  destruct (titleElement e) as [t|] eqn:Ht.
  - rewrite !(calculateHeaderWidth_eq _ _ _ _ Ht). cbv zeta. rewrite Hmax.
    assert (Hmeasure : measureTextWidth offsetWidth st' (textContent t) t
                       = measureTextWidth offsetWidth st (textContent t) t)
      by (unfold measureTextWidth; now rewrite Hm).
    rewrite Hmeasure.
    set (tw := measureTextWidth offsetWidth st (textContent t) t).
    assert (Htw : JS.valid tw = true) by apply valid_measureTextWidth.
    assert (Hcw : JS.le (calculatedWidth (settings st) tw)
                        (calculatedWidth (settings st') tw) = true).
    { unfold calculatedWidth. apply ceil_mono, max_mono; [|exact Hmin].
      pose proof (iconSpaceNeeded_mono _ _ V6 W6 Hh Hiw) as Hicon.
      repeat (apply add_mono; repeat apply valid_add;
              auto using valid_iconSpaceNeeded).
      now apply le_refl, valid_not_nan. }
    destruct (JS.gt (maxWidth (settings st)) JS.zero) eqn:Hgt; [|exact Hcw].
    apply min_mono_l; [|exact Hcw]. now apply valid_not_nan.
  - unfold calculateHeaderWidth. now rewrite Ht.
Qed.

(** X16.  When a positive maximum width is not above the minimum width,
    the clamp wins over the floor: every header that has a title element
    gets exactly the maximum width, whatever its title. *)
Theorem maximum_below_minimum_wins (st : State) (e : Header) (t : TitleElement) :
  settings_valid (settings st) = true ->
  titleElement e = Some t ->
  JS.gt (maxWidth (settings st)) JS.zero = true ->
  JS.le (maxWidth (settings st)) (minWidth (settings st)) = true ->
  JS.strict_eq (calculateHeaderWidth offsetWidth st e) (maxWidth (settings st)) = true.
Proof.
  intros Hs Ht Hgt Hle.
  rewrite (calculateHeaderWidth_eq _ _ _ _ Ht). cbv zeta. rewrite Hgt.
  set (cw := calculatedWidth (settings st)
               (measureTextWidth offsetWidth st (textContent t) t)).
  assert (Hge : JS.le (maxWidth (settings st)) cw = true).
  { eapply le_trans; [exact Hle|].
    apply calculatedWidth_ge_min; [exact Hs | apply valid_measureTextWidth]. }
  destruct (le_not_nan _ _ Hge) as [Hm Hc].
  rewrite min_cases by assumption.
  destruct (JS.le cw (maxWidth (settings st))) eqn:E.
  - now apply le_antisym.
  - now apply strict_eq_refl.
Qed.

(** X17.  The width calculator of the earlier revision, which counts the
    close button as a width and a padding and always counts the icon,
    keeps the same bounds: with valid settings and a maximum that is
    disabled or not below the minimum, the width is at least [minWidth]
    and, when the maximum is enabled, at most [maxWidth]. *)
Theorem earlier_revision_width_within_bounds
        (s : Legacy.PluginSettings) (measureElement : bool) (e : Header) :
  Legacy.settings_valid s = true ->
  JS.gt (Legacy.maxWidth s) JS.zero = false
  \/ JS.le (Legacy.minWidth s) (Legacy.maxWidth s) = true ->
  JS.ge (Legacy.calculateHeaderWidth offsetWidth s measureElement e)
        (Legacy.minWidth s) = true
  /\ (JS.gt (Legacy.maxWidth s) JS.zero = true ->
      JS.le (Legacy.calculateHeaderWidth offsetWidth s measureElement e)
            (Legacy.maxWidth s) = true).
Proof.
  intros Hs Hor. exact (Legacy_width_within_bounds offsetWidth s measureElement e Hs Hor).
Qed.

End Calculator.

(** X18.  In the earlier revision [queueHeaderAdjustment] has no close
    guard: from a state with nothing queued, any number of calls before the
    next animation frame queues exactly one callback, and that frame makes
    exactly one call of [adjustAllHeaders] and clears the flag. *)
Theorem earlier_revision_calls_coalesce (q : Legacy.Queue) (n : nat) :
  Legacy.isAdjustmentQueued q = false -> Legacy.queued q = 0%nat ->
  let q' := Nat.iter (S n) Legacy.queueHeaderAdjustment q in
  Legacy.queued q' = 1%nat
  /\ Legacy.adjustCalls (Legacy.runFrame q') = S (Legacy.adjustCalls q)
  /\ Legacy.isAdjustmentQueued (Legacy.runFrame q') = false.
Proof.
  intros Hq Hf. exact (Legacy_calls_coalesce q n Hq Hf).
Qed.

(** ** Scrolling the active tab into view *)

Section Scrolling.

Open Scope Q_scope.

Lemma easeInOutQuad_Fin (t : Q) :
  Scroll.easeInOutQuad (JS.Fin t)
  = JS.Fin (if Qle_bool (1 # 2) t
            then 1 + - (((-2) * t + 2) * ((-2) * t + 2) / 2)
            else 2 * t * t).
Proof.
  unfold Scroll.easeInOutQuad. cbn [JS.lt].
  destruct (Qle_bool (1 # 2) t); reflexivity.
Qed.

Lemma ease_range (t : Q) :
  0 <= t <= 1 ->
  exists a, Scroll.easeInOutQuad (JS.Fin t) = JS.Fin a /\ 0 <= a <= 1.
Proof.
  intros [H0 H1]. rewrite easeInOutQuad_Fin.
  destruct (Qle_bool (1 # 2) t) eqn:E; eexists; (split; [reflexivity|]).
  - apply Qle_bool_iff in E.
    assert (Hx : 0 <= ((-2) * t + 2) * ((-2) * t + 2) <= 1) by (split; nra).
    revert Hx. generalize (((-2) * t + 2) * ((-2) * t + 2)). intros x Hx.
    unfold Qdiv. change (/ 2) with (1 # 2). split; lra.
  - apply Qle_bool_false in E. split; nra.
Qed.

Lemma ease_mono (t u : Q) :
  0 <= t -> t <= u -> u <= 1 ->
  exists a b, Scroll.easeInOutQuad (JS.Fin t) = JS.Fin a
              /\ Scroll.easeInOutQuad (JS.Fin u) = JS.Fin b /\ a <= b.
Proof.
  intros H0 H1 H2. rewrite !easeInOutQuad_Fin.
  destruct (Qle_bool (1 # 2) t) eqn:Et, (Qle_bool (1 # 2) u) eqn:Eu;
    do 2 eexists; (split; [reflexivity|split; [reflexivity|]]);
    try apply Qle_bool_iff in Et; try apply Qle_bool_iff in Eu;
    try apply Qle_bool_false in Et; try apply Qle_bool_false in Eu.
  - assert (Hx : ((-2) * u + 2) * ((-2) * u + 2) <= ((-2) * t + 2) * ((-2) * t + 2)) by nra.
    revert Hx. generalize (((-2) * t + 2) * ((-2) * t + 2)), (((-2) * u + 2) * ((-2) * u + 2)).
    intros x y Hx. unfold Qdiv. change (/ 2) with (1 # 2). lra.
  - lra.
  - assert (Hx : ((-2) * u + 2) * ((-2) * u + 2) <= 1) by nra.
    assert (Ht : 2 * t * t <= 1 # 2) by nra.
    revert Hx Ht. generalize (2 * t * t), (((-2) * u + 2) * ((-2) * u + 2)).
    intros x y Hx Ht. unfold Qdiv. change (/ 2) with (1 # 2). lra.
  - nra.
Qed.

(** X19 (tabManager.ts, [smoothScrollTo], the easing function): on the
    progress values from 0 to 1 the eased progress starts at 0, ends at 1,
    never decreases and stays between 0 and 1. *)
Theorem easing_rises_from_zero_to_one (t u : Q) :
  0 <= t -> t <= u -> u <= 1 ->
  JS.strict_eq (Scroll.easeInOutQuad (JS.of_Z 0)) (JS.of_Z 0) = true
  /\ JS.strict_eq (Scroll.easeInOutQuad (JS.of_Z 1)) (JS.of_Z 1) = true
  /\ JS.le (JS.of_Z 0) (Scroll.easeInOutQuad (JS.Fin t)) = true
  /\ JS.le (Scroll.easeInOutQuad (JS.Fin t)) (Scroll.easeInOutQuad (JS.Fin u)) = true
  /\ JS.le (Scroll.easeInOutQuad (JS.Fin u)) (JS.of_Z 1) = true.
Proof.
  intros H0 H1 H2.
  split; [reflexivity|]. split; [reflexivity|].
  destruct (ease_mono t u H0 H1 H2) as (a & b & Ea & Eb & Hab).
  destruct (ease_range t) as (a' & Ea' & Ha); [split; lra|].
  destruct (ease_range u) as (b' & Eb' & Hb); [split; lra|].
  rewrite Ea in Ea'. injection Ea' as <-. rewrite Eb in Eb'. injection Eb' as <-.
  rewrite Ea, Eb. cbn. split_all; apply Qle_bool_iff; change (inject_Z 0) with 0; change (inject_Z 1) with 1; lra.
Qed.

Lemma progress_Fin (d s0 c : Q) :
  0 < d ->
  JS.min (JSMath.div (JSMath.sub (JS.Fin c) (JS.Fin s0)) (JS.Fin d)) (JS.of_Z 1)
  = JS.Fin (if Qle_bool ((c + - s0) / d) 1 then (c + - s0) / d else 1).
Proof.
  intros Hd. cbn [JSMath.sub JSMath.neg JS.add JSMath.div].
  assert (E : Qeq_bool d 0 = false).
  { destruct (Qeq_bool d 0) eqn:E; [|reflexivity].
    apply Qeq_bool_iff in E. lra. }
  rewrite E. cbn [JS.min JS.le JS.of_Z]. change (inject_Z 1) with 1.
  now destruct (Qle_bool ((c + - s0) / d) 1).
Qed.

Lemma animate_running (a b d s0 c : Q) :
  0 < d -> c < s0 + d ->
  exists v, Scroll.animateScroll (JS.Fin a) (JS.Fin b) (JS.Fin d) (JS.Fin s0) (JS.Fin c)
            = (JS.Fin v, true)
            /\ (s0 <= c -> Scroll.between (JS.Fin a) (JS.Fin b) (JS.Fin v) = true).
Proof.
  intros Hd Hc. unfold Scroll.animateScroll. rewrite progress_Fin by assumption.
  assert (Hp : (c + - s0) / d < 1).
  { apply Qlt_shift_div_r; [assumption | lra]. }
  destruct (Qle_bool ((c + - s0) / d) 1) eqn:E;
    [|apply Qle_bool_false in E; lra].
  rewrite easeInOutQuad_Fin.
  eexists. split.
  - cbn [JSMath.sub JSMath.neg JS.add JSMath.mul JS.lt JS.of_Z].
    f_equal. change (inject_Z 1) with 1. apply negb_true_iff.
    destruct (Qle_bool 1 ((c + - s0) / d)) eqn:E1; [|reflexivity].
    apply Qle_bool_iff in E1. lra.
  - intros Hs.
    assert (Hp0 : 0 <= (c + - s0) / d).
    { apply Qle_shift_div_l; [assumption | lra]. }
    destruct (ease_range ((c + - s0) / d)) as (r & Er & Hr); [split; lra|].
    rewrite easeInOutQuad_Fin in Er. injection Er as Er. rewrite Er.
    unfold Scroll.between. cbn [JS.le].
    destruct (Qle_bool a b) eqn:Eab.
    + apply Qle_bool_iff in Eab. apply orb_true_iff. left.
      apply andb_true_iff. split; apply Qle_bool_iff; nra.
    + apply Qle_bool_false in Eab. apply orb_true_iff. right.
      apply andb_true_iff. split; apply Qle_bool_iff; nra.
Qed.

Lemma animate_done (a b d s0 c : Q) :
  0 < d -> s0 + d <= c ->
  exists v, Scroll.animateScroll (JS.Fin a) (JS.Fin b) (JS.Fin d) (JS.Fin s0) (JS.Fin c)
            = (JS.Fin v, false)
            /\ v == b.
Proof.
  intros Hd Hc. unfold Scroll.animateScroll. rewrite progress_Fin by assumption.
  assert (Hp : 1 <= (c + - s0) / d).
  { apply Qle_shift_div_l; [assumption | lra]. }
  assert (E : (if Qle_bool ((c + - s0) / d) 1 then (c + - s0) / d else 1) == 1).
  { destruct (Qle_bool ((c + - s0) / d) 1) eqn:E; [|reflexivity].
    apply Qle_bool_iff in E. lra. }
  revert E. generalize (if Qle_bool ((c + - s0) / d) 1 then (c + - s0) / d else 1).
  intros p E. rewrite easeInOutQuad_Fin.
  assert (E1 : Qle_bool (1 # 2) p = true) by (apply Qle_bool_iff; lra).
  rewrite E1. eexists. split.
  - cbn [JSMath.sub JSMath.neg JS.add JSMath.mul JS.lt JS.of_Z].
    f_equal. change (inject_Z 1) with 1. apply negb_false_iff.
    apply Qle_bool_iff. lra.
  - assert (Hx : ((-2) * p + 2) * ((-2) * p + 2) == 0) by nra.
    revert Hx. generalize (((-2) * p + 2) * ((-2) * p + 2)). intros x Hx.
    unfold Qdiv. change (/ 2) with (1 # 2). nra.
Qed.

(** X20 (tabManager.ts, [smoothScrollTo] and its [animateScroll]): with a
    positive duration the animation runs on every frame whose time stamp is
    before start time plus duration, stops at the first frame at or after
    it and leaves [scrollLeft] on the target there (in exact arithmetic;
    the rounding of doubles is not modelled).  On the frames that are not
    earlier than the start time the value lies between start and target. *)
Theorem scroll_animation_ends_on_the_target
        (start end_ duration startTime : Q) (before : list Q) (t : Q) (later : list Q) :
  0 < duration ->
  Forall (fun u => u < startTime + duration) before ->
  startTime + duration <= t ->
  exists values last,
    Scroll.smoothScrollTo (JS.Fin start) (JS.Fin end_) (JS.Fin duration) (JS.Fin startTime)
                          (map JS.Fin (before ++ t :: later))
    = (values ++ [last])%list
    /\ length values = length before
    /\ JS.strict_eq last (JS.Fin end_) = true
    /\ (Forall (fun u => startTime <= u) before ->
        Forall (fun v => Scroll.between (JS.Fin start) (JS.Fin end_) v = true) values).
Proof.
  intros Hd Hbefore Ht.
  induction before as [|c before IH].
  - destruct (animate_done start end_ duration startTime t Hd Ht) as (v & Ev & Hv).
    exists [], (JS.Fin v). cbn [app map Scroll.smoothScrollTo]. rewrite Ev.
    cbn [fst snd]. split_all; auto.
    cbn. now apply Qeq_bool_iff.
  - inversion Hbefore as [|? ? Hc Hrest]; subst.
    destruct (IH Hrest) as (values & last & E & Hlen & Hlast & Hbetween).
    destruct (animate_running start end_ duration startTime c Hd Hc) as (v & Ev & Hv).
    exists (JS.Fin v :: values), last.
    cbn [app map Scroll.smoothScrollTo]. rewrite Ev. cbn [fst snd].
    cbn [app map] in E. rewrite E.
    split_all; auto.
    + cbn. now rewrite Hlen.
    + intros Hall. inversion Hall; subst. constructor; auto.
Qed.

Lemma scroll_plan_Fin (s : PluginSettings) (l w cl cw : Q) :
  Scroll.scroll (Scroll.scrollToActiveTab s
     (Scroll.mkActiveTab true (Some (Scroll.mkContainer (JS.Fin cl) (JS.Fin cw)))
                         (JS.Fin l) (JS.Fin w)))
  = if negb (Qle_bool cl l) || negb (Qle_bool (l + w) (cl + cw))
    then Some (JS.Fin cl,
               JS.Fin (if Qle_bool 0 (l + w / 2 + - (cw / 2))
                       then l + w / 2 + - (cw / 2) else 0),
               JS.of_Z 300)
    else None.
Proof.
  unfold Scroll.scrollToActiveTab.
  cbn [Scroll.inMainArea Scroll.container Scroll.offsetLeft Scroll.tabWidth
       Scroll.scrollLeft Scroll.containerWidth Scroll.scroll negb
       JS.lt JS.gt JS.add].
  destruct (negb (Qle_bool cl l) || negb (Qle_bool (l + w) (cl + cw))); [|reflexivity].
  do 2 f_equal.
  cbn [JSMath.sub JSMath.neg JS.add JSMath.div JS.of_Z].
  change (Qeq_bool (inject_Z 2) 0) with false. cbn iota.
  change (inject_Z 2) with 2. change (inject_Z 0) with 0.
  cbn [JSMath.sub JSMath.neg JS.add JS.max JS.le].
  f_equal. unfold JS.max, JS.of_Z. cbn [JS.le]. change (inject_Z 0) with 0.
  now destruct (Qle_bool 0 (l + w / 2 + - (cw / 2))).
Qed.

(** With arithmetic on exact values: for a tab that is not wider than its
    container and does not start left of the strip, the scroll asked for
    ends where the tab is fully visible. *)
Lemma scrolled_tab_visible_exact
        (s : PluginSettings) (left width cLeft cWidth : Q) (start target dur : number) :
  0 <= left -> 0 <= width -> width <= cWidth ->
  Scroll.scroll (Scroll.scrollToActiveTab s
     (Scroll.mkActiveTab true (Some (Scroll.mkContainer (JS.Fin cLeft) (JS.Fin cWidth)))
                         (JS.Fin left) (JS.Fin width)))
  = Some (start, target, dur) ->
  start = JS.Fin cLeft /\ dur = JS.of_Z 300
  /\ JS.le (JS.of_Z 0) target = true
  /\ Scroll.scroll (Scroll.scrollToActiveTab s
       (Scroll.mkActiveTab true (Some (Scroll.mkContainer target (JS.Fin cWidth)))
                           (JS.Fin left) (JS.Fin width)))
     = None.
Proof.
  intros Hl Hw Hcw. rewrite scroll_plan_Fin.
  destruct (negb (Qle_bool cLeft left) || negb (Qle_bool (left + width) (cLeft + cWidth)));
    [|discriminate].
  intros E. injection E as <- <- <-.
  split; [reflexivity|]. split; [reflexivity|].
  rewrite scroll_plan_Fin.
  assert (Hc : left + width / 2 + - (cWidth / 2)
               == left + width * (1 # 2) + - (cWidth * (1 # 2))) by reflexivity.
  revert Hc. generalize (left + width / 2 + - (cWidth / 2)). intros centre Hc.
  destruct (Qle_bool 0 centre) eqn:Ec.
  - apply Qle_bool_iff in Ec.
    split; [cbn [JS.le JS.of_Z]; change (inject_Z 0) with 0; apply Qle_bool_iff; lra|].
    replace (Qle_bool centre left) with true
      by (symmetry; apply Qle_bool_iff; lra).
    replace (Qle_bool (left + width) (centre + cWidth)) with true
      by (symmetry; apply Qle_bool_iff; lra).
    reflexivity.
  - apply Qle_bool_false in Ec.
    split; [cbn [JS.le JS.of_Z]; change (inject_Z 0) with 0; apply Qle_bool_iff; lra|].
    replace (Qle_bool 0 left) with true by (symmetry; now apply Qle_bool_iff).
    replace (Qle_bool (left + width) (0 + cWidth)) with true
      by (symmetry; apply Qle_bool_iff; lra).
    reflexivity.
Qed.

(** X21 (tabManager.ts, [scrollToActiveTab]), for a layout in whole
    pixels: when the tab's offset and width, the container's width and its
    scroll position are whole numbers of pixels below 2^50, where every
    sum, difference and half that the function forms is exact in double
    arithmetic, a tab that is not wider than its container and does not
    start left of the strip is asked to scroll from the current position,
    over 300 ms, to a position that is not negative and at which the tab is
    fully visible: a second call at that position asks for no scroll.  With
    fractional widths the rounding of doubles can leave the target a last
    bit short, and this is not claimed. *)
Theorem scrolled_tab_is_fully_visible
        (s : PluginSettings) (left width cLeft cWidth : Z) (start target dur : number) :
  (0 <= left < 2 ^ 50)%Z -> (0 <= width <= cWidth)%Z -> (cWidth < 2 ^ 50)%Z ->
  (0 <= cLeft < 2 ^ 50)%Z ->
  Scroll.scroll (Scroll.scrollToActiveTab s
     (Scroll.mkActiveTab true
        (Some (Scroll.mkContainer (JS.of_Z cLeft) (JS.of_Z cWidth)))
        (JS.of_Z left) (JS.of_Z width)))
  = Some (start, target, dur) ->
  start = JS.of_Z cLeft /\ dur = JS.of_Z 300
  /\ JS.le (JS.of_Z 0) target = true
  /\ Scroll.scroll (Scroll.scrollToActiveTab s
       (Scroll.mkActiveTab true (Some (Scroll.mkContainer target (JS.of_Z cWidth)))
                           (JS.of_Z left) (JS.of_Z width)))
     = None.
Proof.
  intros Hl Hw Hcw Hcl. unfold JS.of_Z at 1 2 3 4 5 7 8 9.
  apply scrolled_tab_visible_exact.
  - change 0 with (inject_Z 0). rewrite <- Zle_Qle. lia.
  - change 0 with (inject_Z 0). rewrite <- Zle_Qle. lia.
  - rewrite <- Zle_Qle. lia.
Qed.

End Scrolling.

(** ** Marking the tabs that are out of view *)

Lemma remove_add_same (X : gset string) (c : string) :
  (({[c]} ∪ X) ∖ {[c]} : gset string) = X ∖ {[c]}.
Proof. set_solver. Qed.

Lemma cleanup_classes_twice (X : gset string) (c a b o : string) :
  (({[c]} ∪ (({[c]} ∪ X) ∖ {[a]} ∖ {[b]} ∖ {[o]})) ∖ {[a]} ∖ {[b]} ∖ {[o]} : gset string)
  = ({[c]} ∪ X) ∖ {[a]} ∖ {[b]} ∖ {[o]}.
Proof. set_solver. Qed.

Lemma document_ext (d d' : Document) :
  (forall h, tabElements d' !! h = tabElements d !! h) ->
  mainHeaders d' = mainHeaders d -> rootStyle d' = rootStyle d ->
  bodyClasses d' = bodyClasses d -> d' = d.
Proof.
  destruct d, d'. cbn. intros H -> -> ->. f_equal. now apply map_eq.
Qed.

Lemma update_header_lookup h f d k :
  tabElements (update_header h f d) !! k
  = if decide (h = k) then f <$> (tabElements d !! k) else tabElements d !! k.
Proof.
  unfold update_header. cbn [tabElements with_tabElements].
  destruct (decide (h = k)) as [->|Hne].
  - now rewrite lookup_alter_eq.
  - now rewrite lookup_alter_ne.
Qed.

Lemma forEach_header_lookup f hs d h :
  (forall e, f (f e) = f e) ->
  tabElements (forEach_header f hs d) !! h
  = if decide (h ∈ hs) then f <$> (tabElements d !! h) else tabElements d !! h.
Proof.
  intros Hidem. revert d. induction hs as [|a hs IH]; intros d.
  - cbn. case_decide; [|reflexivity]. exfalso. set_solver.
  - unfold forEach_header. cbn [fold_left]. fold (forEach_header f hs (update_header a f d)).
    rewrite IH, update_header_lookup.
    assert (Hff : forall o : option Header, f <$> (f <$> o) = f <$> o).
    { intros [e|]; cbn; [now rewrite Hidem | reflexivity]. }
    destruct (decide (a = h)) as [->|Hne].
    + rewrite Hff. repeat case_decide; try reflexivity; exfalso; set_solver.
    + repeat case_decide; try reflexivity; exfalso; set_solver.
Qed.

Section Marking.

Lemma markTab_lookup c d tab h :
  tabElements (Visibility.markTab c d tab) !! h
  = if decide (fst tab = h)
    then Visibility.marked (snd tab) c <$> (tabElements d !! h)
    else tabElements d !! h.
Proof.
  unfold Visibility.markTab.
  destruct (decide (fst tab = h)) as [<-|Hne].
  - destruct (tabElements d !! fst tab) as [e|] eqn:E; [|now rewrite E].
    cbn [fmap option_fmap option_map]. unfold Visibility.marked.
    destruct (classList_contains "autofit-tab" e); [|exact E].
    destruct (Visibility.isOutOfView (snd tab) c);
      rewrite update_header_lookup; (case_decide; [|congruence]);
      now rewrite E.
  - destruct (tabElements d !! fst tab) as [e|]; [|reflexivity].
    destruct (classList_contains "autofit-tab" e); [|reflexivity].
    destruct (Visibility.isOutOfView (snd tab) c);
      rewrite update_header_lookup; now case_decide.
Qed.

Lemma markTab_frame c d tab :
  mainHeaders (Visibility.markTab c d tab) = mainHeaders d
  /\ rootStyle (Visibility.markTab c d tab) = rootStyle d
  /\ bodyClasses (Visibility.markTab c d tab) = bodyClasses d.
Proof.
  unfold Visibility.markTab.
  destruct (tabElements d !! fst tab) as [e|]; [|now repeat split].
  destruct (classList_contains "autofit-tab" e); [|now repeat split].
  destruct (Visibility.isOutOfView (snd tab) c); now repeat split.
Qed.

Lemma visit_flat containers d :
  fold_left (fun d c => fold_left (Visibility.markTab (Visibility.containerRect c))
                                  (Visibility.tabs c) d) containers d
  = fold_left (fun d v => Visibility.markTab (snd v) d (fst v))
              (Visibility.visited containers) d.
Proof.
  revert d. induction containers as [|c cs IH]; intros d; [reflexivity|].
  cbn [fold_left Visibility.visited flat_map]. rewrite fold_left_app, IH. f_equal.
  generalize (Visibility.tabs c). intros l. revert d.
  induction l as [|t l IHl]; intros d; [reflexivity|].
  cbn [fold_left map]. rewrite IHl. cbn [fst snd]. now destruct t.
Qed.

Lemma marks_frame l d :
  let d' := fold_left (fun d v => Visibility.markTab (snd v) d (fst v)) l d in
  mainHeaders d' = mainHeaders d /\ rootStyle d' = rootStyle d
  /\ bodyClasses d' = bodyClasses d.
Proof.
  cbv zeta. revert d. induction l as [|v l IH]; intros d; [now repeat split|].
  cbn [fold_left]. destruct (IH (Visibility.markTab (snd v) d (fst v))) as (H1 & H2 & H3).
  destruct (markTab_frame (snd v) d (fst v)) as (G1 & G2 & G3).
  rewrite H1, H2, H3, G1, G2, G3. now repeat split.
Qed.

Lemma marks_other (l : list (HeaderId * Visibility.Rect * Visibility.Rect)) d h :
  ~ In h (map (fun v => fst (fst v)) l) ->
  tabElements (fold_left (fun d v => Visibility.markTab (snd v) d (fst v)) l d) !! h
  = tabElements d !! h.
Proof.
  revert d. induction l as [|v l IH]; intros d Hn; [reflexivity|].
  cbn [fold_left]. rewrite IH by (intros Hin; apply Hn; now right).
  rewrite markTab_lookup. destruct (decide (fst (fst v) = h)) as [E|]; [|reflexivity].
  exfalso. apply Hn. now left.
Qed.

Lemma marks_in (l : list (HeaderId * Visibility.Rect * Visibility.Rect)) d h r c :
  NoDup (map (fun v => fst (fst v)) l) -> In (h, r, c) l ->
  tabElements (fold_left (fun d v => Visibility.markTab (snd v) d (fst v)) l d) !! h
  = Visibility.marked r c <$> (tabElements d !! h).
Proof.
  revert d. induction l as [|v l IH]; intros d Hnd Hin; [destruct Hin|].
  cbn [map] in Hnd. apply NoDup_cons in Hnd as [Hv Hnd].
  cbn [fold_left]. destruct Hin as [->|Hin].
  - rewrite marks_other by (now rewrite <- list_elem_of_In).
    rewrite markTab_lookup. cbn [fst snd].
    now destruct (decide (h = h)).
  - rewrite IH by assumption. rewrite markTab_lookup.
    destruct (decide (fst (fst v) = h)) as [E|]; [|reflexivity].
    exfalso. apply Hv. rewrite E. rewrite list_elem_of_In.
    apply in_map_iff. now exists (h, r, c).
Qed.

Lemma marked_twice r c e :
  Visibility.marked r c (Visibility.marked r c e) = Visibility.marked r c e.
Proof.
  unfold Visibility.marked.
  destruct (classList_contains "autofit-tab" e) eqn:E; [|now rewrite E].
  destruct (Visibility.isOutOfView r c).
  - rewrite contains_add_other, E by discriminate.
    destruct e. unfold classList_add. header_eval. f_equal. apply add_class_twice.
  - rewrite contains_remove_other, E by discriminate.
    destruct e. unfold classList_remove. header_eval. f_equal. apply remove_class_twice.
Qed.

(** X22 (tabManager.ts, [updateTabsVisibility]): outside a reset, and with
    every tab below one container only, a tab that carries [autofit-tab]
    ends with the class [out-of-view] exactly when its rectangle lies
    wholly to the left or wholly to the right of its container's, and is
    otherwise as before.  Tabs without [autofit-tab] and tabs that are not
    visited are left alone, nothing but tab headers changes, and a second
    call on the same layout changes nothing. *)
Theorem out_of_view_marks_follow_the_layout
        (containers : list Visibility.Container) (st : State) :
  isResetting st = false ->
  NoDup (Visibility.visitedTabs containers) ->
  let st' := Visibility.updateTabsVisibility containers st in
  (forall h r c e,
      In (h, r, c) (Visibility.visited containers) ->
      get_header h st = Some e -> "autofit-tab" ∈ classList e ->
      exists e', get_header h st' = Some e'
                 /\ (("out-of-view" ∈ classList e') <-> Visibility.isOutOfView r c = true)
                 /\ classList_remove "out-of-view" e' = classList_remove "out-of-view" e)
  /\ (forall h, ~ In h (Visibility.visitedTabs containers)
                \/ (exists e, get_header h st = Some e /\ "autofit-tab" ∉ classList e)
                \/ get_header h st = None ->
                get_header h st' = get_header h st)
  /\ with_document (document st) st' = st
  /\ mainHeaders (document st') = mainHeaders (document st)
  /\ rootStyle (document st') = rootStyle (document st)
  /\ bodyClasses (document st') = bodyClasses (document st)
  /\ Visibility.updateTabsVisibility containers st' = st'.
Proof.
  intros Hr Hnd. cbv zeta.
  assert (Hin : forall st, isResetting st = false ->
            forall h r c, In (h, r, c) (Visibility.visited containers) ->
            get_header h (Visibility.updateTabsVisibility containers st)
            = Visibility.marked r c <$> get_header h st).
  { intros st0 Hr0 h r c Hv. unfold Visibility.updateTabsVisibility. rewrite Hr0.
    unfold get_header. state_eval. rewrite visit_flat. now apply marks_in. }
  assert (Hout : forall st, isResetting st = false ->
            forall h, ~ In h (Visibility.visitedTabs containers) ->
            get_header h (Visibility.updateTabsVisibility containers st)
            = get_header h st).
  { intros st0 Hr0 h Hv. unfold Visibility.updateTabsVisibility. rewrite Hr0.
    unfold get_header. state_eval. rewrite visit_flat. now apply marks_other. }
  assert (Hframe : forall st, isResetting st = false ->
            mainHeaders (document (Visibility.updateTabsVisibility containers st))
            = mainHeaders (document st)
            /\ rootStyle (document (Visibility.updateTabsVisibility containers st))
               = rootStyle (document st)
            /\ bodyClasses (document (Visibility.updateTabsVisibility containers st))
               = bodyClasses (document st)).
  { intros st0 Hr0. unfold Visibility.updateTabsVisibility. rewrite Hr0. state_eval.
    rewrite visit_flat. apply marks_frame. }
  assert (Hr' : isResetting (Visibility.updateTabsVisibility containers st) = false).
  { unfold Visibility.updateTabsVisibility. rewrite Hr. now state_eval. }
  split; [|split; [|split; [|split; [|split; [|split]]]]].
  - intros h r c e Hv Hget Hcls. rewrite (Hin st Hr h r c Hv), Hget. cbn [fmap option_fmap option_map].
    eexists. split; [reflexivity|]. unfold Visibility.marked, classList_contains.
    rewrite bool_decide_true by assumption.
    destruct (Visibility.isOutOfView r c); destruct e; unfold classList_add, classList_remove;
      header_eval.
    + split; [split; [reflexivity | intros _; apply in_add_same]|].
      f_equal. apply remove_add_same.
    + split; [split; [intros H; exfalso; revert H; apply not_in_remove_same | discriminate]|].
      f_equal. apply remove_class_twice.
  - intros h [Hv|[(e & Hget & Hcls)|Hnone]].
    + now apply Hout.
    + destruct (in_dec Nat.eq_dec h (Visibility.visitedTabs containers)) as [i|n];
        [|now apply Hout].
      apply in_map_iff in i as (((h' & r) & c) & Eh & Hv). cbn in Eh. subst h'.
      rewrite (Hin st Hr h r c Hv), Hget. cbn [fmap option_fmap option_map].
      unfold Visibility.marked, classList_contains.
      now rewrite bool_decide_false by assumption.
    + destruct (in_dec Nat.eq_dec h (Visibility.visitedTabs containers)) as [i|n];
        [|now apply Hout].
      apply in_map_iff in i as (((h' & r) & c) & Eh & Hv). cbn in Eh. subst h'.
      now rewrite (Hin st Hr h r c Hv), Hnone.
  - unfold Visibility.updateTabsVisibility. rewrite Hr. now destruct st.
  - apply (Hframe st Hr).
  - apply (Hframe st Hr).
  - apply (Hframe st Hr).
  - set (st' := Visibility.updateTabsVisibility containers st) in *.
    assert (Hd : document (Visibility.updateTabsVisibility containers st') = document st').
    { destruct (Hframe st' Hr') as (F1 & F2 & F3).
      apply document_ext; try assumption.
      intros h.
      change (get_header h (Visibility.updateTabsVisibility containers st')
              = get_header h st').
      destruct (in_dec Nat.eq_dec h (Visibility.visitedTabs containers)) as [i|n];
        [|now apply Hout].
      apply in_map_iff in i as (((h' & r) & c) & Eh & Hv). cbn in Eh. subst h'.
      rewrite (Hin st' Hr' h r c Hv). unfold st'. rewrite (Hin st Hr h r c Hv).
      destruct (get_header h st) as [e|]; [|reflexivity].
      cbn [fmap option_fmap option_map]. now rewrite marked_twice. }
    clearbody st'. revert Hd. unfold Visibility.updateTabsVisibility. rewrite Hr'.
    state_eval. intros ->. now destruct st'.
Qed.

End Marking.

(** ** Unloading the plugin *)

Section Unloading.
Variable offsetWidth : ComputedStyle -> string -> N.
Variable Number : string -> number.

Lemma cleanupHeader_twice e :
  Unload.cleanupHeader (Unload.cleanupHeader e) = Unload.cleanupHeader e.
Proof.
  destruct e. unfold Unload.cleanupHeader. header_eval. f_equal.
  apply cleanup_classes_twice.
Qed.

Lemma remove_twice c e : classList_remove c (classList_remove c e) = classList_remove c e.
Proof. destruct e. header_eval. f_equal. apply remove_class_twice. Qed.

Lemma cleanupTimers_fold (armed : list (number * HeaderId)) (st : State) :
  fold_left (fun s t => Unload.cleanupTimer (snd t) s) armed st
  = with_document (forEach_header (classList_remove "autofit-cleanup")
                                  (map snd armed) (document st)) st.
Proof.
  revert st. induction armed as [|t armed IH]; intros st; [now destruct st|].
  cbn [fold_left map]. rewrite IH. unfold Unload.cleanupTimer, forEach_header.
  now state_eval.
Qed.

Lemma in_map_getAllHeaders st h :
  h ∈ map fst (getAllHeaders st)
  <-> In h (mainHeaders (document st)) /\ is_Some (get_header h st).
Proof.
  rewrite list_elem_of_In, in_map_iff. split.
  - intros ([h' e] & <- & Hin). apply in_getAllHeaders in Hin as [H1 H2]. eauto.
  - intros [H1 [e H2]]. exists (h, e). split; [reflexivity|]. now apply in_getAllHeaders.
Qed.

Lemma cleanup_state page st :
  snd (fst (Unload.cleanup page st))
  = with_document (forEach_header Unload.cleanupHeader (map fst (getAllHeaders st))
                                  (document st))
                  (with_tabWidthCache ∅ st)
  /\ snd (Unload.cleanup page st)
     = map (fun h => (transitionDuration (settings st), h)) (map fst (getAllHeaders st)).
Proof. unfold Unload.cleanup. cbv zeta. cbn [fst snd]. now split. Qed.

Lemma cleanup_lookup page st h :
  get_header h (snd (fst (Unload.cleanup page st)))
  = if decide (h ∈ map fst (getAllHeaders st))
    then Unload.cleanupHeader <$> get_header h st
    else get_header h st.
Proof.
  rewrite (proj1 (cleanup_state page st)). unfold get_header. state_eval.
  apply forEach_header_lookup, cleanupHeader_twice.
Qed.

(** X23 (tabManager.ts, [cleanup]): unloading empties the width cache and
    arms one timer per main-area header, each with the transition
    duration.  A main-area header carries [autofit-cleanup] until its timer
    fires; once the timers have fired it has no [--header-width] and none
    of [autofit-tab], [autofit-max-width], [out-of-view] and
    [autofit-cleanup], and is otherwise as before.  Headers outside the
    main area are not touched.  The settings, the queued frames, the
    pending timers, the root style with its CSS variables and the body
    classes stay as they are. *)
Theorem unload_strips_the_plugin_marks (page : Unload.Page) (st : State) :
  let st' := snd (fst (Unload.cleanup page st)) in
  let armed := snd (Unload.cleanup page st) in
  let st'' := fold_left (fun s t => Unload.cleanupTimer (snd t) s) armed st' in
  tabWidthCache st' = ∅ /\ tabWidthCache st'' = ∅
  /\ map snd armed = map fst (getAllHeaders st)
  /\ Forall (fun t => fst t = transitionDuration (settings st)) armed
  /\ (forall h e, In (h, e) (getAllHeaders st) ->
        (exists e', get_header h st' = Some e' /\ "autofit-cleanup" ∈ classList e'
                    /\ headerWidth e' = None)
        /\ exists e'', get_header h st'' = Some e''
             /\ headerWidth e'' = None
             /\ (forall c, In c ["autofit-tab"; "autofit-max-width"; "out-of-view";
                                 "autofit-cleanup"] -> c ∉ classList e'')
             /\ (forall c, ~ In c ["autofit-tab"; "autofit-max-width"; "out-of-view";
                                   "autofit-cleanup"] ->
                           (c ∈ classList e'') <-> (c ∈ classList e))
             /\ titleElement e'' = titleElement e /\ pinnedIcon e'' = pinnedIcon e
             /\ dataType e'' = dataType e
             /\ containerDisplayed e'' = containerDisplayed e
             /\ innerTransition e'' = innerTransition e)
  /\ (forall h, ~ In h (mainHeaders (document st)) -> get_header h st'' = get_header h st)
  /\ settings st'' = settings st /\ frames st'' = frames st /\ timers st'' = timers st
  /\ isAdjustmentQueued st'' = isAdjustmentQueued st
  /\ rootStyle (document st'') = rootStyle (document st)
  /\ bodyClasses (document st'') = bodyClasses (document st)
  /\ mainHeaders (document st'') = mainHeaders (document st).
Proof.
  clear Number.
  cbv zeta. destruct (cleanup_state page st) as [Est Earmed].
  rewrite cleanupTimers_fold.
  assert (Hmap : map snd (snd (Unload.cleanup page st)) = map fst (getAllHeaders st)).
  { rewrite Earmed, map_map. cbn [snd]. apply map_id. }
  rewrite Hmap.
  assert (Hlook : forall h,
            get_header h
              (with_document
                 (forEach_header (classList_remove "autofit-cleanup")
                    (map fst (getAllHeaders st))
                    (document (snd (fst (Unload.cleanup page st)))))
                 (snd (fst (Unload.cleanup page st))))
            = if decide (h ∈ map fst (getAllHeaders st))
              then (fun e => classList_remove "autofit-cleanup" (Unload.cleanupHeader e))
                     <$> get_header h st
              else get_header h st).
  { intros h. unfold get_header at 1. state_eval.
    rewrite forEach_header_lookup by (intros e; apply remove_twice).
    change (tabElements (document (snd (fst (Unload.cleanup page st)))) !! h)
      with (get_header h (snd (fst (Unload.cleanup page st)))).
    rewrite cleanup_lookup. repeat case_decide; try contradiction; [|reflexivity].
    now destruct (get_header h st). }
  split; [now rewrite Est|]. split; [now rewrite Est|]. split; [reflexivity|].
  split.
  { rewrite Earmed. apply List.Forall_forall. intros t Hin.
    apply in_map_iff in Hin as (h & <- & _). reflexivity. }
  split.
  { intros h e Hin.
    assert (Hh : h ∈ map fst (getAllHeaders st)).
    { apply in_map_getAllHeaders. apply in_getAllHeaders in Hin as [H1 H2]. eauto. }
    apply in_getAllHeaders in Hin as [_ Hget]. split.
    - rewrite cleanup_lookup, Hget. rewrite decide_True by assumption.
      cbn [fmap option_fmap option_map]. eexists. split; [reflexivity|].
      destruct e. unfold Unload.cleanupHeader. header_eval. split; [|reflexivity].
      rewrite !in_remove_iff, in_add_iff. split_all; try discriminate. now left.
    - rewrite Hlook, Hget. rewrite decide_True by assumption.
      cbn [fmap option_fmap option_map]. eexists. split; [reflexivity|].
      destruct e. unfold Unload.cleanupHeader. header_eval.
      split; [reflexivity|]. split; [|split; [|now repeat split]].
      + intros c Hc. rewrite !in_remove_iff, in_add_iff. cbn [In] in Hc.
        intuition congruence.
      + intros c Hc. rewrite !in_remove_iff, in_add_iff. cbn [In] in Hc.
        split; [intuition congruence|].
        intros Hx. split_all; auto; intros ->; apply Hc; auto 6. }
  split.
  { intros h Hn. rewrite Hlook. case_decide as Hh; [|reflexivity].
    apply in_map_getAllHeaders in Hh as [Hh _]. contradiction. }
  rewrite Est. state_eval.
  destruct (forEach_header_frame (classList_remove "autofit-cleanup")
              (map fst (getAllHeaders st))
              (forEach_header Unload.cleanupHeader (map fst (getAllHeaders st))
                 (document st))) as (F1 & F2 & F3).
  destruct (forEach_header_frame Unload.cleanupHeader (map fst (getAllHeaders st))
              (document st)) as (G1 & G2 & G3).
  rewrite F1, F2, F3, G1, G2, G3. now repeat split.
Qed.

Lemma adjustable_cleanupHeader e : adjustable (Unload.cleanupHeader e) = adjustable e.
Proof.
  unfold adjustable, Unload.cleanupHeader. cbv zeta.
  assert (E : forall v e, classList_contains "icon-loading" (set_headerWidth v e)
                          = classList_contains "icon-loading" e) by now intros v [].
  rewrite E, !contains_remove_other, contains_add_other by discriminate.
  now destruct e.
Qed.

(** X24 (tabManager.ts, [cleanup] and [queueHeaderAdjustment]): unloading
    does not cancel a queued pass.  When a pass is queued at the time of
    [cleanup], the next two frames still run it, and every main-area header
    that the pass adjusts carries [autofit-tab] and a [--header-width]
    again. *)
Theorem unload_does_not_cancel_a_queued_pass (page : Unload.Page) (st : State) :
  frames st = [AdjustFrame] -> closeInProgress st = false -> isResetting st = false ->
  let st' := snd (fst (Unload.cleanup page st)) in
  let st2 := run offsetWidth Number [EvFrame; EvFrame] st' in
  frames st' = [AdjustFrame]
  /\ forall h e, In (h, e) (getAllHeaders st) ->
       adjustable e = true -> leftToHost (settings st) e = false ->
       exists e2 w, get_header h st2 = Some e2
                    /\ "autofit-tab" ∈ classList e2
                    /\ headerWidth e2 = Some (Px w).
Proof.
  intros Hf Hc Hr. cbv zeta. destruct (cleanup_state page st) as [Est _].
  assert (Hf' : frames (snd (fst (Unload.cleanup page st))) = [AdjustFrame])
    by now rewrite Est.
  assert (Hc' : closeInProgress (snd (fst (Unload.cleanup page st))) = false)
    by now rewrite Est.
  assert (Hr' : isResetting (snd (fst (Unload.cleanup page st))) = false)
    by now rewrite Est.
  split; [assumption|]. intros h e Hin Hadj Hhost.
  destruct (pass_in_two_frames offsetWidth Number _ Hf' Hc' Hr') as (Hd & _).
  cbv zeta in Hd. unfold get_header at 1. rewrite Hd.
  change (tabElements (document (recalculationPass offsetWidth
                                   (snd (fst (Unload.cleanup page st))))) !! h)
    with (get_header h (recalculationPass offsetWidth (snd (fst (Unload.cleanup page st))))).
  assert (Hh : h ∈ map fst (getAllHeaders st)).
  { apply in_map_getAllHeaders. apply in_getAllHeaders in Hin as [H1 H2]. eauto. }
  apply in_getAllHeaders in Hin as [Hmain Hget].
  destruct (pass_written offsetWidth (snd (fst (Unload.cleanup page st))) h
              (Unload.cleanupHeader e)) as (w & _ & Hw).
  - rewrite cleanup_lookup, Hget. now rewrite decide_True by assumption.
  - rewrite Est. state_eval.
    destruct (forEach_header_frame Unload.cleanupHeader (map fst (getAllHeaders st))
                (document st)) as (G1 & _).
    rewrite G1. now apply list_elem_of_In.
  - now rewrite adjustable_cleanupHeader.
  - rewrite Est. state_eval. revert Hhost. unfold leftToHost. now destruct e.
  - rewrite Hw. eexists. eexists. split; [reflexivity|].
    split; [|apply headerWidth_applyWidth].
    generalize (Unload.cleanupHeader e). intros e0. destruct e0. unfold applyWidth.
    cbv zeta.
    destruct (JS.gt (maxWidth (settings (snd (fst (Unload.cleanup page st))))) JS.zero
              && JS.ge w (maxWidth (settings (snd (fst (Unload.cleanup page st))))));
      header_eval.
    + rewrite !in_add_iff. auto.
    + rewrite in_remove_iff, in_add_iff. split; [auto | discriminate].
Qed.

End Unloading.

(** ** The first release: a pass measures every header anew *)

Section FirstPass.
Variable offsetWidth : string -> string -> N.

Lemma stamp_twice w e : FirstRelease.applyWidth w (FirstRelease.applyWidth w e) = FirstRelease.applyWidth w e.
Proof. destruct e. unfold FirstRelease.applyWidth. header_eval. f_equal. apply add_class_twice. Qed.

Lemma stamp_key w e : getHeaderKey (FirstRelease.applyWidth w e) = getHeaderKey e.
Proof. now destruct e. Qed.

Lemma first_in_getAllHeaders p h e :
  In (h, e) (FirstRelease.getAllHeaders p)
  <-> In h (mainHeaders (FirstRelease.page p))
      /\ tabElements (FirstRelease.page p) !! h = Some e.
Proof.
  unfold FirstRelease.getAllHeaders. rewrite <- !list_elem_of_In, list_elem_of_omap. split.
  - intros (x & Hx & Heq). destruct (tabElements (FirstRelease.page p) !! x) eqn:E;
      [|discriminate].
    injection Heq as <- <-. now split.
  - intros [Hin Hget]. exists h. split; [assumption|]. now rewrite Hget.
Qed.

Lemma first_calculate_ext p p' e e' :
  FirstRelease.settings p' = FirstRelease.settings p ->
  FirstRelease.measureElement p' = FirstRelease.measureElement p ->
  titleElement e' = titleElement e ->
  FirstRelease.calculateHeaderWidth offsetWidth p' e'
  = FirstRelease.calculateHeaderWidth offsetWidth p e.
Proof.
  intros Hs Hm Ht. unfold FirstRelease.calculateHeaderWidth, FirstRelease.measureTextWidth.
  now rewrite Hs, Hm, Ht.
Qed.

Lemma first_fold_page p l acc h :
  tabElements (fst (fold_left (FirstRelease.adjustHeader offsetWidth p) l acc)) !! h
  = fold_left (fun o he =>
                 if decide (fst he = h)
                 then FirstRelease.applyWidth (FirstRelease.calculateHeaderWidth offsetWidth p (snd he)) <$> o
                 else o)
              l (tabElements (fst acc) !! h).
Proof.
  revert acc. induction l as [|he l IH]; intros acc; [reflexivity|].
  cbn [fold_left]. rewrite IH. f_equal.
  unfold FirstRelease.adjustHeader. cbn [fst snd]. apply update_header_lookup.
Qed.

Lemma first_fold_frame p l acc :
  let d := fst (fold_left (FirstRelease.adjustHeader offsetWidth p) l acc) in
  mainHeaders d = mainHeaders (fst acc) /\ rootStyle d = rootStyle (fst acc)
  /\ bodyClasses d = bodyClasses (fst acc).
Proof.
  cbv zeta. revert acc. induction l as [|he l IH]; intros acc; [now repeat split|].
  cbn [fold_left]. destruct (IH (FirstRelease.adjustHeader offsetWidth p acc he))
    as (H1 & H2 & H3).
  rewrite H1, H2, H3. now repeat split.
Qed.

Lemma first_fold_one p (l : list (HeaderId * Header)) h e (o : option Header) :
  (forall he, In he l -> fst he = h -> snd he = e) ->
  let f := FirstRelease.applyWidth (FirstRelease.calculateHeaderWidth offsetWidth p e) in
  fold_left (fun o he =>
               if decide (fst he = h)
               then FirstRelease.applyWidth (FirstRelease.calculateHeaderWidth offsetWidth p (snd he)) <$> o
               else o) l o
  = (if decide (h ∈ map fst l) then f <$> o else o)
  /\ fold_left (fun o he =>
               if decide (fst he = h)
               then FirstRelease.applyWidth (FirstRelease.calculateHeaderWidth offsetWidth p (snd he)) <$> o
               else o) l (f <$> o)
     = f <$> o.
Proof.
  cbv zeta. intros Hsame. revert o. induction l as [|he l IH]; intros o.
  - split; [|reflexivity]. cbn. case_decide; [|reflexivity]. exfalso. set_solver.
  - assert (Hl : forall he', In he' l -> fst he' = h -> snd he' = e)
      by (intros he' Hin; apply Hsame; now right).
    specialize (IH Hl). cbn [fold_left map].
    assert (Hff : forall o' : option Header,
               FirstRelease.applyWidth (FirstRelease.calculateHeaderWidth offsetWidth p e)
               <$> (FirstRelease.applyWidth (FirstRelease.calculateHeaderWidth offsetWidth p e) <$> o')
               = FirstRelease.applyWidth (FirstRelease.calculateHeaderWidth offsetWidth p e) <$> o').
    { intros [x|]; cbn; [|reflexivity]. f_equal. apply stamp_twice. }
    destruct (decide (fst he = h)) as [Heq|Hne].
    + rewrite (Hsame he (or_introl eq_refl) Heq). rewrite Hff.
      split; [|apply (IH o)]. rewrite (proj2 (IH o)).
      rewrite decide_True; [reflexivity|]. rewrite <- Heq. set_solver.
    + split; [|apply (IH o)]. rewrite (proj1 (IH o)).
      destruct (decide (h ∈ map fst l)) as [i|n].
      * rewrite decide_True; [reflexivity|]. set_solver.
      * rewrite decide_False; [reflexivity|]. set_solver.
Qed.

Lemma first_pass_lookup p (h : HeaderId) :
  tabElements (FirstRelease.page (FirstRelease.adjustAllHeaders offsetWidth p)) !! h
  = match tabElements (FirstRelease.page p) !! h with
    | Some e =>
        Some (if bool_decide (h ∈ mainHeaders (FirstRelease.page p))
              then FirstRelease.applyWidth
                     (FirstRelease.calculateHeaderWidth offsetWidth p e) e
              else e)
    | None => None
    end.
Proof.
  unfold FirstRelease.adjustAllHeaders. cbn [FirstRelease.page].
  rewrite first_fold_page. cbn [fst].
  assert (G : forall o : option Header,
             o = tabElements (FirstRelease.page p) !! h ->
             fold_left (fun o he =>
                 if decide (fst he = h)
                 then FirstRelease.applyWidth
                        (FirstRelease.calculateHeaderWidth offsetWidth p (snd he)) <$> o
                 else o) (FirstRelease.getAllHeaders p) o
             = match o with
               | Some e =>
                   Some (if bool_decide (h ∈ mainHeaders (FirstRelease.page p))
                         then FirstRelease.applyWidth
                                (FirstRelease.calculateHeaderWidth offsetWidth p e) e
                         else e)
               | None => None
               end).
  { intros [e|] E.
    - assert (Hsame : forall he, In he (FirstRelease.getAllHeaders p) ->
                                 fst he = h -> snd he = e).
      { intros [h' e'] Hin Heq. cbn [fst snd] in *. subst h'.
        apply first_in_getAllHeaders in Hin as [_ Hin].
        enough (Some e' = Some e) by congruence. rewrite <- Hin. now symmetry. }
      rewrite (proj1 (first_fold_one p (FirstRelease.getAllHeaders p) h e (Some e) Hsame)).
      destruct (decide (h ∈ map fst (FirstRelease.getAllHeaders p))) as [Hd|Hd].
      + rewrite bool_decide_true; [reflexivity|].
        apply list_elem_of_In in Hd. apply in_map_iff in Hd as ([h' e'] & <- & Hin).
        apply first_in_getAllHeaders in Hin as [Hin _]. now apply list_elem_of_In.
      + rewrite bool_decide_false; [reflexivity|]. intros Hin. apply Hd.
        apply list_elem_of_In, in_map_iff. exists (h, e). split; [reflexivity|].
        apply first_in_getAllHeaders. split; [now apply list_elem_of_In | now symmetry].
    - clear E. induction (FirstRelease.getAllHeaders p) as [|he l IH]; [reflexivity|].
      cbn [fold_left]. case_decide; exact IH. }
  now apply G.
Qed.

Lemma first_fold_cache p l acc :
  snd (fold_left (FirstRelease.adjustHeader offsetWidth p) l acc)
  = fold_left (fun m kw => <[fst kw := snd kw]> m)
              (map (fun he => (getHeaderKey (snd he),
                               FirstRelease.calculateHeaderWidth offsetWidth p (snd he))) l)
              (snd acc).
Proof.
  revert acc. induction l as [|he l IH]; intros acc; [reflexivity|].
  cbn [fold_left map]. now rewrite IH.
Qed.

Lemma fold_insert_some (l : list (string * number)) (m : gmap string number) k :
  is_Some (fold_left (fun m kw => <[fst kw := snd kw]> m) l m !! k)
  <-> In k (map fst l) \/ is_Some (m !! k).
Proof.
  revert m. induction l as [|kw l IH]; intros m.
  - cbn. tauto.
  - cbn [fold_left map In]. rewrite IH.
    destruct (decide (fst kw = k)) as [->|Hne].
    + rewrite lookup_insert_eq. split; intros _; [left; now left | right; eauto].
    + rewrite lookup_insert_ne by assumption. tauto.
Qed.

Lemma fold_insert_value (l : list (string * number)) (m : gmap string number) k w :
  fold_left (fun m kw => <[fst kw := snd kw]> m) l m !! k = Some w ->
  In (k, w) l \/ m !! k = Some w.
Proof.
  revert m. induction l as [|kw l IH]; intros m; [now right|].
  cbn [fold_left]. intros H. apply IH in H as [H|H]; [left; now right|].
  destruct (decide (fst kw = k)) as [<-|Hne].
  - rewrite lookup_insert_eq in H. injection H as <-. left. left. now destruct kw.
  - rewrite lookup_insert_ne in H by assumption. now right.
Qed.

Lemma first_getAllHeaders_pass p :
  FirstRelease.getAllHeaders (FirstRelease.adjustAllHeaders offsetWidth p)
  = map (fun he => (fst he,
                    FirstRelease.applyWidth (FirstRelease.calculateHeaderWidth offsetWidth p (snd he)) (snd he)))
        (FirstRelease.getAllHeaders p).
Proof.
  unfold FirstRelease.getAllHeaders.
  assert (Hm : mainHeaders (FirstRelease.page (FirstRelease.adjustAllHeaders offsetWidth p))
               = mainHeaders (FirstRelease.page p)).
  { unfold FirstRelease.adjustAllHeaders. cbn [FirstRelease.page].
    apply (first_fold_frame p (FirstRelease.getAllHeaders p) (FirstRelease.page p, ∅)). }
  rewrite Hm.
  assert (G : forall l, (forall h, In h l -> In h (mainHeaders (FirstRelease.page p))) ->
    omap (fun h => match tabElements (FirstRelease.page
                           (FirstRelease.adjustAllHeaders offsetWidth p)) !! h with
                   | Some e => Some (h, e) | None => None end) l
    = map (fun he => (fst he,
                      FirstRelease.applyWidth (FirstRelease.calculateHeaderWidth offsetWidth p (snd he)) (snd he)))
          (omap (fun h => match tabElements (FirstRelease.page p) !! h with
                          | Some e => Some (h, e) | None => None end) l)).
  { induction l as [|h l IH]; intros Hl; [reflexivity|].
    cbn [omap list_omap]. rewrite first_pass_lookup.
    assert (Hh : h ∈ mainHeaders (FirstRelease.page p))
      by (apply list_elem_of_In, Hl; now left).
    destruct (tabElements (FirstRelease.page p) !! h) as [e|].
    - rewrite bool_decide_true by assumption. cbn [map fst snd].
      f_equal. apply IH. intros h' Hin. apply Hl. now right.
    - apply IH. intros h' Hin. apply Hl. now right. }
  apply G. auto.
Qed.

Lemma first_pass_again p :
  let p' := FirstRelease.adjustAllHeaders offsetWidth p in
  FirstRelease.page (FirstRelease.adjustAllHeaders offsetWidth p') = FirstRelease.page p'
  /\ FirstRelease.tabWidthCache (FirstRelease.adjustAllHeaders offsetWidth p')
     = FirstRelease.tabWidthCache p'.
Proof.
  cbv zeta. split.
  - apply document_ext.
    + intros h. rewrite !first_pass_lookup.
      assert (Hm : mainHeaders (FirstRelease.page (FirstRelease.adjustAllHeaders offsetWidth p))
                   = mainHeaders (FirstRelease.page p)).
      { unfold FirstRelease.adjustAllHeaders. cbn [FirstRelease.page].
        apply (first_fold_frame p (FirstRelease.getAllHeaders p) (FirstRelease.page p, ∅)). }
      rewrite Hm.
      match goal with
      | |- context [@lookup ?K ?A ?M ?I ?k ?m] => destruct (@lookup K A M I k m) as [e|]
      end; [|reflexivity].
      case_bool_decide; [|reflexivity].
      f_equal.
      rewrite (first_calculate_ext p (FirstRelease.adjustAllHeaders offsetWidth p) e
                 (FirstRelease.applyWidth (FirstRelease.calculateHeaderWidth offsetWidth p e) e))
        by (try reflexivity; now destruct e).
      apply stamp_twice.
    + unfold FirstRelease.adjustAllHeaders at 1. cbn [FirstRelease.page].
      apply (first_fold_frame _ _ (_, ∅)).
    + unfold FirstRelease.adjustAllHeaders at 1. cbn [FirstRelease.page].
      apply (first_fold_frame _ _ (_, ∅)).
    + unfold FirstRelease.adjustAllHeaders at 1. cbn [FirstRelease.page].
      apply (first_fold_frame _ _ (_, ∅)).
  - unfold FirstRelease.adjustAllHeaders at 1 3. cbn [FirstRelease.tabWidthCache].
    rewrite !first_fold_cache. f_equal.
    rewrite first_getAllHeaders_pass, map_map. apply map_ext. intros [h e]. cbn [fst snd].
    rewrite stamp_key. f_equal.
Qed.

Lemma first_pass_cache p :
  FirstRelease.tabWidthCache (FirstRelease.adjustAllHeaders offsetWidth p)
  = fold_left (fun m kw => <[fst kw := snd kw]> m)
      (map (fun he => (getHeaderKey (snd he),
                       FirstRelease.calculateHeaderWidth offsetWidth p (snd he)))
           (FirstRelease.getAllHeaders p)) ∅.
Proof.
  unfold FirstRelease.adjustAllHeaders. cbn [FirstRelease.tabWidthCache].
  now rewrite first_fold_cache.
Qed.

Lemma first_pass_cached p k :
  is_Some (FirstRelease.tabWidthCache (FirstRelease.adjustAllHeaders offsetWidth p) !! k)
  <-> exists h e, In (h, e) (FirstRelease.getAllHeaders p) /\ getHeaderKey e = k.
Proof.
  rewrite first_pass_cache, fold_insert_some, map_map. cbn [fst].
  rewrite lookup_empty, in_map_iff. split.
  - intros [([h e] & Hk & Hin)|[x Hx]]; [eauto | discriminate].
  - intros (h & e & Hin & Hk). left. now exists (h, e).
Qed.

Lemma first_pass_ext q q' :
  FirstRelease.settings q' = FirstRelease.settings q ->
  FirstRelease.measureElement q' = FirstRelease.measureElement q ->
  FirstRelease.page q' = FirstRelease.page q ->
  FirstRelease.page (FirstRelease.adjustAllHeaders offsetWidth q')
  = FirstRelease.page (FirstRelease.adjustAllHeaders offsetWidth q)
  /\ FirstRelease.tabWidthCache (FirstRelease.adjustAllHeaders offsetWidth q')
     = FirstRelease.tabWidthCache (FirstRelease.adjustAllHeaders offsetWidth q).
Proof.
  destruct q, q'. cbn [FirstRelease.settings FirstRelease.measureElement FirstRelease.page].
  intros -> -> ->. now split.
Qed.

Lemma first_pass_keeps p :
  FirstRelease.settings (FirstRelease.adjustAllHeaders offsetWidth p)
  = FirstRelease.settings p
  /\ FirstRelease.measureElement (FirstRelease.adjustAllHeaders offsetWidth p)
     = FirstRelease.measureElement p
  /\ FirstRelease.queued (FirstRelease.adjustAllHeaders offsetWidth p)
     = FirstRelease.queued p
  /\ FirstRelease.adjustCalls (FirstRelease.adjustAllHeaders offsetWidth p)
     = S (FirstRelease.adjustCalls p).
Proof. now repeat split. Qed.

Lemma first_passes_iter m p :
  let q := Nat.iter m (FirstRelease.adjustAllHeaders offsetWidth) p in
  FirstRelease.settings q = FirstRelease.settings p
  /\ FirstRelease.measureElement q = FirstRelease.measureElement p
  /\ FirstRelease.queued q = FirstRelease.queued p
  /\ FirstRelease.adjustCalls q = (FirstRelease.adjustCalls p + m)%nat
  /\ ((0 < m)%nat ->
      FirstRelease.page q = FirstRelease.page (FirstRelease.adjustAllHeaders offsetWidth p)
      /\ FirstRelease.tabWidthCache q
         = FirstRelease.tabWidthCache (FirstRelease.adjustAllHeaders offsetWidth p)).
Proof.
  cbv zeta. induction m as [|m IH].
  - cbn [Nat.iter nat_rect]. split_all; auto; lia.
  - destruct IH as (I1 & I2 & I3 & I4 & I5).
    change (Nat.iter (S m) (FirstRelease.adjustAllHeaders offsetWidth) p)
      with (FirstRelease.adjustAllHeaders offsetWidth
              (Nat.iter m (FirstRelease.adjustAllHeaders offsetWidth) p)).
    destruct (first_pass_keeps (Nat.iter m (FirstRelease.adjustAllHeaders offsetWidth) p))
      as (K1 & K2 & K3 & K4).
    rewrite K1, K2, K3, K4, I1, I2, I3, I4. split_all; auto; try lia.
    intros _. destruct m as [|m]; [now split|].
    destruct I5 as [P1 P2]; [lia|].
    destruct (first_pass_keeps p) as (L1 & L2 & _).
    destruct (first_pass_ext (FirstRelease.adjustAllHeaders offsetWidth p)
                (Nat.iter (S m) (FirstRelease.adjustAllHeaders offsetWidth) p))
      as [E1 E2]; [congruence | congruence | assumption |].
    rewrite E1, E2. apply first_pass_again.
Qed.

(** X25 (first release, [adjustAllHeaders], [handleLayoutChange] and
    [handleFileOpen]): a pass of the first release measures every header
    that its selector matches, whatever the cache held: each ends with
    [autofit-tab] and the width just computed for it, and the new cache has
    exactly the titles of these headers, each with the width computed for a
    header of that title.  Other headers are not touched.  Right after a
    pass a layout change queues nothing.  A file-open looks its active
    header up in the whole document, so the header may lie outside the
    selector: it queues nothing if there is no active header or if its
    title is that of a header the selector matches, and queues a pass
    otherwise.  A second pass leaves the page and the cache as they are. *)
Theorem first_release_pass_measures_every_header (p : FirstRelease.Plugin) :
  let p' := FirstRelease.adjustAllHeaders offsetWidth p in
  (forall h e, In (h, e) (FirstRelease.getAllHeaders p) ->
     exists e', tabElements (FirstRelease.page p') !! h = Some e'
                /\ "autofit-tab" ∈ classList e'
                /\ headerWidth e'
                   = Some (Px (FirstRelease.calculateHeaderWidth offsetWidth p e))
                /\ titleElement e' = titleElement e)
  /\ (forall h : HeaderId, ~ In h (mainHeaders (FirstRelease.page p)) ->
        tabElements (FirstRelease.page p') !! h = tabElements (FirstRelease.page p) !! h)
  /\ (forall k, is_Some (FirstRelease.tabWidthCache p' !! k)
                <-> exists h e, In (h, e) (FirstRelease.getAllHeaders p)
                                /\ getHeaderKey e = k)
  /\ (forall k w, FirstRelease.tabWidthCache p' !! k = Some w ->
        exists h e, In (h, e) (FirstRelease.getAllHeaders p) /\ getHeaderKey e = k
                    /\ w = FirstRelease.calculateHeaderWidth offsetWidth p e)
  /\ FirstRelease.handleLayoutChange p' = p'
  /\ FirstRelease.handleFileOpen None p' = p'
  /\ (forall active : Header,
        (exists h e, In (h, e) (FirstRelease.getAllHeaders p)
                     /\ getHeaderKey e = getHeaderKey active) ->
        FirstRelease.handleFileOpen (Some active) p' = p')
  /\ (forall active : Header,
        ~ (exists h e, In (h, e) (FirstRelease.getAllHeaders p)
                       /\ getHeaderKey e = getHeaderKey active) ->
        FirstRelease.handleFileOpen (Some active) p'
        = FirstRelease.queueHeaderAdjustment p')
  /\ FirstRelease.page (FirstRelease.adjustAllHeaders offsetWidth p') = FirstRelease.page p'
  /\ FirstRelease.tabWidthCache (FirstRelease.adjustAllHeaders offsetWidth p')
     = FirstRelease.tabWidthCache p'.
Proof.
  cbv zeta.
  assert (Hkeys : forall h e',
            In (h, e') (FirstRelease.getAllHeaders
                          (FirstRelease.adjustAllHeaders offsetWidth p)) ->
            is_Some (FirstRelease.tabWidthCache
                       (FirstRelease.adjustAllHeaders offsetWidth p) !! getHeaderKey e')).
  { intros h e' Hin. rewrite first_getAllHeaders_pass in Hin.
    apply in_map_iff in Hin as ([h0 e] & Heq & Hin). cbn [fst snd] in Heq.
    injection Heq as -> <-. rewrite stamp_key. apply first_pass_cached. eauto. }
  split_all.
  - intros h e Hin. apply first_in_getAllHeaders in Hin as [Hmain Hget].
    rewrite first_pass_lookup.
    match goal with
    | |- context [@lookup ?K ?A ?M ?I ?k ?m] =>
        replace (@lookup K A M I k m) with (Some e) by (symmetry; exact Hget)
    end.
    rewrite bool_decide_true by now apply list_elem_of_In.
    eexists. split; [reflexivity|]. destruct e. unfold FirstRelease.applyWidth.
    header_eval. split_all; auto. apply in_add_same.
  - intros h Hn. rewrite first_pass_lookup.
    match goal with
    | |- context [@lookup ?K ?A ?M ?I ?k ?m] => destruct (@lookup K A M I k m) as [e|]
    end; [|reflexivity].
    rewrite bool_decide_false; [reflexivity|]. now rewrite list_elem_of_In.
  - intros k. apply first_pass_cached.
  - intros k w Hk. rewrite first_pass_cache in Hk.
    apply fold_insert_value in Hk as [Hin|Hk]; [|now rewrite lookup_empty in Hk].
    apply in_map_iff in Hin as ([h e] & Heq & Hin). cbn [fst snd] in Heq.
    injection Heq as <- <-. eauto.
  - unfold FirstRelease.handleLayoutChange. cbv zeta.
    match goal with
    | |- (if ?b then _ else _) = _ => replace b with false; [reflexivity|]
    end.
    symmetry. apply not_true_is_false. intros Hex.
    apply existsb_exists in Hex as ([h e'] & Hin & Hno). cbn [snd] in Hno.
    apply negb_true_iff, bool_decide_eq_false in Hno. apply Hno. eapply Hkeys, Hin.
  - reflexivity.
  - intros active Hex. unfold FirstRelease.handleFileOpen.
    rewrite bool_decide_true by (now apply first_pass_cached). reflexivity.
  - intros active Hex. unfold FirstRelease.handleFileOpen.
    rewrite bool_decide_false; [reflexivity|].
    intros Hs. apply Hex. now apply first_pass_cached.
  - apply first_pass_again.
  - apply first_pass_again.
Qed.

(** X26 (first release, [queueHeaderAdjustment]): the first release queues
    one frame callback per call, and the next frame runs a pass for each of
    them; the page and the cache after these passes are those after a
    single pass. *)
Theorem first_release_runs_a_pass_per_call (p : FirstRelease.Plugin) (n : nat) :
  let p' := FirstRelease.runFrame offsetWidth
              (Nat.iter n FirstRelease.queueHeaderAdjustment p) in
  FirstRelease.adjustCalls p'
  = (FirstRelease.adjustCalls p + (FirstRelease.queued p + n))%nat
  /\ FirstRelease.queued p' = 0%nat
  /\ FirstRelease.settings p' = FirstRelease.settings p
  /\ ((0 < FirstRelease.queued p + n)%nat ->
      FirstRelease.page p' = FirstRelease.page (FirstRelease.adjustAllHeaders offsetWidth p)
      /\ FirstRelease.tabWidthCache p'
         = FirstRelease.tabWidthCache (FirstRelease.adjustAllHeaders offsetWidth p)).
Proof.
  cbv zeta.
  assert (Hq : Nat.iter n FirstRelease.queueHeaderAdjustment p
               = FirstRelease.mkPlugin (FirstRelease.settings p) (FirstRelease.tabWidthCache p)
                   (FirstRelease.measureElement p) (FirstRelease.page p)
                   (FirstRelease.queued p + n) (FirstRelease.adjustCalls p)).
  { induction n as [|n IH].
    - cbn [Nat.iter nat_rect]. rewrite Nat.add_0_r. now destruct p.
    - change (Nat.iter (S n) FirstRelease.queueHeaderAdjustment p)
        with (FirstRelease.queueHeaderAdjustment
                (Nat.iter n FirstRelease.queueHeaderAdjustment p)).
      rewrite IH. unfold FirstRelease.queueHeaderAdjustment.
      cbn [FirstRelease.settings FirstRelease.tabWidthCache FirstRelease.measureElement
           FirstRelease.page FirstRelease.queued FirstRelease.adjustCalls].
      f_equal. lia. }
  rewrite Hq. unfold FirstRelease.runFrame.
  cbn [FirstRelease.settings FirstRelease.tabWidthCache FirstRelease.measureElement
       FirstRelease.page FirstRelease.queued FirstRelease.adjustCalls].
  destruct (first_passes_iter (FirstRelease.queued p + n)
              (FirstRelease.mkPlugin (FirstRelease.settings p) (FirstRelease.tabWidthCache p)
                 (FirstRelease.measureElement p) (FirstRelease.page p) 0
                 (FirstRelease.adjustCalls p))) as (I1 & I2 & I3 & I4 & I5).
  cbv zeta in I1, I2, I3, I4, I5.
  rewrite I1, I3, I4. split_all; auto.
Qed.

End FirstPass.

(** ** The prototype: a short title can get the wider tab *)

(** X27 (prototype, [calculateHeaderWidth]): with finite paddings and a
    minimum width below the content width, a title whose text is narrower
    than 20 pixels gets a strictly wider tab than a title whose text is at
    least 20 pixels wide but less than 10 pixels wider. *)
Theorem prototype_short_title_gets_wider_tab
        (offsetWidth : string -> string -> N) (s : Prototype.PluginSettings)
        (ea eb : Header) (ta tb : TitleElement) :
  titleElement ea = Some ta -> titleElement eb = Some tb ->
  JSMath.isFinite (Prototype.leftPadding s) = true ->
  JSMath.isFinite (Prototype.iconRightMargin s) = true ->
  JSMath.isFinite (Prototype.closeButtonPadding s) = true ->
  JSMath.isFinite (Prototype.closeButtonWidth s) = true ->
  JS.lt (Prototype.textWidthOf offsetWidth ta) (JS.of_Z 20) = true ->
  JS.le (JS.of_Z 20) (Prototype.textWidthOf offsetWidth tb) = true ->
  JS.lt (Prototype.textWidthOf offsetWidth tb)
        (JS.add (Prototype.textWidthOf offsetWidth ta) (JS.of_Z 10)) = true ->
  JS.lt (Prototype.minWidth s)
        (Prototype.contentWidth s (Prototype.textWidthOf offsetWidth ta)) = true ->
  JS.lt (Prototype.calculateHeaderWidth offsetWidth s eb)
        (Prototype.calculateHeaderWidth offsetWidth s ea) = true.
Proof.
  intros Ha Hb. unfold Prototype.calculateHeaderWidth. rewrite Ha, Hb.
  unfold Prototype.contentWidth, Prototype.textWidthOf.
  generalize (Z.of_N (offsetWidth (font (titleStyle ta)) (textContent ta))).
  generalize (Z.of_N (offsetWidth (font (titleStyle tb)) (textContent tb))).
  intros wb wa.
  destruct s as [mn cbw lp irm cbp td].
  cbn [Prototype.minWidth Prototype.closeButtonWidth Prototype.leftPadding
       Prototype.iconRightMargin Prototype.closeButtonPadding].
  destruct lp as [| |lp|], irm as [| |irm|], cbp as [| |cbp|], cbw as [| |cbw|];
    try discriminate.
  intros _ _ _ _ H1 H2 H3. rewrite H1.
  assert (H2' : JS.lt (JS.of_Z wb) (JS.of_Z 20) = false).
  { revert H2. unfold JS.of_Z. cbn [JS.le JS.lt]. intros H. now rewrite H. }
  rewrite H2'.
  revert H1 H2 H3. unfold JS.of_Z. cbn [JS.le JS.lt JS.add].
  change (inject_Z 20) with 20%Q. change (inject_Z 10) with 10%Q.
  change (inject_Z 0) with 0%Q.
  intros H1 H2 H3 H4.
  destruct mn as [| |mn|]; cbn [JS.lt] in H4; try discriminate.
  - cbn [JS.max JS.le JS.lt]. qbool.
    apply not_true_is_false. intros E. apply Qle_bool_iff in E. lra.
  - cbn [JS.max JS.le JS.lt].
    destruct (Qle_bool _ mn) eqn:E1; destruct (Qle_bool _ mn) eqn:E2 in |- *;
      cbn [JS.lt]; qbool; try lra;
      apply not_true_is_false; intros E; apply Qle_bool_iff in E; lra.
Qed.

(** ** What the plugin leaves to the host, over all its entry points *)

Section HostViewAll.

Lemma markTab_view r d t : host_view_kept d (Visibility.markTab r d t).
Proof.
  unfold Visibility.markTab.
  destruct (tabElements d !! fst t) as [e|]; [|apply host_view_refl].
  destruct (classList_contains "autofit-tab" e); [|apply host_view_refl].
  destruct (Visibility.isOutOfView (snd t) r); apply update_header_view; intros e0.
  - apply host_same_add. cbn. tauto.
  - apply host_same_remove; [cbn; tauto | discriminate].
Qed.

Lemma fold_view {A} (f : Document -> A -> Document) (l : list A) d :
  (forall d0 a, host_view_kept d0 (f d0 a)) -> host_view_kept d (fold_left f l d).
Proof.
  intros H. revert d. induction l as [|a l IH]; intros d; [apply host_view_refl|].
  cbn [fold_left]. eapply host_view_trans; [apply H | apply IH].
Qed.

Lemma visibility_hosted containers st :
  hosted st (Visibility.updateTabsVisibility containers st).
Proof.
  unfold Visibility.updateTabsVisibility.
  destruct (isResetting st); [apply hosted_refl|].
  unfold hosted. state_eval. apply fold_view. intros d0 c.
  apply fold_view. intros d1 t. apply markTab_view.
Qed.

Lemma iconObserverRecord_hosted st m : hosted st (iconObserverRecord st m).
Proof.
  unfold iconObserverRecord.
  destruct (onIcon m); [|apply hosted_refl].
  destruct (parentTab m) as [h|]; [|apply hosted_refl].
  destruct (get_header h st) as [e|]; [|apply hosted_refl].
  destruct (negb _); [|apply hosted_refl].
  unfold hosted. state_eval. apply update_header_view. intros e0.
  apply host_same_add. cbn. tauto.
Qed.

Lemma iconObserverCallback_hosted mutations st :
  hosted st (iconObserverCallback mutations st).
Proof. apply fold_hosted. intros s m. apply iconObserverRecord_hosted. Qed.

Lemma iconTimer_hosted h st : hosted st (iconTimer h st).
Proof.
  unfold iconTimer, hosted. state_eval. apply update_header_view. intros e.
  apply host_same_remove; [cbn; tauto | discriminate].
Qed.

Lemma host_same_cleanupHeader e : host_same e (Unload.cleanupHeader e).
Proof.
  unfold Unload.cleanupHeader.
  eapply host_same_trans; [|apply host_same_width].
  eapply host_same_trans; [|apply host_same_remove; [cbn; tauto | discriminate]].
  eapply host_same_trans; [|apply host_same_remove; [cbn; tauto | discriminate]].
  eapply host_same_trans; [|apply host_same_remove; [cbn; tauto | discriminate]].
  apply host_same_add. cbn. tauto.
Qed.

Lemma cleanup_hosted page st : hosted st (snd (fst (Unload.cleanup page st))).
Proof.
  unfold Unload.cleanup. cbv zeta. cbn [fst snd]. unfold hosted. state_eval.
  apply forEach_header_view, host_same_cleanupHeader.
Qed.

Lemma cleanupTimer_hosted h st : hosted st (Unload.cleanupTimer h st).
Proof.
  unfold Unload.cleanupTimer, hosted. state_eval. apply update_header_view. intros e.
  apply host_same_remove; [cbn; tauto | discriminate].
Qed.

Variable offsetWidth : ComputedStyle -> string -> N.
Variable Number : string -> number.

Lemma stepAll_hosted st ev :
  ownEvent ev -> hosted st (stepAll offsetWidth Number st ev).
Proof.
  intros Hev. destruct ev; cbn [stepAll].
  - now apply step_hosted.
  - apply visibility_hosted.
  - apply iconObserverCallback_hosted.
  - apply iconTimer_hosted.
  - apply cleanup_hosted.
  - apply cleanupTimer_hosted.
Qed.

(** X12.  As long as the host does not rebuild its tab strip, no sequence
    of the plugin's callbacks creates, removes or reorders a tab header,
    changes a title, the pin marker, the data type or the visibility of the
    container, or adds or removes a class other than the plugin's own six
    ([autofit-tab], [autofit-max-width], [autofit-cleanup],
    [autofit-closing], [out-of-view], [icon-transition]); and a header that
    carries [autofit-closing] keeps it: no callback ever takes that class
    off.  The callbacks are those of the event loop and, each at any time
    and with any layout or argument, [updateTabsVisibility], the icon
    observer, the timer it arms, [cleanup] and the timer it arms. *)
Theorem plugin_touches_only_its_own_marks (st : State) (evs : list PluginEvent) :
  Forall ownEvent evs ->
  let st' := runAll offsetWidth Number evs st in
  mainHeaders (document st') = mainHeaders (document st)
  /\ forall h,
       match get_header h st, get_header h st' with
       | Some e, Some e' =>
           titleElement e' = titleElement e
           /\ pinnedIcon e' = pinnedIcon e
           /\ dataType e' = dataType e
           /\ containerDisplayed e' = containerDisplayed e
           /\ (forall c, ~ In c pluginClasses ->
                         ((c ∈ classList e') <-> (c ∈ classList e)))
           /\ (("autofit-closing" ∈ classList e) -> ("autofit-closing" ∈ classList e'))
       | None, None => True
       | _, _ => False
       end.
Proof.
  intros Hevs. cbv zeta.
  assert (H : hosted st (runAll offsetWidth Number evs st)).
  { revert st. induction Hevs as [|ev evs Hev _ IH]; intros st; [apply hosted_refl|].
    unfold runAll. cbn [fold_left].
    eapply hosted_trans; [apply stepAll_hosted; exact Hev | apply IH]. }
  exact H.
Qed.

End HostViewAll.

(** ** More concrete runs *)

Module MoreRuns.
Import Sample.

(** *** The event loop *)

Lemma X1_witness :
  let st := fresh DEFAULT_SETTINGS twoTabs in
  let st' := events [EvFrame; EvLayoutChange; EvFrame; EvFrame] (initialize st) in
  settings_valid (settings st) = true /\ tabWidthCache st = ∅
  /\ frames st = [] /\ isAdjustmentQueued st = false
  /\ settings_valid (settings st') = true
  /\ (forall k w, tabWidthCache st' !! k = Some w -> JS.valid w = true)
  /\ length (List.filter isAdjustFrame (frames st'))
     = if isAdjustmentQueued st' then 1%nat else 0%nat.
Proof.
  cbv zeta. split; [reflexivity|]. split; [reflexivity|].
  split; [reflexivity|]. split; [reflexivity|].
  exact (reachable_states_stay_consistent offsetWidth Number
           (fresh DEFAULT_SETTINGS twoTabs)
           [EvFrame; EvLayoutChange; EvFrame; EvFrame]
           eq_refl eq_refl eq_refl eq_refl).
Defined.

(** The maximum is set to 200 and then to 0 before the first save has
    completed: the first save resumes with 200 as its previous maximum. *)
Lemma X3_witness :
  let st := events [EvInput PMaxWidth "200"; EvInput PMaxWidth "0"]
                   (loaded DEFAULT_SETTINGS twoTabs) in
  let st' := step offsetWidth Number st (EvSaveDone 0) in
  pendingSaves st !! 0%nat = Some (JS.of_Z 200)
  /\ isResetting st' = true /\ tabWidthCache st' = ∅ /\ frames st' = frames st.
Proof.
  cbv zeta.
  assert (Hp : pendingSaves (events [EvInput PMaxWidth "200"; EvInput PMaxWidth "0"]
                                    (loaded DEFAULT_SETTINGS twoTabs)) !! 0%nat
               = Some (JS.of_Z 200)) by (vm_compute; reflexivity).
  split; [exact Hp|].
  destruct (pending_save_resets_once_maximum_is_zero offsetWidth Number _ 0%nat
              (JS.of_Z 200) Hp) as [Hreset _].
  cbv zeta in Hreset.
  destruct Hreset as (H1 & H2 & _ & H4 & _); [vm_compute; reflexivity|].
  split; [exact H1|]. split; [exact H2|]. exact H4.
Defined.

(** A record of a change below a main-area tab header. *)
Lemma X7_witness :
  let mutations := [mkMutation false true true true false] in
  let st := loaded DEFAULT_SETTINGS twoTabs in
  forallb bodyOutsideMainArea mutations = true
  /\ tabWidthCache (observerCallback mutations false st) = tabWidthCache st.
Proof.
  cbv zeta. split; [reflexivity|].
  exact (proj1 (observer_never_clears_the_cache
                  [mkMutation false true true true false]
                  (loaded DEFAULT_SETTINGS twoTabs) eq_refl)).
Defined.

Lemma X9_witness :
  let st := loaded DEFAULT_SETTINGS twoTabs in
  let st' := events [EvFrame; EvCloseClick true (Some 0%nat)] st in
  close_consistent st /\ close_consistent st'.
Proof.
  cbv zeta.
  assert (H : close_consistent (loaded DEFAULT_SETTINGS twoTabs)) by reflexivity.
  split; [exact H|].
  exact (proj1 (closing_flag_always_has_its_timer offsetWidth Number
                  (loaded DEFAULT_SETTINGS twoTabs)
                  [EvFrame; EvCloseClick true (Some 0%nat)] H)).
Defined.

Lemma X12_witness :
  let st := loaded DEFAULT_SETTINGS twoTabs in
  let evs := [Core EvFrame; Core EvFrame; Core EvFrame;
              EvVisibility
                [Visibility.mkContainer (Visibility.mkRect (JS.of_Z 0) (JS.of_Z 400))
                   [(0%nat, Visibility.mkRect (JS.of_Z 10) (JS.of_Z 120));
                    (1%nat, Visibility.mkRect (JS.of_Z 450) (JS.of_Z 640))]];
              EvIconMutations [mkIconMutation true (Some 1%nat)];
              Core (EvCloseClick true (Some 0%nat));
              EvIconTimer 1%nat] in
  Forall ownEvent evs
  /\ mainHeaders (document (runAll offsetWidth Number evs st)) = mainHeaders (document st).
Proof.
  cbv zeta.
  assert (H : Forall ownEvent
                [Core EvFrame; Core EvFrame; Core EvFrame;
                 EvVisibility
                   [Visibility.mkContainer (Visibility.mkRect (JS.of_Z 0) (JS.of_Z 400))
                      [(0%nat, Visibility.mkRect (JS.of_Z 10) (JS.of_Z 120));
                       (1%nat, Visibility.mkRect (JS.of_Z 450) (JS.of_Z 640))]];
                 EvIconMutations [mkIconMutation true (Some 1%nat)];
                 Core (EvCloseClick true (Some 0%nat));
                 EvIconTimer 1%nat])
    by (repeat constructor).
  split; [exact H|].
  exact (proj1 (plugin_touches_only_its_own_marks offsetWidth Number
                  (loaded DEFAULT_SETTINGS twoTabs) _ H)).
Defined.

Lemma X14_witness :
  let st := events [EvFrame] (loaded DEFAULT_SETTINGS twoTabs) in
  let st' := events [EvFrame; EvFrame] st in
  frames st = [AdjustFrame] /\ closeInProgress st = false /\ isResetting st = false
  /\ document st' = document (recalculationPass offsetWidth st)
  /\ tabWidthCache st' = tabWidthCache (recalculationPass offsetWidth st)
  /\ List.filter isAdjustFrame (frames st') = []
  /\ writesOf (frames st') = []
  /\ isAdjustmentQueued st' = false.
Proof.
  cbv zeta.
  assert (H1 : frames (events [EvFrame] (loaded DEFAULT_SETTINGS twoTabs)) = [AdjustFrame])
    by (vm_compute; reflexivity).
  assert (H2 : closeInProgress (events [EvFrame] (loaded DEFAULT_SETTINGS twoTabs)) = false)
    by (vm_compute; reflexivity).
  assert (H3 : isResetting (events [EvFrame] (loaded DEFAULT_SETTINGS twoTabs)) = false)
    by (vm_compute; reflexivity).
  split; [exact H1|]. split; [exact H2|]. split; [exact H3|].
  exact (queued_pass_runs_in_two_frames offsetWidth Number _ H1 H2 H3).
Defined.

(** *** The width calculator *)

(** The left padding is raised from 12 to 20. *)
Lemma X15_witness :
  let st := loaded DEFAULT_SETTINGS twoTabs in
  let st' := loaded (set_prop PLeftPadding (JS.of_Z 20) DEFAULT_SETTINGS) twoTabs in
  settings_valid (settings st) = true /\ settings_valid (settings st') = true
  /\ JS.le (leftPadding (settings st)) (leftPadding (settings st')) = true
  /\ JS.le (calculateHeaderWidth offsetWidth st (tab "Note1" ∅))
           (calculateHeaderWidth offsetWidth st' (tab "Note1" ∅)) = true.
Proof.
  cbv zeta. split; [reflexivity|]. split; [reflexivity|]. split; [reflexivity|].
  exact (width_grows_with_the_settings offsetWidth
           (loaded DEFAULT_SETTINGS twoTabs)
           (loaded (set_prop PLeftPadding (JS.of_Z 20) DEFAULT_SETTINGS) twoTabs)
           (tab "Note1" ∅)
           eq_refl eq_refl eq_refl eq_refl eq_refl eq_refl eq_refl eq_refl eq_refl eq_refl).
Defined.

(** A minimum of 40 and a maximum of 30. *)
Lemma X16_witness :
  let st := loaded (withMinMax 40 30) twoTabs in
  settings_valid (settings st) = true
  /\ JS.gt (maxWidth (settings st)) JS.zero = true
  /\ JS.le (maxWidth (settings st)) (minWidth (settings st)) = true
  /\ JS.strict_eq (calculateHeaderWidth offsetWidth st (tab "A rather long title" ∅))
                  (JS.of_Z 30) = true.
Proof.
  cbv zeta. split; [reflexivity|]. split; [reflexivity|]. split; [reflexivity|].
  exact (maximum_below_minimum_wins offsetWidth (loaded (withMinMax 40 30) twoTabs)
           (tab "A rather long title" ∅) (mkTitle "A rather long title" plain)
           eq_refl eq_refl eq_refl eq_refl).
Defined.

Lemma X17_witness :
  Legacy.settings_valid Legacy.DEFAULT_SETTINGS = true
  /\ JS.gt (Legacy.maxWidth Legacy.DEFAULT_SETTINGS) JS.zero = false
  /\ JS.ge (Legacy.calculateHeaderWidth offsetWidth Legacy.DEFAULT_SETTINGS true
              (tab "Note1" ∅))
           (Legacy.minWidth Legacy.DEFAULT_SETTINGS) = true.
Proof.
  split; [reflexivity|]. split; [reflexivity|].
  exact (proj1 (earlier_revision_width_within_bounds offsetWidth
                  Legacy.DEFAULT_SETTINGS true (tab "Note1" ∅)
                  eq_refl (or_introl eq_refl))).
Defined.

(** Three calls before the next frame. *)
Lemma X18_witness :
  let q := Legacy.mkQueue false 0 0 in
  let q' := Nat.iter 3 Legacy.queueHeaderAdjustment q in
  Legacy.isAdjustmentQueued q = false /\ Legacy.queued q = 0%nat
  /\ Legacy.queued q' = 1%nat
  /\ Legacy.adjustCalls (Legacy.runFrame q') = 1%nat
  /\ Legacy.isAdjustmentQueued (Legacy.runFrame q') = false.
Proof.
  cbv zeta. split; [reflexivity|]. split; [reflexivity|].
  exact (earlier_revision_calls_coalesce (Legacy.mkQueue false 0 0) 2 eq_refl eq_refl).
Defined.

(** *** Scrolling *)

Lemma X19_witness :
  (0 <= 1 # 4)%Q /\ (1 # 4 <= 3 # 4)%Q /\ (3 # 4 <= 1)%Q
  /\ JS.le (Scroll.easeInOutQuad (JS.Fin (1 # 4)))
           (Scroll.easeInOutQuad (JS.Fin (3 # 4))) = true.
Proof.
  assert (H1 : (0 <= 1 # 4)%Q) by (unfold Qle; simpl; lia).
  assert (H2 : (1 # 4 <= 3 # 4)%Q) by (unfold Qle; simpl; lia).
  assert (H3 : (3 # 4 <= 1)%Q) by (unfold Qle; simpl; lia).
  split; [exact H1|]. split; [exact H2|]. split; [exact H3|].
  exact (proj1 (proj2 (proj2 (proj2
           (easing_rises_from_zero_to_one (1 # 4) (3 # 4) H1 H2 H3))))).
Defined.

(** A scroll from 0 to 100 that starts at 1000 ms and lasts 300 ms, with
    frames at 1016, 1150, 1300 and 1316 ms: the frame at 1300 ms is the last
    one. *)
Lemma X20_witness :
  (0 < 300)%Q
  /\ Forall (fun u => (u < 1000 + 300)%Q) [1016%Q; 1150%Q]
  /\ (1000 + 300 <= 1300)%Q
  /\ exists values last,
       Scroll.smoothScrollTo (JS.Fin 0) (JS.Fin 100) (JS.Fin 300) (JS.Fin 1000)
                             (map JS.Fin ([1016%Q; 1150%Q] ++ 1300%Q :: [1316%Q]))
       = (values ++ [last])%list
       /\ length values = 2%nat
       /\ JS.strict_eq last (JS.Fin 100) = true.
Proof.
  assert (H1 : (0 < 300)%Q) by reflexivity.
  assert (H2 : Forall (fun u => (u < 1000 + 300)%Q) [1016%Q; 1150%Q])
    by (repeat constructor).
  assert (H3 : (1000 + 300 <= 1300)%Q) by (unfold Qle; simpl; lia).
  split; [exact H1|]. split; [exact H2|]. split; [exact H3|].
  destruct (scroll_animation_ends_on_the_target 0 100 300 1000 [1016%Q; 1150%Q] 1300
              [1316%Q] H1 H2 H3) as (values & last & E & Hlen & Hlast & _).
  exists values, last. split; [exact E|]. split; [exact Hlen|]. exact Hlast.
Defined.

(** A tab from 500 to 600 in a strip that shows 0 to 400. *)
Lemma X21_witness :
  let target :=
    JS.max (JS.of_Z 0)
           (JSMath.sub (JS.add (JS.of_Z 500) (JSMath.div (JS.of_Z 100) (JS.of_Z 2)))
                       (JSMath.div (JS.of_Z 400) (JS.of_Z 2))) in
  (0 <= 500 < 2 ^ 50)%Z /\ (0 <= 100 <= 400)%Z /\ (400 < 2 ^ 50)%Z /\ (0 <= 0 < 2 ^ 50)%Z
  /\ Scroll.scroll (Scroll.scrollToActiveTab DEFAULT_SETTINGS
       (Scroll.mkActiveTab true
          (Some (Scroll.mkContainer (JS.of_Z 0) (JS.of_Z 400)))
          (JS.of_Z 500) (JS.of_Z 100)))
     = Some (JS.of_Z 0, target, JS.of_Z 300)
  /\ JS.strict_eq target (JS.of_Z 350) = true
  /\ Scroll.scroll (Scroll.scrollToActiveTab DEFAULT_SETTINGS
       (Scroll.mkActiveTab true (Some (Scroll.mkContainer target (JS.of_Z 400)))
                           (JS.of_Z 500) (JS.of_Z 100)))
     = None.
Proof.
  cbv zeta.
  assert (H1 : (0 <= 500 < 2 ^ 50)%Z) by lia.
  assert (H2 : (0 <= 100 <= 400)%Z) by lia.
  assert (H3 : (400 < 2 ^ 50)%Z) by lia.
  assert (H4 : (0 <= 0 < 2 ^ 50)%Z) by lia.
  split; [exact H1|]. split; [exact H2|]. split; [exact H3|]. split; [exact H4|].
  split; [reflexivity|]. split; [reflexivity|].
  exact (proj2 (proj2 (proj2
           (scrolled_tab_is_fully_visible DEFAULT_SETTINGS 500 100 0 400 _ _ _
              H1 H2 H3 H4 eq_refl)))).
Defined.

(** *** Visibility and unloading *)

(** A strip that shows 0 to 400, with one tab inside and one to the right
    of it. *)
Lemma X22_witness :
  let containers :=
    [Visibility.mkContainer (Visibility.mkRect (JS.of_Z 0) (JS.of_Z 400))
       [(0%nat, Visibility.mkRect (JS.of_Z 10) (JS.of_Z 120));
        (1%nat, Visibility.mkRect (JS.of_Z 450) (JS.of_Z 640))]] in
  let st := started DEFAULT_SETTINGS twoTabs in
  let st' := Visibility.updateTabsVisibility containers st in
  isResetting st = false /\ NoDup (Visibility.visitedTabs containers)
  /\ Visibility.updateTabsVisibility containers st' = st'.
Proof.
  cbv zeta.
  assert (H1 : isResetting (started DEFAULT_SETTINGS twoTabs) = false)
    by (vm_compute; reflexivity).
  assert (H2 : NoDup (Visibility.visitedTabs
                        [Visibility.mkContainer
                           (Visibility.mkRect (JS.of_Z 0) (JS.of_Z 400))
                           [(0%nat, Visibility.mkRect (JS.of_Z 10) (JS.of_Z 120));
                            (1%nat, Visibility.mkRect (JS.of_Z 450) (JS.of_Z 640))]]))
    by (apply Runs.nodup_decide; vm_compute; reflexivity).
  split; [exact H1|]. split; [exact H2|].
  exact (proj2 (proj2 (proj2 (proj2 (proj2 (proj2
           (out_of_view_marks_follow_the_layout _ _ H1 H2))))))).
Defined.

Lemma X24_witness :
  let page := Unload.mkPage (Some true) (Some true) true (Some true) [] in
  let st := events [EvFrame] (loaded DEFAULT_SETTINGS twoTabs) in
  let st' := snd (fst (Unload.cleanup page st)) in
  frames st = [AdjustFrame] /\ closeInProgress st = false /\ isResetting st = false
  /\ frames st' = [AdjustFrame].
Proof.
  cbv zeta.
  assert (H1 : frames (events [EvFrame] (loaded DEFAULT_SETTINGS twoTabs)) = [AdjustFrame])
    by (vm_compute; reflexivity).
  assert (H2 : closeInProgress (events [EvFrame] (loaded DEFAULT_SETTINGS twoTabs)) = false)
    by (vm_compute; reflexivity).
  assert (H3 : isResetting (events [EvFrame] (loaded DEFAULT_SETTINGS twoTabs)) = false)
    by (vm_compute; reflexivity).
  split; [exact H1|]. split; [exact H2|]. split; [exact H3|].
  exact (proj1 (unload_does_not_cancel_a_queued_pass offsetWidth Number
                  (Unload.mkPage (Some true) (Some true) true (Some true) [])
                  _ H1 H2 H3)).
Defined.

(** *** The prototype *)

(** "abc" renders 18 pixels wide and gets 98; "abcd" renders 24 pixels wide
    and gets 94. *)
Lemma X27_witness :
  let ea := tab "abc" ∅ in
  let eb := tab "abcd" ∅ in
  Prototype.calculateHeaderWidth fontProbe Prototype.DEFAULT_SETTINGS ea = JS.of_Z 98
  /\ Prototype.calculateHeaderWidth fontProbe Prototype.DEFAULT_SETTINGS eb = JS.of_Z 94
  /\ JS.lt (Prototype.calculateHeaderWidth fontProbe Prototype.DEFAULT_SETTINGS eb)
           (Prototype.calculateHeaderWidth fontProbe Prototype.DEFAULT_SETTINGS ea) = true.
Proof.
  cbv zeta. split; [vm_compute; reflexivity|]. split; [vm_compute; reflexivity|].
  exact (prototype_short_title_gets_wider_tab fontProbe Prototype.DEFAULT_SETTINGS
           (tab "abc" ∅) (tab "abcd" ∅) (mkTitle "abc" plain) (mkTitle "abcd" plain)
           eq_refl eq_refl eq_refl eq_refl eq_refl eq_refl
           eq_refl eq_refl eq_refl eq_refl).
Defined.

End MoreRuns.
